(* ===== verification/_CoqProject ===== *)
-Q . S2P
Prelude.v
GoRuntime.v
Slices.v
Types.v
Messages.v
Config.v
Mdbx.v
Database.v
BatchWriter.v
WriterSpec.v
WriterCorrect.v
MultiWriter.v
Held.v
Handlers.v
Servers.v
EndToEnd.v
Lifecycle.v
Restart.v
RestartStop.v
RestartSim.v
QuicLifecycle.v
Fdb.v
Serve.v
ServeSound.v
System.v
Service.v
ServiceReads.v
ServiceSettle.v
Register.v
Crash.v
Client.v
ClientTcp.v
Session.v
Files.v
Float64.v
Benchmark.v
BenchClients.v
Suites.v
Ebpf.v
Pem.v
Certs.v
Program.v
Observability.v
Witnesses.v
RestartWitnesses.v
ServeWitnesses.v
BenchWitnesses.v
ToolWitnesses.v
ProgramWitnesses.v
