(* ===== verification/Prelude.v ===== *)
(** * A verification of fdb, the unpackdev key-value service

    fdb accepts write and read messages over TCP, UDP, Unix sockets and QUIC,
    queues writes in a batch writer whose worker goroutines store them in an MDBX
    database, and answers reads from that database. Around the service there is a
    client library, a benchmark that drives it, and commands that make certificates
    and load an XDP program. This library models the Go code under [src/] and proves
    what it does.

    ** The program and the files that model it

    Foundations:
    - [Prelude]: notations, hint databases, tactics and list lemmas shared by all.
    - [GoRuntime]: Go computations as functions from a state to an [outcome]: done,
      panicked, or blocked; fixed-width integers with their wrap-around; errors.
    - [Slices]: byte slices over a heap of buffers, with aliasing, bounds panics and
      the big-endian codec of [encoding/binary].
    - [Float64]: the binary64 operations and conversions the report uses.
    - [Pem]: base64 and PEM blocks, with a decoder as specification.

    The service:
    - [Types] ([types/types.go]), [Messages] ([messages/message.go]): the enumerations
      and the wire message, with its format [wire] / [parse_wire] as specification.
    - [Config] ([config/]): configuration, lookups, TLS loading, YAML.
    - [Mdbx]: the mdbx-go library as a class of operations on an opaque state, its
      documented laws as a second class, its reliability as a third; [MemMdbx] is an
      in-memory instance that satisfies them.
    - [Database] ([db/provider.go], [db/mdbx.go], [db/manager.go]): the [Provider]
      interface with its contract [ProviderLaws], the instance [Db], the manager.
    - [BatchWriter] ([db/writer.go]): queues, buffers and workers; [runWorker] is one
      step of a worker goroutine, [wstep] one step of the system: a client's
      [BufferWrite], [FlushAndStop], a worker, or a change of the heap by others.
    - [WriterSpec], [WriterCorrect]: the writer as a key-value map and its theorems.
    - [MultiWriter], [Held]: several writers on one database, their steps interleaved;
      everything a writer holds, overridden requests included.
    - [Handlers] ([transports/*/handler_*.go]): read and write handlers, with every send
      on a connection recorded in a trace.
    - [Servers] ([transports/*/server.go]): dispatch: [OnTraffic], [React], [handleStream].
    - [EndToEnd]: a write, the workers, a read, seen from the client.
    - [Lifecycle] ([transports/*/server.go]): [Start], boot callback, ticker and [Stop] over
      channels, as a transition system with an invariant, for one call of [Start].
    - [Restart], [RestartStop], [RestartSim] (the same code): any number of calls of
      [Start] and their engines, in steps that access one field at a time; which engines
      [Stop] reaches; [Lifecycle] as an abstraction of the case of one call.
    - [QuicLifecycle] ([transports/quic/server.go]): the accept loops, stream goroutines,
      wait group, [Start] and [Stop] of the QUIC server, as another one.
    - [Fdb] ([fdb.go], [registry.go], [transports/manager.go], [logger/], [cmd/serve.go]):
      servers and batch writers as numbered objects; creation, start, stop.
    - [System], [Service], [ServiceReads], [ServiceSettle], [Register], [Crash]: what
      [Start] launched, at work: the writers alone, then the whole path from the bytes
      at a transport to the database, what comes back to the readers, what is left to
      the workers, one key as a register with a delay, and a process that dies.
    - [Serve], [ServeSound] ([fdb.go], [cmd/serve.go], [pprof/pprof.go]): [Start] with its
      error group, [Stop] and the [serve] command, over the start and stop protocols of
      all servers at once, interleaved by a schedule of events, with an invariant.
    - [Observability] ([logger/helper.go], [metrics/metrics.go]): the logger's helpers, which
      append to a slice of the caller, and the meter provider.
    - [Program] ([entrypoint/main.go]): from the command line to the exit status, over
      the actions of all commands.

    Clients and tools:
    - [Client], [ClientTcp] ([client/]): the registry of transports and the dispatch of
      incoming messages; the TCP transport under the callbacks of its event loop.
    - [Session]: the client library against the server, byte for byte.
    - [Files]: the files the commands write, with their permissions.
    - [Benchmark], [BenchClients], [Suites] ([benchmark/], [cmd/benchmark.go],
      [cmd/signaling.go]): the report and one message of each suite; the clients as
      goroutines of an error group, one access to what they share per step, with
      [runBenchmark] on top; suites, suite manager, the command, the exported report,
      the signal handler.
    - [Certs] ([certs/], [cmd/certs.go]): certificate generation, certbot as a function
      on the files, and the command.
    - [Ebpf] ([helpers/ebpf.go], [cmd/ebpf.go]): the three XDP commands over the
      cilium/ebpf library, which is a class with laws and a toy instance.
    - [Witnesses], [RestartWitnesses], [ServeWitnesses], [BenchWitnesses], [ToolWitnesses],
      [ProgramWitnesses]: the properties at concrete states.

    ** How the parts interact

    A server reads a frame into a buffer and dispatches on its first byte. The write
    handler hands a slice of that buffer to [BufferWrite], which queues it at the
    worker [key[0] mod workers]; the worker moves it to its buffer and, at the batch
    size, at a tick or at the stop signal, stores its buffer in one transaction. The
    read handler asks the database, so it sees a write only after the flush. The
    handlers use the database through [Provider], the writer uses the library
    directly, as in the code. [Start] gives every transport a writer of its own, and
    all of them the same database. [mstate] is the state the writers share; [focus] is
    the part of it one writer, and the handlers that use it, see. The benchmark suites
    are clients of the same [New] and of the registry's handlers. [serve] loads the
    configuration, calls [New] and [Start], whose error group holds one goroutine for
    each transport and one for the profiling server, and defers [Stop]; [main] runs the
    action that the command line names and turns its error into the exit status.

    ** What the theorems show

    - Messages: encoding is total and yields the format; decoding implements the
      format on every input short of 4 GiB, and panics on the overflow beyond it;
      both invert each other.
    - Writer: every interleaving of clients and workers, under any iteration order of
      Go maps, refines a key-value map as long as no flush fails ([writer_refines_map]);
      what a flush does, also
      when it fails; the bound on buffers; the fate of requests at a stopped worker.
    - Several writers: a key written through one transport refines a map in the company
      of the others; the order of writes through two transports may be lost.
    - Service: whatever bytes arrive wherever, each key ends with the last value some
      transport accepted for it ([service_converges]); no input makes a handler panic,
      it waits at a full queue only, and a write it took is acknowledged once
      ([service_handles_every_input]); a read is answered with the value from before
      the start or one some transport accepted for the key ([reads_tell_the_past]);
      the workers can always store all that was accepted ([service_settles]); while one
      transport writes a key, the key is a register with a delay that drops values
      only for newer ones ([key_refines_register]), and reads of it never go back
      ([reads_never_go_back]); what a crash can lose is bounded ([crash_loses_little]).
    - Transports: every branch of the handlers, agreement of the gnet servers, the
      QUIC loop, a write and a read end to end, frames that are not one message.
    - Life cycle: a nil result of [Start] means the server came up; the only panic;
      who may take the start token; stopping. A server can be started again when the
      earlier calls are over, and, whatever its state, can crash when it is started too
      early; [Stop] reaches every engine but those a TCP server no longer holds. For QUIC:
      [Stop] waits for every goroutine and, because it closes the listener, ends once the
      handlers do; all its panics.
    - Assembly: what [New] registers, what [Start] launches, where it fails.
    - Serving: under every schedule, [serve] panics only in the [Stop] of a QUIC server
      without a listener, returns only after a failure, and does not report a QUIC
      server that cannot listen.
    - Program: exit status 0 means that the named command did its work; the program
      ends for every command but [serve], a benchmark if the calls of its connections
      return.
    - Database and configuration: the MDBX database refines a map, lookups, typing of decoded
      transports.
    - Client: a write and a read through the client library and the TCP server; a send
      uses the connection that is open, or fails, or panics on a close in the middle of
      it; which callbacks lose the connection.
    - Benchmark: under every schedule the clients count all messages, and lose samples
      only where two appends overlap; they stop unless a call of the network waits for
      ever, as the read of a read benchmark can ([benchmark_hangs]); the command returns
      with them and stops what it started; percentiles are measured latencies; a suite
      that fails to start hides it.
    - Tools: the certificate and key files decode to what was generated, with the key
      readable by its owner alone; loading an XDP program leaves nothing attached.

    ** Bounds and fuel

    Loops recurse over the list they consume (reads of a stream, configured
    transports), and the loops of goroutines are single steps of a transition system.
    The commands that wait for goroutines run over a schedule, the list of events that
    happen meanwhile: a wait whose condition the schedule does not bring about is
    [Blocked], and theorems hold for all schedules. One definition has fuel: [drain] lets
    the clients of a benchmark that a schedule leaves running come to their ends, on the
    measure [work], which every step of a client decreases ([clients_stop]), so that none
    is left that could run ([drain_runs_all]). Buffers have the code's sizes: 500000 requests per queue, 512
    entries per batch, 15 workers, 4096 bytes per QUIC read. Lengths of slices are
    natural numbers, below [2^63] in any run.

    ** What is not modelled, and why

    The eBPF transport is commented out in the source. Log output has no effect on the
    state: a message is recorded where a property speaks of it and dropped elsewhere.
    The YAML, JSON, TLS, x509, gnet, QUIC, zap, OpenTelemetry, command-line, ebpf and
    mdbx libraries, the clock and the memory statistics are parameters. The per-worker
    mutexes are omitted since each is taken by one goroutine. [Serve] builds on
    [Lifecycle], so there a gnet transport is started by one goroutine at most; what a
    list that names it twice leads to is the subject of [Restart]. Handlers run as one step each, which their single operation
    on shared state, a channel send or a transaction, justifies. Float operations round
    one by one, as on amd64; a Go compiler for another architecture may fuse a
    multiplication with an addition. In the races of the benchmark and of the client the
    header of a slice and an interface are read and written as one; the sum
    [totalLatency], which nothing reads, is left out.

    ** Planned extensions

    [Serve] over [Restart], so that its schedules cover a list that names a gnet
    transport twice. *)
From Stdlib Require Export Init.Byte Strings.Byte.
From Stdlib Require Export ZArith Lia.
From stdpp Require Export prelude gmap strings numbers.
From stdpp Require Export list.

(** * Notations, hint databases and tactics of the development *)

Declare Scope fdb_scope.
Delimit Scope fdb_scope with fdb.
Open Scope fdb_scope.

(** Rewriting rules that evaluate the list operations on byte buffers. *)
Create Rewrite HintDb buffers.
(** Facts that close well-formedness side conditions. *)
Create HintDb wf.

(** [split_eqs] destructs the pairs and the conjunctions of the context and
    substitutes the equations it finds. *)
Ltac split_eqs :=
  repeat match goal with
  | H : _ ∧ _ |- _ => destruct H
  | H : (_, _) = (_, _) |- _ => injection H; clear H; intros
  | H : Some _ = Some _ |- _ => injection H; clear H; intros
  end; simplify_eq/=.

(** [decide_true] and [decide_false] resolve the first decision of the goal by
    linear arithmetic. *)
Ltac decide_true := rewrite decide_True by (auto; lia).
Ltac decide_false := rewrite decide_False by (auto; lia).

(** [break_decide] case-splits every decision of the goal and drops the
    branches arithmetic refutes. *)
Ltac break_decide :=
  repeat (case_decide; simplify_eq/=; try (exfalso; lia)).

(** * Lemmas on lists the components share *)

Section lists.
Context {A : Type}.
Implicit Types (l bs : list A).

(** [splice off bs l] overwrites [l] from position [off] with [bs]. *)
Definition splice (off : nat) (bs l : list A) : list A :=
  take off l ++ bs ++ drop (off + length bs) l.

Lemma length_splice off bs l :
  off + length bs ≤ length l → length (splice off bs l) = length l.
Proof.
  intros H. unfold splice.
  rewrite !length_app, length_take, length_drop. lia.
Qed.

Lemma splice_nil off l : splice off [] l = l.
Proof. unfold splice. simpl. by rewrite Nat.add_0_r, take_drop. Qed.

Lemma splice_at_app pre old post bs :
  length bs = length old →
  splice (length pre) bs (pre ++ old ++ post) = pre ++ bs ++ post.
Proof.
  intros H. unfold splice.
  rewrite take_app_length. f_equal. f_equal.
  rewrite H, app_assoc, drop_app_length'; [done|].
  by rewrite length_app.
Qed.

Lemma splice_eq off bs l pre old post :
  l = pre ++ old ++ post → length pre = off → length bs = length old →
  splice off bs l = pre ++ bs ++ post.
Proof. intros -> <- H. by apply splice_at_app. Qed.

Lemma splice_app_l off bs l k :
  off + length bs ≤ length l →
  splice off bs (l ++ k) = splice off bs l ++ k.
Proof.
  intros H. unfold splice.
  rewrite take_app_le, drop_app_le by lia. by rewrite !app_assoc.
Qed.

Lemma splice_app_r off bs l k :
  splice (length l + off) bs (l ++ k) = l ++ splice off bs k.
Proof.
  unfold splice. rewrite take_app_add, <- Nat.add_assoc, drop_app_add.
  by rewrite <- app_assoc.
Qed.

(** A list cut at the positions [n] and [n + m]. *)
Lemma take_drop_split n m l :
  n + m ≤ length l →
  ∃ a b c, l = a ++ b ++ c ∧ length a = n ∧ length b = m.
Proof.
  intros H. exists (take n l), (take m (drop n l)), (drop m (drop n l)).
  rewrite take_drop, take_drop, !length_take, length_drop.
  split_and!; [done | lia | lia].
Qed.

Lemma lookup_app_last l x : (l ++ [x]) !! length l = Some x.
Proof. rewrite lookup_app_r by lia. by rewrite Nat.sub_diag. Qed.

Lemma sum_list_with_insert (f : A → nat) (l : list A) (i : nat) (x y : A) :
  l !! i = Some x →
  sum_list_with f (<[i := y]> l) + f x = sum_list_with f l + f y.
Proof.
  revert i. induction l as [|z l IH]; intros [|i] Hi; simplify_eq/=; [lia|].
  apply IH in Hi. lia.
Qed.

Lemma sum_list_with_pos (f : A → nat) (l : list A) :
  0 < sum_list_with f l → ∃ i x, l !! i = Some x ∧ 0 < f x.
Proof.
  induction l as [|x l IH]; simpl; [lia|]. intros H.
  destruct (decide (0 < f x)) as [Hx|]; [by exists 0, x|].
  destruct IH as (i & y & Hi & Hy); [lia|]. by exists (S i), y.
Qed.
(** Elements from lists of bounded length. *)
Lemma length_bind_le {B} (f : A → list B) (n : Z) (l : list A) :
  Forall (λ x, Z.of_nat (length (f x)) ≤ n)%Z l →
  (Z.of_nat (length (l ≫= f)) ≤ n * Z.of_nat (length l))%Z.
Proof.
  induction 1 as [|x l Hx _ IH]; [simpl; lia|]. rewrite bind_cons, length_app, length_cons.
  rewrite Nat2Z.inj_add, Nat2Z.inj_succ, Z.mul_succ_r. lia.
Qed.
End lists.

Arguments splice : simpl never.

#[export] Hint Rewrite @length_app @length_take @length_drop @length_insert
  @length_replicate : buffers.

(** [len_solve] computes lengths of spliced and cut buffers and finishes by
    arithmetic. *)
Ltac len_solve := autorewrite with buffers in *; simpl in *; lia.
