(* ===== verification/GoRuntime.v ===== *)
(** Go's run-time semantics: panics and blocking, fixed-width integers, byte
    buffers with aliasing slices, error values. *)
From S2P Require Import Prelude.

(** * Computations that may panic or block *)

Inductive panic :=
  | PanicIndex            (* index out of range *)
  | PanicSlice            (* slice bounds out of range *)
  | PanicDivide           (* integer divide by zero *)
  | PanicMakeLen          (* makeslice: len out of range *)
  | PanicNil              (* nil pointer dereference *)
  | PanicCloseClosed      (* close of closed channel *)
  | PanicSendClosed       (* send on closed channel *)
  | PanicTypeAssert       (* interface conversion *)
  | PanicTicker           (* non-positive interval for NewTicker *)
  | PanicWaitGroup        (* negative WaitGroup counter *)
  | PanicCall.            (* a call of panic *)

#[export] Instance panic_eq_dec : EqDecision panic.
Proof. solve_decision. Defined.

Inductive outcome (S A : Type) :=
  | Done (s : S) (a : A)
  | Panicked (p : panic)
  | Blocked.
Arguments Done {S A} _ _.
Arguments Panicked {S A} _.
Arguments Blocked {S A}.

Definition Go (S A : Type) : Type := S → outcome S A.

#[export] Instance go_ret S : MRet (Go S) := λ A a s, Done s a.
#[export] Instance go_bind S : MBind (Go S) := λ A B k c s,
  match c s with
  | Done s' a => k a s'
  | Panicked p => Panicked p
  | Blocked => Blocked
  end.

Definition go_panic {S A} (p : panic) : Go S A := λ _, Panicked p.
Definition go_block {S A} : Go S A := λ _, Blocked.
Definition go_get {S} : Go S S := λ s, Done s s.
Definition go_put {S} (s' : S) : Go S () := λ _, Done s' ().

(** A computation on a component of the state, run in the whole state. *)
Definition go_zoom {S T A} (get : T → S) (put : S → T → T) (c : Go S A) : Go T A :=
  λ t, match c (get t) with
       | Done s a => Done (put s t) a
       | Panicked p => Panicked p
       | Blocked => Blocked
       end.

Section go_laws.
Context {S A B : Type}.
Implicit Types (c : Go S A) (k : A → Go S B).

Lemma go_bind_done c k s s' a : c s = Done s' a → (c ≫= k) s = k a s'.
Proof. intros H. unfold mbind, go_bind. by rewrite H. Qed.

Lemma go_bind_panic c k s p : c s = Panicked p → (c ≫= k) s = Panicked p.
Proof. intros H. unfold mbind, go_bind. by rewrite H. Qed.

Lemma go_bind_block c k s : c s = Blocked → (c ≫= k) s = Blocked.
Proof. intros H. unfold mbind, go_bind. by rewrite H. Qed.

Lemma go_zoom_done {T} get (put : S → T → T) c t s a :
  c (get t) = Done s a → go_zoom get put c t = Done (put s t) a.
Proof. intros H. unfold go_zoom. by rewrite H. Qed.
End go_laws.

(** * Fixed-width integers *)

Definition u8 (z : Z) : Z := z mod 2 ^ 8.
Definition u32 (z : Z) : Z := z mod 2 ^ 32.
Definition i64 (z : Z) : Z := (z + 2 ^ 63) mod 2 ^ 64 - 2 ^ 63.

Lemma u32_range z : (0 ≤ u32 z < 2 ^ 32)%Z.
Proof. apply Z.mod_pos_bound. lia. Qed.

Lemma u32_small z : (0 ≤ z < 2 ^ 32)%Z → u32 z = z.
Proof. intros. by apply Z.mod_small. Qed.

Lemma i64_range z : (- 2 ^ 63 ≤ i64 z < 2 ^ 63)%Z.
Proof. unfold i64. pose proof (Z.mod_pos_bound (z + 2 ^ 63) (2 ^ 64)). lia. Qed.

Lemma i64_small z : (- 2 ^ 63 ≤ z < 2 ^ 63)%Z → i64 z = z.
Proof. intros. unfold i64. rewrite Z.mod_small; lia. Qed.

Lemma i64_add a b : i64 (i64 a + b) = i64 (a + b).
Proof.
  unfold i64. replace ((a + 2 ^ 63) mod 2 ^ 64 - 2 ^ 63 + b + 2 ^ 63)%Z
    with ((a + 2 ^ 63) mod 2 ^ 64 + b)%Z by lia.
  rewrite Zplus_mod_idemp_l. do 2 f_equal. lia.
Qed.

Lemma i64_idem z : i64 (i64 z) = i64 z.
Proof. pose proof (i64_add z 0) as E. by rewrite !Z.add_0_r in E. Qed.

#[export] Hint Resolve u32_range i64_range : wf.

(** * Bytes *)

Definition Z_of_byte (b : byte) : Z := Z.of_N (Byte.to_N b).
Definition byte_of_Z (z : Z) : byte := default x00 (Byte.of_N (Z.to_N (u8 z))).

#[export] Instance byte_eq_dec : EqDecision byte := Byte.byte_eq_dec.

Lemma Z_of_byte_range b : (0 ≤ Z_of_byte b < 256)%Z.
Proof. unfold Z_of_byte. pose proof (Byte.to_N_bounded b). lia. Qed.

Lemma Z_of_byte_of_Z z : Z_of_byte (byte_of_Z z) = u8 z.
Proof.
  unfold byte_of_Z, Z_of_byte.
  assert (0 ≤ u8 z < 256)%Z by (apply Z.mod_pos_bound; lia).
  destruct (Byte.of_N (Z.to_N (u8 z))) as [b|] eqn:E; simpl.
  - apply Byte.to_of_N in E. rewrite E. lia.
  - apply Byte.of_N_None_iff in E. lia.
Qed.

#[export] Instance Z_of_byte_inj : Inj (=) (=) Z_of_byte.
Proof.
  intros b1 b2 H. apply N2Z.inj in H.
  apply (f_equal Byte.of_N) in H. rewrite !Byte.of_to_N in H. congruence.
Qed.

Lemma byte_of_Z_of_byte b : byte_of_Z (Z_of_byte b) = b.
Proof.
  apply (inj Z_of_byte). rewrite Z_of_byte_of_Z.
  apply Z.mod_small, Z_of_byte_range.
Qed.

#[export] Instance byte_countable : Countable byte.
Proof.
  refine (inj_countable Byte.to_N Byte.of_N _). apply Byte.of_to_N.
Defined.
#[export] Instance byte_inhabited : Inhabited byte := populate x00.

(** * Strings *)

(** [strings.Contains(s, sub)] *)
Fixpoint contains (sub s : string) : bool :=
  String.prefix sub s || match s with EmptyString => false | String _ s => contains sub s end.

(** * Errors *)

Inductive arg := AInt (z : Z) | AStr (s : string) | ABytes (bs : list byte).

(** An error value keeps the format string and the arguments of the call that
    built it; [Wrap] is [errors.Wrap] and the [%w] verb, [External] a sentinel
    of a package. *)
Inductive error :=
  | Errorf (fmt : string) (args : list arg)
  | Wrap (cause : error) (msg : string)
  | External (pkg name : string).

#[export] Instance arg_eq_dec : EqDecision arg.
Proof. solve_decision. Defined.
#[export] Instance error_eq_dec : EqDecision error.
Proof.
  intros e1. unfold Decision.
  induction e1; intros []; try (right; discriminate).
  - destruct (decide (fmt = fmt0)), (decide (args = args0)); (left; congruence) || (right; congruence).
  - destruct (IHe1 cause), (decide (msg = msg0)); (left; congruence) || (right; congruence).
  - destruct (decide (pkg = pkg0)), (decide (name = name0)); (left; congruence) || (right; congruence).
Defined.

(** [errors.Is]: the error or one it wraps is the target. *)
Fixpoint errors_Is (e target : error) : bool :=
  bool_decide (e = target) ||
  match e with Wrap c _ => errors_Is c target | _ => false end.

Lemma errors_Is_refl e : errors_Is e e = true.
Proof.
  destruct e; unfold errors_Is; fold errors_Is;
    by rewrite bool_decide_eq_true_2 by done.
Qed.

(** A Go result [(value, error)] in which the value is meaningful only when the
    error is nil. *)
Inductive res (A : Type) := Ok (a : A) | Err (e : error).
Arguments Ok {A} _.
Arguments Err {A} _.

#[export] Instance res_ret : MRet res := λ A, Ok.
#[export] Instance res_fmap : FMap res := λ A B f r,
  match r with Ok a => Ok (f a) | Err e => Err e end.
#[export] Instance res_bind : MBind res := λ A B k r,
  match r with Ok a => k a | Err e => Err e end.

