(* ===== verification/Slices.v ===== *)
(** Go byte slices: a heap of byte buffers, slices that alias parts of them,
    the built-in operations on slices and the big-endian codec of
    [encoding/binary], with their panics. *)
From S2P Require Import Prelude GoRuntime.

(** * The heap and its slices *)

(** A slice header: the buffer it points into, its offset there, its length and
    its capacity. *)
Record slice := Slice { s_buf : nat; s_off : nat; s_len : nat; s_cap : nat }.

#[export] Instance slice_eq_dec : EqDecision slice.
Proof. solve_decision. Defined.

Abbreviation heap := (list (list byte)).

Definition nil_slice : slice := Slice 0 0 0 0.

Definition buf_of (h : heap) (b : nat) : list byte := default [] (h !! b).

(** The bytes a slice shows. *)
Definition bytes_of (h : heap) (s : slice) : list byte :=
  take (s_len s) (drop (s_off s) (buf_of h (s_buf s))).

(** The slice lies inside its buffer. *)
Definition slice_ok (h : heap) (s : slice) : Prop :=
  s_len s ≤ s_cap s ∧ s_off s + s_cap s ≤ length (buf_of h (s_buf s)).

Definition poke (h : heap) (b off : nat) (bs : list byte) : heap :=
  <[b := splice off bs (buf_of h b)]> h.

Section ops.
Context {S : Type}.

(** [s[lo:hi]]: the bounds must satisfy [0 <= lo <= hi <= cap(s)]. *)
Definition slice_range (s : slice) (lo hi : Z) : Go S slice :=
  if decide (0 ≤ lo ∧ lo ≤ hi ∧ hi ≤ Z.of_nat (s_cap s))%Z
  then mret (Slice (s_buf s) (s_off s + Z.to_nat lo)
               (Z.to_nat (hi - lo)) (s_cap s - Z.to_nat lo))
  else go_panic PanicSlice.

(** [s[lo:]] *)
Definition slice_from (s : slice) (lo : Z) : Go S slice :=
  slice_range s lo (Z.of_nat (s_len s)).

(** [s[:hi]] *)
Definition slice_to (s : slice) (hi : Z) : Go S slice := slice_range s 0 hi.
End ops.

(** [make([]byte, n)] *)
Definition make_bytes (n : Z) : Go heap slice := λ h,
  if decide (n < 0)%Z then Panicked PanicMakeLen
  else Done (h ++ [replicate (Z.to_nat n) x00])
            (Slice (length h) 0 (Z.to_nat n) (Z.to_nat n)).

(** A slice literal, or bytes handed over in a buffer of their own. *)
Definition fresh_bytes (bs : list byte) : Go heap slice := λ h,
  Done (h ++ [bs]) (Slice (length h) 0 (length bs) (length bs)).

(** [s[i]] *)
Definition index_get (s : slice) (i : Z) : Go heap byte := λ h,
  if decide (0 ≤ i ∧ i < Z.of_nat (s_len s))%Z
  then Done h (bytes_of h s !!! Z.to_nat i)
  else Panicked PanicIndex.

(** [s[i] = b] *)
Definition index_set (s : slice) (i : Z) (b : byte) : Go heap () := λ h,
  if decide (0 ≤ i ∧ i < Z.of_nat (s_len s))%Z
  then Done (poke h (s_buf s) (s_off s + Z.to_nat i) [b]) ()
  else Panicked PanicIndex.

(** [copy(dst, src)] from bytes already read: the shorter length counts. *)
Definition copy_bytes (dst : slice) (bs : list byte) : Go heap () := λ h,
  Done (poke h (s_buf dst) (s_off dst) (take (s_len dst) bs)) ().

(** [copy(dst, src)] between slices reads the whole source first. *)
Definition copy_slice (dst src : slice) : Go heap () := λ h,
  copy_bytes dst (bytes_of h src) h.

(** * Big-endian 32-bit integers *)

(** The bytes [binary.BigEndian.PutUint32] stores. *)
Definition be32 (v : Z) : list byte :=
  [byte_of_Z (Z.shiftr v 24); byte_of_Z (Z.shiftr v 16);
   byte_of_Z (Z.shiftr v 8); byte_of_Z v].

(** The integer [binary.BigEndian.Uint32] assembles. *)
Definition of_be32 (bs : list byte) : Z :=
  Z.lor (Z.lor (Z_of_byte (bs !!! 3)) (Z.shiftl (Z_of_byte (bs !!! 2)) 8))
        (Z.lor (Z.shiftl (Z_of_byte (bs !!! 1)) 16)
               (Z.shiftl (Z_of_byte (bs !!! 0)) 24)).

Definition BigEndian_PutUint32 (s : slice) (v : Z) : Go heap () := λ h,
  if decide (s_len s < 4) then Panicked PanicIndex
  else Done (poke h (s_buf s) (s_off s) (be32 v)) ().

Definition BigEndian_Uint32 (s : slice) : Go heap Z := λ h,
  if decide (s_len s < 4) then Panicked PanicIndex
  else Done h (of_be32 (bytes_of h s)).

(** * Arrays of 32 bytes *)

Definition array32 : Type := dsig (λ bs : list byte, length bs = 32).

#[export] Instance array32_eq_dec : EqDecision array32.
Proof. unfold array32, dsig. apply _. Defined.
#[export] Instance array32_countable : Countable array32.
Proof. unfold array32, dsig. apply _. Defined.

Lemma length_pad32 bs : length (take 32 (bs ++ replicate 32 x00)) = 32.
Proof. rewrite length_take, length_app, length_replicate. lia. Qed.

(** The proof of a closed decision evaluates to [I]. *)
Definition norm_true (b : bool) : Is_true b → Is_true b :=
  match b with true => λ _, I | false => λ p, p end.

(** [copy(key[:], src)] into a zeroed array. *)
Definition array32_of (bs : list byte) : array32 :=
  take 32 (bs ++ replicate 32 x00)
    ↾ norm_true _ (bool_decide_pack _ (length_pad32 bs)).

(** The slice [key[:]] of an array, as bytes. *)
Definition array_bytes (k : array32) : list byte := proj1_sig k.

Lemma array32_length (k : array32) : length (array_bytes k) = 32.
Proof. apply (proj2_dsig k). Qed.

Lemma array32_of_id bs : length bs = 32 → array_bytes (array32_of bs) = bs.
Proof. intros H. unfold array_bytes. simpl. by rewrite take_app_length'. Qed.

#[export] Instance array_bytes_inj : Inj (=) (=) array_bytes.
Proof. intros k1 k2 H. by apply dsig_eq. Qed.

Lemma array32_of_proj (k : array32) : array32_of (array_bytes k) = k.
Proof. apply (inj array_bytes), array32_of_id, array32_length. Qed.

(** The zero value [[32]byte{}]. *)
Definition array32_zero : array32 := array32_of [].

(** * Lemmas: the codec *)

Lemma length_be32 v : length (be32 v) = 4.
Proof. done. Qed.

Lemma testbit_byte b n : (8 ≤ n)%Z → Z.testbit (Z_of_byte b) n = false.
Proof.
  intros Hn. pose proof (Z_of_byte_range b).
  destruct (decide (Z_of_byte b = 0)%Z) as [->|]; [apply Z.testbit_0_l|].
  apply Z.bits_above_log2; [lia|].
  apply Z.log2_lt_pow2; [lia|].
  apply Z.lt_le_trans with (2 ^ 8)%Z; [lia|].
  by apply Z.pow_le_mono_r.
Qed.

Lemma testbit_byte_of_Z z n :
  (0 ≤ n)%Z →
  Z.testbit (Z_of_byte (byte_of_Z z)) n = bool_decide (n < 8)%Z && Z.testbit z n.
Proof.
  intros Hn. rewrite Z_of_byte_of_Z. unfold u8. case_bool_decide; simpl.
  - by rewrite Z.mod_pow2_bits_low.
  - by rewrite Z.mod_pow2_bits_high by lia.
Qed.

(** Bit [n] of a word is bit [n mod 8] of its byte [n / 8]. *)
Lemma byte_index n :
  (0 ≤ n)%Z →
  ∃ q r, (n = 8 * q + r ∧ 0 ≤ r < 8 ∧ 0 ≤ q ∧ n / 8 = q ∧ n mod 8 = r)%Z.
Proof.
  intros Hn. exists (n / 8)%Z, (n mod 8)%Z.
  pose proof (Z.mod_pos_bound n 8). pose proof (Z.div_pos n 8).
  pose proof (Z.div_mod n 8). split_and!; lia.
Qed.

Lemma testbit_of_be32 bs n :
  (0 ≤ n)%Z →
  Z.testbit (of_be32 bs) n =
    if decide (n < 32)%Z
    then Z.testbit (Z_of_byte (bs !!! (3 - Z.to_nat (n / 8)))) (n mod 8)
    else false.
Proof.
  intros Hn. unfold of_be32. rewrite !Z.lor_spec, !Z.shiftl_spec by lia.
  assert (∀ b m, (m < 0 ∨ 8 ≤ m)%Z → Z.testbit (Z_of_byte b) m = false) as Hout.
  { intros b m [?|?]; [by apply Z.testbit_neg_r | by apply testbit_byte]. }
  destruct (byte_index n Hn) as (q & r & -> & ? & ? & -> & ->).
  case_decide.
  - assert (q = 0 ∨ q = 1 ∨ q = 2 ∨ q = 3)%Z as [->|[->|[->| ->]]] by lia;
      simpl;
      repeat match goal with
      | |- context [Z.testbit (Z_of_byte ?b) ?m] => rewrite (Hout b m) by lia
      end; rewrite ?orb_false_r, ?orb_false_l; f_equal; lia.
  - by rewrite !Hout by lia.
Qed.

(** [Uint32] after [PutUint32] gives the low 32 bits of the value. *)
Lemma of_be32_be32 v : of_be32 (be32 v) = u32 v.
Proof.
  apply Z.bits_inj'. intros n Hn. rewrite testbit_of_be32 by done.
  unfold u32. case_decide.
  2:{ by rewrite Z.mod_pow2_bits_high by lia. }
  rewrite Z.mod_pow2_bits_low by lia.
  destruct (byte_index n Hn) as (q & r & -> & ? & ? & -> & ->).
  assert (q = 0 ∨ q = 1 ∨ q = 2 ∨ q = 3)%Z as [->|[->|[->| ->]]] by lia;
    simpl; rewrite testbit_byte_of_Z by lia; rewrite bool_decide_true by lia; simpl;
    rewrite ?Z.shiftr_spec by lia; f_equal; lia.
Qed.

Lemma of_be32_range bs : (0 ≤ of_be32 bs < 2 ^ 32)%Z.
Proof.
  assert (of_be32 bs = of_be32 bs mod 2 ^ 32)%Z as ->.
  2:{ apply Z.mod_pos_bound. lia. }
  apply Z.bits_inj'. intros n Hn. destruct (decide (n < 32)%Z).
  - by rewrite Z.mod_pow2_bits_low by lia.
  - rewrite Z.mod_pow2_bits_high by lia. rewrite testbit_of_be32 by done.
    by decide_false.
Qed.
#[export] Hint Resolve of_be32_range : wf.

(** * Lemmas: the heap *)

Section heap_lemmas.
Implicit Types (h : heap) (s : slice) (bs body : list byte).

Lemma buf_of_out h b : length h ≤ b → buf_of h b = [].
Proof. intros H. unfold buf_of. by rewrite lookup_ge_None_2. Qed.

Lemma buf_of_app_l h h' b : b < length h → buf_of (h ++ h') b = buf_of h b.
Proof. intros H. unfold buf_of. by rewrite lookup_app_l. Qed.

Lemma buf_of_alloc h bs : buf_of (h ++ [bs]) (length h) = bs.
Proof. unfold buf_of. by rewrite lookup_app_last. Qed.

Lemma buf_of_poke_ne h b b' off bs :
  b ≠ b' → buf_of (poke h b off bs) b' = buf_of h b'.
Proof. intros H. unfold buf_of, poke. by rewrite list_lookup_insert_ne. Qed.

Lemma buf_of_poke_eq h b off bs :
  b < length h → buf_of (poke h b off bs) b = splice off bs (buf_of h b).
Proof. intros H. unfold poke. unfold buf_of at 1. by rewrite list_lookup_insert_eq. Qed.

Lemma length_poke h b off bs : length (poke h b off bs) = length h.
Proof. apply length_insert. Qed.

Lemma length_buf_of_poke h b b' off bs :
  off + length bs ≤ length (buf_of h b) →
  length (buf_of (poke h b off bs) b') = length (buf_of h b').
Proof.
  intros H. destruct (decide (b = b')) as [<-|]; [|by rewrite buf_of_poke_ne].
  destruct (decide (b < length h)).
  - by rewrite buf_of_poke_eq, length_splice.
  - rewrite !buf_of_out; rewrite ?length_poke; auto; lia.
Qed.

Lemma slice_ok_buf h s : slice_ok h s → 0 < s_cap s → s_buf s < length h.
Proof.
  intros [_ H] Hc. apply Nat.nle_gt. intros Hge.
  rewrite buf_of_out in H by done. simpl in H. lia.
Qed.

Lemma length_bytes_of h s : slice_ok h s → length (bytes_of h s) = s_len s.
Proof. intros [? ?]. unfold bytes_of. len_solve. Qed.

Lemma bytes_of_nil_cap h s : slice_ok h s → s_cap s = 0 → bytes_of h s = [].
Proof. intros [H _] Hc. unfold bytes_of. by replace (s_len s) with 0 by lia. Qed.

(** Allocation leaves the existing slices as they are. *)
Lemma slice_ok_alloc h s bs : slice_ok h s → slice_ok (h ++ [bs]) s.
Proof.
  intros Hs. destruct (decide (s_cap s = 0)) as [E|].
  - destruct Hs as [? ?]. split; [done|].
    destruct (decide (s_buf s < length h)); [by rewrite buf_of_app_l|].
    rewrite buf_of_out in H0 by lia. simpl in H0. lia.
  - pose proof (slice_ok_buf h s Hs ltac:(lia)). destruct Hs.
    split; [done | by rewrite buf_of_app_l].
Qed.

Lemma bytes_of_alloc h s bs :
  slice_ok h s → bytes_of (h ++ [bs]) s = bytes_of h s.
Proof.
  intros Hs. destruct (decide (s_cap s = 0)) as [E|].
  - rewrite !bytes_of_nil_cap; auto using slice_ok_alloc.
  - pose proof (slice_ok_buf h s Hs ltac:(lia)).
    unfold bytes_of. by rewrite buf_of_app_l.
Qed.

Lemma bytes_of_poke_ne h b off bs s :
  b ≠ s_buf s → bytes_of (poke h b off bs) s = bytes_of h s.
Proof. intros. unfold bytes_of. by rewrite buf_of_poke_ne. Qed.

(** The bytes of the subslice [s[lo:hi]]. *)
Lemma bytes_of_range h s lo n c :
  lo + n ≤ s_len s →
  bytes_of h (Slice (s_buf s) (s_off s + lo) n c)
  = take n (drop lo (bytes_of h s)).
Proof.
  intros H. unfold bytes_of. simpl.
  rewrite skipn_firstn_comm, take_take, drop_drop. f_equal. lia.
Qed.
End heap_lemmas.

(** * Writing inside the window of a slice *)

(** [set_bytes h s body]: the window of [s] holds [body]. *)
Definition set_bytes (h : heap) (s : slice) (body : list byte) : heap :=
  poke h (s_buf s) (s_off s) body.

Section windows.
Implicit Types (h : heap) (s : slice) (bs body : list byte).

Lemma buf_window h s :
  slice_ok h s →
  ∃ pre post, buf_of h (s_buf s) = pre ++ bytes_of h s ++ post ∧
              length pre = s_off s.
Proof.
  intros Hs. destruct (take_drop_split (s_off s) (s_len s) (buf_of h (s_buf s)))
    as (a & b & c & E & Ha & Hb); [destruct Hs; lia|].
  exists a, c. split; [|done]. unfold bytes_of. rewrite E, <- Ha, <- Hb.
  by rewrite drop_app_length, take_app_length.
Qed.

Lemma slice_ok_set h s s' body :
  slice_ok h s → length body = s_len s → slice_ok h s' →
  slice_ok (set_bytes h s body) s'.
Proof.
  intros [? ?] Hl [? ?]. split; [done|].
  unfold set_bytes. rewrite length_buf_of_poke; lia.
Qed.

Lemma bytes_of_set h s body :
  slice_ok h s → length body = s_len s → bytes_of (set_bytes h s body) s = body.
Proof.
  intros Hs Hl. destruct (decide (s_len s = 0)) as [E|].
  { unfold bytes_of. rewrite E in *. destruct body; [done|]. simpl in Hl. lia. }
  destruct (buf_window h s Hs) as (pre & post & E & Hpre).
  unfold bytes_of, set_bytes.
  rewrite buf_of_poke_eq by (apply slice_ok_buf; [done|destruct Hs; lia]).
  rewrite E, <- Hpre, splice_at_app by (by rewrite length_bytes_of).
  by rewrite drop_app_length, <- Hl, take_app_length.
Qed.

Lemma bytes_of_set_ne h s s' body :
  s_buf s ≠ s_buf s' → bytes_of (set_bytes h s body) s' = bytes_of h s'.
Proof. apply bytes_of_poke_ne. Qed.

(** A write at offset [k] of the window rewrites the window. *)
Lemma poke_window h s k bs :
  slice_ok h s → k + length bs ≤ s_len s →
  poke h (s_buf s) (s_off s + k) bs = set_bytes h s (splice k bs (bytes_of h s)).
Proof.
  intros Hs Hk. unfold set_bytes, poke. f_equal.
  destruct (buf_window h s Hs) as (pre & post & -> & <-).
  pose proof (length_bytes_of h s Hs).
  rewrite splice_app_r, splice_app_l by lia.
  rewrite splice_at_app; [done|]. by rewrite length_splice by lia.
Qed.

Lemma set_set h s body1 body2 :
  slice_ok h s → length body1 = s_len s → length body2 = s_len s →
  set_bytes (set_bytes h s body1) s body2 = set_bytes h s body2.
Proof.
  intros Hs H1 H2. destruct (decide (s_len s = 0)) as [E|].
  { destruct body1, body2; simpl in *; try lia.
    unfold set_bytes, poke. rewrite !splice_nil.
    destruct (decide (s_buf s < length h)).
    - rewrite list_insert_insert_eq. f_equal. unfold buf_of.
      by rewrite list_lookup_insert_eq.
    - by rewrite !(list_insert_ge h) by lia. }
  pose proof (slice_ok_buf h s Hs ltac:(destruct Hs; lia)) as Hb.
  unfold set_bytes. unfold poke at 1. rewrite buf_of_poke_eq by done.
  unfold poke. rewrite list_insert_insert_eq. f_equal.
  destruct (buf_window h s Hs) as (pre & post & E & Hpre).
  pose proof (length_bytes_of h s Hs).
  rewrite E, <- Hpre, !splice_at_app by lia. done.
Qed.

Lemma length_set h s body : length (set_bytes h s body) = length h.
Proof. apply length_poke. Qed.
End windows.

#[export] Hint Resolve slice_ok_alloc slice_ok_set : wf.

(** * The operations, seen through the window of a slice *)

Section window_ops.
Implicit Types (h : heap) (s : slice) (bs : list byte).

Lemma slice_range_ok {S} s lo hi (σ : S) :
  (0 ≤ lo)%Z → (lo ≤ hi)%Z → (hi ≤ Z.of_nat (s_cap s))%Z →
  slice_range s lo hi σ =
    Done σ (Slice (s_buf s) (s_off s + Z.to_nat lo)
              (Z.to_nat (hi - lo)) (s_cap s - Z.to_nat lo)).
Proof. intros. unfold slice_range. by decide_true. Qed.

Lemma slice_range_panic {S} s lo hi (σ : S) :
  (lo < 0 ∨ hi < lo ∨ Z.of_nat (s_cap s) < hi)%Z →
  slice_range s lo hi σ = Panicked PanicSlice.
Proof. intros. unfold slice_range. by decide_false. Qed.

Lemma index_get_ok s i h :
  (0 ≤ i < Z.of_nat (s_len s))%Z →
  index_get s i h = Done h (bytes_of h s !!! Z.to_nat i).
Proof. intros. unfold index_get. by decide_true. Qed.

Lemma set_bytes_id h s : slice_ok h s → set_bytes h s (bytes_of h s) = h.
Proof.
  intros Hs. destruct (decide (s_buf s < length h)).
  - apply list_insert_id.
    destruct (buf_window h s Hs) as (pre & post & E & <-).
    rewrite E, splice_at_app by done. rewrite <- E. unfold buf_of.
    destruct (lookup_lt_is_Some_2 h (s_buf s)) as [bs ->]; done.
  - apply list_insert_ge. lia.
Qed.

(** Each store on a heap whose window holds [body] splices [body]. *)
Lemma poke_set h s k bs body :
  slice_ok h s → length body = s_len s → k + length bs ≤ s_len s →
  poke (set_bytes h s body) (s_buf s) (s_off s + k) bs
  = set_bytes h s (splice k bs body).
Proof.
  intros Hs Hb Hk. rewrite poke_window by auto with wf.
  rewrite bytes_of_set by done.
  apply set_set; [done..|]. by rewrite length_splice by lia.
Qed.

Lemma index_set_window s i b h body :
  slice_ok h s → length body = s_len s → (0 ≤ i < Z.of_nat (s_len s))%Z →
  index_set s i b (set_bytes h s body)
  = Done (set_bytes h s (splice (Z.to_nat i) [b] body)) ().
Proof.
  intros Hs Hb Hi. unfold index_set. decide_true. f_equal.
  apply poke_set; [done..| simpl; lia].
Qed.

Lemma copy_window s lo n c bs h body :
  slice_ok h s → length body = s_len s → lo + length bs ≤ s_len s →
  length bs ≤ n →
  copy_bytes (Slice (s_buf s) (s_off s + lo) n c) bs (set_bytes h s body)
  = Done (set_bytes h s (splice lo bs body)) ().
Proof.
  intros Hs Hb Hn Hl. unfold copy_bytes. simpl. rewrite firstn_all2 by lia.
  f_equal. by apply poke_set.
Qed.

Lemma put32_window s lo n c v h body :
  slice_ok h s → length body = s_len s → lo + 4 ≤ s_len s → 4 ≤ n →
  BigEndian_PutUint32 (Slice (s_buf s) (s_off s + lo) n c) v (set_bytes h s body)
  = Done (set_bytes h s (splice lo (be32 v) body)) ().
Proof.
  intros Hs Hb Hn Hl. unfold BigEndian_PutUint32. simpl. decide_false.
  f_equal. by apply poke_set.
Qed.
End window_ops.

(** Side conditions of the window lemmas. *)
Ltac window_side :=
  repeat first [done | lia | rewrite length_splice | progress simpl].
