(* ===== verification/Types.v ===== *)
(** The enumerations of [types/types.go]: transport types, their textual form,
    and the one-byte handler types of the wire protocol. *)
From S2P Require Import Prelude GoRuntime Slices.

(** * Transport types: a Go [int] numbered by [iota] *)

Abbreviation TransportType := Z (only parsing).

Definition UDPTransportType : TransportType := 0%Z.
Definition DummyTransportType : TransportType := 1%Z.
Definition QUICTransportType : TransportType := 2%Z.
Definition UDSTransportType : TransportType := 3%Z.
Definition TCPTransportType : TransportType := 4%Z.

Definition TransportType_String (t : TransportType) : string :=
  if decide (t = UDSTransportType) then "uds"
  else if decide (t = QUICTransportType) then "quic"
  else if decide (t = TCPTransportType) then "tcp"
  else if decide (t = UDPTransportType) then "udp"
  else if decide (t = DummyTransportType) then "dummy"
  else "unknown".

(** The function returns [(-1, err)] for an unknown name; no caller looks at
    the [-1]. *)
Definition ParseTransportType (s : string) : res TransportType :=
  if decide (s = "uds") then Ok UDSTransportType
  else if decide (s = "quic") then Ok QUICTransportType
  else if decide (s = "tcp") then Ok TCPTransportType
  else if decide (s = "udp") then Ok UDPTransportType
  else if decide (s = "dummy") then Ok DummyTransportType
  else Err (Errorf "unknown transport type: %s" [AStr s]).

(** [UnmarshalYAML]: [unmarshal] is the YAML library's decoding of the node into
    a string; the receiver [t] changes only on success. *)
Definition TransportType_UnmarshalYAML (t : TransportType) (unmarshal : res string)
    : TransportType * option error :=
  match unmarshal with
  | Err e => (t, Some e)
  | Ok s =>
      match ParseTransportType s with
      | Err e => (t, Some e)
      | Ok tp => (tp, None)
      end
  end.

(** * Database names *)

Abbreviation DbType := string (only parsing).

(** * Handler types *)

Abbreviation HandlerType := byte (only parsing).

Definition WriteHandlerType : HandlerType := x57. (* 'W' *)
Definition ReadHandlerType : HandlerType := x52.  (* 'R' *)

(** [h.FromByte(b)]: the new value of the receiver and the error. *)
Definition HandlerType_FromByte (h : HandlerType) (b : byte)
    : HandlerType * option error :=
  if decide (b = x57) then (WriteHandlerType, None)
  else if decide (b = x52) then (ReadHandlerType, None)
  else (h, Some (Errorf "invalid action byte: %v" [AInt (Z_of_byte b)])).

(** * Properties *)

Definition valid_transport (t : TransportType) : Prop := (0 ≤ t ≤ 4)%Z.

Lemma valid_transport_cases t :
  valid_transport t ↔
  t = UDPTransportType ∨ t = DummyTransportType ∨ t = QUICTransportType ∨
  t = UDSTransportType ∨ t = TCPTransportType.
Proof.
  unfold valid_transport, UDPTransportType, DummyTransportType,
    QUICTransportType, UDSTransportType, TCPTransportType. lia.
Qed.

Lemma parse_ok_cases s t :
  ParseTransportType s = Ok t → valid_transport t ∧ TransportType_String t = s.
Proof.
  unfold ParseTransportType. intros Hp.
  do 5 (case_decide; [simplify_eq; done|]). discriminate.
Qed.

(** [ParseTransportType] accepts exactly the names of the five transports and
    inverts [String]: a string parses to [t] if and only if [t] is one of the
    five constants and [s] is its name. *)
Theorem parse_string_roundtrip (s : string) (t : TransportType) :
  ParseTransportType s = Ok t ↔ valid_transport t ∧ TransportType_String t = s.
Proof.
  split; [apply parse_ok_cases|].
  rewrite valid_transport_cases. intros [[->|[->|[->|[->| ->]]]] <-]; done.
Qed.

Lemma FromByte_ok h b h' :
  HandlerType_FromByte h b = (h', None) ↔
  (b = WriteHandlerType ∨ b = ReadHandlerType) ∧ h' = b.
Proof.
  unfold HandlerType_FromByte, WriteHandlerType, ReadHandlerType.
  repeat case_decide; naive_solver.
Qed.
