(* ===== verification/Messages.v ===== *)
(** The wire message of [messages/message.go]: the encoders over the heap of
    byte buffers, the decoder that aliases its input, and the pure format they
    implement. *)
From S2P Require Import Prelude GoRuntime Slices Types.

(** * The code *)

Record Message := MkMessage {
  Handler : HandlerType;
  Key : array32;
  Data : slice;
}.

(** The sequence of stores both encoders perform on a buffer that is large
    enough: handler byte, key, data length, data. *)
Definition encode_into (m : Message) (buf : slice) : Go heap () :=
  index_set buf 0 (Handler m);;
  k ← slice_range buf 1 33;
  copy_bytes k (array_bytes (Key m));;
  l ← slice_range buf 33 37;
  BigEndian_PutUint32 l (u32 (Z.of_nat (s_len (Data m))));;
  d ← slice_from buf 37;
  copy_slice d (Data m).

(** [m.EncodeWithBuffer(buf)] *)
Definition EncodeWithBuffer (m : Message) (buf : slice) : Go heap (res slice) :=
  let msgLen := (1 + 32 + 4 + Z.of_nat (s_len (Data m)))%Z in
  if decide (Z.of_nat (s_len buf) < msgLen)%Z
  then mret (Err (Errorf "buffer too small, need at least %d bytes" [AInt msgLen]))
  else
    encode_into m buf;;
    r ← slice_to buf msgLen;
    mret (Ok r).

(** [m.Encode()] *)
Definition Encode (m : Message) : Go heap (res slice) :=
  let msgLen := (1 + 32 + 4 + Z.of_nat (s_len (Data m)))%Z in
  buf ← make_bytes msgLen;
  encode_into m buf;;
  mret (Ok buf).

(** [Decode(data)]: the message's data is a slice of the input. The upper bound
    of that slice is computed in 32 bits. *)
Definition Decode (data : slice) : Go heap (res Message) :=
  if decide (s_len data < 37)
  then mret (Err (Errorf "data too short, must be at least 37 bytes" []))
  else
    handler ← index_get data 0;
    k ← slice_range data 1 33;
    h ← go_get;
    let key := array32_of (bytes_of h k) in
    l ← slice_range data 33 37;
    dataLen ← BigEndian_Uint32 l;
    rest ← slice_from data 37;
    if decide (Z.of_nat (s_len rest) < dataLen)%Z
    then mret (Err (Errorf "data length mismatch, expected %d bytes but got %d bytes"
                      [AInt dataLen; AInt (Z.of_nat (s_len rest))]))
    else
      d ← slice_range data 37 (u32 (37 + dataLen));
      mret (Ok (MkMessage handler key d)).

(** The key generator reads 32 bytes from [rand.Reader]; [io.ReadFull] fails
    when the source does. *)
Definition generateRandomKey (readFull : res array32) : res array32 :=
  match readFull with
  | Err e => Err (Wrap e "failed to generate random key: %w")
  | Ok key => Ok key
  end.

Definition GenerateRandomMessage (readFull : res array32) (handler : HandlerType)
    : res Message :=
  key ← generateRandomKey readFull;
  mret (MkMessage handler key nil_slice).

Definition GenerateRandomMessageWithData (readFull : res array32)
    (handler : HandlerType) (data : slice) : res Message :=
  key ← generateRandomKey readFull;
  mret (MkMessage handler key data).

(** * The format *)

(** A message as a value: its data are bytes, not a slice. *)
Record message_value := MsgVal {
  mv_handler : HandlerType;
  mv_key : array32;
  mv_data : list byte;
}.

Definition value_of (h : heap) (m : Message) : message_value :=
  MsgVal (Handler m) (Key m) (bytes_of h (Data m)).

(** The layout: 1 byte handler, 32 bytes key, 4 bytes big-endian length, data. *)
Definition wire (mv : message_value) : list byte :=
  mv_handler mv :: array_bytes (mv_key mv) ++
  be32 (Z.of_nat (length (mv_data mv))) ++ mv_data mv.

Arguments wire : simpl never.

(** What a decoder of the layout answers on a byte string. *)
Definition parse_wire (bs : list byte) : res message_value :=
  if decide (length bs < 37)
  then Err (Errorf "data too short, must be at least 37 bytes" [])
  else
    let n := of_be32 (take 4 (drop 33 bs)) in
    let rest := drop 37 bs in
    if decide (Z.of_nat (length rest) < n)%Z
    then Err (Errorf "data length mismatch, expected %d bytes but got %d bytes"
                [AInt n; AInt (Z.of_nat (length rest))])
    else Ok (MsgVal (bs !!! 0) (array32_of (take 32 (drop 1 bs)))
               (take (Z.to_nat n) rest)).

(** * Lemmas *)

Lemma byte_of_shifted_u32 n k :
  (0 ≤ k ≤ 24)%Z → byte_of_Z (Z.shiftr (u32 n) k) = byte_of_Z (Z.shiftr n k).
Proof.
  intros Hk. apply (inj Z_of_byte). rewrite !Z_of_byte_of_Z.
  unfold u8, u32. apply Z.bits_inj'. intros i Hi.
  destruct (decide (i < 8)%Z).
  - rewrite !Z.mod_pow2_bits_low, !Z.shiftr_spec by lia.
    by rewrite Z.mod_pow2_bits_low by lia.
  - by rewrite !Z.mod_pow2_bits_high by lia.
Qed.

Lemma be32_u32 n : be32 (u32 n) = be32 n.
Proof.
  unfold be32. rewrite !byte_of_shifted_u32 by lia.
  pose proof (byte_of_shifted_u32 n 0 ltac:(lia)) as H.
  rewrite !Z.shiftr_0_r in H. by rewrite H.
Qed.

Lemma length_wire mv : length (wire mv) = 37 + length (mv_data mv).
Proof.
  unfold wire. simpl. rewrite !length_app, array32_length. simpl. lia.
Qed.

(** The four stores on a window of [37 + n] bytes or more. *)
Lemma header_splices (b : byte) (key data body : list byte) (len : Z) :
  length key = 32 → 37 + length data ≤ length body →
  splice 37 data (splice 33 (be32 len) (splice 1 key (splice 0 [b] body)))
  = (b :: key ++ be32 len ++ data) ++ drop (37 + length data) body.
Proof.
  intros Hk Hl.
  destruct body as [|b0 body]; [simpl in Hl; lia|]. simpl in Hl.
  destruct (take_drop_split 32 4 body) as (k0 & l0 & r & -> & Hk0 & Hl0); [lia|].
  rewrite !length_app in Hl.
  destruct (take_drop_split 0 (length data) r) as (a & d0 & r' & -> & Ha & Hd0); [lia|].
  destruct a; [|done]. simpl in *.
  rewrite (splice_eq 0 [b] _ [] [b0] (k0 ++ l0 ++ d0 ++ r')) by done.
  rewrite (splice_eq 1 key _ [b] k0 (l0 ++ d0 ++ r')) by (done || lia).
  rewrite (splice_eq 33 (be32 len) _ (b :: key) l0 (d0 ++ r'))
    by (simpl; rewrite <- ?app_assoc; done || lia).
  rewrite (splice_eq 37 data _ (b :: key ++ be32 len) d0 r')
    by (simpl; rewrite ?length_app, <- ?app_assoc; simpl; done || lia).
  rewrite !app_assoc, drop_app_length' by (rewrite !length_app; lia).
  simpl. by rewrite <- !app_assoc.
Qed.

(** The encoder's precondition on aliasing: the data does not live in the buffer
    that is written. *)
Definition no_alias (m : Message) (buf : slice) : Prop :=
  s_len (Data m) = 0 ∨ s_buf (Data m) ≠ s_buf buf.

Lemma bytes_of_no_alias h m buf body :
  no_alias m buf → bytes_of (set_bytes h buf body) (Data m) = bytes_of h (Data m).
Proof.
  intros [E|Hne].
  - unfold bytes_of. by rewrite E.
  - by apply bytes_of_set_ne.
Qed.

Lemma encode_into_spec h m buf :
  slice_ok h buf → slice_ok h (Data m) → no_alias m buf →
  37 + s_len (Data m) ≤ s_len buf →
  encode_into m buf h
  = Done (set_bytes h buf (wire (value_of h m) ++
                           drop (37 + s_len (Data m)) (bytes_of h buf))) ().
Proof.
  intros Hbuf Hdata Hal Hlen. unfold encode_into.
  pose proof (array32_length (Key m)) as Hkey.
  pose proof (length_bytes_of h buf Hbuf) as HB.
  pose proof (length_bytes_of h (Data m) Hdata) as HD.
  assert (s_len buf ≤ s_cap buf) as Hcap by apply Hbuf.
  rewrite <- (set_bytes_id h buf Hbuf) at 1.
  erewrite go_bind_done by (apply index_set_window; window_side).
  erewrite go_bind_done by (apply slice_range_ok; lia).
  erewrite go_bind_done by (apply copy_window; window_side).
  erewrite go_bind_done by (apply slice_range_ok; lia).
  erewrite go_bind_done by (apply put32_window; window_side).
  erewrite go_bind_done by (apply slice_range_ok; lia).
  unfold copy_slice. rewrite bytes_of_no_alias by done.
  rewrite copy_window; [|window_side..].
  f_equal. f_equal. rewrite be32_u32.
  replace (s_len (Data m)) with (length (bytes_of h (Data m))) by done.
  apply header_splices; lia.
Qed.

Lemma encode_window_length h m buf :
  slice_ok h buf → slice_ok h (Data m) → 37 + s_len (Data m) ≤ s_len buf →
  length (wire (value_of h m) ++ drop (37 + s_len (Data m)) (bytes_of h buf))
  = s_len buf.
Proof.
  intros Hbuf Hdata Hlen.
  rewrite length_app, length_wire, length_drop. simpl.
  rewrite !length_bytes_of by done. lia.
Qed.

(** The pure decoder on the layout, followed by any bytes: it gives back the
    message, its data cut at the 32-bit length field. *)
Lemma parse_wire_app mv junk :
  parse_wire (wire mv ++ junk)
  = Ok (MsgVal (mv_handler mv) (mv_key mv)
          (take (Z.to_nat (u32 (Z.of_nat (length (mv_data mv)))))
             (mv_data mv ++ junk))).
Proof.
  destruct mv as [hd k d]. unfold parse_wire. simpl mv_handler; simpl mv_key.
  pose proof (length_wire (MsgVal hd k d)) as Hw. simpl mv_data in *.
  rewrite decide_False by (rewrite length_app; lia).
  pose proof (array32_length k) as Hk.
  assert (wire (MsgVal hd k d) ++ junk
          = [hd] ++ array_bytes k ++ be32 (Z.of_nat (length d)) ++ (d ++ junk)) as E.
  { unfold wire. simpl. by rewrite <- !app_assoc. }
  rewrite E. clear E Hw.
  assert (∀ tl : list byte, drop 33 ([hd] ++ array_bytes k ++ tl) = tl) as D33.
  { intros tl. rewrite app_assoc. by rewrite drop_app_length' by (simpl; lia). }
  assert (∀ v tl, drop 37 ([hd] ++ array_bytes k ++ be32 v ++ tl) = tl) as D37.
  { intros v tl. rewrite (app_assoc _ _ tl), (app_assoc [hd]).
    by rewrite drop_app_length' by (simpl; rewrite length_app; simpl; lia). }
  rewrite D33, D37. rewrite take_app_length' by done.
  rewrite of_be32_be32.
  assert (u32 (Z.of_nat (length d)) ≤ Z.of_nat (length d))%Z as Hle.
  { apply Z.mod_le; lia. }
  rewrite decide_False by (rewrite length_app; lia).
  f_equal. f_equal.
  change (drop 1 ([hd] ++ array_bytes k ++ be32 (Z.of_nat (length d)) ++ d ++ junk))
    with (array_bytes k ++ be32 (Z.of_nat (length d)) ++ d ++ junk).
  rewrite take_app_length' by done. apply array32_of_proj.
Qed.

(** * Encoding *)

Lemma Encode_spec (h : heap) (m : Message) :
  slice_ok h (Data m) →
  let n := length (wire (value_of h m)) in
  Encode m h = Done (h ++ [wire (value_of h m)]) (Ok (Slice (length h) 0 n n)).
Proof.
  intros Hd n. unfold Encode.
  assert (n = Z.to_nat (1 + 32 + 4 + Z.of_nat (s_len (Data m)))) as Hn.
  { unfold n. rewrite length_wire. simpl. rewrite length_bytes_of by done. lia. }
  erewrite go_bind_done by (unfold make_bytes; decide_false; done).
  rewrite <- Hn. set (buf := Slice (length h) 0 n n). set (h0 := h ++ _).
  assert (slice_ok h0 buf) as Hbuf.
  { split; [done|]. simpl. unfold h0. rewrite buf_of_alloc, length_replicate. lia. }
  assert (value_of h0 m = value_of h m) as Hv.
  { unfold value_of, h0. by rewrite bytes_of_alloc. }
  erewrite go_bind_done.
  2: { apply encode_into_spec; [done | by apply slice_ok_alloc | | simpl; lia].
       destruct (decide (s_cap (Data m) = 0)) as [E|];
         [left; destruct Hd; lia | right].
       pose proof (slice_ok_buf h (Data m) Hd ltac:(lia)). simpl. lia. }
  unfold mret, go_ret. f_equal.
  rewrite Hv, drop_ge by (rewrite length_bytes_of by done; simpl; lia).
  rewrite app_nil_r. unfold set_bytes, poke, h0. simpl. rewrite buf_of_alloc.
  rewrite insert_app_r_alt, Nat.sub_diag by done. simpl. f_equal. f_equal.
  unfold splice. simpl. rewrite drop_ge by (rewrite length_replicate; fold n; lia).
  by rewrite app_nil_r.
Qed.

(** [Encode] always succeeds: it leaves every existing buffer alone and
    returns a fresh buffer that holds exactly the wire layout of the message. *)
Theorem Encode_correct (h : heap) (m : Message) :
  slice_ok h (Data m) →
  let n := length (wire (value_of h m)) in
  Encode m h = Done (h ++ [wire (value_of h m)]) (Ok (Slice (length h) 0 n n)).
Proof. apply Encode_spec. Qed.

(** [EncodeWithBuffer] on a buffer that is large enough writes the wire layout at
    the start of the buffer, returns the prefix that holds it as an alias of the
    buffer, keeps the bytes behind it and every slice of another buffer. *)
Theorem EncodeWithBuffer_fits (h : heap) (m : Message) (buf : slice) :
  slice_ok h buf → slice_ok h (Data m) → no_alias m buf →
  37 + s_len (Data m) ≤ s_len buf →
  let n := 37 + s_len (Data m) in
  ∃ h', EncodeWithBuffer m buf h
        = Done h' (Ok (Slice (s_buf buf) (s_off buf) n (s_cap buf))) ∧
    bytes_of h' (Slice (s_buf buf) (s_off buf) n (s_cap buf)) = wire (value_of h m) ∧
    slice_ok h' (Slice (s_buf buf) (s_off buf) n (s_cap buf)) ∧
    drop n (bytes_of h' buf) = drop n (bytes_of h buf) ∧
    (∀ s, s_buf s ≠ s_buf buf → bytes_of h' s = bytes_of h s).
Proof.
  intros Hbuf Hd Hal Hlen n. unfold EncodeWithBuffer. decide_false.
  erewrite go_bind_done by (by apply encode_into_spec).
  assert (s_len buf ≤ s_cap buf) as Hcap by apply Hbuf.
  pose proof (encode_window_length h m buf Hbuf Hd Hlen) as Hw.
  assert (length (wire (value_of h m)) = n) as Hn.
  { rewrite length_wire. simpl. by rewrite length_bytes_of. }
  unfold slice_to. erewrite go_bind_done by (apply slice_range_ok; lia).
  replace (Z.to_nat (_ - 0)) with n by lia. rewrite Z2Nat.inj_0, Nat.add_0_r, Nat.sub_0_r.
  fold n in Hw |- *.
  pose proof (slice_ok_set h buf buf (wire (value_of h m) ++ drop n (bytes_of h buf))
    Hbuf Hw Hbuf) as [Hc1 Hc2].
  eexists. split_and!; [done| |split; [exact (Nat.le_trans _ _ _ Hlen Hcap)|exact Hc2]| |].
  - pose proof (bytes_of_range (set_bytes h buf (wire (value_of h m) ++
      drop n (bytes_of h buf))) buf 0 n (s_cap buf) ltac:(lia)) as Hr.
    rewrite Nat.add_0_r in Hr. rewrite Hr, bytes_of_set, drop_0 by done.
    by apply take_app_length'.
  - rewrite bytes_of_set by done. by apply drop_app_length'.
  - intros s Hs. by apply bytes_of_set_ne.
Qed.

(** [EncodeWithBuffer] rejects a buffer that is too small with the number of
    bytes it needs, and touches no buffer. *)
Theorem EncodeWithBuffer_too_small (h : heap) (m : Message) (buf : slice) :
  s_len buf < 37 + s_len (Data m) →
  EncodeWithBuffer m buf h
  = Done h (Err (Errorf "buffer too small, need at least %d bytes"
                   [AInt (37 + Z.of_nat (s_len (Data m)))])).
Proof. intros H. unfold EncodeWithBuffer. by decide_true. Qed.

(** * Decoding *)

(** The length field of a frame. *)
Definition length_field (bs : list byte) : Z := of_be32 (take 4 (drop 33 bs)).

Lemma length_field_wire mv :
  length_field (wire mv) = u32 (Z.of_nat (length (mv_data mv))).
Proof.
  unfold length_field, wire.
  rewrite skipn_cons, drop_app_length' by (symmetry; apply array32_length).
  by rewrite take_app_length', of_be32_be32.
Qed.

Lemma Decode_unfold h data :
  slice_ok h data → 37 ≤ s_len data →
  Decode data h =
    let bs := bytes_of h data in
    if decide (Z.of_nat (s_len data - 37) < length_field bs)%Z
    then Done h (Err (Errorf "data length mismatch, expected %d bytes but got %d bytes"
                      [AInt (length_field bs); AInt (Z.of_nat (s_len data - 37))]))
    else match slice_range data 37 (u32 (37 + length_field bs)) h with
         | Done h' d => Done h' (Ok (MkMessage (bs !!! 0)
                                     (array32_of (take 32 (drop 1 bs))) d))
         | Panicked p => Panicked p
         | Blocked => Blocked
         end.
Proof.
  intros Hok Hlen. unfold Decode, length_field. destruct Hok as [Hcap _].
  rewrite decide_False by lia.
  erewrite go_bind_done by (apply index_get_ok; lia).
  erewrite go_bind_done by (apply slice_range_ok; lia).
  erewrite go_bind_done by done. cbv beta zeta.
  rewrite bytes_of_range by lia.
  erewrite go_bind_done by (apply slice_range_ok; lia).
  erewrite go_bind_done.
  2: { unfold BigEndian_Uint32. simpl s_len. decide_false.
       rewrite bytes_of_range by lia. done. }
  unfold slice_from. erewrite go_bind_done by (apply slice_range_ok; lia).
  cbn [s_len]. replace (Z.to_nat (Z.of_nat (s_len data) - 37))
    with (s_len data - 37) by lia.
  change (Z.to_nat 1) with 1. change (Z.to_nat 33) with 33.
  change (Z.to_nat (33 - 1)) with 32. change (Z.to_nat (37 - 33)) with 4.
  change (Z.to_nat 0) with 0. cbn [s_len]. case_decide; [done|].
  unfold mbind, go_bind. by destruct (slice_range _ _ _ _).
Qed.

(** The length field fits the 32-bit addition [37 + dataLen]. *)
Definition length_field_fits (bs : list byte) : Prop :=
  (length_field bs < 2 ^ 32 - 37)%Z.

Lemma Decode_parses h data :
  slice_ok h data → 37 ≤ s_len data →
  (length_field (bytes_of h data) ≤ Z.of_nat (s_len data - 37))%Z →
  length_field_fits (bytes_of h data) →
  Decode data h
  = Done h (Ok (MkMessage (bytes_of h data !!! 0)
                  (array32_of (take 32 (drop 1 (bytes_of h data))))
                  (Slice (s_buf data) (s_off data + 37)
                     (Z.to_nat (length_field (bytes_of h data))) (s_cap data - 37)))).
Proof.
  intros Hok Hlen Hn Hfit. rewrite Decode_unfold by done. cbv zeta.
  rewrite decide_False by lia. unfold length_field_fits in Hfit.
  pose proof (of_be32_range (take 4 (drop 33 (bytes_of h data)))) as Hr.
  fold (length_field (bytes_of h data)) in Hr.
  rewrite u32_small by lia.
  rewrite slice_range_ok by (destruct Hok; lia).
  repeat f_equal; lia.
Qed.

Lemma Decode_spec (h : heap) (data : slice) :
  slice_ok h data →
  (length_field_fits (bytes_of h data) ∨
   Z.of_nat (s_len data) < 37 + length_field (bytes_of h data))%Z →
  ∃ r, Decode data h = Done h r ∧
    match r with
    | Ok m => parse_wire (bytes_of h data) = Ok (value_of h m) ∧
              s_buf (Data m) = s_buf data ∧ slice_ok h (Data m)
    | Err e => parse_wire (bytes_of h data) = Err e
    end.
Proof.
  intros Hok Hfit. pose proof (length_bytes_of h data Hok) as HL.
  unfold parse_wire. rewrite HL.
  destruct (decide (s_len data < 37)) as [Hs|Hs].
  { eexists. unfold Decode. by rewrite decide_True by done. }
  rewrite length_drop, HL. fold (length_field (bytes_of h data)).
  pose proof (of_be32_range (take 4 (drop 33 (bytes_of h data)))) as Hr.
  fold (length_field (bytes_of h data)) in Hr.
  destruct (decide (Z.of_nat (s_len data - 37) < length_field (bytes_of h data))%Z)
    as [Hm|Hm].
  { rewrite Decode_unfold by (done || lia). cbv zeta. rewrite decide_True by done.
    by eexists. }
  destruct Hfit as [Hfit|]; [|lia].
  rewrite Decode_parses by (done || lia). eexists. split; [done|].
  split_and!; [| done | destruct Hok; split; simpl; lia].
  unfold value_of. cbn [Handler Key Data].
  rewrite bytes_of_range by lia. done.
Qed.

(** C13: [Decode] implements the pure decoder [parse_wire], branch by branch: unless a
    frame of more than 4 GiB declares a length above [2^32 - 38], it neither
    panics nor changes the heap, it fails exactly when and with the error the
    format prescribes, and the message it returns has the format's handler, key
    and data, the data being an alias of the input. *)
Theorem Decode_refines_format (h : heap) (data : slice) :
  slice_ok h data →
  (length_field_fits (bytes_of h data) ∨
   Z.of_nat (s_len data) < 37 + length_field (bytes_of h data))%Z →
  ∃ r, Decode data h = Done h r ∧
    match r with
    | Ok m => parse_wire (bytes_of h data) = Ok (value_of h m) ∧
              s_buf (Data m) = s_buf data ∧ slice_ok h (Data m)
    | Err e => parse_wire (bytes_of h data) = Err e
    end.
Proof. apply Decode_spec. Qed.

(** A frame of 4 GiB or more whose length field is above [2^32 - 38] and is covered by
    the frame makes [Decode] panic: the slice bound [37+dataLen] wraps around in
    32 bits and ends before 37. *)
Theorem Decode_length_overflow_panics (h : heap) (data : slice) :
  slice_ok h data →
  ¬ length_field_fits (bytes_of h data) →
  (37 + length_field (bytes_of h data) ≤ Z.of_nat (s_len data))%Z →
  Decode data h = Panicked PanicSlice.
Proof.
  unfold length_field_fits. intros Hok Hfit Hlen.
  pose proof (of_be32_range (take 4 (drop 33 (bytes_of h data)))) as Hr.
  fold (length_field (bytes_of h data)) in Hr.
  rewrite Decode_unfold by (done || lia). cbv zeta. rewrite decide_False by lia.
  rewrite slice_range_panic; [done|]. right. left. unfold u32.
  rewrite <- (Z.mod_unique_pos _ (2 ^ 32) 1
    (37 + length_field (bytes_of h data) - 2 ^ 32)); lia.
Qed.

(** C12: Round trip: decoding the buffer [Encode] returns gives back the message, value
    for value, for every message of less than 4 GiB. *)
Theorem Encode_Decode_roundtrip (h : heap) (m : Message) :
  slice_ok h (Data m) → (Z.of_nat (s_len (Data m)) < 2 ^ 32 - 37)%Z →
  ∃ h' buf m', Encode m h = Done h' (Ok buf) ∧
    Decode buf h' = Done h' (Ok m') ∧ value_of h' m' = value_of h m.
Proof.
  intros Hd Hlen. pose proof (Encode_spec h m Hd) as HE. cbv zeta in HE.
  set (w := wire (value_of h m)) in *. set (buf := Slice (length h) 0 _ _) in *.
  set (h' := h ++ [w]) in *.
  assert (slice_ok h' buf ∧ bytes_of h' buf = w) as [Hbuf Hbytes].
  { unfold slice_ok, bytes_of, h', buf. cbn [s_len s_cap s_off s_buf].
    rewrite buf_of_alloc, drop_0, firstn_all.
    split; [lia | done]. }
  pose proof (parse_wire_app (value_of h m) []) as Hp.
  rewrite !app_nil_r in Hp. fold w in Hp. simpl mv_data in Hp.
  rewrite length_bytes_of in Hp by done.
  rewrite u32_small in Hp by lia. rewrite Nat2Z.id, firstn_all2 in Hp
    by (by rewrite length_bytes_of).
  assert (length_field_fits (bytes_of h' buf)) as Hfit.
  { unfold length_field_fits. rewrite Hbytes. unfold w.
    rewrite length_field_wire. simpl mv_data.
    rewrite length_bytes_of by done. rewrite u32_small by lia. lia. }
  destruct (Decode_spec h' buf Hbuf (or_introl Hfit)) as ([m'|e] & HD & Hr);
    rewrite Hbytes, Hp in Hr; [|done].
  exists h', buf, m'. split_and!; [done..|]. destruct Hr as [[= Hr] _].
  destruct m'. unfold value_of in *. simpl in *. congruence.
Qed.
