(* ===== verification/Config.v ===== *)
(** The configuration of [config/]: the sections of the file, the lookups by
    name and by type, addresses, TLS loading and the YAML unmarshalling of the
    transports. *)
From S2P Require Import Prelude GoRuntime Slices Types.
From stdpp Require Import pretty.
From Stdlib Require Import Ascii.

(** * The sections *)

(** [config/logger.go] *)
Record Logger := MkLogger {
  logger_Enabled : bool;
  logger_Environment : string;
  logger_Level : string;
}.

(** [config/pprof.go] *)
Record Pprof := MkPprof {
  pprof_Enabled : bool;
  pprof_Name : string;
  pprof_Addr : string;
}.

(** [config/mdbx.go]; sizes are [int64], permissions [uint]. *)
Record MdbxNode := MkMdbxNode {
  node_Name : string;
  node_Path : string;
  node_MaxReaders : Z;
  node_MaxSize : Z;
  node_MinSize : Z;
  node_GrowthStep : Z;
  node_FilePermissions : Z;
}.

Record MdbxConfig := MkMdbxConfig {
  mdbx_Enabled : bool;
  mdbx_Nodes : list MdbxNode;
}.

(** [config/transports.go] and [config/udp.go]: TLS and DTLS have the same
    fields. *)
Record TLS := MkTLS {
  tls_Insecure : bool;
  tls_Cert : string;
  tls_Key : string;
  tls_RootCA : string;
}.

Record DTLS := MkDTLS {
  dtls_Cert : string;
  dtls_Key : string;
  dtls_RootCA : string;
  dtls_Insecure : bool;
}.

Record DummyTransport := MkDummy {
  dummy_Type : TransportType;
  dummy_Enabled : bool;
  dummy_IPv4 : string;
  dummy_Port : Z;
  dummy_TLS : TLS;
}.

Record QuicTransport := MkQuic {
  quic_Type : TransportType;
  quic_Enabled : bool;
  quic_IPv4 : string;
  quic_Port : Z;
  quic_TLS : TLS;
}.

Record UdsTransport := MkUds {
  uds_Type : TransportType;
  uds_Enabled : bool;
  uds_Socket : string;
}.

Record TcpTransport := MkTcp {
  tcp_Type : TransportType;
  tcp_Enabled : bool;
  tcp_IPv4 : string;
  tcp_Port : Z;
  tcp_TLS : option TLS;
}.

Record UdpTransport := MkUdp {
  udp_Type : TransportType;
  udp_Enabled : bool;
  udp_IPv4 : string;
  udp_Port : Z;
  udp_DTLS : option DTLS;
}.

(** The dynamic value of a [TransportConfig] interface: nil, or a pointer to one
    of the five structures of the package. *)
Inductive TransportConfig :=
  | NilConfig
  | DummyConfig (c : DummyTransport)
  | QuicConfig (c : QuicTransport)
  | UdsConfig (c : UdsTransport)
  | TcpConfig (c : TcpTransport)
  | UdpConfig (c : UdpTransport).

Record Transport := MkTransport {
  transport_Type : TransportType;
  transport_Enabled : bool;
  transport_Config : TransportConfig;
}.

(** [config/config.go] *)
Record Config := MkConfig {
  cfg_Logger : Logger;
  cfg_Transports : list Transport;
  cfg_Mdbx : MdbxConfig;
  cfg_Pprof : list Pprof;
}.

(** [c.Validate()] accepts every configuration. *)
Definition Config_Validate (c : Config) : option error := None.

(** [LoadConfig(filename)]: the file system and the YAML library's decoding of the
    bytes are parameters. *)
Definition LoadConfig (os_ReadFile : string → res (list byte))
    (yaml_Unmarshal : list byte → res Config) (filename : string) : res Config :=
  match os_ReadFile filename with
  | Err e => Err (Wrap e "failed to read config file: %w")
  | Ok data =>
      match yaml_Unmarshal data with
      | Err e => Err (Wrap e "failed to unmarshal yaml: %w")
      | Ok rawConfig =>
          match Config_Validate rawConfig with
          | Some e => Err (Wrap e "invalid configuration: %w")
          | None => Ok rawConfig
          end
      end
  end.

(** * Lookups *)

Fixpoint find_transport (tt : TransportType) (ts : list Transport) : option Transport :=
  match ts with
  | [] => None
  | t :: ts => if decide (transport_Type t = tt) then Some t else find_transport tt ts
  end.

Definition GetTransportByType (c : Config) (transportType : TransportType)
    : option Transport := find_transport transportType (cfg_Transports c).

Fixpoint find_node (name : string) (ns : list MdbxNode) : option MdbxNode :=
  match ns with
  | [] => None
  | n :: ns => if decide (node_Name n = name) then Some n else find_node name ns
  end.

Definition GetMdbxNodeByName (c : Config) (name : string) : option MdbxNode :=
  find_node name (mdbx_Nodes (cfg_Mdbx c)).

Fixpoint find_pprof (service : string) (ps : list Pprof) : res Pprof :=
  match ps with
  | [] => Err (Errorf "could not discover pprof service by tag: %s" [AStr service])
  | p :: ps => if decide (pprof_Name p = service) then Ok p else find_pprof service ps
  end.

Definition GetPprofByServiceTag (c : Config) (service : string) : res Pprof :=
  find_pprof service (cfg_Pprof c).

(** * Addresses *)

(** [fmt.Sprintf("%s:%d", ip, port)] *)
Definition sprintf_addr (ip : string) (port : Z) : string := ip +:+ ":" +:+ pretty port.

Definition DummyTransport_Addr (q : DummyTransport) := sprintf_addr (dummy_IPv4 q) (dummy_Port q).
Definition QuicTransport_Addr (q : QuicTransport) := sprintf_addr (quic_IPv4 q) (quic_Port q).
Definition UdsTransport_Addr (u : UdsTransport) := uds_Socket u.
Definition TcpTransport_Addr (t : TcpTransport) := sprintf_addr (tcp_IPv4 t) (tcp_Port t).
Definition UdpTransport_Addr (t : UdpTransport) := sprintf_addr (udp_IPv4 t) (udp_Port t).

Definition QuicTransport_GetTransportType (q : QuicTransport) : TransportType := quic_Type q.
Definition UdsTransport_GetTransportType (u : UdsTransport) : TransportType := uds_Type u.
Definition TcpTransport_GetTransportType (t : TcpTransport) : TransportType := tcp_Type t.
Definition UdpTransport_GetTransportType (u : UdpTransport) : TransportType := udp_Type u.

(** The [GetTransportType] method through the interface: a nil interface has no
    method table. *)
Definition GetTransportType {S} (t : TransportConfig) : Go S TransportType :=
  match t with
  | NilConfig => go_panic PanicNil
  | DummyConfig c => mret (dummy_Type c)
  | QuicConfig c => mret (QuicTransport_GetTransportType c)
  | UdsConfig c => mret (UdsTransport_GetTransportType c)
  | TcpConfig c => mret (TcpTransport_GetTransportType c)
  | UdpConfig c => mret (UdpTransport_GetTransportType c)
  end.

(** * TLS *)

(** What the TLS code asks of the file system and of [crypto]. *)
Class TlsEnv := {
  Certificate : Type;
  CertPool : Type;
  os_missing : string → bool;                       (* os.IsNotExist of os.Stat *)
  LoadX509KeyPair : string → string → res Certificate;
  os_ReadFile : string → res (list byte);
  AppendCertsFromPEM : list byte → option CertPool;
}.

(** The fields of [tls.Config] the code sets. *)
Record tls_Config `{TlsEnv} := MkTlsConfig {
  InsecureSkipVerify : bool;
  Certificates : list Certificate;
  NextProtos : list string;
  RootCAs : option CertPool;
}.

Section tls.
Context `{TlsEnv}.

(** Loading the root CA of a configuration, common to the three loaders. *)
Definition load_root_ca (rootCA : string) (cfg : tls_Config) : res tls_Config :=
  if decide (rootCA = EmptyString) then Ok cfg
  else
    match os_ReadFile rootCA with
    | Err e => Err (Wrap e "failed to read root CA file: %w")
    | Ok pem =>
        match AppendCertsFromPEM pem with
        | None => Err (Errorf "failed to append root CA certificates" [])
        | Some pool =>
            Ok (MkTlsConfig _ (InsecureSkipVerify cfg) (Certificates cfg)
                  (NextProtos cfg) (Some pool))
        end
    end.

Definition load_key_pair (cert key : string) : res Certificate :=
  if os_missing cert then Err (Errorf "certificate file does not exist: %s" [AStr cert])
  else if os_missing key then Err (Errorf "key file does not exist: %s" [AStr key])
  else match LoadX509KeyPair cert key with
       | Err e => Err (Wrap e "failed to load certificate and key: %w")
       | Ok c => Ok c
       end.

Definition DummyTransport_GetTLSConfig (q : DummyTransport) : res tls_Config :=
  Ok (MkTlsConfig _ true [] [] None).

Definition QuicTransport_GetTLSConfig (q : QuicTransport) : res tls_Config :=
  cert ← load_key_pair (tls_Cert (quic_TLS q)) (tls_Key (quic_TLS q));
  load_root_ca (tls_RootCA (quic_TLS q))
    (MkTlsConfig _ false [cert] ["quic-example"] None).

Definition TcpTransport_GetTLSConfig (t : TcpTransport) : res (option tls_Config) :=
  match tcp_TLS t with
  | None => Ok None
  | Some tls =>
      cert ← load_key_pair (tls_Cert tls) (tls_Key tls);
      Some <$> load_root_ca (tls_RootCA tls)
        (MkTlsConfig _ (tls_Insecure tls) [cert] [] None)
  end.

Definition UdpTransport_GetDTLSConfig (t : UdpTransport) : res (option tls_Config) :=
  match udp_DTLS t with
  | None => Ok None
  | Some tls =>
      cert ← load_key_pair (dtls_Cert tls) (dtls_Key tls);
      Some <$> load_root_ca (dtls_RootCA tls)
        (MkTlsConfig _ (dtls_Insecure tls) [cert] [] None)
  end.
End tls.

(** * YAML *)

(** The YAML library: decoding a node into one of the anonymous structures of the
    package, and into a value whose type has an [UnmarshalYAML] method. *)
Class Yaml := {
  Node : Type;
  decode_common : Node → res (TransportType * bool * Node);
  decode_ip_tls : Node → res (TransportType * bool * string * Z * TLS);
  decode_ip_opt_tls : Node → res (TransportType * bool * string * Z * option TLS);
  decode_ip_dtls : Node → res (TransportType * bool * string * Z * option DTLS);
  decode_socket : Node → res (TransportType * bool * string);
  Node_Decode {A : Type} : (Node → res A) → Node → res A;
}.

Section yaml.
Context `{Yaml}.

(** [errors] of a decoding step, wrapped with the message of the caller. *)
Definition wrap_err {A} (msg : string) (r : res A) : res A :=
  match r with Ok a => Ok a | Err e => Err (Wrap e msg) end.

Definition DummyTransport_UnmarshalYAML (value : Node) : res DummyTransport :=
  aux ← wrap_err "failed to unmarshal dummy transport fields: %w" (decode_ip_tls value);
  let '(ty, enabled, ipv4, port, tls) := aux in
  mret (MkDummy ty enabled ipv4 port tls).

Definition QuicTransport_UnmarshalYAML (value : Node) : res QuicTransport :=
  aux ← wrap_err "failed to unmarshal QUIC transport fields: %w" (decode_ip_tls value);
  let '(ty, enabled, ipv4, port, tls) := aux in
  mret (MkQuic ty enabled ipv4 port tls).

Definition UdsTransport_UnmarshalYAML (value : Node) : res UdsTransport :=
  aux ← wrap_err "failed to unmarshal UDS transport fields: %w" (decode_socket value);
  let '(ty, enabled, socket) := aux in
  mret (MkUds ty enabled socket).

Definition TcpTransport_UnmarshalYAML (value : Node) : res TcpTransport :=
  aux ← wrap_err "failed to unmarshal TCP transport fields: %w" (decode_ip_opt_tls value);
  let '(ty, enabled, ipv4, port, tls) := aux in
  mret (MkTcp ty enabled ipv4 port tls).

Definition UdpTransport_UnmarshalYAML (value : Node) : res UdpTransport :=
  aux ← wrap_err "failed to unmarshal UDP transport fields: %w" (decode_ip_dtls value);
  let '(ty, enabled, ipv4, port, dtls) := aux in
  mret (MkUdp ty enabled ipv4 port dtls).

(** [t.UnmarshalYAML(value)] of [config/transports.go]: the common fields, then
    the nested node by transport type; the type of the nested configuration is
    overwritten with the transport's. *)
Definition Transport_UnmarshalYAML (value : Node) : res Transport :=
  aux ← wrap_err "failed to unmarshal common transport fields: %w" (decode_common value);
  let '(ty, enabled, node) := aux in
  if decide (ty = DummyTransportType) then
    c ← wrap_err "failed to unmarshal dummy transport config: %w"
          (Node_Decode DummyTransport_UnmarshalYAML node);
    mret (MkTransport ty enabled (DummyConfig
      (MkDummy DummyTransportType (dummy_Enabled c) (dummy_IPv4 c) (dummy_Port c) (dummy_TLS c))))
  else if decide (ty = UDSTransportType) then
    c ← wrap_err "failed to unmarshal UDS transport config: %w"
          (Node_Decode UdsTransport_UnmarshalYAML node);
    mret (MkTransport ty enabled (UdsConfig
      (MkUds UDSTransportType (uds_Enabled c) (uds_Socket c))))
  else if decide (ty = QUICTransportType) then
    c ← wrap_err "failed to unmarshal QUIC transport config: %w"
          (Node_Decode QuicTransport_UnmarshalYAML node);
    mret (MkTransport ty enabled (QuicConfig
      (MkQuic QUICTransportType (quic_Enabled c) (quic_IPv4 c) (quic_Port c) (quic_TLS c))))
  else if decide (ty = TCPTransportType) then
    c ← wrap_err "failed to unmarshal TCP transport config: %w"
          (Node_Decode TcpTransport_UnmarshalYAML node);
    mret (MkTransport ty enabled (TcpConfig
      (MkTcp TCPTransportType (tcp_Enabled c) (tcp_IPv4 c) (tcp_Port c) (tcp_TLS c))))
  else if decide (ty = UDPTransportType) then
    c ← wrap_err "failed to unmarshal UDP transport config: %w"
          (Node_Decode UdpTransport_UnmarshalYAML node);
    mret (MkTransport ty enabled (UdpConfig
      (MkUdp UDPTransportType (udp_Enabled c) (udp_IPv4 c) (udp_Port c) (udp_DTLS c))))
  else Err (Errorf "unsupported transport type: %s" [AStr (TransportType_String ty)]).
End yaml.

(** * The type invariant of a transport configuration *)

(** The dynamic type of the nested configuration is the one the [Type] field
    names, and the nested [Type] field repeats it. *)
Definition transport_typed (t : Transport) : Prop :=
  match transport_Config t with
  | NilConfig => False
  | DummyConfig c => transport_Type t = DummyTransportType ∧ dummy_Type c = DummyTransportType
  | QuicConfig c => transport_Type t = QUICTransportType ∧ quic_Type c = QUICTransportType
  | UdsConfig c => transport_Type t = UDSTransportType ∧ uds_Type c = UDSTransportType
  | TcpConfig c => transport_Type t = TCPTransportType ∧ tcp_Type c = TCPTransportType
  | UdpConfig c => transport_Type t = UDPTransportType ∧ udp_Type c = UDPTransportType
  end.

Lemma res_bind_ok {A B} (r : res A) (k : A → res B) b :
  (r ≫= k) = Ok b ↔ ∃ a, r = Ok a ∧ k a = Ok b.
Proof.
  destruct r; simpl; (split; [intros Hr; eauto; discriminate|]);
    intros (a' & Ha & Hk); congruence.
Qed.

(** C40: Whatever the YAML library decodes, a transport that [UnmarshalYAML] accepts
    carries a configuration whose dynamic type and nested [Type] field agree with
    its [Type], so it is never a nil interface. *)
Theorem Transport_UnmarshalYAML_typed `{Yaml} (value : Node) (t : Transport) :
  Transport_UnmarshalYAML value = Ok t → transport_typed t.
Proof.
  unfold Transport_UnmarshalYAML.
  intros (((ty & enabled) & node) & _ & Ht)%res_bind_ok.
  repeat case_decide; try discriminate;
    apply res_bind_ok in Ht as (c & _ & [= <-]); done.
Qed.

(** * Lookups: the first match wins *)

Lemma find_pprof_spec service ps p :
  find_pprof service ps = Ok p ↔
  ∃ ps1 ps2, ps = ps1 ++ p :: ps2 ∧ pprof_Name p = service ∧
             Forall (λ q, pprof_Name q ≠ service) ps1.
Proof.
  induction ps as [|q ps IH]; simpl.
  { split; [done | intros ([] & ? & ? & _); discriminate]. }
  case_decide as Hq.
  - split.
    + intros [= ->]. by exists [], ps.
    + intros ([|q' ps1] & ps2 & [= -> ->] & Hp & Hall); [done|].
      apply Forall_cons in Hall as [? _]. done.
  - rewrite IH. split.
    + intros (ps1 & ps2 & -> & ? & ?). exists (q :: ps1), ps2. auto using Forall_cons_2.
    + intros ([|q' ps1] & ps2 & [= -> ->] & ? & Hall); [done|].
      apply Forall_cons in Hall as [_ ?]. eauto.
Qed.

(** [GetPprofByServiceTag] returns the first section of that name, and fails with
    the name it looked for exactly when no section has it. *)
Theorem GetPprofByServiceTag_spec (c : Config) (service : string) :
  match GetPprofByServiceTag c service with
  | Ok p => ∃ ps1 ps2, cfg_Pprof c = ps1 ++ p :: ps2 ∧ pprof_Name p = service ∧
                       Forall (λ q, pprof_Name q ≠ service) ps1
  | Err e => e = Errorf "could not discover pprof service by tag: %s" [AStr service] ∧
             Forall (λ q, pprof_Name q ≠ service) (cfg_Pprof c)
  end.
Proof.
  unfold GetPprofByServiceTag. destruct (find_pprof _ _) as [p|e] eqn:E.
  { by apply find_pprof_spec. }
  revert E. induction (cfg_Pprof c) as [|q ps IH]; simpl.
  - intros [= <-]. auto.
  - case_decide; [done|]. intros [-> ?]%IH. auto.
Qed.

(** * Addresses determine the endpoint *)

Definition colon_free (s : string) : Prop :=
  Forall (λ c, c ≠ ":"%char) (String.list_ascii_of_string s).

Lemma colon_free_pretty_N_go x s : colon_free s → colon_free (pretty_N_go x s).
Proof.
  revert s. induction (N.lt_wf_0 x) as [x _ IH]; intros s Hs.
  assert (x = 0 ∨ 0 < x)%N as [->|?] by lia; [by rewrite pretty_N_go_0|].
  rewrite pretty_N_go_step by done. apply IH; [by apply N.div_lt|].
  constructor; [|done]. unfold pretty_N_char. by repeat case_match.
Qed.

Lemma colon_free_pretty (z : Z) : colon_free (pretty z).
Proof.
  assert (∀ n : N, colon_free (pretty n)) as HN.
  { intros n. unfold pretty, pretty_N. case_decide; [by repeat constructor|].
    apply colon_free_pretty_N_go. constructor. }
  destruct z; [by repeat constructor | apply (HN (Npos p)) |].
  constructor; [done | apply (HN (Npos p))].
Qed.

Lemma list_ascii_app s1 s2 :
  String.list_ascii_of_string (s1 +:+ s2)
  = String.list_ascii_of_string s1 ++ String.list_ascii_of_string s2.
Proof. induction s1 as [|a s1 IH]; simpl; [done | by rewrite IH]. Qed.

Lemma last_sep_inj {A} (sep : A) l1 l2 d1 d2 :
  Forall (λ c, c ≠ sep) d1 → Forall (λ c, c ≠ sep) d2 →
  l1 ++ sep :: d1 = l2 ++ sep :: d2 → l1 = l2 ∧ d1 = d2.
Proof.
  intros H1 H2. revert l2. induction l1 as [|x l1 IH]; intros [|y l2] E; simplify_eq/=.
  - done.
  - by apply Forall_app in H1 as [_ [? ?]%Forall_cons].
  - by apply Forall_app in H2 as [_ [? ?]%Forall_cons].
  - naive_solver.
Qed.

(** Two transports with the same address string bind the same endpoint: the
    string determines both the IP text and the port. *)
Theorem sprintf_addr_inj (ip1 ip2 : string) (port1 port2 : Z) :
  sprintf_addr ip1 port1 = sprintf_addr ip2 port2 → ip1 = ip2 ∧ port1 = port2.
Proof.
  unfold sprintf_addr. intros E%(f_equal String.list_ascii_of_string).
  rewrite !list_ascii_app in E. simpl in E.
  apply last_sep_inj in E as [E1 E2]; [|apply colon_free_pretty..].
  apply (f_equal String.string_of_list_ascii) in E1, E2.
  rewrite !String.string_of_list_ascii_of_string in E1, E2.
  split; [done | by apply (inj pretty)].
Qed.

(** [LoadConfig] accepts every file that can be read and decoded. *)
Lemma LoadConfig_ok os_ReadFile yaml_Unmarshal filename cfg :
  LoadConfig os_ReadFile yaml_Unmarshal filename = Ok cfg ↔
  ∃ data, os_ReadFile filename = Ok data ∧ yaml_Unmarshal data = Ok cfg.
Proof.
  unfold LoadConfig. destruct (os_ReadFile filename) as [data|e].
  - split.
    + destruct (yaml_Unmarshal data) eqn:E; [|done]. intros [= <-]. eauto.
    + intros (d & [= <-] & ->). done.
  - split; [done | by intros (? & ? & _)].
Qed.
