(* ===== verification/Mdbx.v ===== *)
(** The interface of the [mdbx-go] library and of the file removal the database
    code relies on: the operations as a class, their documented behaviour as a
    second class, and an in-memory instance of both. *)
From S2P Require Import Prelude GoRuntime.

Abbreviation store := (gmap (list byte) (list byte)).

(** * The operations

    The library is not part of the repository: its types are opaque and its
    operations transform an opaque state that holds every environment and the
    files behind them. A transaction function returns a value or an error; the
    value stands for the variables the Go closure assigns. *)
Class Mdbx := {
  mdbx_state : Type;
  Env : Type;
  DBI : Type;
  Txn : Type;
  Cursor : Type;

  mdbx_Create : Z;
  mdbx_OptMaxReaders : Z;
  mdbx_ErrNotFound : error;

  mdbx_NewEnv : mdbx_state → mdbx_state * res Env;
  env_SetGeometry (e : Env)
      (sizeLower sizeNow sizeUpper growthStep shrinkThreshold pageSize : Z) :
    mdbx_state → mdbx_state * option error;
  env_SetOption (e : Env) (opt value : Z) :
    mdbx_state → mdbx_state * option error;
  env_Open (e : Env) (path : string) (flags mode : Z) :
    mdbx_state → mdbx_state * option error;
  env_Close (e : Env) : mdbx_state → mdbx_state;
  env_Update {A : Type} (e : Env) (fn : Txn → Txn * res A) :
    mdbx_state → mdbx_state * res A;
  env_View {A : Type} (e : Env) (fn : Txn → res A) :
    mdbx_state → mdbx_state * res A;

  txn_OpenRoot (flags : Z) (t : Txn) : Txn * res DBI;
  txn_OpenCursor (d : DBI) (t : Txn) : Txn * res Cursor;
  cursor_Put (c : Cursor) (k v : list byte) (flags : Z) (t : Txn) :
    Txn * option error;
  cursor_Close (c : Cursor) (t : Txn) : Txn;
  txn_Get (d : DBI) (k : list byte) (t : Txn) : res (list byte);
  txn_Del (d : DBI) (k : list byte) (v : option (list byte)) (t : Txn) :
    Txn * option error;

  os_RemoveAll (path : string) : mdbx_state → mdbx_state * option error;
}.

(** * The documented behaviour

    A transaction sees the committed contents of its environment. [Update]
    commits when its function returns nil and otherwise leaves the environment as
    it was; it may also fail to begin or to commit. [Put] with flags 0 inserts or
    overwrites, [Get] answers [ErrNotFound] for a missing key and for no other
    reason: a transaction that cannot begin reports another error. *)
Class MdbxLaws `{Mdbx} := {
  env_view : mdbx_state → Env → DBI → store;
  txn_view : Txn → DBI → store;
  cursor_dbi : Cursor → DBI;

  env_Update_law {A} e (fn : Txn → Txn * res A) m m' r :
    env_Update e fn m = (m', r) →
    (∃ err, r = Err err ∧ ∀ e' d, env_view m' e' d = env_view m e' d) ∨
    (∃ t t' a, (∀ d, txn_view t d = env_view m e d) ∧ fn t = (t', Ok a) ∧
       r = Ok a ∧ (∀ d, env_view m' e d = txn_view t' d) ∧
       ∀ e' d, e' ≠ e → env_view m' e' d = env_view m e' d);
  env_View_law {A} e (fn : Txn → res A) m m' r :
    env_View e fn m = (m', r) →
    (∀ e' d, env_view m' e' d = env_view m e' d) ∧
    ((∃ err, r = Err err ∧ errors_Is err mdbx_ErrNotFound = false) ∨
     ∃ t, (∀ d, txn_view t d = env_view m e d) ∧ r = fn t);

  txn_OpenCursor_law d t t' c :
    txn_OpenCursor d t = (t', Ok c) →
    cursor_dbi c = d ∧ ∀ d', txn_view t' d' = txn_view t d';
  cursor_Put_law c k v t t' :
    cursor_Put c k v 0 t = (t', None) →
    txn_view t' (cursor_dbi c) = <[k := v]> (txn_view t (cursor_dbi c)) ∧
    ∀ d, d ≠ cursor_dbi c → txn_view t' d = txn_view t d;
  cursor_Close_law c t d : txn_view (cursor_Close c t) d = txn_view t d;
  txn_Get_ok d k t v : txn_Get d k t = Ok v → txn_view t d !! k = Some v;
  txn_Get_missing d k t e :
    txn_Get d k t = Err e → errors_Is e mdbx_ErrNotFound = true →
    txn_view t d !! k = None;
  txn_Del_law d k t t' :
    txn_Del d k None t = (t', None) →
    txn_view t' d = delete k (txn_view t d) ∧
    ∀ d', d' ≠ d → txn_view t' d' = txn_view t d';
}.

(** A library none of whose operations on a live environment fail. *)
Class MdbxReliable `{MdbxLaws} := {
  env_live : mdbx_state → Env → Prop;
  env_Update_live {A} e (fn : Txn → Txn * res A) m e' :
    env_live m e' → env_live (env_Update e fn m).1 e';
  env_Update_ok {A} e (fn : Txn → Txn * res A) m :
    env_live m e →
    (∀ t, ∃ t' a, fn t = (t', Ok a)) →
    ∃ m' a, env_Update e fn m = (m', Ok a);
  env_View_ok {A} e (fn : Txn → res A) m :
    env_live m e →
    ∃ m' t, (∀ d, txn_view t d = env_view m e d) ∧ env_View e fn m = (m', fn t);
  txn_OpenCursor_ok d t : ∃ t' c, txn_OpenCursor d t = (t', Ok c);
  cursor_Put_ok c k v t : ∃ t', cursor_Put c k v 0 t = (t', None);
  txn_Get_total d k t :
    txn_Get d k t =
      match txn_view t d !! k with
      | Some v => Ok v
      | None => Err mdbx_ErrNotFound
      end;
}.

(** * An in-memory instance

    One store per environment; [limit] bounds the number of keys, beyond which a
    [Put] of a new key fails as MDBX does when the map is full. *)
Module MemMdbx.
Record state := MemState { next : nat; envs : gmap nat store }.

Definition update {A} (e : nat) (fn : store → store * res A) (m : state)
    : state * res A :=
  match envs m !! e with
  | None => (m, Err (External "mdbx" "EINVAL"))
  | Some s =>
      match fn s with
      | (s', Ok a) => (MemState (next m) (<[e := s']> (envs m)), Ok a)
      | (_, Err err) => (m, Err err)
      end
  end.

Definition view {A} (e : nat) (fn : store → res A) (m : state) : state * res A :=
  match envs m !! e with
  | None => (m, Err (External "mdbx" "EINVAL"))
  | Some s => (m, fn s)
  end.

Definition put (limit : option nat) (k v : list byte) (s : store)
    : store * option error :=
  match s !! k, limit with
  | None, Some n =>
      if decide (n ≤ size s) then (s, Some (External "mdbx" "MapFull"))
      else (<[k := v]> s, None)
  | _, _ => (<[k := v]> s, None)
  end.

Definition get (k : list byte) (s : store) : res (list byte) :=
  match s !! k with
  | Some v => Ok v
  | None => Err (External "mdbx" "NotFound")
  end.

#[export] Instance ops (limit : option nat) : Mdbx := {|
  mdbx_state := state; Env := nat; DBI := unit; Txn := store; Cursor := unit;
  mdbx_Create := 0x40000; mdbx_OptMaxReaders := 1;
  mdbx_ErrNotFound := External "mdbx" "NotFound";
  mdbx_NewEnv m := (MemState (S (next m)) (<[next m := ∅]> (envs m)), Ok (next m));
  env_SetGeometry _ _ _ _ _ _ _ m := (m, None);
  env_SetOption _ _ _ m := (m, None);
  env_Open _ _ _ _ m := (m, None);
  env_Close e m := MemState (next m) (delete e (envs m));
  env_Update := @update;
  env_View := @view;
  txn_OpenRoot _ s := (s, Ok tt);
  txn_OpenCursor _ s := (s, Ok tt);
  cursor_Put _ k v _ s := put limit k v s;
  cursor_Close _ s := s;
  txn_Get _ k s := get k s;
  txn_Del _ k _ s :=
    match s !! k with
    | Some _ => (delete k s, None)
    | None => (s, Some (External "mdbx" "NotFound"))
    end;
  os_RemoveAll _ m := (m, None);
|}.

Definition env_contents (m : state) (e : nat) (_ : unit) : store :=
  default ∅ (envs m !! e).

Lemma update_law {A} (e : nat) (fn : store → store * res A) (m m' : state) r :
  update e fn m = (m', r) →
  (∃ err, r = Err err ∧ ∀ e' d, env_contents m' e' d = env_contents m e' d) ∨
  (∃ t t' a, (∀ d, t = env_contents m e d) ∧ fn t = (t', Ok a) ∧ r = Ok a ∧
     (∀ d, env_contents m' e d = t') ∧
     ∀ e' d, e' ≠ e → env_contents m' e' d = env_contents m e' d).
Proof.
  unfold update, env_contents.
  destruct (envs m !! e) as [s|] eqn:E; [|intros [= <- <-]; left; eauto].
  destruct (fn s) as [s' [a|err]] eqn:F; intros [= <- <-]; [right|left; eauto].
  exists s, s', a. simpl. rewrite lookup_insert_eq. split_and!; [done..|].
  intros e' d Hne. by rewrite lookup_insert_ne.
Qed.

Lemma view_law {A} (e : nat) (fn : store → res A) (m m' : state) r :
  view e fn m = (m', r) →
  (∀ e' d, env_contents m' e' d = env_contents m e' d) ∧
  ((∃ err, r = Err err ∧ errors_Is err (External "mdbx" "NotFound") = false) ∨
   ∃ t, (∀ d, t = env_contents m e d) ∧ r = fn t).
Proof.
  unfold view, env_contents.
  destruct (envs m !! e) as [s|] eqn:E; intros [= <- <-]; split; eauto.
Qed.

Lemma put_law limit k v s s' : put limit k v s = (s', None) → s' = <[k := v]> s.
Proof.
  unfold put. destruct (s !! k), limit; try case_decide; congruence.
Qed.

#[export] Program Instance laws (limit : option nat) : @MdbxLaws (ops limit) := {|
  env_view := env_contents;
  txn_view s _ := s;
  cursor_dbi c := c;
|}.
Next Obligation. intros limit A. apply update_law. Qed.
Next Obligation. intros limit A. apply view_law. Qed.
Next Obligation. intros limit [] s s' [] [= ->]. done. Qed.
Next Obligation.
  intros limit [] k v s s' H. apply put_law in H. split; [done | by intros []].
Qed.
Next Obligation. done. Qed.
Next Obligation.
  intros limit [] k s v. simpl. unfold get. case_match; congruence.
Qed.
Next Obligation.
  intros limit [] k s e. simpl. unfold get. case_match; congruence.
Qed.
Next Obligation.
  intros limit [] k s s'. simpl. case_match; intros [= <-].
  split; [done | by intros []].
Qed.

Lemma update_live {A} (e e' : nat) (fn : store → store * res A) (m : state) :
  is_Some (envs m !! e') → is_Some (envs (update e fn m).1 !! e').
Proof.
  intros [s Hs]. unfold update.
  destruct (envs m !! e); [|eauto]. destruct (fn _) as [? []]; [|eauto].
  simpl. rewrite lookup_insert. case_decide; eauto.
Qed.

Lemma update_ok {A} (e : nat) (fn : store → store * res A) (m : state) :
  is_Some (envs m !! e) → (∀ t, ∃ t' a, fn t = (t', Ok a)) →
  ∃ m' a, update e fn m = (m', Ok a).
Proof.
  intros [s Hs] Hfn. unfold update. rewrite Hs.
  destruct (Hfn s) as (s' & a & ->). eauto.
Qed.

Lemma view_ok {A} (e : nat) (fn : store → res A) (m : state) :
  is_Some (envs m !! e) →
  ∃ m' t, (∀ d, t = env_contents m e d) ∧ view e fn m = (m', fn t).
Proof.
  intros [s Hs]. unfold view, env_contents. rewrite Hs. by exists m, s.
Qed.

Lemma put_ok k v s : ∃ s', put None k v s = (s', None).
Proof. unfold put. destruct (s !! k); eauto. Qed.

#[export] Program Instance reliable : @MdbxReliable (ops None) (laws None) := {|
  env_live m e := is_Some (envs m !! e);
|}.
Next Obligation. intros A e fn m e'. apply update_live. Qed.
Next Obligation. intros A. apply update_ok. Qed.
Next Obligation. intros A. apply view_ok. Qed.
Next Obligation. intros [] s. simpl. eauto. Qed.
Next Obligation. intros [] k v s. apply put_ok. Qed.
Next Obligation. done. Qed.

Definition init : state := MemState 0 ∅.
End MemMdbx.
