(* ===== verification/Database.v ===== *)
(** The database layer of [db/]: the [Provider] interface with its contract, the
    MDBX-backed [Db] that implements it, and the [Manager] of named databases. *)
From S2P Require Import Prelude GoRuntime Slices Types Config Mdbx.

(** * The Provider interface *)

(** The methods of [db.Provider], on a state [St] shared by all databases. *)
Class Provider (St P : Type) := {
  prov_Set (p : P) (key value : list byte) : St → St * option error;
  prov_Get (p : P) (key : list byte) : St → St * res (list byte);
  prov_Exists (p : P) (key : list byte) : St → St * res bool;
  prov_Delete (p : P) (key : list byte) : St → St * option error;
  prov_Close (p : P) : St → St * option error;
  prov_Destroy (p : P) : St → St * option error;
}.

(** The contract the comments of [db/provider.go] give: a database is a map from
    keys to values, a failed operation does not change it. *)
Class ProviderLaws (St P : Type) `{Provider St P} := {
  contents : St → P → store;
  prov_Set_ok p k v s s' :
    prov_Set p k v s = (s', None) → contents s' p = <[k := v]> (contents s p);
  prov_Set_err p k v s s' e :
    prov_Set p k v s = (s', Some e) → contents s' p = contents s p;
  prov_Get_frame p k s s' r :
    prov_Get p k s = (s', r) → contents s' p = contents s p;
  prov_Get_ok p k s s' v :
    prov_Get p k s = (s', Ok v) → contents s p !! k = Some v;
  prov_Exists_frame p k s s' r :
    prov_Exists p k s = (s', r) → contents s' p = contents s p;
  prov_Exists_true p k s s' :
    prov_Exists p k s = (s', Ok true) → is_Some (contents s p !! k);
  prov_Exists_false p k s s' :
    prov_Exists p k s = (s', Ok false) → contents s p !! k = None;
  prov_Delete_ok p k s s' :
    prov_Delete p k s = (s', None) → contents s' p = delete k (contents s p);
  prov_Delete_err p k s s' e :
    prov_Delete p k s = (s', Some e) → contents s' p = contents s p;
}.

(** * The MDBX database *)

Section db.
Context `{Mdbx}.

Record Db := MkDb { db_opts : MdbxNode; db_env : Env; db_dbi : DBI }.

(** The getters. *)
Definition GetEnv (db : Db) : Env := db_env db.
Definition GetDBI (db : Db) : DBI := db_dbi db.

(** A Go error as the result of a transaction function without value. *)
Definition err_res (e : option error) : res () :=
  match e with None => Ok () | Some e => Err e end.
Definition res_err {A} (r : res A) : option error :=
  match r with Ok _ => None | Err e => Some e end.

(** [opts.MaxSize * 1024 * 1024 * 1024] in [int64]. *)
Definition gib_bytes (size : Z) : Z := i64 (i64 (i64 (size * 1024) * 1024) * 1024).

Definition u64 (z : Z) : Z := (z mod 2 ^ 64)%Z.

(** The bounds [NewDb] passes to [SetGeometry]: minimum, maximum, growth step. *)
Definition db_geometry (opts : MdbxNode) : Z * Z * Z :=
  (gib_bytes (node_MinSize opts), gib_bytes (node_MaxSize opts), node_GrowthStep opts).

(** [NewDb(ctx, opts)] *)
Definition NewDb (opts : MdbxNode) (m : mdbx_state) : mdbx_state * res Db :=
  match mdbx_NewEnv m with
  | (m, Err e) => (m, Err e)
  | (m, Ok env) =>
      let '(minSize, maxSize, growthStep) := db_geometry opts in
      match env_SetGeometry env minSize (-1) maxSize (-1) (-1) growthStep m with
      | (m, Some e) => (m, Err e)
      | (m, None) =>
          match env_SetOption env mdbx_OptMaxReaders (u64 (node_MaxReaders opts)) m with
          | (m, Some e) => (m, Err e)
          | (m, None) =>
              match env_Open env (node_Path opts) mdbx_Create
                      (u32 (node_FilePermissions opts)) m with
              | (m, Some e) => (m, Err e)
              | (m, None) =>
                  match env_Update env (txn_OpenRoot mdbx_Create) m with
                  | (m, Err e) => (env_Close env m, Err e)
                  | (m, Ok dbi) => (m, Ok (MkDb opts env dbi))
                  end
              end
          end
      end
  end.

(** The transaction function of [Set]. *)
Definition set_txn (dbi : DBI) (key value : list byte) (t : Txn) : Txn * res () :=
  match txn_OpenCursor dbi t with
  | (t, Err e) => (t, Err (Wrap e "failed to open cursor"))
  | (t, Ok cursor) =>
      let '(t, err) := cursor_Put cursor key value 0 t in
      (cursor_Close cursor t, err_res err)
  end.

Definition Db_Set (db : Db) (key value : list byte) (m : mdbx_state)
    : mdbx_state * option error :=
  let '(m, r) := env_Update (db_env db) (set_txn (db_dbi db) key value) m in
  (m, res_err r).

Definition Db_Get (db : Db) (key : list byte) (m : mdbx_state)
    : mdbx_state * res (list byte) :=
  env_View (db_env db) (txn_Get (db_dbi db) key) m.

Definition Db_Exists (db : Db) (key : list byte) (m : mdbx_state)
    : mdbx_state * res bool :=
  match env_View (db_env db) (txn_Get (db_dbi db) key) m with
  | (m, Ok _) => (m, Ok true)
  | (m, Err e) =>
      if errors_Is e mdbx_ErrNotFound then (m, Ok false) else (m, Err e)
  end.

Definition Db_Delete (db : Db) (key : list byte) (m : mdbx_state)
    : mdbx_state * option error :=
  let '(m, r) := env_Update (db_env db)
    (λ t, let '(t, err) := txn_Del (db_dbi db) key None t in (t, err_res err)) m in
  (m, res_err r).

Definition Db_Close (db : Db) (m : mdbx_state) : mdbx_state * option error :=
  (env_Close (db_env db) m, None).

Definition Db_Destroy (db : Db) (m : mdbx_state) : mdbx_state * option error :=
  match Db_Close db m with
  | (m, Some e) => (m, Some e)
  | (m, None) =>
      match os_RemoveAll (node_Path (db_opts db)) m with
      | (m, Some e) => (m, Some (Wrap e "failed to remove database files"))
      | (m, None) => (m, None)
      end
  end.

#[export] Instance Db_Provider : Provider mdbx_state Db := {|
  prov_Set := Db_Set; prov_Get := Db_Get; prov_Exists := Db_Exists;
  prov_Delete := Db_Delete; prov_Close := Db_Close; prov_Destroy := Db_Destroy;
|}.

(** * The manager *)

Record Manager := MkManager { mgr_opts : MdbxConfig; mgr_dbs : gmap string Db }.

Fixpoint open_nodes (nodes : list MdbxNode) (dbs : gmap string Db) (m : mdbx_state)
    : mdbx_state * res (gmap string Db) :=
  match nodes with
  | [] => (m, Ok dbs)
  | node :: nodes =>
      match NewDb node m with
      | (m, Err e) => (m, Err e)
      | (m, Ok db) => open_nodes nodes (<[node_Name node := db]> dbs) m
      end
  end.

Definition NewManager (opts : MdbxConfig) (m : mdbx_state)
    : mdbx_state * res Manager :=
  if mdbx_Enabled opts then
    match open_nodes (mdbx_Nodes opts) ∅ m with
    | (m, Err e) => (m, Err e)
    | (m, Ok dbs) => (m, Ok (MkManager opts dbs))
    end
  else (m, Ok (MkManager opts ∅)).

Definition GetDb (mgr : Manager) (name : DbType) : res Db :=
  match mgr_dbs mgr !! name with
  | None => Err (Errorf "mdbx database not found: %s" [AStr name])
  | Some db => Ok db
  end.

(** [m.Close()]: the loop over the map visits the databases in the order
    [dbs]; it stops at the first error. *)
Fixpoint close_all (dbs : list Db) (m : mdbx_state) : mdbx_state * option error :=
  match dbs with
  | [] => (m, None)
  | db :: dbs =>
      match Db_Close db m with
      | (m, Some e) => (m, Some e)
      | (m, None) => close_all dbs m
      end
  end.

Definition Manager_Close (mgr : Manager) : mdbx_state → mdbx_state * option error :=
  close_all (snd <$> map_to_list (mgr_dbs mgr)).
End db.

#[export] Hint Unfold err_res res_err : core.

(** * Db implements the contract *)

Section db_laws.
Context `{MdbxLaws}.

Definition db_view (m : mdbx_state) (db : Db) : store :=
  env_view m (db_env db) (db_dbi db).

Lemma set_txn_ok dbi k v t t' a :
  set_txn dbi k v t = (t', Ok a) →
  txn_view t' dbi = <[k := v]> (txn_view t dbi).
Proof.
  unfold set_txn. intros E.
  destruct (txn_OpenCursor dbi t) as [t1 [c|e]] eqn:Ec; [|discriminate].
  apply txn_OpenCursor_law in Ec as [<- Hv].
  destruct (cursor_Put c k v 0 t1) as [t2 [e|]] eqn:Ep; [discriminate|].
  apply cursor_Put_law in Ep as [Hp _]. injection E as <- _.
  by rewrite cursor_Close_law, Hp, Hv.
Qed.

Lemma Db_Set_ok db k v m m' :
  Db_Set db k v m = (m', None) → db_view m' db = <[k := v]> (db_view m db).
Proof.
  unfold Db_Set, db_view. destruct (env_Update _ _ _) as [m1 r] eqn:E.
  intros [= -> Hr]. destruct r; [|discriminate].
  apply env_Update_law in E as [(? & ? & _)|(t & t' & a' & Ht & Hf & _ & Hv & _)];
    [discriminate|].
  rewrite Hv, <- Ht. by apply set_txn_ok in Hf.
Qed.

Lemma env_Update_err {A} e (fn : Txn → Txn * res A) m m' err d :
  env_Update e fn m = (m', Err err) → env_view m' e d = env_view m e d.
Proof.
  intros [(? & _ & Hv)|(? & ? & ? & _ & _ & ? & _)]%env_Update_law;
    [apply Hv | discriminate].
Qed.

Lemma Db_Get_frame db k m m' r :
  Db_Get db k m = (m', r) → db_view m' db = db_view m db.
Proof. intros [Hv _]%env_View_law. apply Hv. Qed.

Lemma Db_Get_ok db k m m' v :
  Db_Get db k m = (m', Ok v) → db_view m db !! k = Some v.
Proof.
  intros [_ [(? & ? & _)|(t & Ht & Hg)]]%env_View_law; [discriminate|].
  symmetry in Hg. apply txn_Get_ok in Hg. by rewrite <- Hg, Ht.
Qed.

#[export] Program Instance Db_ProviderLaws : ProviderLaws mdbx_state Db := {|
  contents := db_view;
|}.
Next Obligation. intros. by apply Db_Set_ok. Qed.
Next Obligation.
  intros p k v s s' e. simpl. unfold Db_Set, db_view.
  destruct (env_Update _ _ _) as [m1 [|err]] eqn:E; intros [= -> ?].
  by eapply env_Update_err.
Qed.
Next Obligation. intros p k s s' r E. exact (Db_Get_frame p k s s' r E). Qed.
Next Obligation. intros p k s s' v E. exact (Db_Get_ok p k s s' v E). Qed.
Next Obligation.
  intros p k s s' r. simpl. unfold Db_Exists.
  destruct (env_View _ _ _) as [m1 r1] eqn:E. apply env_View_law in E as [Hv _].
  intros E. assert (m1 = s') as <-.
  { destruct r1; [|destruct (errors_Is _ _)]; congruence. }
  apply Hv.
Qed.
Next Obligation.
  intros p k s s'. simpl. unfold Db_Exists.
  destruct (env_View _ _ _) as [m1 [v|e]] eqn:E.
  - intros _. exists v. by apply (Db_Get_ok p k s m1).
  - destruct (errors_Is _ _); discriminate.
Qed.
Next Obligation.
  intros p k s s'. simpl. unfold Db_Exists, db_view.
  destruct (env_View _ _ _) as [m1 [v|e]] eqn:E; [discriminate|].
  destruct (errors_Is e _) eqn:Ee; [intros _|discriminate].
  apply env_View_law in E as [_ [(e' & [= <-] & Hn)|(t & Ht & Hg)]]; [congruence|].
  rewrite <- Ht. by apply (txn_Get_missing _ _ _ e).
Qed.
Next Obligation.
  intros p k s s'. simpl. unfold Db_Delete, db_view.
  destruct (env_Update _ _ _) as [m1 r] eqn:E. intros [= -> Hr].
  destruct r; [|discriminate].
  apply env_Update_law in E as [(? & ? & _)|(t & t' & a' & Ht & Hf & _ & Hv & _)];
    [discriminate|].
  destruct (txn_Del _ _ _ _) as [t1 [|]] eqn:Ed; simpl in Hf; [discriminate|].
  injection Hf as <- _. apply txn_Del_law in Ed as [Hd _].
  by rewrite Hv, Hd, Ht.
Qed.
Next Obligation.
  intros p k s s' e. simpl. unfold Db_Delete, db_view.
  destruct (env_Update _ _ _) as [m1 [|err]] eqn:E; intros [= -> ?].
  by eapply env_Update_err.
Qed.
End db_laws.

(** * What a client of the interface may rely on *)

Section provider_client.
Context {St P : Type} `{ProviderLaws St P}.

Inductive db_op :=
  | OpSet (k v : list byte) | OpGet (k : list byte)
  | OpExists (k : list byte) | OpDelete (k : list byte).

Inductive db_reply :=
  | RErr (e : option error) | RVal (r : res (list byte)) | RBool (r : res bool).

Definition run_op (p : P) (o : db_op) (s : St) : St * db_reply :=
  match o with
  | OpSet k v => let '(s, e) := prov_Set p k v s in (s, RErr e)
  | OpGet k => let '(s, r) := prov_Get p k s in (s, RVal r)
  | OpExists k => let '(s, r) := prov_Exists p k s in (s, RBool r)
  | OpDelete k => let '(s, e) := prov_Delete p k s in (s, RErr e)
  end.

Fixpoint run_ops (p : P) (os : list db_op) (s : St) : St * list db_reply :=
  match os with
  | [] => (s, [])
  | o :: os =>
      let '(s, r) := run_op p o s in
      let '(s, rs) := run_ops p os s in (s, r :: rs)
  end.

(** The map a call leaves, from its db_reply: a reported error means that nothing
    was done. *)
Definition map_op (o : db_op) (r : db_reply) (m : store) : store :=
  match o, r with
  | OpSet k v, RErr None => <[k := v]> m
  | OpDelete k, RErr None => delete k m
  | _, _ => m
  end.

(** The outcomes a map allows: lookups may fail, but an answer is the map's. *)
Definition reply_ok (o : db_op) (r : db_reply) (m : store) : Prop :=
  match o, r with
  | OpGet k, RVal (Ok v) => m !! k = Some v
  | OpExists k, RBool (Ok b) => b = bool_decide (is_Some (m !! k))
  | OpSet _ _, RErr _ | OpDelete _, RErr _ => True
  | OpGet _, RVal (Err _) | OpExists _, RBool (Err _) => True
  | _, _ => False
  end.

(** The outcomes of a history, answered by the maps it goes through. *)
Fixpoint map_history (os : list db_op) (rs : list db_reply) (m m' : store) : Prop :=
  match os, rs with
  | [], [] => m' = m
  | o :: os, r :: rs => reply_ok o r m ∧ map_history os rs (map_op o r m) m'
  | _, _ => False
  end.

Lemma run_op_map p o s s' r :
  run_op p o s = (s', r) →
  reply_ok o r (contents s p) ∧ contents s' p = map_op o r (contents s p).
Proof.
  destruct o; simpl.
  - destruct (prov_Set _ _ _ _) as [s1 [e|]] eqn:E; intros [= <- <-]; split; try done.
    + by eapply prov_Set_err.
    + by eapply prov_Set_ok.
  - destruct (prov_Get _ _ _) as [s1 [v|e]] eqn:E; intros [= <- <-];
      (split; [|by eapply prov_Get_frame]); [by eapply prov_Get_ok|done].
  - destruct (prov_Exists _ _ _) as [s1 [[]|e]] eqn:E; intros [= <- <-];
      (split; [|by eapply prov_Exists_frame]); simpl.
    + rewrite bool_decide_eq_true_2; [done|by eapply prov_Exists_true].
    + apply prov_Exists_false in E. by rewrite E.
    + done.
  - destruct (prov_Delete _ _ _) as [s1 [e|]] eqn:E; intros [= <- <-]; split; try done.
    + by eapply prov_Delete_err.
    + by eapply prov_Delete_ok.
Qed.

Lemma run_ops_map p os s s' rs :
  run_ops p os s = (s', rs) → map_history os rs (contents s p) (contents s' p).
Proof.
  revert s rs. induction os as [|o os IH]; intros s rs; simpl; [by intros [= <- <-]|].
  destruct (run_op p o s) as [s1 r] eqn:Eo.
  destruct (run_ops p os s1) as [s2 rs'] eqn:Es. intros [= <- <-].
  apply run_op_map in Eo as [Ha Hc]. split; [done|]. rewrite <- Hc. by apply IH.
Qed.
End provider_client.

(** C39: The MDBX database refines a map, through the [Provider] interface: in a
    history of [Set], [Get], [Exists] and [Delete] calls, whatever errors the
    library reports in between, every value a [Get] returns and every answer of
    [Exists] is the map's at that point, where the map is changed by exactly the
    [Set] and [Delete] calls that returned nil. *)
Theorem Db_refines_map `{MdbxLaws} (db : Db) (os : list db_op) (m m' : mdbx_state)
    (rs : list db_reply) :
  run_ops db os m = (m', rs) → map_history os rs (db_view m db) (db_view m' db).
Proof. exact (run_ops_map db os m m' rs). Qed.

Section db_reliable.
Context `{MdbxReliable}.

(** The answer of a lookup in a store. *)
Definition lookup_res (k : list byte) (s : store) : res (list byte) :=
  match s !! k with Some v => Ok v | None => Err mdbx_ErrNotFound end.

Lemma Db_Get_live (db : Db) (k : list byte) (m : mdbx_state) :
  env_live m (db_env db) → ∃ m', Db_Get db k m = (m', lookup_res k (db_view m db)).
Proof.
  intros Hl. unfold Db_Get, db_view, lookup_res.
  destruct (env_View_ok (db_env db) (txn_Get (db_dbi db) k) m Hl) as (m' & t & Hv & ->).
  exists m'. by rewrite txn_Get_total, Hv.
Qed.

(** [Get] on a live environment returns the stored value, and the library's
    [ErrNotFound] (not the sentinel of the [errors] package) for a missing key;
    [Exists] turns that error into [false]. *)
Theorem Db_Get_Exists_agree (db : Db) (k : list byte) (m : mdbx_state) :
  env_live m (db_env db) →
  (Db_Get db k m).2 =
    match db_view m db !! k with
    | Some v => Ok v
    | None => Err mdbx_ErrNotFound
    end ∧
  (Db_Exists db k m).2 = Ok (bool_decide (is_Some (db_view m db !! k))).
Proof.
  intros Hl. destruct (Db_Get_live db k m Hl) as [m' E]. unfold Db_Exists.
  fold (Db_Get db k m). rewrite E. unfold lookup_res.
  destruct (db_view m db !! k); simpl; [done|]. by rewrite errors_Is_refl.
Qed.
End db_reliable.

(** * The manager *)

Section manager.
Context `{Mdbx}.

(** The node that names a database: the last one in the list wins. *)
Definition last_node (name : string) (nodes : list MdbxNode) : option MdbxNode :=
  last (filter (λ n, node_Name n = name) nodes).

Lemma NewDb_opts node m m' db : NewDb node m = (m', Ok db) → db_opts db = node.
Proof.
  unfold NewDb. intros E. repeat case_match; simplify_eq; done.
Qed.

Lemma last_node_cons name n nodes :
  last_node name (n :: nodes) =
    match last_node name nodes with
    | Some n' => Some n'
    | None => if decide (node_Name n = name) then Some n else None
    end.
Proof.
  unfold last_node. rewrite filter_cons.
  case_decide; [|by destruct (last _)]. by rewrite last_cons.
Qed.

Lemma open_nodes_lookup nodes dbs m m' dbs' name :
  open_nodes nodes dbs m = (m', Ok dbs') →
  db_opts <$> dbs' !! name =
    match last_node name nodes with
    | Some n => Some n
    | None => db_opts <$> dbs !! name
    end.
Proof.
  revert dbs m. induction nodes as [|n nodes IH]; intros dbs m; simpl.
  - by intros [= _ ->].
  - destruct (NewDb n m) as [m1 [db|e]] eqn:E; [|done].
    intros ->%IH. rewrite last_node_cons. apply NewDb_opts in E.
    destruct (last_node name nodes); [done|].
    rewrite lookup_insert. case_decide; simpl; congruence.
Qed.

(** A manager that was created serves exactly the configured names: with MDBX
    enabled, [GetDb name] returns a database opened with the options of the last
    node of that name and fails with the name when there is none; with MDBX
    disabled it fails for every name. *)
Theorem NewManager_GetDb (opts : MdbxConfig) (m m' : mdbx_state) (mgr : Manager)
    (name : DbType) :
  NewManager opts m = (m', Ok mgr) →
  match GetDb mgr name with
  | Ok db => mdbx_Enabled opts = true ∧
             last_node name (mdbx_Nodes opts) = Some (db_opts db)
  | Err e => e = Errorf "mdbx database not found: %s" [AStr name] ∧
             (mdbx_Enabled opts = true → last_node name (mdbx_Nodes opts) = None)
  end.
Proof.
  unfold NewManager, GetDb. destruct (mdbx_Enabled opts) eqn:En.
  - destruct (open_nodes _ _ m) as [m1 [dbs|e]] eqn:E; intros [= _ <-]; simpl.
    pose proof (open_nodes_lookup _ _ _ _ _ name E) as Hl.
    destruct (dbs !! name) as [db|]; simpl in Hl;
      destruct (last_node name _); rewrite ?lookup_empty in Hl; simpl in Hl;
      split; congruence.
  - intros [= _ <-]. simpl. rewrite lookup_empty. done.
Qed.
End manager.

(** The map size [NewDb] passes to MDBX is the configured number of GiB for sizes
    below [2^33]; at [2^33] the [int64] product has wrapped to the most negative
    number. *)
Theorem db_geometry_bounds (opts : MdbxNode) :
  let '(_, maxSize, _) := db_geometry opts in
  ((0 ≤ node_MaxSize opts < 2 ^ 33)%Z → maxSize = (node_MaxSize opts * 2 ^ 30)%Z) ∧
  (node_MaxSize opts = 2 ^ 33 → maxSize = - 2 ^ 63)%Z.
Proof.
  unfold db_geometry, gib_bytes. split.
  - intros Hr. rewrite (i64_small (node_MaxSize opts * 1024)) by lia.
    rewrite (i64_small (node_MaxSize opts * 1024 * 1024)) by lia.
    rewrite i64_small by lia. lia.
  - intros ->. reflexivity.
Qed.
