(* ===== verification/BatchWriter.v ===== *)
(** The batch writer of [db/writer.go]: its channels, buffers and worker
    goroutines as a state machine over the heap, the database and the error log. *)
From S2P Require Import Prelude GoRuntime Slices Types Config Mdbx Database.

Section writer.
Context `{Mdbx}.

(** * State *)

Record WriteRequest := MkReq { req_Key : array32; req_Value : slice }.

(** Where the goroutine of a worker stands. *)
Inductive worker_pc := WStart | WLoop | WDone.

(** [workerMutexes] is left out: mutex [i] is locked by worker [i] alone, around
    the steps that are atomic below. *)
Record BatchWriter := MkBW {
  bw_db : Db;
  bw_channels : list (list WriteRequest);
  bw_buffers : list (gmap array32 slice);
  bw_maxBatchSize : Z;
  bw_flushInterval : Z;
  bw_stopped : bool;                       (* stopChannel is closed *)
  bw_workers : Z;
  bw_pcs : list worker_pc;
}.

Definition set_channel (i : nat) (ch : list WriteRequest) (bw : BatchWriter) :=
  MkBW (bw_db bw) (<[i := ch]> (bw_channels bw)) (bw_buffers bw)
    (bw_maxBatchSize bw) (bw_flushInterval bw) (bw_stopped bw) (bw_workers bw) (bw_pcs bw).
Definition set_buffer (i : nat) (b : gmap array32 slice) (bw : BatchWriter) :=
  MkBW (bw_db bw) (bw_channels bw) (<[i := b]> (bw_buffers bw))
    (bw_maxBatchSize bw) (bw_flushInterval bw) (bw_stopped bw) (bw_workers bw) (bw_pcs bw).
Definition set_pc (i : nat) (pc : worker_pc) (bw : BatchWriter) :=
  MkBW (bw_db bw) (bw_channels bw) (bw_buffers bw)
    (bw_maxBatchSize bw) (bw_flushInterval bw) (bw_stopped bw) (bw_workers bw)
    (<[i := pc]> (bw_pcs bw)).
Definition set_stopped (bw : BatchWriter) :=
  MkBW (bw_db bw) (bw_channels bw) (bw_buffers bw)
    (bw_maxBatchSize bw) (bw_flushInterval bw) true (bw_workers bw) (bw_pcs bw).

(** The capacity of each worker's channel. *)
Definition channel_capacity : Z := 500000.

(** [NewBatchWriter(db, maxBatchSize, flushInterval, workers)]: [make] panics on
    a negative number of workers; each worker goroutine is about to run. *)
Definition NewBatchWriter {S} (db : Db) (maxBatchSize flushInterval workers : Z)
    : Go S BatchWriter :=
  if decide (workers < 0)%Z then go_panic PanicMakeLen
  else
    let n := Z.to_nat workers in
    mret (MkBW db (replicate n []) (replicate n ∅) maxBatchSize flushInterval
            false workers (replicate n WStart)).

(** * Client side *)

(** [int(key[0]) % bw.workers], Go's truncated remainder. *)
Definition worker_of (workers : Z) (key : array32) : Z :=
  Z.rem (Z_of_byte (array_bytes key !!! 0)) workers.

(** [bw.BufferWrite(key, value)]: the send blocks while the channel is full. *)
Definition BufferWrite (key : array32) (value : slice) : Go BatchWriter () := λ bw,
  if decide (bw_workers bw = 0)%Z then Panicked PanicDivide
  else
    let workerID := worker_of (bw_workers bw) key in
    if decide (workerID < 0)%Z then Panicked PanicIndex
    else
      match bw_channels bw !! Z.to_nat workerID with
      | None => Panicked PanicIndex
      | Some ch =>
          if decide (channel_capacity ≤ Z.of_nat (length ch))%Z then Blocked
          else Done (set_channel (Z.to_nat workerID) (ch ++ [MkReq key value]) bw) ()
      end.

(** [bw.FlushAndStop()] closes the stop channel and returns. *)
Definition FlushAndStop : Go BatchWriter () := λ bw,
  if bw_stopped bw then Panicked PanicCloseClosed else Done (set_stopped bw) ().

(** * Worker side *)

(** The state the workers act on; [ws_log] collects the errors [flush] logs. *)
Record wstate := MkWs {
  ws_heap : heap;
  ws_mdbx : mdbx_state;
  ws_bw : BatchWriter;
  ws_log : list error;
}.

Definition with_bw (f : BatchWriter → BatchWriter) (st : wstate) : wstate :=
  MkWs (ws_heap st) (ws_mdbx st) (f (ws_bw st)) (ws_log st).

(** The loop over the buffer inside the transaction. *)
Fixpoint put_all (h : heap) (c : Cursor) (pairs : list (array32 * slice)) (t : Txn)
    : Txn * res () :=
  match pairs with
  | [] => (t, Ok ())
  | (key, value) :: pairs =>
      match cursor_Put c (array_bytes key) (bytes_of h value) 0 t with
      | (t, Some e) => (t, Err (Wrap e "failed to write key: %x"))
      | (t, None) => put_all h c pairs t
      end
  end.

Definition flush_txn (h : heap) (dbi : DBI) (pairs : list (array32 * slice)) (t : Txn)
    : Txn * res () :=
  match txn_OpenCursor dbi t with
  | (t, Err e) => (t, Err (Wrap e "failed to open cursor"))
  | (t, Ok cursor) =>
      let '(t, r) := put_all h cursor pairs t in
      (cursor_Close cursor t, r)
  end.

(** [bw.flush(workerID)]. Go iterates over a map in an unspecified order, given
    by [rng]. An error is logged; the buffer is cleared in any case. *)
Definition flush (rng : gmap array32 slice → list (array32 * slice)) (workerID : nat)
    : Go wstate () := λ st,
  match bw_buffers (ws_bw st) !! workerID with
  | None => Panicked PanicIndex
  | Some buf =>
      if decide (size buf = 0) then Done st ()
      else
        let '(m, r) := env_Update (db_env (bw_db (ws_bw st)))
          (flush_txn (ws_heap st) (db_dbi (bw_db (ws_bw st))) (rng buf)) (ws_mdbx st) in
        let log := match r with
                   | Ok _ => ws_log st
                   | Err e => ws_log st ++ [Wrap e "failure to flush messages"]
                   end in
        Done (MkWs (ws_heap st) m (set_buffer workerID ∅ (ws_bw st)) log) ()
  end.

Inductive select_case := CaseRequest | CaseTick | CaseStop.

(** One iteration of the worker's loop, for the case the [select] picks; a case
    that is not ready blocks. The result tells whether the loop goes on. *)
Definition runWorker_iter (rng : gmap array32 slice → list (array32 * slice))
    (workerID : nat) (c : select_case) : Go wstate bool := λ st,
  match c with
  | CaseRequest =>
      match bw_channels (ws_bw st) !! workerID, bw_buffers (ws_bw st) !! workerID with
      | Some (req :: ch), Some buf =>
          let buf := <[req_Key req := req_Value req]> buf in
          let st := with_bw (λ bw, set_buffer workerID buf (set_channel workerID ch bw)) st in
          if decide (bw_maxBatchSize (ws_bw st) ≤ Z.of_nat (size buf))%Z
          then (flush rng workerID;; mret true) st
          else Done st true
      | Some [], Some _ => Blocked
      | _, _ => Panicked PanicIndex
      end
  | CaseTick => (flush rng workerID;; mret true) st
  | CaseStop =>
      if bw_stopped (ws_bw st) then (flush rng workerID;; mret false) st else Blocked
  end.

(** The goroutine of a worker, one step at a time: it creates its ticker, which
    panics on a non-positive interval, then loops. *)
Definition runWorker (rng : gmap array32 slice → list (array32 * slice))
    (workerID : nat) (c : select_case) : Go wstate () := λ st,
  match bw_pcs (ws_bw st) !! workerID with
  | Some WStart =>
      if decide (bw_flushInterval (ws_bw st) ≤ 0)%Z then Panicked PanicTicker
      else Done (with_bw (set_pc workerID WLoop) st) ()
  | Some WLoop =>
      match runWorker_iter rng workerID c st with
      | Done st true => Done st ()
      | Done st false => Done (with_bw (set_pc workerID WDone) st) ()
      | Panicked p => Panicked p
      | Blocked => Blocked
      end
  | Some WDone | None => Blocked
  end.

(** * Interleavings *)

(** An iteration order of Go maps. *)
Definition map_order (rng : gmap array32 slice → list (array32 * slice)) : Prop :=
  ∀ m, rng m ≡ₚ map_to_list m.

Inductive wlabel := LWrite (key : array32) (value : list byte) | LStop | LWorker | LHeap.

Inductive wstep : wstate → wlabel → wstate → Prop :=
  | step_write st key value bw' :
      BufferWrite key value (ws_bw st) = Done bw' () →
      wstep st (LWrite key (bytes_of (ws_heap st) value)) (with_bw (λ _, bw') st)
  | step_stop st bw' :
      FlushAndStop (ws_bw st) = Done bw' () →
      wstep st LStop (with_bw (λ _, bw') st)
  | step_worker st rng i c st' :
      map_order rng → runWorker rng i c st = Done st' () →
      wstep st LWorker st'
  | step_heap st h' :
      wstep st LHeap (MkWs h' (ws_mdbx st) (ws_bw st) (ws_log st)).

Inductive wsteps : wstate → list wlabel → wstate → Prop :=
  | wsteps_nil st : wsteps st [] st
  | wsteps_cons st l st1 ls st2 :
      wstep st l st1 → wsteps st1 ls st2 → wsteps st (l :: ls) st2.

(** * Well-formedness *)

(** The stop channel is open, so no worker has returned, and the tickers can be made. *)
Record unstopped (bw : BatchWriter) : Prop := {
  us_open : bw_stopped bw = false;
  us_interval : (0 < bw_flushInterval bw)%Z;
  us_pcs : Forall (λ pc, pc ≠ WDone) (bw_pcs bw);
}.

Definition routed (workers : Z) (key : array32) (i : nat) : Prop :=
  worker_of workers key = Z.of_nat i.

Record wf_bw (bw : BatchWriter) : Prop := {
  wf_workers : (0 < bw_workers bw)%Z;
  wf_channels : Z.of_nat (length (bw_channels bw)) = bw_workers bw;
  wf_buffers : Z.of_nat (length (bw_buffers bw)) = bw_workers bw;
  wf_pcs : Z.of_nat (length (bw_pcs bw)) = bw_workers bw;
  wf_routed_channel i ch req :
    bw_channels bw !! i = Some ch → req ∈ ch → routed (bw_workers bw) (req_Key req) i;
  wf_routed_buffer i buf key s :
    bw_buffers bw !! i = Some buf → buf !! key = Some s → routed (bw_workers bw) key i;
}.
End writer.
