(* ===== verification/WriterSpec.v ===== *)
(** The batch writer as a key-value map: the view a client's writes build up,
    preserved by every interleaving of the workers, and where it is lost. *)
From S2P Require Import Prelude GoRuntime Slices Types Config Mdbx Database BatchWriter.

Section spec.
Context `{MdbxLaws}.
Implicit Types (st : wstate) (bw : BatchWriter) (h : heap).

(** * Definitions *)

(** The value queued last for a key. *)
Definition chan_last (key : array32) (ch : list WriteRequest) : option slice :=
  req_Value <$> last (filter (λ r, req_Key r = key) ch).

(** The value of a key that one worker holds: its queue, then its buffer. *)
Definition pending_of (key : array32) (ch : list WriteRequest) (buf : gmap array32 slice)
    : option slice :=
  match chan_last key ch with Some s => Some s | None => buf !! key end.

(** The value on its way to the database, at the worker the key belongs to. *)
Definition pending (bw : BatchWriter) (key : array32) : option slice :=
  let i := Z.to_nat (worker_of (bw_workers bw) key) in
  pending_of key (default [] (bw_channels bw !! i)) (default ∅ (bw_buffers bw !! i)).

Definition db_of (st : wstate) : store := db_view (ws_mdbx st) (bw_db (ws_bw st)).

(** The abstract map: what is pending overrides what is stored. *)
Definition view (st : wstate) (key : array32) : option (list byte) :=
  match pending (ws_bw st) key with
  | Some s => Some (bytes_of (ws_heap st) s)
  | None => db_of st !! array_bytes key
  end.

(** The abstract specification: a write updates its key, nothing else does. *)
Definition spec_step (f : array32 → option (list byte)) (l : wlabel)
    : array32 → option (list byte) :=
  match l with
  | LWrite key value => λ k, if decide (k = key) then Some value else f k
  | _ => f
  end.

(** A change of the heap leaves the values in flight alone. *)
Definition heap_stable (st : wstate) (h' : heap) : Prop :=
  ∀ key s, pending (ws_bw st) key = Some s → bytes_of h' s = bytes_of (ws_heap st) s.

(** Runs whose heap changes leave the values in flight alone. *)
Inductive stable_run : wstate → list wlabel → wstate → Prop :=
  | stable_nil st : stable_run st [] st
  | stable_cons st l st1 ls st2 :
      wstep st l st1 → (l = LHeap → heap_stable st (ws_heap st1)) →
      stable_run st1 ls st2 → stable_run st (l :: ls) st2.

(** Nothing is queued or buffered. *)
Definition quiescent (bw : BatchWriter) : Prop :=
  Forall (λ ch, ch = []) (bw_channels bw) ∧ Forall (λ b, b = ∅) (bw_buffers bw).

(** Every buffer is smaller than the batch size. *)
Definition buffers_bounded (bw : BatchWriter) : Prop :=
  (0 < bw_maxBatchSize bw)%Z ∧
  Forall (λ b, Z.of_nat (size b) < bw_maxBatchSize bw)%Z (bw_buffers bw).

(** * One worker's queue and buffer *)

Lemma chan_last_snoc key ch r :
  chan_last key (ch ++ [r]) =
    if decide (req_Key r = key) then Some (req_Value r) else chan_last key ch.
Proof.
  unfold chan_last. rewrite filter_app, filter_cons, filter_nil.
  case_decide; [by rewrite last_snoc | by rewrite app_nil_r].
Qed.

Lemma chan_last_cons key ch r :
  chan_last key (r :: ch) =
    match chan_last key ch with
    | Some s => Some s
    | None => if decide (req_Key r = key) then Some (req_Value r) else None
    end.
Proof.
  unfold chan_last. rewrite filter_cons. case_decide.
  - rewrite last_cons. by destruct (last _).
  - by destruct (last _).
Qed.

(** Taking a request off the queue into the buffer keeps what is pending. *)
Lemma pending_of_dequeue key ch r buf :
  pending_of key ch (<[req_Key r := req_Value r]> buf) = pending_of key (r :: ch) buf.
Proof.
  unfold pending_of. rewrite chan_last_cons.
  destruct (chan_last key ch); [done|].
  rewrite lookup_insert. by case_decide.
Qed.

Lemma chan_last_elem key ch s :
  chan_last key ch = Some s → ∃ r, r ∈ ch ∧ req_Key r = key.
Proof.
  unfold chan_last. intros (r & Hr & _)%fmap_Some.
  apply last_Some_elem_of, list_elem_of_filter in Hr as [? ?]. eauto.
Qed.

(** * Routing *)

Lemma worker_of_range workers key :
  (0 < workers)%Z → (0 ≤ worker_of workers key < workers)%Z.
Proof.
  intros. unfold worker_of. pose proof (Z_of_byte_range (array_bytes key !!! 0)).
  apply Z.rem_bound_pos; lia.
Qed.

Lemma routed_iff workers key i :
  (0 < workers)%Z → routed workers key i ↔ i = Z.to_nat (worker_of workers key).
Proof. intros Hw%(worker_of_range _ key). unfold routed. lia. Qed.

Lemma lookup_worker {A} (l : list A) workers key :
  (0 < workers)%Z → Z.of_nat (length l) = workers →
  is_Some (l !! Z.to_nat (worker_of workers key)).
Proof.
  intros Hw Hl. apply lookup_lt_is_Some. pose proof (worker_of_range workers key Hw). lia.
Qed.

(** * The transaction of a flush *)

Lemma put_all_view h c pairs t t' raw :
  put_all h c pairs t = (t', Ok ()) →
  NoDup pairs.*1 →
  (∀ key s, (key, s) ∈ pairs → array_bytes key = raw →
     txn_view t' (cursor_dbi c) !! raw = Some (bytes_of h s)) ∧
  ((∀ key s, (key, s) ∈ pairs → array_bytes key ≠ raw) →
     txn_view t' (cursor_dbi c) !! raw = txn_view t (cursor_dbi c) !! raw).
Proof.
  revert t. induction pairs as [|[key s] pairs IH]; intros t E Hnd; simpl in E.
  { injection E as ->. split; [|done]. intros ? ? []%not_elem_of_nil. }
  destruct (cursor_Put _ _ _ _ _) as [t1 [e|]] eqn:Ep; [discriminate|].
  apply cursor_Put_law in Ep as [Hput _]. csimpl in Hnd.
  apply NoDup_cons in Hnd as [Hk Hnd]. destruct (IH _ E Hnd) as [IH1 IH2]. split.
  - intros key' s' [[= -> ->]|Hin]%elem_of_cons Hraw; [|by eapply IH1].
    subst raw. rewrite IH2, Hput; [apply lookup_insert_eq|].
    intros key' s' Hin <-%(inj array_bytes). apply Hk.
    apply list_elem_of_fmap. by exists (key', s').
  - intros Hno. rewrite IH2, Hput by (intros; eapply Hno; by right).
    apply lookup_insert_ne. eapply Hno. by left.
Qed.

Lemma flush_txn_view h dbi pairs t t' raw :
  flush_txn h dbi pairs t = (t', Ok ()) →
  NoDup pairs.*1 →
  (∀ key s, (key, s) ∈ pairs → array_bytes key = raw →
     txn_view t' dbi !! raw = Some (bytes_of h s)) ∧
  ((∀ key s, (key, s) ∈ pairs → array_bytes key ≠ raw) →
     txn_view t' dbi !! raw = txn_view t dbi !! raw).
Proof.
  unfold flush_txn. intros E Hnd.
  destruct (txn_OpenCursor dbi t) as [t1 [c|e]] eqn:Ec; [|discriminate].
  apply txn_OpenCursor_law in Ec as [<- Hv].
  destruct (put_all h c pairs t1) as [t2 r] eqn:Ep. injection E as <- ->.
  rewrite cursor_Close_law, <- Hv. by apply put_all_view.
Qed.

(** The outcome of a flush of worker [i], whatever the order of iteration:
    - an empty buffer: nothing;
    - no new log entry: the buffer is empty and its bindings override the
      database's, all other keys of the database being unchanged;
    - a new log entry: the buffer is empty and the database unchanged. *)
Lemma flush_outcome rng i st buf :
  map_order rng → bw_buffers (ws_bw st) !! i = Some buf →
  ∃ st', flush rng i st = Done st' () ∧
    ws_heap st' = ws_heap st ∧ ws_bw st' = set_buffer i ∅ (ws_bw st) ∧
    ((ws_log st' = ws_log st ∧
      (∀ key, db_of st' !! array_bytes key =
         match buf !! key with
         | Some s => Some (bytes_of (ws_heap st) s)
         | None => db_of st !! array_bytes key
         end) ∧
      (∀ raw, length raw ≠ 32 → db_of st' !! raw = db_of st !! raw)) ∨
     (∃ e, ws_log st' = ws_log st ++ [e] ∧ db_of st' = db_of st)).
Proof.
  intros Hrng Hbuf. unfold flush. rewrite Hbuf.
  case_decide as Hsize.
  { apply map_size_empty_inv in Hsize as ->. exists st. split; [done|]. split; [done|].
    split; [|left; split_and!; [done | intros; by rewrite lookup_empty | done]].
    destruct st as [? ? [] ?]. unfold set_buffer. simpl in *. f_equal.
    by rewrite list_insert_id. }
  destruct (env_Update _ _ _) as [m r] eqn:E.
  eexists. split; [done|]. split; [done|]. split; [done|].
  unfold db_of, db_view. cbn [ws_mdbx ws_bw ws_heap ws_log set_buffer bw_db].
  apply env_Update_law in E as [(err & -> & Hv)|(t & t' & [] & Ht & Hf & -> & Hv & _)].
  { right. eexists. split; [done | apply Hv]. }
  left. split; [done|]. rewrite Hv, <- Ht.
  pose proof (Hrng buf) as Hperm.
  assert (NoDup (rng buf).*1) as Hnd.
  { rewrite Hperm. apply NoDup_fst_map_to_list. }
  assert (∀ key s, (key, s) ∈ rng buf ↔ buf !! key = Some s) as Hin.
  { intros key s. rewrite Hperm. apply elem_of_map_to_list. }
  split.
  - intros key. destruct (flush_txn_view _ _ _ _ _ (array_bytes key) Hf Hnd) as [H1 H2].
    destruct (buf !! key) as [s|] eqn:Ek; [by apply (H1 key s), eq_refl; apply Hin|].
    apply H2. intros key' s' Hk'%Hin ->%(inj array_bytes). congruence.
  - intros raw Hraw. destruct (flush_txn_view _ _ _ _ _ raw Hf Hnd) as [_ H2].
    apply H2. intros key s _ <-. by rewrite array32_length in Hraw.
Qed.

(** * Well-formedness is preserved *)

(** A writer without requests. *)
Lemma wf_fresh (d : Db) max interval stopped (n : nat) pcs :
  0 < n → length pcs = n →
  wf_bw (MkBW d (replicate n []) (replicate n ∅) max interval stopped (Z.of_nat n) pcs).
Proof.
  intros Hn Hpcs. split; simpl; rewrite ?length_replicate; try lia.
  - intros i ch req [-> _]%lookup_replicate. by intros ?%not_elem_of_nil.
  - intros i buf k v [-> _]%lookup_replicate. by rewrite lookup_empty.
Qed.

Lemma wf_set_channel i ch bw :
  wf_bw bw → (∀ req, req ∈ ch → routed (bw_workers bw) (req_Key req) i) →
  wf_bw (set_channel i ch bw).
Proof.
  intros [Hw Hc Hb Hp Hrc Hrb] Hch. split; simpl; rewrite ?length_insert; auto.
  intros j ch' req [(-> & -> & _)|[_ Hj]]%list_lookup_insert_Some; eauto.
Qed.

Lemma wf_set_buffer i buf bw :
  wf_bw bw → (∀ key s, buf !! key = Some s → routed (bw_workers bw) key i) →
  wf_bw (set_buffer i buf bw).
Proof.
  intros [Hw Hc Hb Hp Hrc Hrb] Hbuf. split; simpl; rewrite ?length_insert; auto.
  intros j buf' key s [(-> & -> & _)|[_ Hj]]%list_lookup_insert_Some; eauto.
Qed.

Lemma wf_set_pc i pc bw : wf_bw bw → wf_bw (set_pc i pc bw).
Proof. intros []. split; simpl; rewrite ?length_insert; auto. Qed.

Lemma wf_set_stopped bw : wf_bw bw → wf_bw (set_stopped bw).
Proof. intros []. by split. Qed.

Lemma wf_dequeue i req ch buf bw :
  wf_bw bw → bw_channels bw !! i = Some (req :: ch) → bw_buffers bw !! i = Some buf →
  wf_bw (set_buffer i (<[req_Key req := req_Value req]> buf) (set_channel i ch bw)).
Proof.
  intros Hwf Hch Hbuf. apply wf_set_buffer; [apply wf_set_channel; [done|]|].
  - intros r Hr. eapply wf_routed_channel; [done..|]. by right.
  - intros key s. cbn [set_channel bw_workers]. rewrite lookup_insert.
    case_decide as Hk; [intros _; subst key|].
    + eapply wf_routed_channel; [done..|]. by left.
    + intros Hs. by eapply wf_routed_buffer.
Qed.

#[local] Hint Resolve wf_set_pc wf_set_stopped : wf.

Lemma BufferWrite_wf key value bw bw' :
  wf_bw bw → BufferWrite key value bw = Done bw' () → wf_bw bw'.
Proof.
  intros Hwf. unfold BufferWrite. case_decide; [discriminate|]. cbv zeta.
  case_decide; [discriminate|].
  destruct (bw_channels bw !! _) as [ch|] eqn:Ec; [|discriminate].
  case_decide; [discriminate|]. intros [= <-]. apply wf_set_channel; [done|].
  intros req [Hreq| ->%list_elem_of_singleton]%elem_of_app.
  - by eapply wf_routed_channel.
  - apply routed_iff; [apply Hwf | done].
Qed.

Lemma flush_wf rng i st st' a :
  wf_bw (ws_bw st) → flush rng i st = Done st' a → wf_bw (ws_bw st').
Proof.
  intros Hwf. unfold flush. destruct (bw_buffers _ !! i); [|discriminate].
  case_decide; [by intros [= <- _]|].
  destruct (env_Update _ _ _) as [m r]. intros [= <- _]. simpl.
  apply wf_set_buffer; [done|]. intros key s. by rewrite lookup_empty.
Qed.

Lemma flush_then_wf rng i st st' (b b' : bool) :
  wf_bw (ws_bw st) → (flush rng i;; mret b) st = Done st' b' → wf_bw (ws_bw st').
Proof.
  unfold mbind, go_bind. destruct (flush rng i st) as [st1 a| |] eqn:E; [|done..].
  intros Hwf [= <- _]. by eapply flush_wf.
Qed.

Lemma runWorker_iter_wf rng i c st st' b :
  wf_bw (ws_bw st) → runWorker_iter rng i c st = Done st' b → wf_bw (ws_bw st').
Proof.
  intros Hwf. unfold runWorker_iter. destruct c.
  - destruct (bw_channels _ !! i) as [[|req ch]|] eqn:Ec;
      destruct (bw_buffers (ws_bw st) !! i) as [buf|] eqn:Eb; try discriminate.
    pose proof (wf_dequeue i req ch buf (ws_bw st) Hwf Ec Eb) as Hwf'.
    cbv zeta. case_decide; [by apply flush_then_wf | by intros [= <- _]].
  - by apply flush_then_wf.
  - destruct (bw_stopped _); [by apply flush_then_wf | discriminate].
Qed.

Lemma runWorker_wf rng i c st st' a :
  wf_bw (ws_bw st) → runWorker rng i c st = Done st' a → wf_bw (ws_bw st').
Proof.
  intros Hwf. unfold runWorker. destruct (bw_pcs _ !! i) as [[]|]; try discriminate.
  - case_decide; [discriminate|]. intros [= <- _]. simpl. auto with wf.
  - destruct (runWorker_iter _ _ _ _) as [st1 b| |] eqn:E; try discriminate.
    apply runWorker_iter_wf in E; [|done].
    destruct b; intros [= <- _]; simpl; auto with wf.
Qed.

Lemma wstep_wf st l st' : wstep st l st' → wf_bw (ws_bw st) → wf_bw (ws_bw st').
Proof.
  intros [??? bw' Hw|? bw' Hs|????? _ Hr|] Hwf; simpl.
  - by eapply BufferWrite_wf.
  - unfold FlushAndStop in Hs. destruct (bw_stopped _); [discriminate|].
    injection Hs as <-. auto with wf.
  - by eapply runWorker_wf.
  - done.
Qed.

(** * The view is preserved *)

Lemma pending_update bw i ch buf key :
  wf_bw bw → i < length (bw_channels bw) →
  pending (set_buffer i buf (set_channel i ch bw)) key =
    if decide (Z.to_nat (worker_of (bw_workers bw) key) = i)
    then pending_of key ch buf else pending bw key.
Proof.
  intros [Hw Hc Hb _ _ _] Hi. unfold pending. simpl.
  case_decide as Hk.
  - rewrite Hk, !list_lookup_insert_eq; [done|lia|lia].
  - by rewrite !list_lookup_insert_ne.
Qed.

Lemma set_buffer_id bw i buf :
  bw_buffers bw !! i = Some buf → set_buffer i buf bw = bw.
Proof. intros Hb. destruct bw. unfold set_buffer; simpl in *. by rewrite list_insert_id. Qed.

Lemma set_channel_id bw i ch :
  bw_channels bw !! i = Some ch → set_channel i ch bw = bw.
Proof. intros Hb. destruct bw. unfold set_channel; simpl in *. by rewrite list_insert_id. Qed.

Lemma dequeue_view i req ch buf st key :
  wf_bw (ws_bw st) →
  bw_channels (ws_bw st) !! i = Some (req :: ch) →
  bw_buffers (ws_bw st) !! i = Some buf →
  view (with_bw (λ bw, set_buffer i (<[req_Key req := req_Value req]> buf)
                         (set_channel i ch bw)) st) key = view st key.
Proof.
  intros Hwf Hch Hbuf. unfold view. cbn [with_bw ws_bw ws_heap].
  rewrite pending_update by (done || by eapply lookup_lt_Some).
  unfold db_of, db_view. simpl.
  case_decide as Hk; [|done]. unfold pending. rewrite Hk, Hch, Hbuf. simpl.
  by rewrite pending_of_dequeue.
Qed.

Lemma flush_view rng i st st' a key :
  wf_bw (ws_bw st) → map_order rng →
  flush rng i st = Done st' a → ws_log st' = ws_log st →
  view st' key = view st key.
Proof.
  intros Hwf Hrng E Hlog.
  destruct (bw_buffers (ws_bw st) !! i) as [buf|] eqn:Hbuf.
  2: { unfold flush in E. by rewrite Hbuf in E. }
  destruct (flush_outcome rng i st buf Hrng Hbuf) as (st1 & E1 & Hh & Hbw & Hout).
  rewrite E1 in E. injection E as <- _.
  destruct Hout as [(_ & Hdb & _)|(e & Hl & _)].
  2: { rewrite Hlog in Hl. apply (f_equal length) in Hl.
       rewrite length_app in Hl. simpl in Hl. lia. }
  pose proof (wf_channels _ Hwf) as Hc. pose proof (wf_buffers _ Hwf) as Hb.
  pose proof (lookup_lt_Some _ _ _ Hbuf) as Hi.
  destruct (lookup_lt_is_Some_2 (bw_channels (ws_bw st)) i) as [ch Hch]; [lia|].
  unfold view. rewrite Hdb, Hh, Hbw.
  rewrite <- (set_channel_id (ws_bw st) i ch Hch) at 1.
  rewrite pending_update by (done || lia).
  case_decide as Hk.
  - unfold pending. rewrite Hk, Hch, Hbuf. unfold pending_of. simpl.
    rewrite lookup_empty. destruct (chan_last key ch); [done|].
    by destruct (buf !! key).
  - destruct (buf !! key) as [s|] eqn:Es; [|done].
    apply (wf_routed_buffer _ Hwf i buf) in Es; [|done].
    apply routed_iff in Es; [by symmetry in Es | apply Hwf].
Qed.

Lemma flush_then_view rng i st st' (b b' : bool) key :
  wf_bw (ws_bw st) → map_order rng →
  (flush rng i;; mret b) st = Done st' b' → ws_log st' = ws_log st →
  view st' key = view st key.
Proof.
  unfold mbind, go_bind. destruct (flush rng i st) as [st1 a| |] eqn:E; [|done..].
  intros ?? [= <- _] ?. by eapply flush_view.
Qed.

Lemma runWorker_iter_view rng i c st st' b key :
  wf_bw (ws_bw st) → map_order rng →
  runWorker_iter rng i c st = Done st' b → ws_log st' = ws_log st →
  view st' key = view st key.
Proof.
  intros Hwf Hrng. unfold runWorker_iter. destruct c.
  - destruct (bw_channels (ws_bw st) !! i) as [[|req ch]|] eqn:Ec;
      destruct (bw_buffers (ws_bw st) !! i) as [buf|] eqn:Eb; try discriminate.
    rewrite <- (dequeue_view i req ch buf st key Hwf Ec Eb).
    cbv zeta. case_decide; [|by intros [= <- _]].
    intros E Hlog. eapply flush_then_view; [|done|exact E|exact Hlog].
    by apply wf_dequeue.
  - by apply flush_then_view.
  - destruct (bw_stopped _); [by apply flush_then_view | discriminate].
Qed.

Lemma runWorker_view rng i c st st' a key :
  wf_bw (ws_bw st) → map_order rng →
  runWorker rng i c st = Done st' a → ws_log st' = ws_log st →
  view st' key = view st key.
Proof.
  intros Hwf Hrng. unfold runWorker. destruct (bw_pcs _ !! i) as [[]|]; try discriminate.
  - case_decide; [discriminate|]. by intros [= <- _].
  - destruct (runWorker_iter _ _ _ _) as [st1 b| |] eqn:E; try discriminate.
    assert (ws_log st1 = ws_log st → view st1 key = view st key) as Hv.
    { intros Hlog. by eapply runWorker_iter_view. }
    destruct b; by intros [= <- _].
Qed.

(** The outcome of [BufferWrite] on a well-formed writer. *)
Lemma BufferWrite_eq key value bw :
  wf_bw bw →
  let i := Z.to_nat (worker_of (bw_workers bw) key) in
  ∃ ch, bw_channels bw !! i = Some ch ∧
    BufferWrite key value bw =
      if decide (500000 ≤ Z.of_nat (length ch))%Z then Blocked
      else Done (set_channel i (ch ++ [MkReq key value]) bw) ().
Proof.
  intros Hwf i. destruct (lookup_worker (bw_channels bw) (bw_workers bw) key) as [ch Hch];
    [apply Hwf..|].
  exists ch. split; [done|]. unfold BufferWrite.
  pose proof (wf_workers _ Hwf). pose proof (worker_of_range (bw_workers bw) key).
  rewrite decide_False by lia. cbv zeta. rewrite decide_False by lia.
  by rewrite Hch.
Qed.

Lemma BufferWrite_done key value bw bw' :
  wf_bw bw → BufferWrite key value bw = Done bw' () →
  ∃ ch, bw_channels bw !! Z.to_nat (worker_of (bw_workers bw) key) = Some ch ∧
    bw' = set_channel (Z.to_nat (worker_of (bw_workers bw) key))
            (ch ++ [MkReq key value]) bw.
Proof.
  intros Hwf. unfold BufferWrite. case_decide; [discriminate|]. cbv zeta.
  case_decide; [discriminate|].
  destruct (bw_channels bw !! _) as [ch|]; [|discriminate].
  case_decide; [discriminate|]. intros [= <-]. eauto.
Qed.

Lemma BufferWrite_pending key value bw bw' k :
  wf_bw bw → BufferWrite key value bw = Done bw' () →
  pending bw' k = if decide (k = key) then Some value else pending bw k.
Proof.
  intros Hwf (ch & Hch & ->)%BufferWrite_done; [|done].
  destruct (lookup_worker (bw_buffers bw) (bw_workers bw) key) as [buf Hbuf];
    [apply Hwf..|].
  set (i := Z.to_nat (worker_of (bw_workers bw) key)) in *.
  set (ch' := ch ++ [_]).
  replace (set_channel i ch' bw) with (set_buffer i buf (set_channel i ch' bw))
    by (by apply set_buffer_id).
  rewrite pending_update by (done || by eapply lookup_lt_Some).
  case_decide as Hk.
  - unfold pending_of, ch'. rewrite chan_last_snoc. simpl. unfold pending.
    rewrite Hk, Hch, Hbuf. simpl. case_decide; [by rewrite decide_True|].
    by rewrite decide_False by congruence.
  - rewrite decide_False; [done|]. by intros ->.
Qed.

Lemma wstep_view st l st' key :
  wf_bw (ws_bw st) → wstep st l st' → (l = LHeap → heap_stable st (ws_heap st')) →
  ws_log st' = ws_log st → view st' key = spec_step (view st) l key.
Proof.
  intros Hwf Hstep. revert Hwf.
  destruct Hstep as [st k value bw' Hw|st bw' Hs|st rng i c st1 ? Hr|st h'];
    intros Hwf Hst Hlog; simpl.
  - unfold view. cbn [with_bw ws_bw ws_heap].
    rewrite (BufferWrite_pending _ _ _ _ key Hwf Hw).
    case_decide; [done|]. unfold db_of, db_view. simpl.
    by apply BufferWrite_done in Hw as (? & ? & ->).
  - unfold FlushAndStop in Hs. destruct (bw_stopped _); [discriminate|].
    by injection Hs as <-.
  - by eapply runWorker_view.
  - unfold view. cbn [ws_bw ws_heap]. destruct (pending _ key) as [s|] eqn:E; [|done].
    f_equal. by apply (Hst eq_refl) in E.
Qed.
End spec.
