(* ===== verification/WriterCorrect.v ===== *)
(** Correctness of the batch writer: refinement of the key-value map by every
    run, the contract of a flush, the bound on the buffers, draining, and what
    becomes of the requests of a stopped worker. *)
From S2P Require Import Prelude GoRuntime Slices Types Config Mdbx Database BatchWriter WriterSpec.

Section steps.
Context `{MdbxLaws}.
Implicit Types (st : wstate) (bw : BatchWriter).

Definition dequeue (i : nat) (req : WriteRequest) (ch : list WriteRequest)
    (buf : gmap array32 slice) : wstate → wstate :=
  with_bw (λ bw, set_buffer i (<[req_Key req := req_Value req]> buf) (set_channel i ch bw)).

(** The steps of a worker as a relation, one constructor per path of its code. *)
Inductive worker_step (rng : gmap array32 slice → list (array32 * slice)) (i : nat)
    : wstate → wstate → Prop :=
  | ws_start st :
      bw_pcs (ws_bw st) !! i = Some WStart → (0 < bw_flushInterval (ws_bw st))%Z →
      worker_step rng i st (with_bw (set_pc i WLoop) st)
  | ws_take st req ch buf :
      bw_pcs (ws_bw st) !! i = Some WLoop →
      bw_channels (ws_bw st) !! i = Some (req :: ch) →
      bw_buffers (ws_bw st) !! i = Some buf →
      (Z.of_nat (size (<[req_Key req := req_Value req]> buf)) < bw_maxBatchSize (ws_bw st))%Z →
      worker_step rng i st (dequeue i req ch buf st)
  | ws_take_flush st req ch buf st' :
      bw_pcs (ws_bw st) !! i = Some WLoop →
      bw_channels (ws_bw st) !! i = Some (req :: ch) →
      bw_buffers (ws_bw st) !! i = Some buf →
      (bw_maxBatchSize (ws_bw st) ≤ Z.of_nat (size (<[req_Key req := req_Value req]> buf)))%Z →
      flush rng i (dequeue i req ch buf st) = Done st' () →
      worker_step rng i st st'
  | ws_tick st st' :
      bw_pcs (ws_bw st) !! i = Some WLoop → flush rng i st = Done st' () →
      worker_step rng i st st'
  | ws_stop st st' :
      bw_pcs (ws_bw st) !! i = Some WLoop → bw_stopped (ws_bw st) = true →
      flush rng i st = Done st' () →
      worker_step rng i st (with_bw (set_pc i WDone) st').

(** A schedule of one worker that empties it: as many receives as there are
    requests, then a tick. *)
Fixpoint receive_n (rng : gmap array32 slice → list (array32 * slice)) (i n : nat)
    : Go wstate () :=
  match n with
  | 0 => mret ()
  | S n => runWorker rng i CaseRequest;; receive_n rng i n
  end.

Definition drain_worker (rng : gmap array32 slice → list (array32 * slice)) (i : nat)
    : Go wstate () := λ st,
  (receive_n rng i (length (default [] (bw_channels (ws_bw st) !! i)));;
   runWorker rng i CaseTick) st.

Fixpoint drain_upto (rng : gmap array32 slice → list (array32 * slice)) (n : nat)
    : Go wstate () :=
  match n with
  | 0 => mret ()
  | S n => drain_upto rng n;; drain_worker rng n
  end.

(** * Steps of a worker *)

Lemma flush_then_inv rng i st st' (b b' : bool) :
  (flush rng i;; mret b) st = Done st' b' → flush rng i st = Done st' () ∧ b' = b.
Proof.
  unfold mbind, go_bind. by destruct (flush rng i st) as [st1 []| |]; [intros [= <- <-]|..].
Qed.

Lemma runWorker_step rng i c st st' a :
  runWorker rng i c st = Done st' a → worker_step rng i st st'.
Proof.
  unfold runWorker. destruct (bw_pcs _ !! i) as [[]|] eqn:Hpc; try discriminate.
  { case_decide; [discriminate|]. intros [= <- _]. constructor; [done|lia]. }
  unfold runWorker_iter. destruct c.
  - destruct (bw_channels (ws_bw st) !! i) as [[|req ch]|] eqn:Ec;
      destruct (bw_buffers (ws_bw st) !! i) as [buf|] eqn:Eb; try discriminate.
    cbv zeta. fold (dequeue i req ch buf). case_decide.
    + destruct ((flush rng i;; mret true) _) as [st1 b| |] eqn:E; try discriminate.
      apply flush_then_inv in E as [E ->]. intros [= <- _]. by eapply ws_take_flush.
    + intros [= <- _]. apply ws_take; [done..|].
      apply Z.nle_gt. by cbn in *.
  - destruct ((flush rng i;; mret true) _) as [st1 b| |] eqn:E; try discriminate.
    apply flush_then_inv in E as [E ->]. intros [= <- _]. by apply ws_tick.
  - destruct (bw_stopped _) eqn:Es; [|discriminate].
    destruct ((flush rng i;; mret false) _) as [st1 b| |] eqn:E; try discriminate.
    apply flush_then_inv in E as [E ->]. intros [= <- _]. by apply ws_stop.
Qed.

(** What a flush leaves alone. *)
Lemma flush_frame rng i st st' a :
  flush rng i st = Done st' a →
  ws_heap st' = ws_heap st ∧
  ws_bw st' = set_buffer i ∅ (ws_bw st) ∧
  ∃ es, ws_log st' = ws_log st ++ es.
Proof.
  unfold flush. destruct (bw_buffers (ws_bw st) !! i) as [buf|] eqn:Hb; [|done].
  case_decide as Hs.
  { apply map_size_empty_inv in Hs as ->. intros [= <- _]. rewrite set_buffer_id by done.
    split_and!; [done..|]. exists []. by rewrite app_nil_r. }
  destruct (env_Update _ _ _) as [m r]. intros [= <- _]. split_and!; [done..|].
  simpl. destruct r; [exists []; by rewrite app_nil_r | eauto].
Qed.

Lemma wstep_log st l st' :
  wstep st l st' → ∃ es, ws_log st' = ws_log st ++ es.
Proof.
  assert (∀ l : list error, ∃ es, l = l ++ es) as Hnil.
  { intros log. exists []. by rewrite app_nil_r. }
  destruct 1 as [?????|???|?? i ?? _ Hr%runWorker_step|]; [apply Hnil..| |apply Hnil].
  destruct Hr as [| |????? _ _ _ _ Hf|?? _ Hf|?? _ _ Hf]; try apply Hnil;
    apply flush_frame in Hf as (_ & _ & Hes); apply Hes.
Qed.

Lemma stable_run_log st ls st' :
  stable_run st ls st' → ∃ es, ws_log st' = ws_log st ++ es.
Proof.
  induction 1 as [st|st l st1 ls st2 Hs _ _ (es & IH)].
  - exists []. by rewrite app_nil_r.
  - apply wstep_log in Hs as (es' & Hs). exists (es' ++ es). by rewrite IH, Hs, app_assoc.
Qed.

Lemma log_extends_eq {A} (a b c es es' : list A) :
  b = a ++ es → c = b ++ es' → c = a → b = a ∧ c = b.
Proof.
  intros -> -> E. rewrite <- app_assoc in E.
  assert (es ++ es' = []) as [-> ->]%app_nil.
  { apply (f_equal length) in E. rewrite length_app in E.
    destruct (es ++ es'); [done|]. simpl in E. lia. }
  by rewrite !app_nil_r.
Qed.

Lemma spec_fold_ext ls f g key :
  (∀ k, f k = g k) → foldl spec_step f ls key = foldl spec_step g ls key.
Proof.
  revert f g. induction ls as [|l ls IH]; intros f g Hfg; [apply Hfg|].
  simpl. apply IH. intros k. destruct l; simpl; [|apply Hfg..].
  by rewrite Hfg.
Qed.

Lemma quiescent_pending bw key : quiescent bw → pending bw key = None.
Proof.
  intros [Hc Hb]. unfold pending. set (i := Z.to_nat _).
  assert (default [] (bw_channels bw !! i) = []) as ->.
  { destruct (_ !! i) eqn:E; [|done]. by apply (Forall_lookup_1 _ _ _ _ Hc) in E. }
  assert (default ∅ (bw_buffers bw !! i) = ∅) as ->.
  { destruct (bw_buffers bw !! i) eqn:E; [|done]. by apply (Forall_lookup_1 _ _ _ _ Hb) in E. }
  unfold pending_of. simpl. by rewrite lookup_empty.
Qed.

Lemma quiescent_view st key :
  quiescent (ws_bw st) → view st key = db_of st !! array_bytes key.
Proof. intros Hq. unfold view. by rewrite quiescent_pending. Qed.

(** * The runs refine the map *)

Lemma stable_run_view st st' ls key :
  wf_bw (ws_bw st) → stable_run st ls st' → ws_log st' = ws_log st →
  view st' key = foldl spec_step (view st) ls key.
Proof.
  intros Hwf Hrun. revert Hwf key. induction Hrun as [st|st l st1 ls st2 Hs Hst Hrun IH];
    intros Hwf key Hlog; [done|]. simpl.
  destruct (wstep_log _ _ _ Hs) as [es Hes].
  destruct (stable_run_log _ _ _ Hrun) as [es' Hes'].
  destruct (log_extends_eq _ _ _ _ _ Hes Hes' Hlog) as [Hl1 Hl2].
  rewrite IH by (done || by eapply wstep_wf).
  apply spec_fold_ext. intros k. by apply wstep_view.
Qed.

(** C1: The batch writer refines a key-value map. Along every interleaving of client
    writes, a stop, steps of any number of workers under any iteration order of
    Go maps, and heap changes that leave the values in flight alone: as long as
    no flush logs an error, the contents of the database overridden by what is
    buffered and queued is the initial map updated by the writes, in the order
    they were accepted; once nothing is queued or buffered this is the content
    of the database itself. *)
Theorem writer_refines_map (st st' : wstate) (ls : list wlabel) :
  wf_bw (ws_bw st) → stable_run st ls st' → ws_log st' = ws_log st →
  (∀ key, view st' key = foldl spec_step (view st) ls key) ∧
  (quiescent (ws_bw st') →
     ∀ key, db_of st' !! array_bytes key = foldl spec_step (view st) ls key).
Proof.
  intros Hwf Hrun Hlog. split; [intros key; by apply stable_run_view|].
  intros Hq key. by rewrite <- (stable_run_view st st'), quiescent_view.
Qed.
End steps.

Section flush_contract.
Context `{MdbxLaws}.
Implicit Types (st : wstate).

(** C15: The contract of [flush] for worker [i], whatever the iteration order of the
    buffer: it returns with the buffer empty, queues, heap and the other buffers
    untouched, and either nothing is logged and the transaction stored every
    binding of the buffer and no other, or one error is logged and the database
    is unchanged: the buffered writes are then gone, as the buffer is cleared in
    both cases. *)
Theorem flush_correct rng i st buf :
  map_order rng → bw_buffers (ws_bw st) !! i = Some buf →
  ∃ st', flush rng i st = Done st' () ∧
    ws_heap st' = ws_heap st ∧ ws_bw st' = set_buffer i ∅ (ws_bw st) ∧
    ((ws_log st' = ws_log st ∧
      (∀ key, db_of st' !! array_bytes key =
         match buf !! key with
         | Some s => Some (bytes_of (ws_heap st) s)
         | None => db_of st !! array_bytes key
         end) ∧
      (∀ raw, length raw ≠ 32 → db_of st' !! raw = db_of st !! raw)) ∨
     (∃ e, ws_log st' = ws_log st ++ [e] ∧ db_of st' = db_of st)).
Proof. apply flush_outcome. Qed.

(** C17: A failed flush loses the writes it was to store: for a key of the buffer with
    no newer request in the queue, the value a reader can ever get falls back to
    the database's old one. *)
Theorem failed_flush_loses_writes rng i st st' buf key s :
  wf_bw (ws_bw st) → map_order rng →
  bw_buffers (ws_bw st) !! i = Some buf → buf !! key = Some s →
  chan_last key (default [] (bw_channels (ws_bw st) !! i)) = None →
  flush rng i st = Done st' () → ws_log st' ≠ ws_log st →
  view st key = Some (bytes_of (ws_heap st) s) ∧
  view st' key = db_of st !! array_bytes key.
Proof.
  intros Hwf Hrng Hb Hs Hc E Hlog.
  destruct (flush_outcome rng i st buf Hrng Hb) as (st1 & E1 & Hh & Hbw & Hout).
  rewrite E1 in E. injection E as <-.
  destruct Hout as [(? & _)|(e & _ & Hdb)]; [done|].
  assert (Z.to_nat (worker_of (bw_workers (ws_bw st)) key) = i) as Hi.
  { symmetry. apply routed_iff; [apply Hwf|]. by eapply wf_routed_buffer. }
  unfold view. rewrite Hdb, Hh, Hbw. unfold pending, pending_of.
  cbn [set_buffer bw_workers bw_channels bw_buffers]. rewrite Hi, Hc, Hb.
  rewrite list_lookup_insert_eq by (by eapply lookup_lt_Some).
  unfold default, id. cbn [from_option]. by rewrite Hs, lookup_empty.
Qed.
End flush_contract.

(** * The buffers stay below the batch size *)

Section bounds.
Context `{MdbxLaws}.
Implicit Types (st : wstate) (bw : BatchWriter).

Lemma bounded_set_buffer i b bw :
  buffers_bounded bw → (Z.of_nat (size b) < bw_maxBatchSize bw)%Z →
  buffers_bounded (set_buffer i b bw).
Proof. intros [? Hb] ?. split; [done|]. simpl. by apply Forall_insert. Qed.

Lemma bounded_flush rng i st st' a :
  flush rng i st = Done st' a → (0 < bw_maxBatchSize (ws_bw st))%Z →
  (∀ j b, j ≠ i → bw_buffers (ws_bw st) !! j = Some b →
     (Z.of_nat (size b) < bw_maxBatchSize (ws_bw st))%Z) →
  buffers_bounded (ws_bw st').
Proof.
  intros (_ & -> & _)%flush_frame Hmax Hb. split; [done|]. simpl.
  apply Forall_lookup_2. intros j b [(<- & <- & _)|[? Hj]]%list_lookup_insert_Some.
  - by rewrite map_size_empty.
  - by eapply (Hb j).
Qed.

Lemma bounded_lookup bw j b :
  buffers_bounded bw → bw_buffers bw !! j = Some b →
  (Z.of_nat (size b) < bw_maxBatchSize bw)%Z.
Proof. intros [_ Hb]. by apply (Forall_lookup_1 _ _ _ _ Hb). Qed.

Lemma wstep_bounded (st st' : wstate) (l : wlabel) :
  wstep st l st' → buffers_bounded (ws_bw st) → buffers_bounded (ws_bw st').
Proof.
  destruct 1 as [st key v bw' Hw|st bw' Hs|st rng i c st' _ Hr%runWorker_step|]; intros Hb.
  - unfold BufferWrite in Hw. repeat case_match; simplify_eq. by destruct Hb.
  - unfold FlushAndStop in Hs. case_match; simplify_eq. by destruct Hb.
  - destruct Hr as [st|st req ch buf|st req ch buf st' _ _ Hbuf _ Hf|st st' _ Hf|st st' _ _ Hf].
    + by destruct Hb.
    + simpl. apply bounded_set_buffer; [|done]. by destruct Hb.
    + eapply bounded_flush; [done|apply Hb|].
      simpl. intros j b Hj. rewrite list_lookup_insert_ne by done. by apply bounded_lookup.
    + eapply bounded_flush; [done|apply Hb|]. intros j b _. by apply bounded_lookup.
    + apply (bounded_flush rng i st) in Hf; [by destruct Hf | apply Hb|].
      intros j b _. by apply bounded_lookup.
  - done.
Qed.

(** C18: The batch size bounds the buffers: with a positive [maxBatchSize], no step of
    the system leaves a buffer with [maxBatchSize] entries or more, since a worker
    whose buffer reaches the size flushes it in the same iteration. *)
Theorem buffers_stay_bounded (st st' : wstate) (l : wlabel) :
  wstep st l st' → buffers_bounded (ws_bw st) → buffers_bounded (ws_bw st').
Proof. apply wstep_bounded. Qed.
End bounds.

(** * The client's side *)

Section client.
Context `{Mdbx}.

(** [BufferWrite] on a well-formed writer never panics: it blocks when the queue
    of the key's worker holds 500000 requests, and otherwise appends the request
    to that queue and changes nothing else. *)
Theorem BufferWrite_outcome (key : array32) (value : slice) (bw : BatchWriter) :
  wf_bw bw →
  let i := Z.to_nat (worker_of (bw_workers bw) key) in
  ∃ ch, bw_channels bw !! i = Some ch ∧
    BufferWrite key value bw =
      if decide (500000 ≤ Z.of_nat (length ch))%Z then Blocked
      else Done (set_channel i (ch ++ [MkReq key value]) bw) ().
Proof.
  apply BufferWrite_eq.
Qed.

(** A writer [NewBatchWriter] returns is well-formed when it has a worker, with
    empty queues and buffers; without workers every [BufferWrite] panics, a
    negative number of workers panics in the constructor. *)
Theorem NewBatchWriter_spec {S} (db : Db) (max interval workers : Z) (s : S)
    (key : array32) (value : slice) :
  match NewBatchWriter db max interval workers s with
  | Done _ bw =>
      (0 ≤ workers)%Z ∧ quiescent bw ∧ bw_stopped bw = false ∧
      (if decide (workers = 0)%Z then BufferWrite key value bw = Panicked PanicDivide
       else wf_bw bw ∧ Forall (λ pc, pc = WStart) (bw_pcs bw))
  | Panicked p => (workers < 0)%Z ∧ p = PanicMakeLen
  | Blocked => False
  end.
Proof.
  unfold NewBatchWriter. destruct (decide (workers < 0)%Z) as [Hw|Hw]; [done|].
  split; [lia|]. split.
  { split; simpl; by apply Forall_replicate. }
  split; [done|]. case_decide as H0; [by subst|].
  split; [|simpl; by apply Forall_replicate].
  rewrite <- (Z2Nat.id workers) at 3 by lia.
  apply wf_fresh; [lia | by rewrite length_replicate].
Qed.
End client.

(** * A worker that has left its loop *)

Section stopped.
Context `{MdbxLaws}.
Implicit Types (st : wstate) (bw : BatchWriter).

(** The part of the state that belongs to worker [i], once it is done: its program
    counter, a queue that only grows, its buffer, its share of the database. *)
Record frozen (i : nat) (st st' : wstate) : Prop := {
  frozen_pc : bw_pcs (ws_bw st') !! i = bw_pcs (ws_bw st) !! i;
  frozen_queue ch : bw_channels (ws_bw st) !! i = Some ch →
    ∃ more, bw_channels (ws_bw st') !! i = Some (ch ++ more);
  frozen_buffer : bw_buffers (ws_bw st') !! i = bw_buffers (ws_bw st) !! i;
  frozen_workers : bw_workers (ws_bw st') = bw_workers (ws_bw st);
  frozen_db key : routed (bw_workers (ws_bw st)) key i →
    db_of st' !! array_bytes key = db_of st !! array_bytes key;
}.

#[export] Instance frozen_refl i : Reflexive (frozen i).
Proof. intros st. split; [done | | done..]. intros ch ->. exists []. by rewrite app_nil_r. Qed.

#[export] Instance frozen_trans i : Transitive (frozen i).
Proof.
  intros st1 st2 st3 [P1 Q1 B1 W1 D1] [P2 Q2 B2 W2 D2]. split; [congruence| |congruence..|].
  - intros ch (m1 & (m2 & ->)%Q2)%Q1. exists (m1 ++ m2). by rewrite app_assoc.
  - intros key Hk. rewrite D2, D1; [done..|congruence].
Qed.

Lemma frozen_bw i st f :
  bw_db (f (ws_bw st)) = bw_db (ws_bw st) →
  bw_workers (f (ws_bw st)) = bw_workers (ws_bw st) →
  bw_pcs (f (ws_bw st)) !! i = bw_pcs (ws_bw st) !! i →
  bw_channels (f (ws_bw st)) !! i = bw_channels (ws_bw st) !! i →
  bw_buffers (f (ws_bw st)) !! i = bw_buffers (ws_bw st) !! i →
  frozen i st (with_bw f st).
Proof.
  intros Hd Hw Hp Hc Hb. split; simpl; [done| |done..|].
  - intros ch Hch. exists []. by rewrite Hc, app_nil_r.
  - intros key _. unfold db_of, db_view. simpl. by rewrite Hd.
Qed.

(** Worker [j] flushes keys of its own only. *)
Lemma frozen_flush rng i j st st' a :
  wf_bw (ws_bw st) → map_order rng → i ≠ j →
  flush rng j st = Done st' a → frozen i st st'.
Proof.
  intros Hwf Hrng Hij E. pose proof E as (_ & Hbw & _)%flush_frame.
  destruct (bw_buffers (ws_bw st) !! j) as [buf|] eqn:Hb.
  2: { unfold flush in E. by rewrite Hb in E. }
  destruct (flush_outcome rng j st buf Hrng Hb) as (st1 & E1 & _ & _ & Hout).
  rewrite E1 in E. injection E as -> _.
  split; rewrite ?Hbw; simpl; [done| |by apply list_lookup_insert_ne|done|].
  - intros ch ->. exists []. by rewrite app_nil_r.
  - intros key Hk. destruct Hout as [(_ & Hdb & _)|(e & _ & ->)]; [|done].
    rewrite Hdb. destruct (buf !! key) as [s|] eqn:Es; [|done].
    eapply wf_routed_buffer in Es; [|done..]. unfold routed in *. lia.
Qed.

Lemma frozen_worker rng i j st st' :
  wf_bw (ws_bw st) → map_order rng → bw_pcs (ws_bw st) !! i = Some WDone →
  worker_step rng j st st' → frozen i st st'.
Proof.
  intros Hwf Hrng Hi Hs.
  assert (i ≠ j) as Hij by (intros <-; destruct Hs; congruence).
  destruct Hs as [st|st req ch buf|st req ch buf st' _ Hc Hb _ Hf|st st' _ Hf|st st' _ _ Hf].
  - apply frozen_bw; try done. by apply list_lookup_insert_ne.
  - apply frozen_bw; try done; by apply list_lookup_insert_ne.
  - trans (dequeue j req ch buf st).
    + apply frozen_bw; try done; by apply list_lookup_insert_ne.
    + eapply frozen_flush; [|done..]. by apply wf_dequeue.
  - by eapply frozen_flush.
  - trans st'; [by eapply frozen_flush|].
    apply frozen_bw; try done. by apply list_lookup_insert_ne.
Qed.

Lemma frozen_step i st l st' :
  wf_bw (ws_bw st) → bw_pcs (ws_bw st) !! i = Some WDone →
  wstep st l st' → frozen i st st'.
Proof.
  intros Hwf Hi Hs. revert Hwf Hi.
  destruct Hs as [st key v bw' Hw|st bw' Hs|st rng j c st' Hrng Hr%runWorker_step|st h'];
    intros Hwf Hi.
  - apply BufferWrite_done in Hw as (ch & Hch & ->); [|done].
    set (j := Z.to_nat _) in *. destruct (decide (j = i)) as [<-|Hj].
    + split; try done. intros ch' Hch'. simpl.
      rewrite list_lookup_insert_eq by (by eapply lookup_lt_Some).
      exists [MkReq key v]. congruence.
    + apply frozen_bw; try done. by apply list_lookup_insert_ne.
  - unfold FlushAndStop in Hs. case_match; simplify_eq. by apply frozen_bw.
  - by eapply frozen_worker.
  - split; try done. intros ch Hch. simpl. rewrite Hch. exists []. by rewrite app_nil_r.
Qed.

(** C16: Requests queued at a worker that has left its loop are lost: however the
    system runs on, its queue keeps them all, its buffer stays as it is, and no
    key of that worker ever changes in the database. *)
Theorem done_worker_strands_queue (i : nat) (st st' : wstate) (ls : list wlabel)
    (ch : list WriteRequest) :
  wf_bw (ws_bw st) → bw_pcs (ws_bw st) !! i = Some WDone →
  bw_channels (ws_bw st) !! i = Some ch → wsteps st ls st' →
  (∃ more, bw_channels (ws_bw st') !! i = Some (ch ++ more)) ∧
  bw_buffers (ws_bw st') !! i = bw_buffers (ws_bw st) !! i ∧
  (∀ key, routed (bw_workers (ws_bw st)) key i →
     db_of st' !! array_bytes key = db_of st !! array_bytes key).
Proof.
  intros Hwf Hi Hch Hrun.
  assert (frozen i st st') as [_ Hq Hb _ Hd].
  { clear Hch. induction Hrun as [|st l st1 ls st2 Hs Hrun IH]; [done|].
    pose proof (frozen_step i st l st1 Hwf Hi Hs) as Hf. trans st1; [done|].
    apply IH; [by eapply wstep_wf|]. by rewrite (frozen_pc _ _ _ Hf). }
  split_and!; [by apply Hq | done | done].
Qed.
End stopped.

(** * Draining *)

Section drain.
Context `{MdbxReliable}.
Implicit Types (st : wstate) (bw : BatchWriter).

Lemma put_all_total h c pairs t : ∃ t', put_all h c pairs t = (t', Ok ()).
Proof.
  revert t. induction pairs as [|[k v] pairs IH]; intros t; simpl; [eauto|].
  destruct (cursor_Put_ok c (array_bytes k) (bytes_of h v) t) as [t' ->]. apply IH.
Qed.

Lemma flush_txn_total h d pairs t : ∃ t', flush_txn h d pairs t = (t', Ok ()).
Proof.
  unfold flush_txn. destruct (txn_OpenCursor_ok d t) as (t1 & c & ->).
  destruct (put_all_total h c pairs t1) as [t2 ->]. eauto.
Qed.

Definition live (st : wstate) : Prop := env_live (ws_mdbx st) (db_env (bw_db (ws_bw st))).

(** On a library that does not fail, a flush logs nothing. *)
Lemma flush_total rng i st buf :
  live st → bw_buffers (ws_bw st) !! i = Some buf →
  ∃ st', flush rng i st = Done st' () ∧ live st' ∧ ws_log st' = ws_log st ∧
    ws_bw st' = set_buffer i ∅ (ws_bw st).
Proof.
  intros Hl Hb. unfold flush. rewrite Hb. case_decide as Hs.
  { apply map_size_empty_inv in Hs as ->. exists st. by rewrite set_buffer_id. }
  set (fn := flush_txn _ _ _). set (e := db_env _).
  destruct (env_Update_ok e fn (ws_mdbx st) Hl) as (m & [] & E).
  { intros t. destruct (flush_txn_total (ws_heap st)
      (db_dbi (bw_db (ws_bw st))) (rng buf) t) as [t' Ht]. exists t', tt. apply Ht. }
  pose proof (env_Update_live e fn (ws_mdbx st) e Hl) as Hl'.
  rewrite E in Hl' |- *. eexists. split; [done|]. done.
Qed.

(** A worker that received everything it had and flushed. *)
Lemma set_set_worker i b b' c c' bw :
  set_buffer i b (set_channel i c (set_buffer i b' (set_channel i c' bw)))
  = set_buffer i b (set_channel i c bw).
Proof. unfold set_buffer, set_channel. simpl. by rewrite !list_insert_insert_eq. Qed.

Definition workers_only (ls : list wlabel) : Prop := Forall (λ l, l = LWorker) ls.

(** Runs of worker steps that keep the log and the library alive. *)
Definition worker_run (st st' : wstate) : Prop :=
  ∃ ls, stable_run st ls st' ∧ workers_only ls ∧ live st' ∧ ws_log st' = ws_log st.

Lemma stable_run_app st ls st1 ls' st2 :
  stable_run st ls st1 → stable_run st1 ls' st2 → stable_run st (ls ++ ls') st2.
Proof. induction 1; simpl; [done|]. econstructor; eauto. Qed.

Lemma worker_run_refl st : live st → worker_run st st.
Proof. exists []. repeat split; [constructor | by constructor | done]. Qed.

Lemma worker_run_trans st st1 st2 :
  worker_run st st1 → worker_run st1 st2 → worker_run st st2.
Proof.
  intros (ls & R & F & _ & L) (ls' & R' & F' & ? & L'). exists (ls ++ ls').
  split_and!; [by eapply stable_run_app | by apply Forall_app | done | congruence].
Qed.

Lemma worker_run_one rng i c st st' :
  map_order rng → runWorker rng i c st = Done st' () → live st' →
  ws_log st' = ws_log st → worker_run st st'.
Proof.
  intros. exists [LWorker]. split_and!; [|by repeat constructor|done|done].
  econstructor; [by eapply step_worker | done | constructor].
Qed.

Lemma runWorker_request rng i st req ch buf :
  map_order rng → live st → bw_pcs (ws_bw st) !! i = Some WLoop →
  bw_channels (ws_bw st) !! i = Some (req :: ch) → bw_buffers (ws_bw st) !! i = Some buf →
  ∃ st' buf', runWorker rng i CaseRequest st = Done st' () ∧ worker_run st st' ∧
    ws_bw st' = set_buffer i buf' (set_channel i ch (ws_bw st)).
Proof.
  intros Hrng Hl Hpc Hc Hb.
  assert (∃ st' buf', runWorker rng i CaseRequest st = Done st' () ∧ live st' ∧
    ws_log st' = ws_log st ∧ ws_bw st' = set_buffer i buf' (set_channel i ch (ws_bw st)))
    as (st' & buf' & E & Hl' & Hlog & Hbw).
  2: { exists st', buf'. split_and!; [done| by eapply worker_run_one |done]. }
  unfold runWorker, runWorker_iter. rewrite Hpc, Hc, Hb. cbv zeta.
  fold (dequeue i req ch buf). case_decide; [|by eexists _, _].
  destruct (flush_total rng i (dequeue i req ch buf st) (<[req_Key req := req_Value req]> buf))
    as (st1 & E & Hl1 & Hlog & Hbw); [done| |].
  { simpl. apply list_lookup_insert_eq. by eapply lookup_lt_Some. }
  erewrite go_bind_done by exact E. exists st1, ∅. split_and!; [done..|].
  rewrite Hbw. unfold set_buffer. simpl. by rewrite list_insert_insert_eq.
Qed.

Lemma receive_n_total rng i ch st buf :
  map_order rng → live st → bw_pcs (ws_bw st) !! i = Some WLoop →
  bw_channels (ws_bw st) !! i = Some ch → bw_buffers (ws_bw st) !! i = Some buf →
  ∃ st' buf', receive_n rng i (length ch) st = Done st' () ∧ worker_run st st' ∧
    ws_bw st' = set_buffer i buf' (set_channel i [] (ws_bw st)).
Proof.
  intros Hrng. revert st buf. induction ch as [|req ch IH]; intros st buf Hl Hpc Hc Hb.
  { exists st, buf. split_and!; [done | by apply worker_run_refl |].
    by rewrite set_channel_id, set_buffer_id. }
  destruct (runWorker_request rng i st req ch buf) as (st1 & buf1 & E1 & R1 & B1); [done..|].
  destruct (IH st1 buf1) as (st2 & buf2 & E2 & R2 & B2).
  - by destruct R1 as (? & _ & _ & ? & _).
  - by rewrite B1.
  - rewrite B1. simpl. apply list_lookup_insert_eq. by eapply lookup_lt_Some.
  - rewrite B1. simpl. apply list_lookup_insert_eq. by eapply lookup_lt_Some.
  - exists st2, buf2. simpl. erewrite go_bind_done by exact E1.
    split_and!; [done | by eapply worker_run_trans |].
    by rewrite B2, B1, set_set_worker.
Qed.

Lemma drain_worker_total rng i ch st buf :
  map_order rng → live st → bw_pcs (ws_bw st) !! i = Some WLoop →
  bw_channels (ws_bw st) !! i = Some ch → bw_buffers (ws_bw st) !! i = Some buf →
  ∃ st', drain_worker rng i st = Done st' () ∧ worker_run st st' ∧
    ws_bw st' = set_buffer i ∅ (set_channel i [] (ws_bw st)).
Proof.
  intros Hrng Hl Hpc Hc Hb. unfold drain_worker. rewrite Hc. simpl default.
  destruct (receive_n_total rng i ch st buf) as (st1 & buf1 & E1 & R1 & B1); [done..|].
  erewrite go_bind_done by exact E1.
  destruct (flush_total rng i st1 buf1) as (st2 & E2 & L2 & Log2 & B2).
  { by destruct R1 as (? & _ & _ & ? & _). }
  { rewrite B1. simpl. apply list_lookup_insert_eq. by eapply lookup_lt_Some. }
  assert (runWorker rng i CaseTick st1 = Done st2 ()) as E3.
  { unfold runWorker, runWorker_iter. rewrite B1. simpl. rewrite Hpc.
    by erewrite go_bind_done by exact E2. }
  exists st2. split_and!; [done| |].
  - eapply worker_run_trans; [done|]. by eapply worker_run_one.
  - rewrite B2, B1. unfold set_buffer. simpl. by rewrite list_insert_insert_eq.
Qed.

(** The first [n] workers are empty, the others as before. *)
Lemma drain_upto_total rng n st :
  map_order rng → wf_bw (ws_bw st) → live st →
  Forall (λ pc, pc = WLoop) (bw_pcs (ws_bw st)) → n ≤ length (bw_channels (ws_bw st)) →
  ∃ st', drain_upto rng n st = Done st' () ∧ worker_run st st' ∧
    bw_pcs (ws_bw st') = bw_pcs (ws_bw st) ∧
    length (bw_channels (ws_bw st')) = length (bw_channels (ws_bw st)) ∧
    length (bw_buffers (ws_bw st')) = length (bw_buffers (ws_bw st)) ∧
    ∀ j, j < n → bw_channels (ws_bw st') !! j = Some [] ∧
                 bw_buffers (ws_bw st') !! j = Some ∅.
Proof.
  intros Hrng Hwf Hl Hpc. pose proof (wf_channels _ Hwf). pose proof (wf_buffers _ Hwf).
  pose proof (wf_pcs _ Hwf). induction n as [|n IH]; intros Hn.
  { exists st. split_and!; [done | by apply worker_run_refl | done..|]. intros ?. lia. }
  destruct IH as (st1 & E1 & R1 & P1 & C1 & B1 & D1); [lia|].
  destruct (lookup_lt_is_Some_2 (bw_channels (ws_bw st1)) n) as [ch Hch]; [lia|].
  destruct (lookup_lt_is_Some_2 (bw_buffers (ws_bw st1)) n) as [buf Hbuf]; [lia|].
  destruct (lookup_lt_is_Some_2 (bw_pcs (ws_bw st1)) n) as [pc Hpc1]; [rewrite P1; lia|].
  assert (pc = WLoop) as -> by (rewrite P1 in Hpc1; by apply (Forall_lookup_1 _ _ _ _ Hpc) in Hpc1).
  destruct (drain_worker_total rng n ch st1 buf) as (st2 & E2 & R2 & B2); [done| |done..|].
  { by destruct R1 as (? & _ & _ & ? & _). }
  exists st2. rewrite B2. simpl. rewrite !length_insert.
  split_and!; [by erewrite go_bind_done by exact E1 | by eapply worker_run_trans | done..|].
  intros j Hj. destruct (decide (j = n)) as [->|].
  - rewrite !list_lookup_insert_eq by lia. done.
  - rewrite !list_lookup_insert_ne by done. apply D1. lia.
Qed.

Lemma drain_spec rng (st : wstate) :
  map_order rng → wf_bw (ws_bw st) → live st →
  Forall (λ pc, pc = WLoop) (bw_pcs (ws_bw st)) →
  ∃ st' ls, drain_upto rng (length (bw_channels (ws_bw st))) st = Done st' () ∧
    stable_run st ls st' ∧ Forall (λ l, l = LWorker) ls ∧ live st' ∧
    quiescent (ws_bw st') ∧ ws_log st' = ws_log st ∧
    ∀ key, db_of st' !! array_bytes key = view st key.
Proof.
  intros Hrng Hwf Hl Hpc.
  destruct (drain_upto_total rng (length (bw_channels (ws_bw st))) st)
    as (st' & E & (ls & R & F & ? & Hlog) & _ & Hc & Hb & Hd); [done..|].
  assert (quiescent (ws_bw st')) as Hq.
  { pose proof (wf_channels _ Hwf). pose proof (wf_buffers _ Hwf).
    split; apply Forall_lookup_2; intros j x Hj; pose proof (lookup_lt_Some _ _ _ Hj);
      destruct (Hd j) as [? ?]; lia || congruence. }
  exists st', ls. split_and!; [done..|]. intros key.
  rewrite <- quiescent_view by done. rewrite (stable_run_view st st' ls key) by done.
  clear -F. induction F as [|l ls -> F IH]; [done|]. apply IH.
Qed.

(** Everything accepted can be stored: on a library that does not fail, while the
    workers are in their loops, the schedule in which each worker receives what
    is queued for it and then ticks ends, after worker steps only, with nothing
    queued or buffered, no error logged and the database equal to the map the
    writer presents. *)
Theorem drain_reaches_database rng (st : wstate) :
  map_order rng → wf_bw (ws_bw st) → live st →
  Forall (λ pc, pc = WLoop) (bw_pcs (ws_bw st)) →
  ∃ st' ls, drain_upto rng (length (bw_channels (ws_bw st))) st = Done st' () ∧
    stable_run st ls st' ∧ Forall (λ l, l = LWorker) ls ∧
    quiescent (ws_bw st') ∧ ws_log st' = ws_log st ∧
    ∀ key, db_of st' !! array_bytes key = view st key.
Proof.
  intros. destruct (drain_spec rng st) as (st' & ls & ? & ? & ? & _ & ?); [done..|].
  by exists st', ls.
Qed.
End drain.
