(* ===== verification/MultiWriter.v ===== *)
(** Several batch writers on one database, as the transport registry sets them up:
    their composition, the keys each of them owns, and what becomes of the order of
    writes that arrive over different transports. *)
From S2P Require Import Prelude GoRuntime Slices Types Config Mdbx Database BatchWriter WriterSpec WriterCorrect.

Section system.
Context `{MdbxLaws}.

(** * The composed state

    The writers share the heap, the database library and the error log. *)
Record mstate := MkMs {
  ms_heap : heap;
  ms_mdbx : mdbx_state;
  ms_writers : list BatchWriter;
  ms_log : list error;
}.
Implicit Types (ms : mstate) (st : wstate) (bw : BatchWriter).

(** The state as one writer sees it, and the state its step leaves. *)
Definition focus (bw : BatchWriter) (ms : mstate) : wstate :=
  MkWs (ms_heap ms) (ms_mdbx ms) bw (ms_log ms).
Definition unfocus (i : nat) (st : wstate) (ms : mstate) : mstate :=
  MkMs (ws_heap st) (ws_mdbx st) (<[i := ws_bw st]> (ms_writers ms)) (ws_log st).

(** A step of the system is a step of one of the writers. *)
Inductive mstep : mstate → nat * wlabel → mstate → Prop :=
  | mstep_writer ms i bw l st' :
      ms_writers ms !! i = Some bw → wstep (focus bw ms) l st' →
      mstep ms (i, l) (unfocus i st' ms).

(** A change of the heap leaves the values in flight at any writer alone. *)
Definition ms_heap_stable ms (h' : heap) : Prop :=
  ∀ i bw key s, ms_writers ms !! i = Some bw → pending bw key = Some s →
    bytes_of h' s = bytes_of (ms_heap ms) s.

Inductive mrun : mstate → list (nat * wlabel) → mstate → Prop :=
  | mrun_nil ms : mrun ms [] ms
  | mrun_cons ms l ms1 ls ms2 :
      mstep ms l ms1 → (l.2 = LHeap → ms_heap_stable ms (ms_heap ms1)) →
      mrun ms1 ls ms2 → mrun ms (l :: ls) ms2.

(** The writers are well-formed and write to the database [d]. *)
Definition ms_wf (d : Db) ms : Prop :=
  Forall (λ bw, wf_bw bw ∧ bw_db bw = d) (ms_writers ms).

Definition ms_db (d : Db) ms : store := db_view (ms_mdbx ms) d.

Definition ms_quiescent ms : Prop := Forall quiescent (ms_writers ms).

(** The writes of a run: all of them, those of one writer. *)
Definition labels_of (i : nat) (ls : list (nat * wlabel)) : list wlabel :=
  snd <$> filter (λ l, l.1 = i) ls.

Definition writes_key (key : array32) (l : wlabel) : Prop := ∃ value, l = LWrite key value.

#[export] Instance writes_key_dec key l : Decision (writes_key key l).
Proof.
  destruct l as [k v| | |]; [|by right; intros []..].
  destruct (decide (k = key)) as [->|Hk]; [left; by exists v|right].
  intros [? [= ]]. congruence.
Defined.

(** The value the [i]-th writer accepted last for a key. *)
Definition last_write (i : nat) (ls : list (nat * wlabel)) (key : array32)
    : option (list byte) :=
  foldl spec_step (λ _, None) (labels_of i ls) key.

(** * Steps *)

Lemma ms_wf_lookup d ms i bw :
  ms_wf d ms → ms_writers ms !! i = Some bw → wf_bw bw ∧ bw_db bw = d.
Proof. intros Hwf Hi. by apply (Forall_lookup_1 _ _ _ _ Hwf) in Hi. Qed.

Lemma wstep_db st l st' : wstep st l st' → bw_db (ws_bw st') = bw_db (ws_bw st).
Proof.
  destruct 1 as [st k v bw' Hw|st bw' Hs|st rng i c st' _ Hr%runWorker_step|]; [..|done].
  - unfold BufferWrite in Hw. by repeat case_match; simplify_eq.
  - unfold FlushAndStop in Hs. by case_match; simplify_eq.
  - destruct Hr as [| |????? _ _ _ _ Hf|?? _ Hf|?? _ _ Hf]; try done;
      apply flush_frame in Hf as (_ & E & _); simpl; by rewrite E.
Qed.

(** Only a change of the heap changes the heap. *)
Lemma wstep_heap st l st' : wstep st l st' → l = LHeap ∨ ws_heap st' = ws_heap st.
Proof.
  destruct 1 as [| |st rng i c st' _ Hr%runWorker_step|]; [by right..| |by left]. right.
  destruct Hr as [| |????? _ _ _ _ Hf|?? _ Hf|?? _ _ Hf]; try done;
    by apply flush_frame in Hf as (Hh & _).
Qed.

Lemma mstep_wf d ms l ms' : mstep ms l ms' → ms_wf d ms → ms_wf d ms'.
Proof.
  destruct 1 as [ms i bw l st' Hi Hs]. intros Hwf.
  destruct (ms_wf_lookup d ms i bw Hwf Hi) as [Hbw Hd].
  apply Forall_insert; [done|]. split.
  - by apply (wstep_wf _ _ _ Hs).
  - apply wstep_db in Hs. by rewrite Hs.
Qed.

Lemma mstep_log ms l ms' : mstep ms l ms' → ∃ es, ms_log ms' = ms_log ms ++ es.
Proof. destruct 1 as [ms i bw l st' Hi Hs]. apply (wstep_log _ _ _ Hs). Qed.

Lemma mrun_log ms ls ms' : mrun ms ls ms' → ∃ es, ms_log ms' = ms_log ms ++ es.
Proof.
  induction 1 as [ms|ms l ms1 ls ms2 Hs _ _ (es & IH)].
  - exists []. by rewrite app_nil_r.
  - apply mstep_log in Hs as (es' & Hs). exists (es' ++ es). by rewrite IH, Hs, app_assoc.
Qed.

(** The logs of a run that logs nothing. *)
Lemma mrun_cons_log ms l ms1 ls ms2 :
  mstep ms l ms1 → mrun ms1 ls ms2 → ms_log ms2 = ms_log ms →
  ms_log ms1 = ms_log ms ∧ ms_log ms2 = ms_log ms1.
Proof.
  intros [es Hes]%mstep_log [es' Hes']%mrun_log Hlog. by eapply log_extends_eq.
Qed.

(** A worker changes what is pending for a key only by bringing it to the database. *)
Lemma dequeue_pending i req ch buf bw key :
  wf_bw bw → bw_channels bw !! i = Some (req :: ch) → bw_buffers bw !! i = Some buf →
  pending (set_buffer i (<[req_Key req := req_Value req]> buf) (set_channel i ch bw)) key
  = pending bw key.
Proof.
  intros Hwf Hc Hb. rewrite pending_update by (done || by eapply lookup_lt_Some).
  case_decide as Hk; [|done]. unfold pending. by rewrite Hk, Hc, Hb, pending_of_dequeue.
Qed.

Lemma empty_buffer_pending i bw key :
  wf_bw bw → pending (set_buffer i ∅ bw) key = pending bw key ∨
             pending (set_buffer i ∅ bw) key = None.
Proof.
  intros Hwf. pose proof (wf_channels _ Hwf). pose proof (wf_buffers _ Hwf).
  destruct (bw_channels bw !! i) as [ch|] eqn:Hc.
  2: { left. f_equal. unfold set_buffer. destruct bw; simpl in *. f_equal.
       apply list_insert_ge. apply lookup_ge_None in Hc. lia. }
  rewrite <- (set_channel_id bw i ch Hc) at 1 3.
  rewrite pending_update by (done || by eapply lookup_lt_Some).
  case_decide as Hk; [|by left]. unfold pending. rewrite Hk, Hc. simpl.
  unfold pending_of. rewrite lookup_empty. destruct (chan_last key ch); [by left|by right].
Qed.

Lemma worker_step_pending rng i st st' key :
  wf_bw (ws_bw st) → worker_step rng i st st' →
  pending (ws_bw st') key = pending (ws_bw st) key ∨ pending (ws_bw st') key = None.
Proof.
  intros Hwf Hs. revert Hwf.
  destruct Hs as [st|st req ch buf _ Hc Hb _|st req ch buf st' _ Hc Hb _ Hf|st st' _ Hf
    |st st' _ _ Hf]; intros Hwf; [by left|left; by apply dequeue_pending|..].
  - apply flush_frame in Hf as (_ & -> & _).
    rewrite <- (dequeue_pending i req ch buf (ws_bw st) key) by done.
    by apply empty_buffer_pending, wf_dequeue.
  - apply flush_frame in Hf as (_ & -> & _). by apply empty_buffer_pending.
  - apply flush_frame in Hf as (_ & E & _).
    change (pending (ws_bw (with_bw _ st')) key) with (pending (ws_bw st') key).
    rewrite E. by apply empty_buffer_pending.
Qed.

Lemma wstep_pending st l st' key :
  wf_bw (ws_bw st) → wstep st l st' → (∀ value, l ≠ LWrite key value) →
  pending (ws_bw st') key = pending (ws_bw st) key ∨ pending (ws_bw st') key = None.
Proof.
  intros Hwf Hs. revert Hwf.
  destruct Hs as [st k s bw' Hw|st bw' Hs|st rng i c st' _ Hr%runWorker_step|st h'];
    intros Hwf Hl; [left..| |by left].
  - simpl. rewrite (BufferWrite_pending _ _ _ _ key Hwf Hw).
    rewrite decide_False; [done|]. intros ->. by eapply Hl.
  - unfold FlushAndStop in Hs. by case_match; simplify_eq.
  - by eapply worker_step_pending.
Qed.

(** A step of another writer, where the key is not pending and not written, leaves
    the key alone in the database. *)
Lemma idle_step d st l st' key :
  wf_bw (ws_bw st) → bw_db (ws_bw st) = d → wstep st l st' → ws_log st' = ws_log st →
  (l = LHeap → heap_stable st (ws_heap st')) → (∀ value, l ≠ LWrite key value) →
  pending (ws_bw st) key = None →
  pending (ws_bw st') key = None ∧
  db_view (ws_mdbx st') d !! array_bytes key = db_view (ws_mdbx st) d !! array_bytes key.
Proof.
  intros Hwf <- Hs Hlog Hst Hl Hp.
  assert (pending (ws_bw st') key = None) as Hp'.
  { destruct (wstep_pending _ _ _ key Hwf Hs Hl); congruence. }
  split; [done|]. pose proof (wstep_view _ _ _ key Hwf Hs Hst Hlog) as Hv.
  unfold view in Hv. rewrite Hp' in Hv. unfold db_of in Hv. rewrite (wstep_db _ _ _ Hs) in Hv.
  rewrite Hv. destruct l as [k v| | |]; simpl; unfold view, db_of; rewrite Hp; try done.
  rewrite decide_False; [done|]. intros ->. by eapply Hl.
Qed.

Lemma labels_of_cons i j l ls :
  labels_of i ((j, l) :: ls) =
    if decide (j = i) then l :: labels_of i ls else labels_of i ls.
Proof.
  unfold labels_of. rewrite filter_cons. simpl. by repeat case_decide.
Qed.

(** The value of a key after some steps depends on that key alone. *)
Lemma spec_fold_key f g ls key :
  f key = g key → foldl spec_step f ls key = foldl spec_step g ls key.
Proof.
  revert f g. induction ls as [|l ls IH]; intros f g Hfg; [done|].
  simpl. apply IH. destruct l; simpl; [by rewrite Hfg|done..].
Qed.

Lemma spec_step_other f l key : ¬ writes_key key l → spec_step f l key = f key.
Proof.
  intros Hl. destruct l; simpl; [|done..]. rewrite decide_False; [done|].
  intros ->. apply Hl. by eexists.
Qed.

(** * A key with one writer *)

(** No writer but the [i]-th holds a value for the key. *)
Definition owned (i : nat) (key : array32) ms : Prop :=
  ∀ j bw, j ≠ i → ms_writers ms !! j = Some bw → pending bw key = None.

Lemma unfocus_lookup i st ms j bw :
  ms_writers (unfocus i st ms) !! j = Some bw →
  (j = i ∧ bw = ws_bw st) ∨ (j ≠ i ∧ ms_writers ms !! j = Some bw).
Proof. simpl. intros [(-> & -> & _)|[? ?]]%list_lookup_insert_Some; auto. Qed.

Lemma heap_stable_focus ms h' i bw :
  ms_heap_stable ms h' → ms_writers ms !! i = Some bw → heap_stable (focus bw ms) h'.
Proof. intros Hst Hi key s Hp. by eapply Hst. Qed.

(** Another writer's step keeps the view of the owner. *)
Lemma other_step_view d ms j l ms1 i bw key :
  ms_wf d ms → mstep ms (j, l) ms1 → (l = LHeap → ms_heap_stable ms (ms_heap ms1)) →
  ms_log ms1 = ms_log ms → j ≠ i → ¬ writes_key key l → owned i key ms →
  ms_writers ms !! i = Some bw →
  ms_writers ms1 !! i = Some bw ∧ owned i key ms1 ∧
  view (focus bw ms1) key = view (focus bw ms) key.
Proof.
  intros Hwf Hs Hst Hlog Hji Hl Ho Hi. inversion Hs as [? ? bwj ? st' Hj Hw]; subst.
  destruct (ms_wf_lookup d ms j bwj Hwf Hj) as [Hwfj Hdj].
  destruct (ms_wf_lookup d ms i bw Hwf Hi) as [_ Hdi].
  destruct (idle_step d (focus bwj ms) l st' key) as [Hp Hdb]; try done.
  { intros Hh. eapply heap_stable_focus; [by apply Hst|done]. }
  { intros value ->. apply Hl. by eexists. }
  { by eapply Ho. }
  split; [cbn [unfocus ms_writers]; by rewrite list_lookup_insert_ne|]. split.
  - intros k bwk Hk [[-> ->]|[_ Hbk]]%unfocus_lookup; [done|by eapply Ho].
  - unfold view, db_of. cbn [focus ws_bw ws_mdbx ws_heap unfocus ms_mdbx ms_heap] in *.
    rewrite Hdi, Hdb. destruct (pending bw key) as [s|] eqn:Es; [|done].
    f_equal. destruct (wstep_heap _ _ _ Hw) as [Hh| ->]; [|done]. by apply (Hst Hh i bw key).
Qed.

(** The owner's own step, seen from the system. *)
Lemma own_step_view d ms l ms1 i bw key :
  ms_wf d ms → mstep ms (i, l) ms1 → (l = LHeap → ms_heap_stable ms (ms_heap ms1)) →
  ms_log ms1 = ms_log ms → ms_writers ms !! i = Some bw →
  ∃ bw1, ms_writers ms1 !! i = Some bw1 ∧ (owned i key ms → owned i key ms1) ∧
    view (focus bw1 ms1) key = spec_step (view (focus bw ms)) l key.
Proof.
  intros Hwf Hs Hst Hlog Hi. inversion Hs as [? ? bwi ? st' Hj Hw]; subst.
  assert (bwi = bw) as -> by congruence.
  destruct (ms_wf_lookup d ms i bw Hwf Hi) as [Hwfi _].
  exists (ws_bw st'). split; [|split].
  - simpl. apply list_lookup_insert_eq. by eapply lookup_lt_Some.
  - intros Ho k bwk Hk [[-> _]|[_ Hbk]]%unfocus_lookup; [done|by eapply Ho].
  - replace (focus (ws_bw st') (unfocus i st' ms)) with st' by by destruct st'.
    apply wstep_view; try done. intros Hh. eapply heap_stable_focus; [by apply Hst|done].
Qed.

Lemma owner_view d ms ls ms' i bw key :
  ms_wf d ms → mrun ms ls ms' → ms_log ms' = ms_log ms →
  ms_writers ms !! i = Some bw → owned i key ms →
  Forall (λ l, writes_key key l.2 → l.1 = i) ls →
  ∃ bw', ms_writers ms' !! i = Some bw' ∧ owned i key ms' ∧
    view (focus bw' ms') key = foldl spec_step (view (focus bw ms)) (labels_of i ls) key.
Proof.
  intros Hwf Hrun. revert bw Hwf.
  induction Hrun as [ms|ms [j l] ms1 ls ms2 Hs Hst Hrun IH]; intros bw Hwf Hlog Hi Ho Hls;
    [by exists bw|].
  apply Forall_cons in Hls as [Hl Hls]. simpl in Hl, Hst.
  destruct (mrun_cons_log _ _ _ _ _ Hs Hrun Hlog) as [Hlog1 Hlog2].
  pose proof (mstep_wf d _ _ _ Hs Hwf) as Hwf1. rewrite labels_of_cons. case_decide as Hj.
  - subst j. destruct (own_step_view d ms l ms1 i bw key) as (bw1 & Hi1 & Ho1 & Hv); try done.
    destruct (IH bw1) as (bw' & Hi' & Ho' & Hv'); auto.
    exists bw'. split_and!; [done..|]. rewrite Hv'. simpl.
    by apply spec_fold_key.
  - destruct (other_step_view d ms j l ms1 i bw key) as (Hi1 & Ho1 & Hv); try done.
    { intros Hw. by apply Hj, Hl. }
    destruct (IH bw) as (bw' & Hi' & Ho' & Hv'); auto.
    exists bw'. split_and!; [done..|]. rewrite Hv'. by apply spec_fold_key.
Qed.

(** * Convergence

    [f i] is the map of the writes the [i]-th writer has accepted. The invariant:
    what is pending at a writer is its last write; a key that is pending nowhere
    holds the last write of some writer, or nobody wrote it. *)
Record converging (d : Db) (init : option (list byte))
    (f : nat → array32 → option (list byte)) (key : array32) ms : Prop := {
  cv_pending i bw s : ms_writers ms !! i = Some bw → pending bw key = Some s →
    f i key = Some (bytes_of (ms_heap ms) s);
  cv_db : (∃ i bw, ms_writers ms !! i = Some bw ∧ is_Some (pending bw key)) ∨
    (∃ i, is_Some (f i key) ∧ ms_db d ms !! array_bytes key = f i key) ∨
    ((∀ i, f i key = None) ∧ ms_db d ms !! array_bytes key = init);
}.

Definition spec_mstep (f : nat → array32 → option (list byte)) (l : nat * wlabel)
    : nat → array32 → option (list byte) :=
  λ i, if decide (l.1 = i) then spec_step (f i) l.2 else f i.

Lemma write_pending st key value st' :
  wf_bw (ws_bw st) → wstep st (LWrite key value) st' → is_Some (pending (ws_bw st') key).
Proof.
  intros Hwf Hs. inversion Hs as [? k v bw' Hw| | |]; subst.
  simpl. rewrite (BufferWrite_pending _ _ _ _ key Hwf Hw). rewrite decide_True; eauto.
Qed.

(** What a step of a writer leaves pending is its last write. *)
Lemma step_pending_last st l st' key (f : array32 → option (list byte)) s' :
  wf_bw (ws_bw st) → wstep st l st' → (l = LHeap → heap_stable st (ws_heap st')) →
  ws_log st' = ws_log st →
  (∀ s, pending (ws_bw st) key = Some s → f key = Some (bytes_of (ws_heap st) s)) →
  pending (ws_bw st') key = Some s' →
  spec_step f l key = Some (bytes_of (ws_heap st') s').
Proof.
  intros Hwf Hs Hst Hlog Hf Hp'. pose proof (wstep_view _ _ _ key Hwf Hs Hst Hlog) as Hv.
  unfold view at 1 in Hv. rewrite Hp' in Hv. rewrite Hv.
  destruct (decide (writes_key key l)) as [[v ->]|Hl].
  { simpl. by rewrite !decide_True. }
  rewrite !spec_step_other by done.
  destruct (wstep_pending _ _ _ key Hwf Hs) as [He|He]; [| |congruence].
  { intros v ->. apply Hl. by eexists. }
  rewrite He in Hp'. unfold view. rewrite Hp'. by apply Hf.
Qed.

(** A writer that brings the key to the database brings its last write. *)
Lemma step_flushed st l st' key (f : array32 → option (list byte)) s :
  wf_bw (ws_bw st) → wstep st l st' → (l = LHeap → heap_stable st (ws_heap st')) →
  ws_log st' = ws_log st → ¬ writes_key key l →
  pending (ws_bw st) key = Some s → f key = Some (bytes_of (ws_heap st) s) →
  pending (ws_bw st') key = None →
  db_view (ws_mdbx st') (bw_db (ws_bw st)) !! array_bytes key = f key.
Proof.
  intros Hwf Hs Hst Hlog Hl Hp Hf Hp'.
  pose proof (wstep_view _ _ _ key Hwf Hs Hst Hlog) as Hv.
  rewrite spec_step_other in Hv by done. unfold view, db_of in Hv.
  rewrite Hp, Hp', (wstep_db _ _ _ Hs) in Hv. congruence.
Qed.

Lemma heap_bytes_stable ms l i bw1 st' j bw key s :
  ms_writers ms !! i = Some bw1 → wstep (focus bw1 ms) l st' →
  (l = LHeap → ms_heap_stable ms (ws_heap st')) →
  ms_writers ms !! j = Some bw → pending bw key = Some s →
  bytes_of (ws_heap st') s = bytes_of (ms_heap ms) s.
Proof.
  intros Hi Hw Hst Hj Hp. destruct (wstep_heap _ _ _ Hw) as [Hh|Hh]; [|by rewrite Hh].
  by apply (Hst Hh j bw key).
Qed.

Lemma converging_pending d init f key ms i l ms1 j bw s :
  ms_wf d ms → mstep ms (i, l) ms1 → (l = LHeap → ms_heap_stable ms (ms_heap ms1)) →
  ms_log ms1 = ms_log ms → converging d init f key ms →
  ms_writers ms1 !! j = Some bw → pending bw key = Some s →
  spec_mstep f (i, l) j key = Some (bytes_of (ms_heap ms1) s).
Proof.
  intros Hwf Hs Hst Hlog [Hp _] Hj Hps. unfold spec_mstep. simpl.
  inversion Hs as [? ? bwi ? st' Hi Hw]; subst.
  destruct (ms_wf_lookup d ms i bwi Hwf Hi) as [Hwfi _].
  apply unfocus_lookup in Hj as [[-> ->]|[Hne Hj]].
  - rewrite decide_True by done. eapply (step_pending_last (focus bwi ms)); [done|done| |done| |done].
    + intros Hh. eapply heap_stable_focus; [by apply Hst|done].
    + intros s0 Hs0. by apply (Hp i bwi).
  - rewrite decide_False by done. rewrite (Hp j bw s) by done. f_equal. symmetry.
    by eapply (heap_bytes_stable ms l i bwi st' j).
Qed.

Lemma converging_step d init f key ms l ms1 :
  ms_wf d ms → mstep ms l ms1 → (l.2 = LHeap → ms_heap_stable ms (ms_heap ms1)) →
  ms_log ms1 = ms_log ms → converging d init f key ms →
  converging d init (spec_mstep f l) key ms1.
Proof.
  destruct l as [i l]. intros Hwf Hs Hst Hlog Hcv.
  split; [intros j bw s; by eapply converging_pending|].
  destruct Hcv as [Hp Hdb]. inversion Hs as [? ? bw ? st' Hi Hw]; subst.
  destruct (ms_wf_lookup d ms i bw Hwf Hi) as [Hwfi Hd].
  pose proof (lookup_lt_Some _ _ _ Hi) as Hlt.
  assert (ms_writers (unfocus i st' ms) !! i = Some (ws_bw st')) as Hi1.
  { simpl. by apply list_lookup_insert_eq. }
  destruct (pending (ws_bw st') key) as [s|] eqn:Ep; [left; eauto|].
  assert (¬ writes_key key l) as Hl.
  { intros [v ->]. destruct (write_pending (focus bw ms) key v st' Hwfi Hw). congruence. }
  assert (∀ j, spec_mstep f (i, l) j key = f j key) as Hf.
  { intros j. unfold spec_mstep. simpl. case_decide; [subst j|done].
    by apply spec_step_other. }
  assert (l = LHeap → heap_stable (focus bw ms) (ws_heap st')) as Hst'.
  { intros Hh. eapply heap_stable_focus; [by apply Hst|done]. }
  destruct (pending bw key) as [s|] eqn:Ep0.
  - right; left. exists i. rewrite Hf, (Hp i bw s) by done. split; [by eexists|].
    unfold ms_db. simpl. rewrite <- Hd, <- (Hp i bw s) by done.
    apply (step_flushed (focus bw ms) l st' key (f i) s); try done. by apply (Hp i bw).
  - destruct (idle_step d (focus bw ms) l st' key) as [_ He]; try done.
    { intros v ->. apply Hl. by exists v. }
    unfold ms_db in *. cbn [unfocus ms_mdbx focus ws_mdbx] in *. rewrite He.
    destruct Hdb as [(j & bwj & Hj & Hpj)|[(j & Hj & Hdb)|[Hno Hdb]]].
    + left. exists j, bwj. split; [|done]. cbn [unfocus ms_writers].
      rewrite list_lookup_insert_ne; [done|]. intros <-. destruct Hpj. congruence.
    + right; left. exists j. by rewrite Hf.
    + right; right. split; [|done]. intros j. by rewrite Hf.
Qed.

Lemma converging_run d init f key ms ls ms' :
  ms_wf d ms → mrun ms ls ms' → ms_log ms' = ms_log ms →
  converging d init f key ms → converging d init (foldl spec_mstep f ls) key ms'.
Proof.
  intros Hwf Hrun. revert f Hwf.
  induction Hrun as [ms|ms l ms1 ls ms2 Hs Hst Hrun IH]; intros f Hwf Hlog Hcv; [done|].
  destruct (mrun_cons_log _ _ _ _ _ Hs Hrun Hlog) as [Hlog1 Hlog2].
  simpl. apply IH; [by eapply mstep_wf|done|]. by eapply converging_step.
Qed.

Lemma spec_mfold f ls i : foldl spec_mstep f ls i = foldl spec_step (f i) (labels_of i ls).
Proof.
  revert f. induction ls as [|[j l] ls IH]; intros f; [done|]. simpl.
  rewrite IH, labels_of_cons. unfold spec_mstep. simpl. by case_decide.
Qed.

Lemma last_write_fold i ls : foldl spec_mstep (λ _ _, None) ls i = last_write i ls.
Proof. apply spec_mfold. Qed.

Lemma ms_quiescent_pending ms i bw key :
  ms_quiescent ms → ms_writers ms !! i = Some bw → pending bw key = None.
Proof. intros Hq Hi. apply quiescent_pending. by apply (Forall_lookup_1 _ _ _ _ Hq) in Hi. Qed.

(** From a quiescent system to a quiescent system: the last write of some writer, or
    no write at all. *)
Lemma converged d ms ls ms' key :
  ms_wf d ms → ms_quiescent ms → mrun ms ls ms' → ms_log ms' = ms_log ms →
  ms_quiescent ms' →
  (∃ i, is_Some (last_write i ls key) ∧
        ms_db d ms' !! array_bytes key = last_write i ls key) ∨
  ((∀ i, last_write i ls key = None) ∧
   ms_db d ms' !! array_bytes key = ms_db d ms !! array_bytes key).
Proof.
  intros Hwf Hq Hrun Hlog Hq'.
  assert (converging d (ms_db d ms !! array_bytes key) (λ _ _, None) key ms) as Hcv.
  { split; [|right; right; done].
    intros i bw s Hi. by rewrite (ms_quiescent_pending ms i bw). }
  destruct (converging_run _ _ _ _ _ _ _ Hwf Hrun Hlog Hcv) as [_ [(i & bw & Hi & Hp)|Hdb]].
  { rewrite (ms_quiescent_pending ms' i bw) in Hp by done. by destruct Hp. }
  destruct Hdb as [(i & Hi & Hdb)|[Hno Hdb]].
  - left. exists i. by rewrite <- last_write_fold.
  - right. split; [|done]. intros i. by rewrite <- last_write_fold.
Qed.

(** C9: A key that one transport writes is safe in the company of others: when no
    other writer holds a value of the key and all its writes go to the [i]-th, then,
    whatever the other writers do in between and however memory changes that no writer
    holds a value in (a transport that uses a frame buffer again while a writer holds
    it breaks this), as long as no flush fails the value a reader finds once the key is
    pending nowhere is the last one accepted. *)
Theorem writers_refine_map (d : Db) (ms ms' : mstate) (ls : list (nat * wlabel))
    (i : nat) (bw : BatchWriter) (key : array32) :
  ms_wf d ms → mrun ms ls ms' → ms_log ms' = ms_log ms →
  ms_writers ms !! i = Some bw → owned i key ms →
  Forall (λ l, writes_key key l.2 → l.1 = i) ls →
  ∃ bw', ms_writers ms' !! i = Some bw' ∧
    view (focus bw' ms') key = foldl spec_step (view (focus bw ms)) (labels_of i ls) key ∧
    (pending bw' key = None →
     ms_db d ms' !! array_bytes key
     = foldl spec_step (view (focus bw ms)) (labels_of i ls) key).
Proof.
  intros Hwf Hrun Hlog Hi Ho Hls.
  destruct (owner_view d ms ls ms' i bw key) as (bw' & Hi' & _ & Hv); [done..|].
  exists bw'. split_and!; [done..|]. intros Hp. rewrite <- Hv. unfold view, db_of.
  cbn [focus ws_bw ws_mdbx]. rewrite Hp. unfold ms_db.
  assert (ms_wf d ms') as Hwf'.
  { clear -Hwf Hrun. induction Hrun; [done|]. apply IHHrun. by eapply mstep_wf. }
  by destruct (ms_wf_lookup d ms' i bw' Hwf' Hi') as [_ ->].
Qed.
End system.

(** * The order of writes through different writers *)

Section order.
Context `{MdbxReliable}.
Implicit Types (ms : mstate) (st : wstate) (bw : BatchWriter).

Lemma unfocus_unfocus i st st' ms : unfocus i st (unfocus i st' ms) = unfocus i st ms.
Proof. unfold unfocus. simpl. by rewrite list_insert_insert_eq. Qed.

Lemma unfocus_id i bw ms : ms_writers ms !! i = Some bw → unfocus i (focus bw ms) ms = ms.
Proof. intros Hi. destruct ms. unfold unfocus. simpl in *. by rewrite list_insert_id. Qed.

(** Steps of one writer, its clients and its workers, are steps of the system. *)
Lemma mrun_focus st ls st' ms i bw :
  stable_run st ls st' → Forall (λ l, l ≠ LHeap) ls →
  ms_writers ms !! i = Some bw → st = focus bw ms →
  mrun ms (pair i <$> ls) (unfocus i st' ms) ∧ ws_heap st' = ws_heap st.
Proof.
  intros Hrun. revert bw ms.
  induction Hrun as [st|st l st1 ls st2 Hs _ _ IH]; intros bw ms Hls Hi ->.
  { split; [|done]. rewrite unfocus_id by done. constructor. }
  apply Forall_cons in Hls as [Hl Hls].
  assert (ms_writers (unfocus i st1 ms) !! i = Some (ws_bw st1)) as Hi1.
  { simpl. apply list_lookup_insert_eq. by eapply lookup_lt_Some. }
  destruct (IH (ws_bw st1) (unfocus i st1 ms) Hls Hi1) as [Hr Hh]; [by destruct st1|].
  rewrite unfocus_unfocus in Hr. split.
  - rewrite fmap_cons. econstructor; [by econstructor|done|exact Hr].
  - rewrite Hh. by destruct (wstep_heap _ _ _ Hs) as [| ->].
Qed.

Lemma mrun_app ms ls ms1 ls' ms2 :
  mrun ms ls ms1 → mrun ms1 ls' ms2 → mrun ms (ls ++ ls') ms2.
Proof. induction 1; simpl; [done|]. econstructor; eauto. Qed.

(** A writer of the system that may be drained. *)
Record drainable (d : Db) ms (i : nat) bw : Prop := {
  dr_lookup : ms_writers ms !! i = Some bw;
  dr_wf : wf_bw bw;
  dr_db : bw_db bw = d;
  dr_pcs : Forall (λ pc, pc = WLoop) (bw_pcs bw);
}.

Lemma drain_in_system rng d ms i bw :
  map_order rng → env_live (ms_mdbx ms) (db_env d) → drainable d ms i bw →
  ∃ st ls, mrun ms (pair i <$> ls) (unfocus i st ms) ∧ Forall (λ l, l = LWorker) ls ∧
    ws_heap st = ms_heap ms ∧ ws_log st = ms_log ms ∧
    env_live (ws_mdbx st) (db_env d) ∧ quiescent (ws_bw st) ∧
    ∀ key, db_view (ws_mdbx st) d !! array_bytes key = view (focus bw ms) key.
Proof.
  intros Hrng Hl [Hi Hwf Hd Hpc].
  destruct (drain_spec rng (focus bw ms)) as (st & ls & _ & Hr & Hls & Hl' & Hq & Hlog & Hv);
    [done|done|by unfold live; simpl; rewrite Hd|done|].
  destruct (mrun_focus _ _ _ ms i bw Hr) as [Hm Hh]; [|done..|].
  { eapply Forall_impl; [exact Hls|]. intros l ->. discriminate. }
  assert (bw_db (ws_bw st) = d) as Hd'.
  { rewrite <- Hd. change (bw_db bw) with (bw_db (ws_bw (focus bw ms))).
    clear -Hr. induction Hr as [|? ? ? ? ? Hs _ _ IH]; [done|].
    rewrite IH. by eapply wstep_db. }
  exists st, ls. split_and!; [done..| | |].
  - unfold live in Hl'. by rewrite Hd' in Hl'.
  - done.
  - intros key. rewrite <- Hv. unfold db_of. by rewrite Hd'.
Qed.

(** An idle writer accepts a request. *)
Lemma write_in_system d ms i bw key s :
  drainable d ms i bw → quiescent bw →
  ∃ bw', mstep ms (i, LWrite key (bytes_of (ms_heap ms) s))
           (unfocus i (focus bw' ms) ms) ∧
    drainable d (unfocus i (focus bw' ms) ms) i bw' ∧ pending bw' key = Some s.
Proof.
  intros [Hi Hwf Hd Hpc] [Hc _].
  destruct (BufferWrite_eq key s bw Hwf) as (ch & Hch & E).
  apply (Forall_lookup_1 _ _ _ _ Hc) in Hch as Hnil. subst ch.
  rewrite decide_False in E by (simpl; lia). simpl in E.
  set (bw' := set_channel _ _ bw) in E. exists bw'. split_and!.
  - econstructor; [done|]. apply (step_write (focus bw ms)). exact E.
  - split; [|by eapply BufferWrite_wf|done|done].
    simpl. apply list_lookup_insert_eq. by eapply lookup_lt_Some.
  - rewrite (BufferWrite_pending _ _ _ _ key Hwf E). by rewrite decide_True.
Qed.

Lemma drainable_other d ms i j st bw :
  i ≠ j → drainable d ms i bw → drainable d (unfocus j st ms) i bw.
Proof. intros Hne [Hi Hwf Hd Hpc]. split; [|done..]. simpl. by rewrite list_lookup_insert_ne. Qed.

(** The order in which two transports acknowledge writes of one key is not kept:
    with a writer for each, of two writes accepted one after the other the earlier
    may be stored last, and then it is what every reader finds from there on. No
    flush fails, no request is lost and both writers end idle. *)
Theorem cross_writer_order_lost rng (d : Db) (ms : mstate) (i j : nat)
    (bwi bwj : BatchWriter) (key : array32) (s1 s2 : slice) :
  map_order rng → env_live (ms_mdbx ms) (db_env d) → i ≠ j →
  drainable d ms i bwi → drainable d ms j bwj → quiescent bwi → quiescent bwj →
  ∃ ms' ls bwi' bwj',
    mrun ms ((i, LWrite key (bytes_of (ms_heap ms) s1)) ::
             (j, LWrite key (bytes_of (ms_heap ms) s2)) :: ls) ms' ∧
    Forall (λ l, l.2 = LWorker) ls ∧ ms_log ms' = ms_log ms ∧
    ms_writers ms' !! i = Some bwi' ∧ quiescent bwi' ∧
    ms_writers ms' !! j = Some bwj' ∧ quiescent bwj' ∧
    ms_db d ms' !! array_bytes key = Some (bytes_of (ms_heap ms) s1).
Proof.
  intros Hrng Hl Hne Hdi Hdj Hqi Hqj.
  destruct (write_in_system d ms i bwi key s1 Hdi Hqi) as (bwi1 & Hs1 & Hdi1 & Hpi).
  set (ms1 := unfocus i (focus bwi1 ms) ms) in *.
  assert (drainable d ms1 j bwj) as Hdj1 by by apply drainable_other.
  destruct (write_in_system d ms1 j bwj key s2 Hdj1 Hqj) as (bwj2 & Hs2 & Hdj2 & _).
  set (ms2 := unfocus j (focus bwj2 ms1) ms1) in *.
  destruct (drain_in_system rng d ms2 j bwj2 Hrng Hl Hdj2)
    as (st3 & ls3 & Hr3 & Hls3 & Hh3 & Hlog3 & Hl3 & Hq3 & _).
  set (ms3 := unfocus j st3 ms2) in *.
  assert (drainable d ms3 i bwi1) as Hdi3 by by apply drainable_other, drainable_other.
  destruct (drain_in_system rng d ms3 i bwi1 Hrng Hl3 Hdi3)
    as (st4 & ls4 & Hr4 & Hls4 & Hh4 & Hlog4 & _ & Hq4 & Hv4).
  exists (unfocus i st4 ms3), ((pair j <$> ls3) ++ (pair i <$> ls4)), (ws_bw st4), (ws_bw st3).
  split_and!.
  - econstructor; [exact Hs1|done|]. econstructor; [exact Hs2|done|].
    by eapply mrun_app.
  - apply Forall_app; split; apply Forall_fmap; eapply Forall_impl; try done; by intros ? ->.
  - simpl. by rewrite Hlog4.
  - simpl. apply list_lookup_insert_eq. by eapply lookup_lt_Some, Hdi3.
  - done.
  - simpl. rewrite list_lookup_insert_ne by done. apply list_lookup_insert_eq.
    by eapply lookup_lt_Some, Hdj2.
  - done.
  - unfold ms_db. cbn [unfocus ms_mdbx]. rewrite Hv4. unfold view. cbn [focus ws_bw ws_heap].
    rewrite Hpi. f_equal. unfold ms3. cbn [unfocus ms_heap]. by rewrite Hh3.
Qed.
End order.
