(* ===== verification/Held.v ===== *)
(** What a batch writer holds: every request in its queues and buffers, those that a
    later write of the key overrides included, since a flush may still store them. *)
From S2P Require Import Prelude GoRuntime Slices Types Config Mdbx Database BatchWriter WriterSpec WriterCorrect MultiWriter.

Section held.
Context `{MdbxLaws}.
Implicit Types (st : wstate) (bw : BatchWriter) (key : array32) (s : slice).

Inductive held (bw : BatchWriter) (key : array32) (s : slice) : Prop :=
  | held_queue i ch req :
      bw_channels bw !! i = Some ch → req ∈ ch → req_Key req = key → req_Value req = s →
      held bw key s
  | held_buffer i buf :
      bw_buffers bw !! i = Some buf → buf !! key = Some s → held bw key s.

Lemma chan_last_held key ch s :
  chan_last key ch = Some s → ∃ req, req ∈ ch ∧ req_Key req = key ∧ req_Value req = s.
Proof.
  unfold chan_last. intros (r & Hr & ->)%fmap_Some.
  apply last_Some_elem_of, list_elem_of_filter in Hr as [? ?]. eauto.
Qed.

(** The value that counts is one of those held. *)
Lemma pending_held bw key s : pending bw key = Some s → held bw key s.
Proof.
  unfold pending, pending_of. set (i := Z.to_nat _).
  destruct (bw_channels bw !! i) as [ch|] eqn:Ec; simpl.
  - destruct (chan_last key ch) as [s'|] eqn:El.
    { intros [= ->]. apply chan_last_held in El as (req & ? & ? & ?). by eapply held_queue. }
    destruct (bw_buffers bw !! i) as [buf|] eqn:Eb; simpl; [|done]. by eapply held_buffer.
  - destruct (bw_buffers bw !! i) as [buf|] eqn:Eb; simpl; [|done]. by eapply held_buffer.
Qed.

(** Nothing is held by a quiescent writer. *)
Lemma quiescent_held bw key s : quiescent bw → ¬ held bw key s.
Proof.
  intros [Hc Hb] [i ch req Hi Hin _ _|i buf Hi Hk].
  - apply (Forall_lookup_1 _ _ _ _ Hc) in Hi as ->. by apply not_elem_of_nil in Hin.
  - apply (Forall_lookup_1 _ _ _ _ Hb) in Hi as ->. by rewrite lookup_empty in Hk.
Qed.

(** * Steps *)

Lemma held_set_buffer i buf bw key s :
  held (set_buffer i buf bw) key s → buf !! key = Some s ∨ held bw key s.
Proof.
  intros [j ch req Hj Hin Hk Hs|j b Hj Hb]; [right; by eapply held_queue|].
  cbn in Hj. apply list_lookup_insert_Some in Hj as [(-> & -> & _)|[_ Hj]]; [by left|].
  right. by eapply held_buffer.
Qed.

Lemma held_set_channel i ch bw key s :
  held (set_channel i ch bw) key s →
  (∃ req, req ∈ ch ∧ req_Key req = key ∧ req_Value req = s) ∨ held bw key s.
Proof.
  intros [j c req Hj Hin Hk Hs|j b Hj Hb]; [|right; by eapply held_buffer].
  cbn in Hj. apply list_lookup_insert_Some in Hj as [(-> & -> & _)|[_ Hj]]; [left; eauto|].
  right. by eapply held_queue.
Qed.

Lemma held_empty_buffer i bw key s : held (set_buffer i ∅ bw) key s → held bw key s.
Proof. intros [Hs|?]%held_set_buffer; [by rewrite lookup_empty in Hs|done]. Qed.

Lemma held_dequeue i req ch buf bw key s :
  bw_channels bw !! i = Some (req :: ch) → bw_buffers bw !! i = Some buf →
  held (set_buffer i (<[req_Key req := req_Value req]> buf) (set_channel i ch bw)) key s →
  held bw key s.
Proof.
  intros Hc Hb [Hs|[(r & Hr & <- & <-)|?]%held_set_channel]%held_set_buffer; [| |done].
  - apply lookup_insert_Some in Hs as [[<- <-]|[_ Hs]]; [|by eapply held_buffer].
    eapply held_queue; [exact Hc|by left|done..].
  - eapply held_queue; [exact Hc|by right|done..].
Qed.

Lemma held_ext bw bw' key s :
  bw_channels bw' = bw_channels bw → bw_buffers bw' = bw_buffers bw →
  held bw' key s → held bw key s.
Proof.
  intros Hc Hb [i ch req Hi|i b Hi]; [rewrite Hc in Hi|rewrite Hb in Hi];
    [by eapply held_queue|by eapply held_buffer].
Qed.

(** A worker takes up nothing; only a write does. *)
Lemma worker_step_held rng i st st' key s :
  worker_step rng i st st' → held (ws_bw st') key s → held (ws_bw st) key s.
Proof.
  destruct 1 as [st _ _|st req ch buf _ Hc Hb _|st req ch buf st' _ Hc Hb _ Hf
    |st st' _ Hf|st st' _ _ Hf].
  - by apply held_ext.
  - by eapply held_dequeue.
  - apply flush_frame in Hf as (_ & -> & _). intros Hh%held_empty_buffer.
    by eapply held_dequeue.
  - apply flush_frame in Hf as (_ & -> & _). by apply held_empty_buffer.
  - apply flush_frame in Hf as (_ & E & _).
    intros Hh%(held_ext (ws_bw st')); [|done..].
    rewrite E in Hh. by apply held_empty_buffer in Hh.
Qed.

Lemma BufferWrite_held k v bw bw' key s :
  BufferWrite k v bw = Done bw' () → held bw' key s → (key = k ∧ s = v) ∨ held bw key s.
Proof.
  unfold BufferWrite. case_decide; [done|]. cbv zeta. case_decide; [done|].
  destruct (bw_channels bw !! _) as [ch|] eqn:Hc; [|done]. case_decide; [done|].
  intros [= <-] [(r & [Hr|Hr%list_elem_of_singleton]%elem_of_app & <- & <-)|?]%held_set_channel.
  - right. by eapply held_queue.
  - left. by rewrite Hr.
  - by right.
Qed.

Lemma wstep_held st l st' key s :
  wstep st l st' → held (ws_bw st') key s →
  held (ws_bw st) key s ∨ l = LWrite key (bytes_of (ws_heap st) s).
Proof.
  destruct 1 as [st k v bw' Hw|st bw' Hs|st rng i c st' _ Hr%runWorker_step|st h'].
  - intros [[-> ->]|?]%(BufferWrite_held _ _ _ _ _ _ Hw); [by right|by left].
  - unfold FlushAndStop in Hs. destruct (bw_stopped _); [done|]. injection Hs as <-.
    intros Hh. left. by apply (held_ext (ws_bw st)) in Hh.
  - intros Hh. left. by eapply worker_step_held.
  - by left.
Qed.

(** * The database after a step *)

Definition stored_from (st : wstate) (key : array32) (st' : wstate) : Prop :=
  db_of st' !! array_bytes key = db_of st !! array_bytes key ∨
  ∃ s, held (ws_bw st) key s ∧
    db_of st' !! array_bytes key = Some (bytes_of (ws_heap st) s).

Lemma flush_stored rng i st st' key :
  map_order rng → flush rng i st = Done st' () → stored_from st key st'.
Proof.
  intros Hrng Hf. destruct (bw_buffers (ws_bw st) !! i) as [buf|] eqn:Eb.
  2: { unfold flush in Hf. by rewrite Eb in Hf. }
  destruct (flush_outcome rng i st buf Hrng Eb) as (st1 & E & _ & _ & Hdb).
  assert (st1 = st') as -> by congruence. destruct Hdb as [(_ & Hdb & _)|(e & _ & Hdb)].
  - unfold stored_from. rewrite Hdb. destruct (buf !! key) as [s|] eqn:Ek; [right|by left].
    exists s. split; [by eapply held_buffer|done].
  - left. by rewrite Hdb.
Qed.

Lemma wstep_stored st l st' key : wstep st l st' → stored_from st key st'.
Proof.
  destruct 1 as [st k v bw' Hw|st bw' Hs|st rng i c st' Hrng Hr%runWorker_step|st h'].
  - left. unfold db_of. pose proof (wstep_db _ _ _ (step_write _ _ _ _ Hw)) as E.
    cbn in E |- *. by rewrite E.
  - left. unfold FlushAndStop in Hs. destruct (bw_stopped _); [done|]. by injection Hs as <-.
  - destruct Hr as [st _ _|st req ch buf _ Hc Hb _|st req ch buf st' _ Hc Hb _ Hf
      |st st' _ Hf|st st' _ _ Hf]; [by left|by left| |by eapply flush_stored|].
    + destruct (flush_stored _ _ _ _ key Hrng Hf) as [Hd|(s & Hs & Hd)]; [by left|right].
      exists s. split; [by eapply held_dequeue|done].
    + exact (flush_stored _ _ _ _ key Hrng Hf).
  - by left.
Qed.
End held.
