(* ===== verification/Handlers.v ===== *)
(** The message handlers of [transports/*/handler_read.go] and
    [handler_write.go], over the batch writer and a [Provider], with the calls
    they make on connections recorded in a trace. *)
From S2P Require Import Prelude GoRuntime Slices Types Messages Config Mdbx Database BatchWriter WriterSpec.

(** * The world of a handler *)

(** The bytes of a Go string literal. *)
Definition ascii (s : string) : list byte := String.list_byte_of_string s.

(** A connection or stream, known by a number. *)
Abbreviation Conn := nat (only parsing).

(** The calls on [gnet.Conn] and [quic.Stream] that send bytes. *)
Inductive event :=
  | AsyncWrite (c : Conn) (bs : list byte)
  | SendTo (c : Conn) (bs : list byte)
  | StreamWrite (c : Conn) (bs : list byte).

Definition event_bytes (e : event) : list byte :=
  match e with AsyncWrite _ bs | SendTo _ bs | StreamWrite _ bs => bs end.

Section handlers.
Context `{Mdbx}.

Record world := MkWorld { w_ws : wstate; w_trace : list event }.

Definition send (e : event) : Go world () := λ w,
  Done (MkWorld (w_ws w) (w_trace w ++ [e])) ().

Definition lift_ws {A} : Go wstate A → Go world A :=
  go_zoom w_ws (λ ws w, MkWorld ws (w_trace w)).
Definition lift_heap {A} (c : Go heap A) : Go world A :=
  lift_ws (go_zoom ws_heap (λ h st, MkWs h (ws_mdbx st) (ws_bw st) (ws_log st)) c).
Definition lift_bw {A} (c : Go BatchWriter A) : Go world A :=
  lift_ws (go_zoom ws_bw (λ bw, with_bw (λ _, bw)) c).

Context {P : Type} `{Provider mdbx_state P}.

(** [db.Get(key)] through the interface, on a key given by a slice or an array. *)
Definition provider_Get (p : P) (key : list byte) : Go world (res (list byte)) := λ w,
  let st := w_ws w in
  let '(m, r) := prov_Get p key (ws_mdbx st) in
  Done (MkWorld (MkWs (ws_heap st) m (ws_bw st) (ws_log st)) (w_trace w)) r.

(** * gnet handlers

    The TCP, UDP and UDS handlers differ in the call that answers: [AsyncWrite]
    or [SendTo]. *)
Definition gnet_read (reply : Conn → list byte → event) (rh : P) (c : Conn)
    (frame : slice) : Go world () :=
  if decide (s_len frame < 33) then send (reply c (ascii "Invalid message format"))
  else
    key ← lift_heap (slice_range frame 1 33);
    k ← lift_heap (λ h, Done h (bytes_of h key));
    r ← provider_Get rh k;
    match r with
    | Err _ => send (reply c (ascii "Error reading from database"))
    | Ok value =>
        if decide (length value = 0) then send (reply c (ascii "No value found for key"))
        else send (reply c value)
    end.

Definition gnet_write (reply : Conn → list byte → event) (c : Conn) (frame : slice)
    : Go world () :=
  if decide (s_len frame < 34) then send (reply c [x01])
  else
    k ← lift_heap (slice_range frame 1 33);
    key ← lift_heap (λ h, Done h (array32_of (bytes_of h k)));
    value ← lift_heap (slice_from frame 33);
    lift_bw (BufferWrite key value);;
    send (reply c [x00]).

Definition TCPReadHandler_HandleMessage := gnet_read AsyncWrite.
Definition TCPWriteHandler_HandleMessage := gnet_write AsyncWrite.
Definition UDPReadHandler_HandleMessage := gnet_read SendTo.
Definition UDPWriteHandler_HandleMessage := gnet_write SendTo.
Definition UDSReadHandler_HandleMessage := gnet_read SendTo.
Definition UDSWriteHandler_HandleMessage := gnet_write SendTo.

(** The dummy handlers acknowledge and do nothing. *)
Definition DummyReadHandler_HandleMessage (c : Conn) (frame : slice) : Go world () :=
  send (SendTo c [x01]).
Definition DummyWriteHandler_HandleMessage (c : Conn) (frame : slice) : Go world () :=
  send (SendTo c [x01]).

(** * QUIC handlers

    [stream.Write] may fail: [write_err] gives its error from the calls so far. *)
Context (write_err : list event → option error).

Definition stream_Write (c : Conn) (bs : list byte) : Go world (option error) := λ w,
  Done (MkWorld (w_ws w) (w_trace w ++ [StreamWrite c bs])) (write_err (w_trace w)).

Definition QuicReadHandler_HandleMessage (rh : P) (c : Conn) (message : Message)
    : Go world () :=
  r ← provider_Get rh (array_bytes (Key message));
  match r with
  | Err _ => stream_Write c (ascii "Error reading from database");; mret tt
  | Ok value =>
      if decide (length value = 0)
      then stream_Write c (ascii "No value found for key");; mret tt
      else
        lengthBuffer ← lift_heap (make_bytes 4);
        lift_heap (BigEndian_PutUint32 lengthBuffer (u32 (Z.of_nat (length value))));;
        lb ← lift_heap (λ h, Done h (bytes_of h lengthBuffer));
        err ← stream_Write c lb;
        match err with
        | Some _ => mret tt
        | None => stream_Write c value;; mret tt
        end
  end.

Definition QuicWriteHandler_HandleMessage (c : Conn) (message : Message) : Go world () :=
  lift_bw (BufferWrite (Key message) (Data message));;
  stream_Write c [x00];; mret tt.

(** * Shape of the state changes *)

Definition with_mdbx (m : mdbx_state) (w : world) : world :=
  MkWorld (MkWs (ws_heap (w_ws w)) m (ws_bw (w_ws w)) (ws_log (w_ws w))) (w_trace w).
Definition with_writer (bw : BatchWriter) (w : world) : world :=
  MkWorld (with_bw (λ _, bw) (w_ws w)) (w_trace w).
Definition with_heap (h : heap) (w : world) : world :=
  MkWorld (MkWs h (ws_mdbx (w_ws w)) (ws_bw (w_ws w)) (ws_log (w_ws w))) (w_trace w).
Definition trace_add (es : list event) (w : world) : world :=
  MkWorld (w_ws w) (w_trace w ++ es).

(** The answer to a read of [key], as bytes. *)
Definition read_reply (r : res (list byte)) : list byte :=
  match r with
  | Err _ => ascii "Error reading from database"
  | Ok value => if decide (length value = 0) then ascii "No value found for key" else value
  end.
End handlers.

(** * Lemmas *)

Section zoom_lemmas.
Context `{Mdbx}.
Implicit Types (w : world).

Lemma lift_heap_read {A} (c : Go heap A) w h a :
  c (ws_heap (w_ws w)) = Done h a → h = ws_heap (w_ws w) → lift_heap c w = Done w a.
Proof.
  intros Hc ->. unfold lift_heap, lift_ws, go_zoom. rewrite Hc.
  by destruct w as [[] ?].
Qed.

Lemma lift_heap_done {A} (c : Go heap A) w h a :
  c (ws_heap (w_ws w)) = Done h a → lift_heap c w = Done (with_heap h w) a.
Proof. intros Hc. unfold lift_heap, lift_ws, go_zoom. by rewrite Hc. Qed.

Lemma lift_bw_eq {A} (c : Go BatchWriter A) w :
  lift_bw c w = match c (ws_bw (w_ws w)) with
                | Done bw a => Done (with_writer bw w) a
                | Panicked p => Panicked p
                | Blocked => Blocked
                end.
Proof. unfold lift_bw, lift_ws, go_zoom. by destruct (c _). Qed.

Lemma send_eq ev w : send ev w = Done (trace_add [ev] w) ().
Proof. done. Qed.
End zoom_lemmas.

Section handler_specs.
Context `{Mdbx} {P : Type} `{Provider mdbx_state P}.
Implicit Types (w : world) (frame : slice).

Definition frame_bytes (w : world) (frame : slice) : list byte :=
  bytes_of (ws_heap (w_ws w)) frame.
Definition frame_ok (w : world) (frame : slice) : Prop :=
  slice_ok (ws_heap (w_ws w)) frame.
(** The 32 bytes behind the action byte. *)
Definition frame_key (w : world) (frame : slice) : list byte :=
  take 32 (drop 1 (frame_bytes w frame)).
(** The part of a frame the write handlers store. *)
Definition frame_value (frame : slice) : slice :=
  Slice (s_buf frame) (s_off frame + 33) (s_len frame - 33) (s_cap frame - 33).

Lemma bytes_frame_value w frame :
  33 ≤ s_len frame →
  bytes_of (ws_heap (w_ws w)) (frame_value frame) = drop 33 (frame_bytes w frame).
Proof.
  intros Hl. unfold frame_value, frame_bytes. rewrite bytes_of_range by lia.
  apply take_ge. rewrite length_drop. unfold bytes_of. rewrite length_take. lia.
Qed.

Lemma gnet_read_eq (reply : nat → list byte → event) (rh : P) (c : nat) w frame :
  frame_ok w frame →
  gnet_read reply rh c frame w =
    if decide (s_len frame < 33)
    then Done (trace_add [reply c (ascii "Invalid message format")] w) ()
    else let '(m, r) := prov_Get rh (frame_key w frame) (ws_mdbx (w_ws w)) in
         Done (trace_add [reply c (read_reply r)] (with_mdbx m w)) ().
Proof.
  intros [Hc _]. unfold gnet_read. case_decide as Hl; [done|].
  erewrite go_bind_done by (eapply lift_heap_read; [apply slice_range_ok; lia|done]).
  erewrite go_bind_done by (eapply lift_heap_read; done).
  cbn [s_buf s_off s_len]. rewrite bytes_of_range by lia.
  unfold provider_Get. unfold mbind, go_bind. fold (frame_key w frame).
  destruct (prov_Get _ _ _) as [m [v|e]]; [|done]. simpl. by case_decide.
Qed.

(** The read handler of TCP, UDP and UDS, on every branch: a frame shorter than
    33 bytes is answered with "Invalid message format" without touching the
    database; otherwise the 32 bytes behind the action byte are looked up once
    and the client gets exactly one reply: the value, or the text for an error
    or for an empty value. *)
Theorem gnet_read_answers (reply : nat → list byte → event) (rh : P) (c : nat) w frame :
  frame_ok w frame →
  gnet_read reply rh c frame w =
    if decide (s_len frame < 33)
    then Done (trace_add [reply c (ascii "Invalid message format")] w) ()
    else let '(m, r) := prov_Get rh (frame_key w frame) (ws_mdbx (w_ws w)) in
         Done (trace_add [reply c (read_reply r)] (with_mdbx m w)) ().
Proof. apply gnet_read_eq. Qed.

Lemma gnet_write_eq (reply : nat → list byte → event) (c : nat) w frame :
  frame_ok w frame →
  gnet_write reply c frame w =
    if decide (s_len frame < 34) then Done (trace_add [reply c [x01]] w) ()
    else match BufferWrite (array32_of (frame_key w frame)) (frame_value frame)
                 (ws_bw (w_ws w)) with
         | Done bw () => Done (trace_add [reply c [x00]] (with_writer bw w)) ()
         | Panicked p => Panicked p
         | Blocked => Blocked
         end.
Proof.
  intros [Hc _]. unfold gnet_write. case_decide as Hl; [done|].
  erewrite go_bind_done by (eapply lift_heap_read; [apply slice_range_ok; lia|done]).
  erewrite go_bind_done by (eapply lift_heap_read; done).
  erewrite go_bind_done by (eapply lift_heap_read; [apply slice_range_ok; lia|done]).
  cbn [s_buf s_off s_len]. rewrite bytes_of_range by lia.
  change (array32_of (take (Z.to_nat (33 - 1)) (drop (Z.to_nat 1)
    (bytes_of (ws_heap (w_ws w)) frame)))) with (array32_of (frame_key w frame)).
  change (Z.to_nat 33) with 33.
  replace (Z.to_nat (Z.of_nat (s_len frame) - 33)) with (s_len frame - 33) by lia.
  fold (frame_value frame). unfold mbind, go_bind. rewrite lift_bw_eq.
  by destruct (BufferWrite _ _ _) as [bw []| |].
Qed.

(** The write handler of TCP, UDP and UDS, on every branch: a frame shorter than
    34 bytes is answered with 0x01 and nothing is queued; otherwise the frame
    from byte 33 on is queued for the 32 bytes behind the action byte, and 0x00
    is sent after, and only if, the queue took the request. *)
Theorem gnet_write_queues (reply : nat → list byte → event) (c : nat) w frame :
  frame_ok w frame →
  gnet_write reply c frame w =
    if decide (s_len frame < 34) then Done (trace_add [reply c [x01]] w) ()
    else match BufferWrite (array32_of (frame_key w frame)) (frame_value frame)
                 (ws_bw (w_ws w)) with
         | Done bw () => Done (trace_add [reply c [x00]] (with_writer bw w)) ()
         | Panicked p => Panicked p
         | Blocked => Blocked
         end.
Proof. apply gnet_write_eq. Qed.
End handler_specs.

Section quic_specs.
Context `{Mdbx} {P : Type} `{Provider mdbx_state P}.
Context (write_err : list event → option error).
Implicit Types (w : world).

(** The calls of a QUIC read that found [r]. *)
Definition quic_read_writes (c : nat) (r : res (list byte)) (w : world) : list event :=
  match r with
  | Ok value =>
      if decide (length value = 0) then [StreamWrite c (read_reply r)]
      else StreamWrite c (be32 (Z.of_nat (length value))) ::
           match write_err (w_trace w) with
           | None => [StreamWrite c value]
           | Some _ => []
           end
  | Err _ => [StreamWrite c (read_reply r)]
  end.

Lemma quic_read_eq (rh : P) (c : nat) (message : Message) w :
  ∃ w', QuicReadHandler_HandleMessage write_err rh c message w = Done w' () ∧
    let '(m, r) := prov_Get rh (array_bytes (Key message)) (ws_mdbx (w_ws w)) in
    ws_mdbx (w_ws w') = m ∧ ws_bw (w_ws w') = ws_bw (w_ws w) ∧
    ws_log (w_ws w') = ws_log (w_ws w) ∧
    (∃ bufs, ws_heap (w_ws w') = ws_heap (w_ws w) ++ bufs) ∧
    w_trace w' = w_trace w ++ quic_read_writes c r w.
Proof.
  unfold QuicReadHandler_HandleMessage, provider_Get.
  unfold mbind at 1, go_bind at 1. destruct (prov_Get _ _ _) as [m [v|e]].
  2: { eexists. split; [done|]. split_and!; try done. simpl. exists []. by rewrite app_nil_r. }
  simpl. case_decide as Hv.
  { eexists. split; [done|]. split_and!; try done. simpl. exists []. by rewrite app_nil_r. }
  set (h := ws_heap (w_ws w)). set (n := Z.of_nat (length v)).
  assert (poke (h ++ [replicate 4 x00]) (length h) 0 (be32 (u32 n)) = h ++ [be32 n]) as Hp.
  { unfold poke. rewrite buf_of_alloc, insert_app_r_alt, Nat.sub_diag, be32_u32 by done.
    done. }
  set (s := Slice (length h) 0 4 4).
  erewrite go_bind_done by (apply (lift_heap_done _ _ (h ++ [replicate 4 x00]) s); done).
  erewrite go_bind_done by
    (apply (lift_heap_done _ _ (h ++ [be32 n]) ()); exact (f_equal (λ h, Done h ()) Hp)).
  erewrite go_bind_done by (eapply lift_heap_read; done).
  cbn [with_heap w_ws ws_heap]. unfold bytes_of at 1. cbn [s_buf s_off s_len].
  rewrite buf_of_alloc. unfold mbind, go_bind, stream_Write.
  cbn [with_heap with_mdbx w_trace w_ws ws_heap].
  destruct (write_err (w_trace w)); eexists; (split; [done|]); simpl;
    split_and!; try done; try (by exists [be32 n]).
  by rewrite <- app_assoc.
Qed.

(** The QUIC read handler looks the message's key up once and writes the length
    of a value, big-endian in four bytes, before the value itself, which is
    skipped when writing the length failed; errors and empty values are answered
    with their text and no length. It leaves the queues and buffers of the writer
    and every existing byte buffer alone. *)
Theorem quic_read_answers (rh : P) (c : nat) (message : Message) w :
  ∃ w', QuicReadHandler_HandleMessage write_err rh c message w = Done w' () ∧
    let '(m, r) := prov_Get rh (array_bytes (Key message)) (ws_mdbx (w_ws w)) in
    ws_mdbx (w_ws w') = m ∧ ws_bw (w_ws w') = ws_bw (w_ws w) ∧
    ws_log (w_ws w') = ws_log (w_ws w) ∧
    (∃ bufs, ws_heap (w_ws w') = ws_heap (w_ws w) ++ bufs) ∧
    w_trace w' = w_trace w ++ quic_read_writes c r w.
Proof. apply quic_read_eq. Qed.

Lemma quic_write_eq (c : nat) (message : Message) w :
  QuicWriteHandler_HandleMessage write_err c message w =
    match BufferWrite (Key message) (Data message) (ws_bw (w_ws w)) with
    | Done bw () => Done (trace_add [StreamWrite c [x00]] (with_writer bw w)) ()
    | Panicked p => Panicked p
    | Blocked => Blocked
    end.
Proof.
  unfold QuicWriteHandler_HandleMessage, mbind, go_bind. rewrite lift_bw_eq.
  by destruct (BufferWrite _ _ _) as [bw []| |].
Qed.

(** The QUIC write handler queues the message's data (not the length that
    precedes them on the wire) under its key and then writes 0x00. *)
Theorem quic_write_queues (c : nat) (message : Message) w :
  QuicWriteHandler_HandleMessage write_err c message w =
    match BufferWrite (Key message) (Data message) (ws_bw (w_ws w)) with
    | Done bw () => Done (trace_add [StreamWrite c [x00]] (with_writer bw w)) ()
    | Panicked p => Panicked p
    | Blocked => Blocked
    end.
Proof. apply quic_write_eq. Qed.
End quic_specs.
