(* ===== verification/Servers.v ===== *)
(** Dispatch in the servers of [transports/]: the handler registries, the gnet
    callbacks [OnTraffic] and [React], and the QUIC stream loop. *)
From S2P Require Import Prelude GoRuntime Slices Types Messages Config Mdbx Database BatchWriter WriterSpec Handlers.

(** The [gnet.Action] a callback returns. *)
Inductive action := ActNone | ActClose | ActShutdown.

#[export] Instance action_eq_dec : EqDecision action.
Proof. solve_decision. Defined.

Section servers.
Context `{Mdbx}.

(** * The gnet servers: TCP, UDP, UDS and dummy *)

Definition gnet_handler : Type := nat → slice → Go world ().
(** The field [handlerRegistry]; a fresh server has an empty one. *)
Abbreviation registry h := (gmap byte h) (only parsing).

Definition RegisterHandler {h} (actionType : byte) (handler : h) (reg : gmap byte h)
    : gmap byte h := <[actionType := handler]> reg.
Definition DeregisterHandler {h} (actionType : byte) (reg : gmap byte h)
    : gmap byte h := delete actionType reg.

Definition parseActionType (frame : slice) : Go heap (res byte) :=
  if decide (s_len frame < 1)
  then mret (Err (Errorf "invalid action: frame too short" []))
  else
    b ← index_get frame 0;
    match HandlerType_FromByte x00 b with
    | (_, Some e) => mret (Err e)
    | (actionType, None) => mret (Ok actionType)
    end.

(** [OnTraffic(c)] of the TCP server; [next] is what [c.Next(-1)] returns: all the
    bytes received so far, in the connection's buffer. *)
Definition TCP_OnTraffic (reg : gmap byte gnet_handler) (c : nat) (next : res slice)
    : Go world action :=
  match next with
  | Err _ => mret ActClose
  | Ok frame =>
      if decide (s_len frame < 1)
      then send (AsyncWrite c (ascii "ERROR: Invalid action"));; mret ActNone
      else
        r ← lift_heap (parseActionType frame);
        match r with
        | Err _ => send (AsyncWrite c (ascii "ERROR: Invalid action"));; mret ActNone
        | Ok actionType =>
            match reg !! actionType with
            | None => send (AsyncWrite c (ascii "ERROR: Unknown action"));; mret ActNone
            | Some handler => handler c frame;; mret ActNone
            end
        end
  end.

(** [React(frame, c)] of the UDP, UDS and dummy servers: the bytes of the first
    result are sent back, an empty result is [nil]. *)
Definition gnet_React (reg : gmap byte gnet_handler) (frame : slice) (c : nat)
    : Go world (list byte * action) :=
  if decide (s_len frame < 1) then mret (ascii "ERROR: Invalid action", ActNone)
  else
    r ← lift_heap (parseActionType frame);
    match r with
    | Err _ => mret (ascii "ERROR: Invalid action", ActNone)
    | Ok actionType =>
        match reg !! actionType with
        | None => mret (ascii "ERROR: Unknown action", ActNone)
        | Some handler => handler c frame;; mret ([], ActNone)
        end
    end.

Definition UDP_React := gnet_React.
Definition UDS_React := gnet_React.
Definition Dummy_React := gnet_React.

(** The methods of the UDP, UDS and dummy servers on their registries. *)
Definition UDP_RegisterHandler (a : byte) (h : gnet_handler) := RegisterHandler a h.
Definition UDP_DeregisterHandler (a : byte) := @DeregisterHandler gnet_handler a.
Definition UDS_RegisterHandler (a : byte) (h : gnet_handler) := RegisterHandler a h.
Definition UDS_DeregisterHandler (a : byte) := @DeregisterHandler gnet_handler a.
Definition Dummy_RegisterHandler (a : byte) (h : gnet_handler) := RegisterHandler a h.
Definition Dummy_DeregisterHandler (a : byte) := @DeregisterHandler gnet_handler a.

(** The other callbacks of the TCP server: they log, answer nothing and let gnet go on. *)
Definition TCP_OnShutdown : Go world () := mret tt.
Definition TCP_OnOpen : Go world (list byte * action) := mret ([], ActNone).
Definition TCP_OnClose (err : option error) : Go world action := mret ActNone.

(** * The QUIC server *)

Definition quic_handler : Type := nat → Message → Go world ().

(** Its [parseActionType], which nothing calls, and its registry. *)
Definition Quic_parseActionType : slice → Go heap (res byte) := parseActionType.
Definition Quic_RegisterHandler (a : byte) (h : quic_handler) := RegisterHandler a h.
Definition Quic_DeregisterHandler (a : byte) := @DeregisterHandler quic_handler a.

(** What one [stream.Read(buffer)] returns: the bytes it copied into the buffer
    and its error. *)
Record read_result := MkRead { rd_bytes : list byte; rd_err : option error }.

(** [handleStream(conn, stream)], on the reads the stream gives; every error of a
    read ends the loop (the kinds differ in what is logged), and the loop waits
    in the read that has not returned yet. *)
Fixpoint handleStream (reg : gmap byte quic_handler) (c : nat) (reads : list read_result)
    : Go world () :=
  match reads with
  | [] => go_block
  | rd :: reads =>
      buffer ← lift_heap (make_bytes 4096);
      lift_heap (copy_bytes buffer (rd_bytes rd));;
      match rd_err rd with
      | Some _ => mret tt
      | None =>
          data ← lift_heap (slice_to buffer (Z.of_nat (length (take 4096 (rd_bytes rd)))));
          r ← lift_heap (Decode data);
          match r with
          | Err _ => mret tt
          | Ok message =>
              match reg !! Handler message with
              | None => mret tt
              | Some handler => handler c message;; handleStream reg c reads
              end
          end
      end
  end.

(** * The registries the programs build *)

Context {P : Type} `{Provider mdbx_state P}.

(** A gnet server with both handlers registered. *)
Definition rw_registry (reply : nat → list byte → event) (db : P) : gmap byte gnet_handler :=
  RegisterHandler ReadHandlerType (gnet_read reply db)
    (RegisterHandler WriteHandlerType (gnet_write reply) ∅).

Definition quic_rw_registry (write_err : list event → option error) (db : P)
    : gmap byte quic_handler :=
  RegisterHandler ReadHandlerType (QuicReadHandler_HandleMessage write_err db)
    (RegisterHandler WriteHandlerType (QuicWriteHandler_HandleMessage write_err) ∅).

(** * Observations *)

(** The bytes sent between two worlds, and in addition what [React] returns. *)
Definition answers (w w' : world) : list (list byte) :=
  event_bytes <$> drop (length (w_trace w)) (w_trace w').
Definition out_answers (out : list byte) : list (list byte) :=
  if decide (out = []) then [] else [out].

(** The first byte of a frame, if it is an action. *)
Definition frame_action (w : world) (frame : slice) : option byte :=
  match frame_bytes w frame with
  | b :: _ => if decide (b = WriteHandlerType ∨ b = ReadHandlerType) then Some b else None
  | [] => None
  end.
End servers.

(** * Dispatch *)

Section dispatch.
Context `{Mdbx}.
Implicit Types (w : world) (frame : slice) (reg : gmap byte gnet_handler).

Lemma frame_nonempty w frame :
  frame_ok w frame → ¬ s_len frame < 1 →
  ∃ b bs, frame_bytes w frame = b :: bs.
Proof.
  intros Hok Hl. pose proof (length_bytes_of _ _ Hok) as HL. fold (frame_bytes w frame) in HL.
  destruct (frame_bytes w frame) as [|b bs]; [simpl in HL; lia | by exists b, bs].
Qed.

Lemma parseActionType_spec w frame :
  frame_ok w frame → ¬ s_len frame < 1 →
  ∃ r, lift_heap (parseActionType frame) w = Done w r ∧
    match r with
    | Ok a => frame_action w frame = Some a
    | Err _ => frame_action w frame = None
    end.
Proof.
  intros Hok Hl. destruct (frame_nonempty w frame Hok Hl) as (b & bs & E).
  assert (parseActionType frame (ws_heap (w_ws w)) =
    match HandlerType_FromByte x00 b with
    | (_, Some e) => Done (ws_heap (w_ws w)) (Err e)
    | (a, None) => Done (ws_heap (w_ws w)) (Ok a)
    end) as Hp.
  { unfold parseActionType. rewrite decide_False by done.
    erewrite go_bind_done by (apply index_get_ok; lia).
    fold (frame_bytes w frame). rewrite E. simpl.
    by destruct (HandlerType_FromByte _ _) as [? []]. }
  unfold frame_action. rewrite E.
  destruct (HandlerType_FromByte x00 b) as [a [e|]] eqn:Eb.
  - exists (Err e). split; [by eapply lift_heap_read|].
    rewrite decide_False; [done|]. intros Hb.
    assert (HandlerType_FromByte x00 b = (b, None)) as Hc by (by apply FromByte_ok).
    congruence.
  - exists (Ok a). split; [by eapply lift_heap_read|].
    apply FromByte_ok in Eb as [Hb ->]. by rewrite decide_True.
Qed.

Lemma gnet_React_eq reg (c : nat) w frame :
  frame_ok w frame →
  gnet_React reg frame c w =
    match frame_action w frame with
    | None => Done w (ascii "ERROR: Invalid action", ActNone)
    | Some a =>
        match reg !! a with
        | None => Done w (ascii "ERROR: Unknown action", ActNone)
        | Some handler => (handler c frame;; mret ([], ActNone)) w
        end
    end.
Proof.
  intros Hok. unfold gnet_React. case_decide as Hl.
  { unfold frame_action, frame_bytes, bytes_of.
    replace (s_len frame) with 0 by lia. by rewrite take_0. }
  destruct (parseActionType_spec w frame Hok Hl) as (r & E & Hr).
  erewrite go_bind_done by exact E.
  destruct r as [a|e]; rewrite Hr; [|done]. by destruct (reg !! a).
Qed.

(** [React] of the UDP, UDS and dummy servers answers every frame: an empty frame
    or one whose first byte is neither 'W' nor 'R' with "ERROR: Invalid action",
    an action without handler with "ERROR: Unknown action", both without any
    other effect; otherwise exactly the registered handler runs on the frame,
    and its panics and its blocking are those of [React]. *)
Theorem React_dispatches reg (c : nat) w frame :
  frame_ok w frame →
  gnet_React reg frame c w =
    match frame_action w frame with
    | None => Done w (ascii "ERROR: Invalid action", ActNone)
    | Some a =>
        match reg !! a with
        | None => Done w (ascii "ERROR: Unknown action", ActNone)
        | Some handler => (handler c frame;; mret ([], ActNone)) w
        end
    end.
Proof. apply gnet_React_eq. Qed.

Lemma TCP_OnTraffic_eq reg (c : nat) w (next : res slice) :
  (∀ frame, next = Ok frame → frame_ok w frame) →
  TCP_OnTraffic reg c next w =
    match next with
    | Err _ => Done w ActClose
    | Ok frame =>
        match frame_action w frame with
        | None => Done (trace_add [AsyncWrite c (ascii "ERROR: Invalid action")] w) ActNone
        | Some a =>
            match reg !! a with
            | None => Done (trace_add [AsyncWrite c (ascii "ERROR: Unknown action")] w) ActNone
            | Some handler => (handler c frame;; mret ActNone) w
            end
        end
    end.
Proof.
  destruct next as [frame|e]; [|done]. intros Hok%(λ h, h frame eq_refl).
  unfold TCP_OnTraffic. case_decide as Hl.
  { unfold frame_action, frame_bytes, bytes_of.
    replace (s_len frame) with 0 by lia. by rewrite take_0. }
  destruct (parseActionType_spec w frame Hok Hl) as (r & E & Hr).
  erewrite go_bind_done by exact E.
  destruct r as [a|e]; rewrite Hr; [|done]. by destruct (reg !! a).
Qed.

(** [OnTraffic] of the TCP server closes the connection when reading it fails and
    otherwise answers the bytes it got as [React] does, sending the error texts
    with [AsyncWrite] instead of returning them. *)
Theorem OnTraffic_dispatches reg (c : nat) w (next : res slice) :
  (∀ frame, next = Ok frame → frame_ok w frame) →
  TCP_OnTraffic reg c next w =
    match next with
    | Err _ => Done w ActClose
    | Ok frame =>
        match frame_action w frame with
        | None => Done (trace_add [AsyncWrite c (ascii "ERROR: Invalid action")] w) ActNone
        | Some a =>
            match reg !! a with
            | None => Done (trace_add [AsyncWrite c (ascii "ERROR: Unknown action")] w) ActNone
            | Some handler => (handler c frame;; mret ActNone) w
            end
        end
    end.
Proof. apply TCP_OnTraffic_eq. Qed.
End dispatch.

(** * The gnet servers agree *)

Section agreement.
Context `{Mdbx} {P : Type} `{Provider mdbx_state P}.
Implicit Types (w : world) (frame : slice).

Lemma frame_action_cases w frame a :
  frame_action w frame = Some a → a = WriteHandlerType ∨ a = ReadHandlerType.
Proof.
  unfold frame_action. destruct (frame_bytes w frame); [done|].
  case_decide; [|done]. by intros [= <-].
Qed.

Lemma rw_registry_lookup (reply : nat → list byte → event) (db : P) a :
  a = WriteHandlerType ∨ a = ReadHandlerType →
  rw_registry reply db !! a =
    Some (if decide (a = WriteHandlerType) then gnet_write reply else gnet_read reply db).
Proof. by intros [-> | ->]. Qed.

Lemma answers_add w w' es :
  w_trace w' = w_trace w → answers w (trace_add es w') = event_bytes <$> es.
Proof. intros Hw. unfold answers, trace_add. simpl. by rewrite Hw, drop_app_length. Qed.

(** C14: The TCP server and the UDP, UDS and dummy servers with the same handlers are
    the same service: on every frame they leave the heap, the database and the
    writer in the same state, panic or block alike, and send the client the
    same bytes, in exactly one answer. *)
Theorem tcp_udp_same_service (db : P) (c : nat) w frame :
  frame_ok w frame →
  match TCP_OnTraffic (rw_registry AsyncWrite db) c (Ok frame) w,
        UDP_React (rw_registry SendTo db) frame c w with
  | Done w1 a1, Done w2 (out, a2) =>
      w_ws w1 = w_ws w2 ∧ a1 = a2 ∧
      answers w w1 = answers w w2 ++ out_answers out ∧ length (answers w w1) = 1
  | Panicked p1, Panicked p2 => p1 = p2
  | Blocked, Blocked => True
  | _, _ => False
  end.
Proof.
  intros Hok. unfold UDP_React. rewrite gnet_React_eq by done.
  rewrite TCP_OnTraffic_eq by (by intros ? [= <-]).
  destruct (frame_action w frame) as [a|] eqn:Ea.
  2: { rewrite answers_add by done. split_and!; [done..| |done].
       unfold answers. by rewrite drop_all. }
  rewrite !rw_registry_lookup by (by eapply frame_action_cases).
  unfold mbind, go_bind, mret, go_ret. case_decide.
  - rewrite !gnet_write_eq by done. case_decide.
    { by rewrite !answers_add. }
    destruct (BufferWrite _ _ _) as [bw []| |]; [|done..]. by rewrite !answers_add.
  - rewrite !gnet_read_eq by done. case_decide.
    { by rewrite !answers_add. }
    destruct (prov_Get _ _ _) as [m r]. by rewrite !answers_add.
Qed.
End agreement.

(** * The QUIC stream loop *)

Section quic_stream.
Context `{Mdbx}.
Implicit Types (w : world) (reg : gmap byte quic_handler).

(** The world after a read of [chunk] into a fresh buffer of 4096 bytes. *)
Definition after_read (chunk : list byte) (w : world) : world :=
  with_heap (ws_heap (w_ws w) ++ [splice 0 (take 4096 chunk) (replicate 4096 x00)]) w.

Lemma read_buffer (chunk : list byte) w :
  length chunk ≤ 4096 →
  let h := ws_heap (w_ws (after_read chunk w)) in
  let s := Slice (length (ws_heap (w_ws w))) 0 (length chunk) 4096 in
  slice_ok h s ∧ bytes_of h s = chunk.
Proof.
  intros Hl. unfold slice_ok, bytes_of, after_read.
  cbn [with_heap w_ws ws_heap s_buf s_off s_len s_cap].
  rewrite buf_of_alloc, drop_0, (take_ge chunk) by done.
  rewrite length_splice by (rewrite length_replicate; simpl; lia).
  rewrite length_replicate. split; [lia|].
  unfold splice. rewrite take_0. simpl. by rewrite take_app_length.
Qed.

Lemma poke_fresh (h : heap) (bs0 bs : list byte) :
  poke (h ++ [bs0]) (length h) 0 bs = h ++ [splice 0 bs bs0].
Proof. unfold poke. rewrite buf_of_alloc, insert_app_r_alt, Nat.sub_diag; done. Qed.

Lemma handleStream_read reg c chunk reads w :
  length chunk ≤ 4096 →
  ∃ m, (∀ mv, parse_wire chunk = Ok mv →
          value_of (ws_heap (w_ws (after_read chunk w))) m = mv ∧
          s_buf (Data m) = length (ws_heap (w_ws w)) ∧
          slice_ok (ws_heap (w_ws (after_read chunk w))) (Data m)) ∧
    handleStream reg c (MkRead chunk None :: reads) w =
      match parse_wire chunk with
      | Err _ => Done (after_read chunk w) ()
      | Ok mv =>
          match reg !! mv_handler mv with
          | None => Done (after_read chunk w) ()
          | Some handler => (handler c m;; handleStream reg c reads) (after_read chunk w)
          end
      end.
Proof.
  intros Hl. destruct (read_buffer chunk w Hl) as [Hok Hb].
  cbn [handleStream rd_bytes rd_err].
  erewrite go_bind_done by (apply lift_heap_done; done).
  erewrite go_bind_done by (apply lift_heap_done; done).
  rewrite (take_ge chunk) by done.
  set (w0 := with_heap _ _). assert (w0 = after_read chunk w) as ->.
  { unfold w0, after_read. cbn [with_heap w_ws ws_heap s_buf s_off s_len].
    by rewrite poke_fresh. }
  unfold slice_to.
  erewrite go_bind_done by (eapply lift_heap_read; [apply slice_range_ok; simpl; lia|done]).
  cbn [s_buf s_off s_len s_cap]. rewrite Z.sub_0_r, Nat2Z.id.
  change (Slice _ _ _ _) with (Slice (length (ws_heap (w_ws w))) 0 (length chunk) 4096).
  set (s := Slice _ _ _ _) in *.
  destruct (Decode_spec _ s Hok) as (r & E & Hr).
  { rewrite Hb. unfold length_field_fits. simpl s_len. lia. }
  erewrite go_bind_done by (eapply lift_heap_read; [exact E|done]).
  rewrite Hb in Hr. destruct r as [m|e]; rewrite ?Hr.
  - destruct Hr as (-> & Hs & Hd). exists m. split; [by intros mv [= <-]|].
    simpl. by destruct (reg !! Handler m).
  - by exists (MkMessage x00 array32_zero nil_slice).
Qed.

(** A panic of [handleStream] is a panic of a handler. *)
Definition handlers_safe (reg : gmap byte quic_handler) : Prop :=
  ∀ b handler c m w p, reg !! b = Some handler → handler c m w ≠ Panicked p.

(** Whatever a client sends on a QUIC stream, in reads of at most the 4096 bytes
    of the buffer, the stream loop never panics unless a handler does. *)
Theorem handleStream_never_panics reg c (reads : list read_result) w p :
  handlers_safe reg → Forall (λ rd, length (rd_bytes rd) ≤ 4096) reads →
  handleStream reg c reads w ≠ Panicked p.
Proof.
  intros Hsafe Hl. revert w. induction Hl as [|[chunk [e|]] reads Hc Hl IH]; intros w;
    [done| |].
  { simpl. erewrite go_bind_done by (apply lift_heap_done; done).
    by erewrite go_bind_done by (apply lift_heap_done; done). }
  destruct (handleStream_read reg c chunk reads w Hc) as (m & _ & ->).
  destruct (parse_wire chunk) as [mv|]; [|done].
  destruct (reg !! mv_handler mv) as [handler|] eqn:Eh; [|done].
  unfold mbind, go_bind. destruct (handler c m _) as [w1 a|p1|] eqn:E; [apply IH| |done].
  by destruct (Hsafe _ _ _ _ _ p1 Eh E).
Qed.

(** A read that starts with a whole message makes the stream loop run its handler
    on exactly that message, whose data live in a buffer of their own, and then
    go on with the next read; bytes behind the message in the same read are
    dropped. *)
Theorem handleStream_runs_message reg c (mv : message_value) (junk : list byte)
    reads w (handler : quic_handler) :
  length (wire mv ++ junk) ≤ 4096 → reg !! mv_handler mv = Some handler →
  ∃ m w1, handleStream reg c (MkRead (wire mv ++ junk) None :: reads) w
          = (handler c m;; handleStream reg c reads) w1 ∧
    value_of (ws_heap (w_ws w1)) m = mv ∧
    s_buf (Data m) = length (ws_heap (w_ws w)) ∧
    w_trace w1 = w_trace w ∧ ws_bw (w_ws w1) = ws_bw (w_ws w) ∧
    ws_mdbx (w_ws w1) = ws_mdbx (w_ws w) ∧
    (∀ s, slice_ok (ws_heap (w_ws w)) s →
       bytes_of (ws_heap (w_ws w1)) s = bytes_of (ws_heap (w_ws w)) s).
Proof.
  intros Hl Hreg. destruct (handleStream_read reg c (wire mv ++ junk) reads w Hl)
    as (m & Hm & ->).
  pose proof (parse_wire_app mv junk) as Hp. rewrite length_app, length_wire in Hl.
  rewrite u32_small, Nat2Z.id, take_app_length in Hp by lia.
  destruct mv as [hd k d]. cbn [mv_handler mv_key mv_data] in *.
  destruct (Hm _ Hp) as (Hv & Hs & Hd). rewrite Hp. cbn [mv_handler].
  unfold quic_handler in *. rewrite Hreg.
  exists m, (after_read (wire (MsgVal hd k d) ++ junk) w). split_and!; try done.
  intros s Hok. by apply bytes_of_alloc.
Qed.

(** A message whose encoding exceeds the 4096 bytes of the read buffer is never
    served over QUIC: its first read decodes to a length mismatch, and the loop
    leaves without an answer, a queued request or a look at the rest. *)
Theorem handleStream_drops_large reg c (mv : message_value) reads w :
  4096 < length (wire mv) → (Z.of_nat (length (mv_data mv)) < 2 ^ 32)%Z →
  ∃ w', handleStream reg c (MkRead (take 4096 (wire mv)) None :: reads) w = Done w' () ∧
    w_trace w' = w_trace w ∧ ws_bw (w_ws w') = ws_bw (w_ws w) ∧
    ws_mdbx (w_ws w') = ws_mdbx (w_ws w).
Proof.
  intros Hlen Hd. destruct (handleStream_read reg c (take 4096 (wire mv)) reads w)
    as (m & _ & ->); [rewrite length_take; lia|].
  assert (∃ e, parse_wire (take 4096 (wire mv)) = Err e) as [e ->]; [|by eexists].
  assert (take 4 (drop 33 (take 4096 (wire mv))) = take 4 (drop 33 (wire mv))) as Hf.
  { by rewrite skipn_firstn_comm, take_take, Nat.min_l by lia. }
  unfold parse_wire. rewrite Hf. fold (length_field (wire mv)).
  rewrite length_drop, length_take, Nat.min_l, decide_False by lia.
  rewrite length_field_wire, u32_small by lia. rewrite length_wire in Hlen.
  rewrite decide_True by lia. eauto.
Qed.
End quic_stream.
