(* ===== verification/EndToEnd.v ===== *)
(** What a client sees: a value written over one transport, stored by the
    workers, read back over the same or another transport, and the frames that
    are not one message. *)
From S2P Require Import Prelude GoRuntime Slices Types Messages Config Mdbx Database BatchWriter WriterSpec WriterCorrect Handlers Servers.

Section end_to_end.
Context `{MdbxReliable}.
Implicit Types (w : world) (frame : slice) (key : array32) (d : list byte).

(** * Definitions *)

(** A server at work: its writer is well-formed with all workers in their loops,
    the library does not fail, and the queue of [key] has room. *)
Record ready (key : array32) (w : world) : Prop := {
  ready_wf : wf_bw (ws_bw (w_ws w));
  ready_live : live (w_ws w);
  ready_loops : Forall (λ pc, pc = WLoop) (bw_pcs (ws_bw (w_ws w)));
  ready_room ch :
    bw_channels (ws_bw (w_ws w)) !! Z.to_nat (worker_of (bw_workers (ws_bw (w_ws w))) key)
      = Some ch → (Z.of_nat (length ch) < channel_capacity)%Z;
}.

(** The frame of a request in a world. *)
Definition shows (w : world) (frame : slice) (bs : list byte) : Prop :=
  frame_ok w frame ∧ frame_bytes w frame = bs.

(** The workers store everything they hold. *)
Definition settle (rng : gmap array32 slice → list (array32 * slice)) (w : world)
    : outcome world () :=
  lift_ws (λ st, drain_upto rng (length (bw_channels (ws_bw st))) st) w.

(** The database the handlers were given is the writer's. *)
Definition db (w : world) : Db := bw_db (ws_bw (w_ws w)).

(** The value in flight or stored for [key]. *)
Definition view_w (w : world) (key : array32) : option (list byte) := view (w_ws w) key.

(** * Frames *)

Lemma frame_action_hd w frame a bs :
  shows w frame (a :: bs) → a = WriteHandlerType ∨ a = ReadHandlerType →
  frame_action w frame = Some a.
Proof. intros [_ Hb] Ha. unfold frame_action. rewrite Hb. by rewrite decide_True. Qed.

Lemma frame_len w frame bs : shows w frame bs → s_len frame = length bs.
Proof. intros [Hok <-]. symmetry. by apply length_bytes_of. Qed.

Lemma frame_key_of w frame a key bs :
  shows w frame (a :: array_bytes key ++ bs) → frame_key w frame = array_bytes key.
Proof.
  intros [_ Hb]. unfold frame_key. rewrite Hb. simpl.
  apply take_app_length'. by rewrite array32_length.
Qed.

Lemma frame_value_of w frame a key bs :
  shows w frame (a :: array_bytes key ++ bs) →
  bytes_of (ws_heap (w_ws w)) (frame_value frame) = bs.
Proof.
  intros Hs. pose proof (frame_len _ _ _ Hs) as Hl. simpl in Hl.
  rewrite length_app, array32_length in Hl. rewrite bytes_frame_value by lia.
  destruct Hs as [_ ->]. simpl. apply drop_app_length'. by rewrite array32_length.
Qed.

Lemma BufferWrite_ready key value w :
  ready key w → ∃ bw, BufferWrite key value (ws_bw (w_ws w)) = Done bw ().
Proof.
  intros [Hwf _ _ Hroom]. set (bw := ws_bw (w_ws w)) in *.
  destruct (lookup_worker (bw_channels bw) (bw_workers bw) key) as [ch Hch]; [apply Hwf..|].
  pose proof (wf_workers _ Hwf). pose proof (worker_of_range (bw_workers bw) key).
  unfold BufferWrite. rewrite decide_False by lia. cbv zeta. rewrite decide_False by lia.
  rewrite Hch. apply Hroom in Hch. rewrite decide_False by lia. eauto.
Qed.

(** What a queued write does to the view. *)
Lemma BufferWrite_view key value w bw k :
  wf_bw (ws_bw (w_ws w)) → BufferWrite key value (ws_bw (w_ws w)) = Done bw () →
  view_w (with_writer bw w) k =
    if decide (k = key) then Some (bytes_of (ws_heap (w_ws w)) value) else view_w w k.
Proof.
  intros Hwf E. unfold view_w, with_writer. cbn [w_ws].
  exact (wstep_view _ _ _ k Hwf (step_write _ _ _ _ E) ltac:(done) eq_refl).
Qed.

Lemma BufferWrite_keeps_ready key value w bw :
  BufferWrite key value (ws_bw (w_ws w)) = Done bw () → wf_bw (ws_bw (w_ws w)) →
  wf_bw bw ∧ bw_pcs bw = bw_pcs (ws_bw (w_ws w)) ∧ bw_db bw = bw_db (ws_bw (w_ws w)).
Proof.
  intros E Hwf. split; [by eapply BufferWrite_wf|].
  by apply BufferWrite_done in E as (? & _ & ->).
Qed.

(** The workers settle a world whose database then is its view. *)
Lemma settle_spec rng w :
  map_order rng → wf_bw (ws_bw (w_ws w)) → live (w_ws w) →
  Forall (λ pc, pc = WLoop) (bw_pcs (ws_bw (w_ws w))) →
  ∃ w', settle rng w = Done w' () ∧ live (w_ws w') ∧ w_trace w' = w_trace w ∧
    ∀ key, db_view (ws_mdbx (w_ws w')) (db w') !! array_bytes key = view_w w key.
Proof.
  intros Hrng Hwf Hl Hpc.
  destruct (drain_spec rng (w_ws w) Hrng Hwf Hl Hpc) as (st' & ls & E & _ & _ & Hl' & _ & _ & Hv).
  exists (MkWorld st' (w_trace w)). split_and!; [|done..].
  unfold settle, lift_ws, go_zoom. by rewrite E.
Qed.

(** The TCP server with both handlers, on a message. *)
Lemma tcp_write_view key bs c w frame :
  ready key w → shows w frame (WriteHandlerType :: array_bytes key ++ bs) → bs ≠ [] →
  ∃ bw, TCP_OnTraffic (rw_registry AsyncWrite (db w)) c (Ok frame) w
        = Done (trace_add [AsyncWrite c [x00]] (with_writer bw w)) ActNone ∧
    BufferWrite key (frame_value frame) (ws_bw (w_ws w)) = Done bw ().
Proof.
  intros Hr Hs Hbs. pose proof (frame_len _ _ _ Hs) as Hl. simpl in Hl.
  rewrite length_app, array32_length in Hl.
  destruct (BufferWrite_ready key (frame_value frame) w Hr) as [bw E]. exists bw.
  split; [|done]. rewrite TCP_OnTraffic_eq by (intros ? [= <-]; apply Hs).
  rewrite (frame_action_hd _ _ _ _ Hs) by auto.
  rewrite rw_registry_lookup by auto. rewrite decide_True by done.
  unfold mbind, go_bind. rewrite gnet_write_eq by apply Hs.
  rewrite decide_False by (destruct bs; [done|simpl in *; lia]).
  erewrite frame_key_of, array32_of_proj by exact Hs. by rewrite E.
Qed.

Lemma gnet_read_stored key bs reply c w frame :
  live (w_ws w) → shows w frame (ReadHandlerType :: array_bytes key ++ bs) →
  ∃ m, gnet_read reply (db w) c frame w
       = Done (trace_add [reply c (read_reply (lookup_res (array_bytes key)
                  (db_view (ws_mdbx (w_ws w)) (db w))))] (with_mdbx m w)) ().
Proof.
  intros Hl Hs. pose proof (frame_len _ _ _ Hs) as Hlen. simpl in Hlen.
  rewrite length_app, array32_length in Hlen.
  rewrite gnet_read_eq by apply Hs.
  rewrite decide_False by lia. erewrite frame_key_of by exact Hs.
  destruct (Db_Get_live (db w) (array_bytes key) (ws_mdbx (w_ws w)) Hl) as [m E].
  exists m. simpl. by rewrite E.
Qed.

Lemma tcp_read_stored key bs c w frame :
  live (w_ws w) → shows w frame (ReadHandlerType :: array_bytes key ++ bs) →
  ∃ m, TCP_OnTraffic (rw_registry AsyncWrite (db w)) c (Ok frame) w
       = Done (trace_add [AsyncWrite c (read_reply (lookup_res (array_bytes key)
                  (db_view (ws_mdbx (w_ws w)) (db w))))] (with_mdbx m w)) ActNone.
Proof.
  intros Hl Hs. destruct (gnet_read_stored key bs AsyncWrite c w frame Hl Hs) as [m E].
  exists m. rewrite TCP_OnTraffic_eq by (intros ? [= <-]; apply Hs).
  rewrite (frame_action_hd _ _ _ _ Hs) by auto.
  rewrite rw_registry_lookup by auto. rewrite decide_False by done.
  by erewrite go_bind_done by exact E.
Qed.

Lemma read_reply_some (k v : list byte) (s : store) :
  s !! k = Some v → v ≠ [] → read_reply (lookup_res k s) = v.
Proof.
  intros Hk Hv. unfold lookup_res. rewrite Hk. simpl.
  rewrite decide_False; [done|]. by destruct v.
Qed.

(** The world after a TCP write was queued is ready to settle. *)
Lemma tcp_write_settles rng key bs c w frame :
  map_order rng → ready key w →
  shows w frame (WriteHandlerType :: array_bytes key ++ bs) → bs ≠ [] →
  ∃ w1 w2, TCP_OnTraffic (rw_registry AsyncWrite (db w)) c (Ok frame) w = Done w1 ActNone ∧
    w_trace w1 = w_trace w ++ [AsyncWrite c [x00]] ∧
    settle rng w1 = Done w2 () ∧ live (w_ws w2) ∧ w_trace w2 = w_trace w1 ∧
    ∀ k, db_view (ws_mdbx (w_ws w2)) (db w2) !! array_bytes k =
         if decide (k = key) then Some bs else view_w w k.
Proof.
  intros Hrng Hr Hs Hbs.
  destruct (tcp_write_view key bs c w frame Hr Hs Hbs) as (bw & E & Ebw).
  destruct (BufferWrite_keeps_ready _ _ _ _ Ebw (ready_wf _ _ Hr)) as (Hwf & Hp & Hdb).
  eexists. destruct (settle_spec rng (trace_add [AsyncWrite c [x00]] (with_writer bw w)))
    as (w2 & E2 & Hl2 & Ht2 & Hv2).
  { done. } { done. }
  { unfold live, trace_add, with_writer. simpl. rewrite Hdb. apply Hr. }
  { simpl. rewrite Hp. apply Hr. }
  exists w2. split; [exact E|]. split_and!; [done..|]. intros k.
  rewrite Hv2. pose proof (BufferWrite_view _ _ _ _ k (ready_wf _ _ Hr) Ebw) as Hview.
  by rewrite (frame_value_of _ _ _ _ _ Hs) in Hview.
Qed.

(** * What a client reads back *)

(** C10: Write, then read, over TCP: a write of the message (key, d) is acknowledged
    with 0x00, and once the workers have stored what they hold, a read of the
    key is answered with the four length bytes followed by d, since the frame is
    stored from byte 33 on; every other key keeps the value it had. *)
Theorem tcp_write_then_read rng key d c w wframe :
  map_order rng → ready key w →
  shows w wframe (wire (MsgVal WriteHandlerType key d)) →
  ∃ w1 w2, TCP_OnTraffic (rw_registry AsyncWrite (db w)) c (Ok wframe) w = Done w1 ActNone ∧
    answers w w1 = [[x00]] ∧ settle rng w1 = Done w2 () ∧
    (∀ k, k ≠ key →
       db_view (ws_mdbx (w_ws w2)) (db w2) !! array_bytes k = view_w w k) ∧
    ∀ rframe d', shows w2 rframe (wire (MsgVal ReadHandlerType key d')) →
      ∃ w3, TCP_OnTraffic (rw_registry AsyncWrite (db w2)) c (Ok rframe) w2 = Done w3 ActNone ∧
        answers w2 w3 = [be32 (Z.of_nat (length d)) ++ d].
Proof.
  intros Hrng Hr Hs.
  destruct (tcp_write_settles rng key (be32 (Z.of_nat (length d)) ++ d) c w wframe)
    as (w1 & w2 & E1 & Ht1 & E2 & Hl2 & Ht2 & Hv2); [done..|].
  exists w1, w2. split_and!; [done| |done| |].
  - unfold answers. by rewrite Ht1, drop_app_length.
  - intros k Hk. by rewrite Hv2, decide_False.
  - intros rframe d' Hrs.
    destruct (tcp_read_stored key _ c w2 rframe Hl2 Hrs) as [m E3].
    eexists. split; [exact E3|]. rewrite answers_add by done. simpl. f_equal.
    apply read_reply_some; [|done]. by rewrite Hv2, decide_True.
Qed.

(** QUIC stores the data alone: after the QUIC write handler ran on (key, d) with
    d not empty and the workers have stored what they hold, a TCP read of the key
    is answered with exactly d, four bytes less than after a TCP write of the
    same message. *)
Theorem quic_write_tcp_read rng write_err key m c w :
  map_order rng → ready key w → slice_ok (ws_heap (w_ws w)) (Data m) →
  Key m = key → bytes_of (ws_heap (w_ws w)) (Data m) ≠ [] →
  ∃ w1 w2, QuicWriteHandler_HandleMessage write_err c m w = Done w1 () ∧
    answers w w1 = [[x00]] ∧ settle rng w1 = Done w2 () ∧
    ∀ rframe d', shows w2 rframe (wire (MsgVal ReadHandlerType key d')) →
      ∃ w3, TCP_OnTraffic (rw_registry AsyncWrite (db w2)) c (Ok rframe) w2 = Done w3 ActNone ∧
        answers w2 w3 = [bytes_of (ws_heap (w_ws w)) (Data m)].
Proof.
  intros Hrng Hr Hok <- Hd. destruct (BufferWrite_ready _ (Data m) w Hr) as [bw E].
  destruct (BufferWrite_keeps_ready _ _ _ _ E (ready_wf _ _ Hr)) as (Hwf & Hp & Hdb).
  destruct (settle_spec rng (trace_add [StreamWrite c [x00]] (with_writer bw w)))
    as (w2 & E2 & Hl2 & Ht2 & Hv2); [done..| | |].
  { unfold live, trace_add, with_writer. simpl. rewrite Hdb. apply Hr. }
  { simpl. rewrite Hp. apply Hr. }
  eexists _, w2. rewrite quic_write_eq, E. split_and!; [done| |exact E2|].
  { by rewrite answers_add. }
  intros rframe d' Hrs.
  destruct (tcp_read_stored _ _ c w2 rframe Hl2 Hrs) as [m' E3].
  eexists. split; [exact E3|]. rewrite answers_add by done. simpl. f_equal.
  apply read_reply_some; [|done]. rewrite Hv2.
  pose proof (BufferWrite_view _ _ _ _ (Key m) (ready_wf _ _ Hr) E) as Hview.
  by rewrite decide_True in Hview.
Qed.

(** * Frames that are not one message *)

(** Two messages that arrive in one TCP segment are one frame to the server: if
    the first is a write, the bytes of the second become part of its value, the
    client gets one answer, and the second message has no other effect. *)
Theorem tcp_coalesced_messages key d mv2 c w frame :
  ready key w →
  shows w frame (wire (MsgVal WriteHandlerType key d) ++ wire mv2) →
  ∃ w1, TCP_OnTraffic (rw_registry AsyncWrite (db w)) c (Ok frame) w = Done w1 ActNone ∧
    answers w w1 = [[x00]] ∧
    ∀ k, view_w w1 k =
      if decide (k = key)
      then Some (be32 (Z.of_nat (length d)) ++ d ++ wire mv2) else view_w w k.
Proof.
  intros Hr Hs. set (bs := be32 (Z.of_nat (length d)) ++ d ++ wire mv2).
  assert (shows w frame (WriteHandlerType :: array_bytes key ++ bs)) as Hs'.
  { destruct Hs as [Hok Hs]. split; [done|]. rewrite Hs. unfold wire at 1, bs. simpl.
    by rewrite <- !app_assoc. }
  destruct (tcp_write_view key bs c w frame Hr Hs') as (bw & E & Ebw); [done|].
  eexists. split; [exact E|]. split; [by rewrite answers_add|]. intros k.
  pose proof (BufferWrite_view _ _ _ _ k (ready_wf _ _ Hr) Ebw) as Hview.
  by rewrite (frame_value_of _ _ _ _ _ Hs') in Hview.
Qed.

(** The queued value aliases the frame: the writer keeps a slice of the network
    buffer, so whatever the event loop reads into that buffer after [OnTraffic]
    returned is what will be stored under the key. *)
Theorem frame_reuse_changes_value key bs c w frame (h' : heap) :
  ready key w → shows w frame (WriteHandlerType :: array_bytes key ++ bs) → bs ≠ [] →
  ∃ w1, TCP_OnTraffic (rw_registry AsyncWrite (db w)) c (Ok frame) w = Done w1 ActNone ∧
    view_w w1 key = Some bs ∧
    view_w (with_heap h' w1) key = Some (drop 33 (bytes_of h' frame)).
Proof.
  intros Hr Hs Hbs. destruct (tcp_write_view key bs c w frame Hr Hs Hbs) as (bw & E & Ebw).
  eexists. split; [exact E|].
  pose proof (BufferWrite_view _ _ _ _ key (ready_wf _ _ Hr) Ebw) as Hview.
  rewrite decide_True in Hview by done.
  rewrite (frame_value_of _ _ _ _ _ Hs) in Hview. split; [done|].
  pose proof (frame_len _ _ _ Hs) as Hl. simpl in Hl. rewrite length_app, array32_length in Hl.
  pose proof (BufferWrite_pending _ _ _ _ key (ready_wf _ _ Hr) Ebw) as Hp.
  rewrite decide_True in Hp by done.
  unfold view_w, view. cbn [with_heap trace_add with_writer with_bw w_ws ws_bw ws_heap].
  rewrite Hp. f_equal.
  apply (bytes_frame_value (with_heap h' w) frame). lia.
Qed.
End end_to_end.
