(* ===== verification/Lifecycle.v ===== *)
(** The start and stop protocol of the gnet servers of [transports/]: the
    channels [started], [stopChan] and [errChan], [Start], the boot callback,
    the ticker and [Stop] as steps of a state machine. *)
From S2P Require Import Prelude GoRuntime.

(** * Channels *)

Record chan := MkChan { ch_cap : nat; ch_buf : nat; ch_closed : bool }.

(** The error channel of one call of [Start]: capacity 1, closed when the engine
    ended without error. *)
Inductive err_chan := ErrEmpty | ErrFull (e : error) | ErrClosed.

(** Where the caller of [Start] stands: not called, in its [select], returned nil
    after the handshake, returned from another case. *)
Inductive start_pc := SIdle | SWait | SUp | SRet (r : option error).

(** Where the engine goroutine stands: not created, before or in the boot
    callback, at its send on [started], serving, failed before that send, ended after
    it. *)
Inductive engine_pc := ENone | EBoot | ESend | ERun | EFailed | EDown.

#[export] Instance start_pc_eq_dec : EqDecision start_pc.
Proof. solve_decision. Defined.

Record life := MkLife {
  chans : list chan;                 (* every channel made so far *)
  stopChan : nat;
  started : nat;
  errChan : err_chan;
  spc : start_pc;
  epc : engine_pc;
}.

(** [make(chan struct{}, cap)] *)
Definition make_chan (cap : nat) : Go life nat := λ s,
  Done (MkLife (chans s ++ [MkChan cap 0 false]) (stopChan s) (started s)
          (errChan s) (spc s) (epc s)) (length (chans s)).

Definition set_chan (i : nat) (c : chan) (s : life) : life :=
  MkLife (<[i := c]> (chans s)) (stopChan s) (started s) (errChan s) (spc s) (epc s).
Definition set_spc (p : start_pc) (s : life) : life :=
  MkLife (chans s) (stopChan s) (started s) (errChan s) p (epc s).
Definition set_epc (p : engine_pc) (s : life) : life :=
  MkLife (chans s) (stopChan s) (started s) (errChan s) (spc s) p.
Definition set_err (e : err_chan) (s : life) : life :=
  MkLife (chans s) (stopChan s) (started s) e (spc s) (epc s).

Definition modify (f : life → life) : Go life () := λ s, Done (f s) ().

(** [close(c)] *)
Definition close_chan (i : nat) : Go life () := λ s,
  match chans s !! i with
  | None => Panicked PanicNil
  | Some c =>
      if ch_closed c then Panicked PanicCloseClosed
      else Done (set_chan i (MkChan (ch_cap c) (ch_buf c) true) s) ()
  end.

Definition is_closed (s : life) (i : nat) : bool :=
  match chans s !! i with Some c => ch_closed c | None => false end.

(** * The operations of a server *)

Inductive kind := KTcp | KUdp | KUds | KDummy.

#[export] Instance kind_eq_dec : EqDecision kind.
Proof. solve_decision. Defined.

(** The capacity of [started] and the name in the error messages. *)
Definition started_cap (k : kind) : nat := match k with KDummy => 1 | _ => 0 end.
Definition kind_name (k : kind) : string :=
  match k with
  | KTcp => "TCP server" | KUdp => "UDP server" | KUds => "UDS server"
  | KDummy => "dummy server"
  end.

(** [eng_Stop] is the result of [gnet.Engine.Stop] of the TCP server, given where
    the engine is, [os_Remove] that of removing the socket file of UDS. *)
Section server.
Context (k : kind) (eng_Stop : engine_pc → option error) (os_Remove : option error).

(** [NewServer]: both channels are made. *)
Definition NewServer : life :=
  MkLife [MkChan 0 0 false; MkChan 0 0 false] 0 1 ErrEmpty SIdle ENone.

(** [Start] up to its [select]: fresh channels, the engine goroutine launched. *)
Definition Start : Go life () := λ s,
  match spc s with
  | SIdle =>
      (i ← make_chan 0; j ← make_chan (started_cap k);
       modify (λ s, MkLife (chans s) i j ErrEmpty SWait EBoot) : Go life ()) s
  | _ => Blocked
  end.

(** The boot callback ([OnBoot], [OnInitComplete]) reaches its send. *)
Definition OnInitComplete : Go life () := λ s,
  match epc s with EBoot => Done (set_epc ESend s) () | _ => Blocked end.

(** The send [s.started <- struct{}{}] into a buffered channel. *)
Definition send_buffered : Go life () := λ s,
  match epc s, chans s !! started s with
  | ESend, Some c =>
      if ch_closed c then Panicked PanicSendClosed
      else if decide (ch_buf c < ch_cap c)
      then Done (set_epc ERun (set_chan (started s) (MkChan (ch_cap c) (S (ch_buf c)) false) s)) ()
      else Blocked
  | _, _ => Blocked
  end.

(** A receive from channel [i], as [Start] or as a client of [WaitStarted] does:
    from the buffer, from a sender that waits, or from a closed channel. *)
Definition receive (i : nat) : Go life () := λ s,
  match chans s !! i with
  | None => Blocked
  | Some c =>
      match ch_buf c with
      | S n => Done (set_chan i (MkChan (ch_cap c) n (ch_closed c)) s) ()
      | 0 =>
          if ch_closed c then Done s ()
          else match epc s with
               | ESend => if decide (i = started s ∧ ch_cap c = 0)
                          then Done (set_epc ERun s) () else Blocked
               | _ => Blocked
               end
      end
  end.

(** The cases of the [select] of [Start]. *)
Definition Start_started : Go life () := λ s,
  match spc s with
  | SWait => (receive (started s);; close_chan (started s);; modify (set_spc SUp)
              : Go life ()) s
  | _ => Blocked
  end.

Definition Start_err : Go life () := λ s,
  match spc s, errChan s with
  | SWait, ErrFull e =>
      Done (set_spc (SRet (Some (Wrap e ("failed to start " +:+ kind_name k)))) (set_err ErrEmpty s)) ()
  | SWait, ErrClosed => Done (set_spc (SRet None) s) ()
  | _, _ => Blocked
  end.

Definition Start_timeout : Go life () := λ s,
  match spc s with
  | SWait => Done (set_spc (SRet (Some (Errorf (kind_name k +:+ " did not start in time") []))) s) ()
  | _ => Blocked
  end.

(** [gnet.Serve] fails, before it calls the boot callback or after. *)
Definition Serve_fails (e : error) : Go life () := λ s,
  match epc s with
  | EBoot => Done (set_epc EFailed (set_err (ErrFull e) s)) ()
  | ERun => Done (set_epc EDown (set_err (ErrFull e) s)) ()
  | _ => Blocked
  end.

(** [WaitStarted()] hands out the channel of the field. *)
Definition WaitStarted (s : life) : nat := started s.

(** [Tick]: [Shutdown] when [stopChan] is closed. *)
Definition Tick : Go life bool := λ s, Done s (is_closed s (stopChan s)).

(** The serving engine calls its ticker; after [Shutdown] it returns nil. *)
Definition engine_tick : Go life () := λ s,
  match epc s with
  | ERun => (shutdown ← Tick;
             (if shutdown : bool then modify (λ s, set_epc EDown (set_err ErrClosed s))
              else mret ()) : Go life ()) s
  | _ => Blocked
  end.

(** [Stop]: TCP stops its engine, whose goroutine then returns nil; the others
    close the stop channel, and UDS removes its socket file. *)
Definition Stop : Go life (option error) := λ s,
  match k with
  | KTcp =>
      match eng_Stop (epc s) with
      | Some e => Done s (Some e)
      | None => Done (set_epc EDown (set_err ErrClosed s)) None
      end
  | KUdp | KDummy => (close_chan (stopChan s);; mret None) s
  | KUds => (close_chan (stopChan s);; mret os_Remove) s
  end.

(** * Runs *)

Inductive label :=
  | Call_Start | Boot | Send | Sel_started | Sel_err | Sel_timeout
  | Fail_serve (e : error) | Tick_engine | Call_Stop | Observe (i : nat).

Definition exec (l : label) : Go life () :=
  match l with
  | Call_Start => Start
  | Boot => OnInitComplete
  | Send => send_buffered
  | Sel_started => Start_started
  | Sel_err => Start_err
  | Sel_timeout => Start_timeout
  | Fail_serve e => Serve_fails e
  | Tick_engine => engine_tick
  | Call_Stop => Stop;; mret ()
  | Observe i => receive i
  end.

Fixpoint run (ls : list label) : Go life () :=
  match ls with
  | [] => mret ()
  | l :: ls => exec l;; run ls
  end.

Definition reachable (s : life) : Prop := ∃ ls, run ls NewServer = Done s ().

(** * The invariant *)

(** The boot callback has completed its send. *)
Definition engine_up (s : life) : Prop := epc s = ERun ∨ epc s = EDown.
Definition engine_over (s : life) : Prop := epc s = EFailed ∨ epc s = EDown.

Record inv (s : life) : Prop := {
  inv_stop : is_Some (chans s !! stopChan s);
  inv_distinct : stopChan s ≠ started s;
  inv_stale : spc s ≠ SIdle → 1 ≠ started s ∧ 1 ≠ stopChan s;
  inv_chan1 : chans s !! 1 = Some (MkChan 0 0 false);
  inv_started : ∃ c, chans s !! started s = Some c ∧
    (ch_closed c = true ↔ spc s = SUp) ∧
    (spc s = SIdle ∨ ch_cap c = started_cap k) ∧
    (0 < ch_buf c → engine_up s);
  inv_up : spc s = SUp → engine_up s;
  inv_ret : spc s = SRet None → epc s = EDown;
  inv_err : errChan s ≠ ErrEmpty → engine_over s;
  inv_closed : errChan s = ErrClosed → epc s = EDown;
  inv_idle : spc s = SIdle → epc s = ENone ∧ started s = 1;
}.
End server.

(** The four servers: their [Start], boot callback, [Tick] and [Stop]. *)
Definition tcp_lifecycle (eng_Stop : engine_pc → option error) : label → Go life () :=
  exec KTcp eng_Stop None.
Definition udp_lifecycle : label → Go life () := exec KUdp (λ _, None) None.
Definition uds_lifecycle (os_Remove : option error) : label → Go life () :=
  exec KUds (λ _, None) os_Remove.
Definition dummy_lifecycle : label → Go life () := exec KDummy (λ _, None) None.

(** * Proofs *)

Section proofs.
Context (k : kind) (eng_Stop : engine_pc → option error) (os_Remove : option error).
(** [Engine.Stop] succeeds on a serving engine only. *)
Hypothesis eng_Stop_serving : ∀ p, eng_Stop p = None → p = ERun.

(** A change of the channels that keeps the invariant. *)
Lemma inv_set_chan i c c' s :
  inv k s → chans s !! i = Some c → i ≠ 1 →
  (i = started s → ch_closed c' = ch_closed c ∧ ch_cap c' = ch_cap c ∧ ch_buf c' ≤ ch_buf c) →
  inv k (set_chan i c' s).
Proof.
  intros [Hstop Hd Hst H1 (c0 & Hc0 & Hcl & Hcap & Hbuf) Hup Hret Herr Hclo Hidle] Hi Hne Hs.
  pose proof (lookup_lt_Some _ _ _ Hi) as Hlt.
  split; simpl; try done.
  - destruct (decide (i = stopChan s)) as [<-|];
      [rewrite list_lookup_insert_eq by done; eauto | by rewrite list_lookup_insert_ne].
  - by rewrite list_lookup_insert_ne.
  - destruct (decide (i = started s)) as [->|].
    + destruct Hs as (Hc' & Hcap' & Hb'); [done|].
      assert (c0 = c) as -> by congruence.
      exists c'. rewrite list_lookup_insert_eq by done.
      split_and!; [done| by rewrite Hc' | by rewrite Hcap' | intros; apply Hbuf; lia].
    + exists c0. rewrite list_lookup_insert_ne by done. done.
Qed.

Lemma inv_set_epc p s :
  inv k s → p ≠ ENone → spc s ≠ SIdle → (engine_up s → p = ERun ∨ p = EDown) →
  (engine_over s → p = epc s) → inv k (set_epc p s).
Proof.
  intros [Hstop Hd Hst H1 (c0 & Hc0 & Hcl & Hcap & Hbuf) Hup Hret Herr Hclo Hidle] Hp Hi Hrun Hdown.
  assert (epc s = EDown → p = EDown) as Hd' by (intros E; rewrite <- E; apply Hdown; by right).
  split; simpl; try done; eauto.
  - exists c0. split_and!; [done..|]. intros Hb. apply Hrun, Hbuf, Hb.
  - intros Hs. apply Hrun, Hup, Hs.
  - intros He. specialize (Herr He). unfold engine_over. simpl. by rewrite Hdown.
Qed.

Lemma receive_inv i s s' :
  inv k s → receive i s = Done s' () → i ≠ 1 →
  inv k s' ∧ started s' = started s ∧ spc s' = spc s ∧
  (i = started s → engine_up s') ∧ stopChan s' = stopChan s ∧
  ∀ j, is_closed s' j = is_closed s j.
Proof.
  intros Hinv E Hi. unfold receive in E. destruct (chans s !! i) as [c|] eqn:Hc; [|done].
  destruct (inv_started _ _ Hinv) as (c0 & Hc0 & Hcl & _ & Hbuf).
  destruct (ch_buf c) as [|n] eqn:Hb.
  - destruct (ch_closed c) eqn:Ecl.
    { injection E as <-. split_and!; try done. intros ->. apply (inv_up _ _ Hinv), Hcl.
      congruence. }
    destruct (epc s) eqn:Ep; try done. case_decide; [|done]. injection E as <-.
    split_and!; try done; [|by left]. apply inv_set_epc; [done..| | |].
    + intros Hs. apply (inv_idle _ _ Hinv) in Hs as [? _]. congruence.
    + by left.
    + intros []; congruence.
  - injection E as <-. split_and!; try done.
    + eapply inv_set_chan; [done..|]. intros ->. simpl. split_and!; [done..|lia].
    + intros ->. assert (c0 = c) as -> by congruence. apply Hbuf. lia.
    + intros j. unfold is_closed. simpl. destruct (decide (i = j)) as [<-|].
      * rewrite list_lookup_insert_eq by (by eapply lookup_lt_Some). by rewrite Hc.
      * by rewrite list_lookup_insert_ne.
Qed.

(** The channel made by [NewServer] never delivers. *)
Lemma receive_stale s : inv k s → receive 1 s = Blocked.
Proof.
  intros Hinv. unfold receive. rewrite (inv_chan1 _ _ Hinv). simpl.
  destruct (epc s) eqn:Ep; try done. rewrite decide_False; [done|]. intros [Hs _].
  destruct (spc s) eqn:Es.
  1: { apply (inv_idle _ _ Hinv) in Es as [? _]. congruence. }
  all: destruct (inv_stale _ _ Hinv) as [? _]; [by rewrite Es | done].
Qed.

Lemma close_chan_ok i s c :
  chans s !! i = Some c → ch_closed c = false →
  close_chan i s = Done (set_chan i (MkChan (ch_cap c) (ch_buf c) true) s) ().
Proof. intros Hc Hcl. unfold close_chan. by rewrite Hc, Hcl. Qed.

Lemma inv_NewServer : inv k NewServer.
Proof.
  split; simpl; try done; eauto. exists (MkChan 0 0 false). simpl.
  split_and!; [done|done|by left|lia].
Qed.

Lemma inv_Start s s' : inv k s → Start k s = Done s' () → inv k s'.
Proof.
  intros Hinv. unfold Start. destruct (spc s) eqn:Es; try done.
  unfold mbind, go_bind, make_chan, modify. cbn. intros [= <-].
  rewrite !length_app. simpl.
  pose proof (inv_chan1 _ _ Hinv) as H1. pose proof (lookup_lt_Some _ _ _ H1) as Hl.
  split; simpl; try done.
  - rewrite lookup_app_l, lookup_app_last by (rewrite length_app; simpl; lia). eauto.
  - lia.
  - lia.
  - by rewrite <- app_assoc, lookup_app_l by lia.
  - exists (MkChan (started_cap k) 0 false). split_and!; simpl; [|done|by right|lia].
    replace (length (chans s) + 1) with (length (chans s ++ [MkChan 0 0 false]))
      by (rewrite length_app; done).
    by rewrite lookup_app_last.
Qed.

Lemma inv_up_step s :
  inv k s → spc s = SWait → engine_up s →
  ∀ c, chans s !! started s = Some c →
  inv k (set_spc SUp (set_chan (started s) (MkChan (ch_cap c) (ch_buf c) true) s)).
Proof.
  intros [Hstop Hd Hst H1 (c0 & Hc0 & Hcl & Hcap & Hbuf) Hup Hret Herr Hclo Hidle] Hs He c Hc.
  assert (c0 = c) as -> by congruence.
  destruct Hst as [? ?]; [by rewrite Hs|].
  pose proof (lookup_lt_Some _ _ _ Hc) as Hlt.
  split; simpl; try done.
  - by rewrite list_lookup_insert_ne.
  - by rewrite list_lookup_insert_ne.
  - exists (MkChan (ch_cap c) (ch_buf c) true). rewrite list_lookup_insert_eq by done.
    split_and!; simpl; [done|done| |done]. destruct Hcap; [congruence|by right].
Qed.

Lemma started_open s c :
  inv k s → chans s !! started s = Some c → spc s ≠ SUp → ch_closed c = false.
Proof.
  intros Hinv Hc Hs. destruct (inv_started _ _ Hinv) as (c0 & Hc0 & Hcl & _).
  assert (c0 = c) as -> by congruence.
  destruct (ch_closed c); [|done]. by destruct Hs; apply Hcl.
Qed.

(** The handshake of [Start] succeeds completely whenever its receive does. *)
Lemma Start_started_eq s s1 :
  inv k s → spc s = SWait → receive (started s) s = Done s1 () →
  ∃ c, chans s1 !! started s = Some c ∧
    Start_started s = Done (set_spc SUp (set_chan (started s1)
      (MkChan (ch_cap c) (ch_buf c) true) s1)) () ∧
    inv k s1 ∧ started s1 = started s ∧ spc s1 = SWait ∧ engine_up s1 ∧
    is_closed s1 (stopChan s1) = is_closed s (stopChan s).
Proof.
  intros Hinv Hs E. destruct (inv_stale _ _ Hinv) as [? _]; [by rewrite Hs|].
  destruct (receive_inv _ _ _ Hinv E) as (Hinv1 & Hst & Hs1 & Hup & Hstop & Hcl1); [done|].
  destruct (inv_started _ _ Hinv1) as (c & Hc & _). rewrite Hst in Hc.
  exists c. split_and!; [done| |done|done|congruence|by apply Hup|by rewrite Hstop, Hcl1].
  unfold Start_started. rewrite Hs. erewrite go_bind_done by exact E.
  erewrite go_bind_done.
  2: { apply close_chan_ok; [done|]. apply (started_open s1); [done|by rewrite Hst|congruence]. }
  unfold modify. by rewrite Hst.
Qed.

Lemma not_idle s : inv k s → epc s ≠ ENone → spc s ≠ SIdle.
Proof. intros Hinv He [? _]%(inv_idle _ _ Hinv). congruence. Qed.

Lemma inv_OnInitComplete s s' : inv k s → OnInitComplete s = Done s' () → inv k s'.
Proof.
  intros Hinv. unfold OnInitComplete. destruct (epc s) eqn:Ep; try done. intros [= <-].
  apply inv_set_epc; [done..| | |intros []; congruence].
  - apply not_idle; [done|congruence].
  - unfold engine_up. rewrite Ep. by intros [].
Qed.

Lemma inv_send s s' : inv k s → send_buffered s = Done s' () → inv k s'.
Proof.
  intros Hinv. unfold send_buffered. destruct (epc s) eqn:Ep; try done.
  pose proof (not_idle s Hinv ltac:(congruence)) as Hns.
  destruct (chans s !! started s) as [c|] eqn:Hc; [|done].
  destruct (ch_closed c) eqn:Ecl; [done|]. case_decide; [|done]. intros [= <-].
  destruct Hinv as [Hstop Hd Hst H1 (c0 & Hc0 & Hcl & Hcap & Hbuf) Hup Hret Herr Hclo Hidle].
  assert (c0 = c) as -> by congruence. pose proof (lookup_lt_Some _ _ _ Hc).
  destruct (Hst Hns) as [? ?]. split; simpl; try done.
  - by rewrite list_lookup_insert_ne.
  - by rewrite list_lookup_insert_ne.
  - exists (MkChan (ch_cap c) (S (ch_buf c)) false). rewrite list_lookup_insert_eq by done.
    split_and!; simpl; [done| |by destruct Hcap; [|right]|by left].
    rewrite <- Hcl, Ecl. done.
  - by left.
  - intros Hs. apply Hret in Hs. congruence.
  - intros He. apply Herr in He as []; congruence.
  - intros He. apply Hclo in He. congruence.
Qed.

Lemma inv_handshake s s' : inv k s → Start_started s = Done s' () → inv k s'.
Proof.
  intros Hinv E. destruct (spc s) eqn:Hs; try (by unfold Start_started in E; rewrite Hs in E).
  destruct (receive (started s) s) as [s1 []|p|] eqn:Er.
  2: { unfold Start_started in E. rewrite Hs in E.
       by rewrite (go_bind_panic _ _ _ _ Er) in E. }
  2: { unfold Start_started in E. rewrite Hs in E.
       by rewrite (go_bind_block _ _ _ Er) in E. }
  destruct (Start_started_eq s s1 Hinv Hs Er) as (c & Hc & E1 & Hinv1 & Hst & Hs1 & Hup & _).
  rewrite E1 in E. injection E as <-. rewrite <- Hst in Hc. by apply inv_up_step.
Qed.

(** [Start] returns from its [select] without a handshake. *)
Lemma inv_set_ret s r e :
  inv k s → spc s = SWait → (r = None → epc s = EDown) →
  e = ErrEmpty ∨ e = errChan s → inv k (set_spc (SRet r) (set_err e s)).
Proof.
  intros [Hstop Hd Hst H1 (c & Hc & Hcl & Hcap & Hbuf) Hup Hret Herr Hclo Hidle] Hs Hr He.
  destruct Hst as [? ?]; [by rewrite Hs|]. split; simpl; try done.
  - exists c. rewrite Hs in Hcl, Hcap. split_and!; [done| |by destruct Hcap; [|right]|done].
    rewrite Hcl. by split.
  - intros [= ->]. by apply Hr.
  - intros Hne. destruct He as [->| ->]; [done|by apply Herr].
  - intros Hcl'. destruct He as [->| ->]; [done|by apply Hclo].
Qed.

Lemma set_err_id s : set_err (errChan s) s = s.
Proof. by destruct s. Qed.

Lemma inv_Start_err s s' : inv k s → Start_err k s = Done s' () → inv k s'.
Proof.
  intros Hinv. unfold Start_err. destruct (spc s) eqn:Hs; try done.
  pose proof (inv_closed _ _ Hinv) as Hclo.
  destruct (errChan s) eqn:He; try done; intros [= <-]; [by apply inv_set_ret; auto|].
  rewrite <- (set_err_id s). apply inv_set_ret; auto.
Qed.

Lemma inv_Start_timeout s s' : inv k s → Start_timeout k s = Done s' () → inv k s'.
Proof.
  intros Hinv. unfold Start_timeout. destruct (spc s) eqn:Hs; try done. intros [= <-].
  rewrite <- (set_err_id s). apply inv_set_ret; auto; done.
Qed.

(** The engine ends: without error only once it was up. *)
Lemma inv_ends s p e :
  inv k s → epc s ≠ ENone → p = EFailed ∨ p = EDown → (engine_up s → p = EDown) →
  (e = ErrClosed → p = EDown) → inv k (set_epc p (set_err e s)).
Proof.
  intros [Hstop Hd Hst H1 (c0 & Hc0 & Hcl & Hcap & Hbuf) Hup Hret Herr Hclo Hidle] He Hp Hpu Hpe.
  split; simpl; try done; eauto.
  - exists c0. split_and!; [done..|]. intros Hb. right. by apply Hpu, Hbuf.
  - intros Hs. right. by apply Hpu, Hup.
  - intros Hs. apply Hpu. right. by apply Hret.
  - intros Hs. by destruct (Hidle Hs).
Qed.

Lemma inv_down s e : inv k s → epc s ≠ ENone → inv k (set_epc EDown (set_err e s)).
Proof. intros. apply inv_ends; auto. Qed.

Lemma inv_Serve_fails e s s' : inv k s → Serve_fails e s = Done s' () → inv k s'.
Proof.
  intros Hinv. unfold Serve_fails.
  destruct (epc s) eqn:Ep; try done; intros [= <-]; [|by apply inv_down; congruence].
  apply inv_ends; [done|congruence|by left| |done]. intros []; congruence.
Qed.

Lemma inv_engine_tick s s' : inv k s → engine_tick s = Done s' () → inv k s'.
Proof.
  intros Hinv. unfold engine_tick. destruct (epc s) eqn:Ep; try done.
  unfold mbind, go_bind, Tick. destruct (is_closed _ _); intros [= <-]; [|done].
  apply inv_down; [done|congruence].
Qed.

Lemma stopChan_not_stale s : inv k s → stopChan s ≠ 1.
Proof.
  intros Hinv. pose proof (inv_distinct _ _ Hinv).
  destruct (decide (spc s = SIdle)) as [Hs|Hs].
  - apply (inv_idle _ _ Hinv) in Hs as [_ ?]. congruence.
  - apply (inv_stale _ _ Hinv) in Hs as [_ ?]. congruence.
Qed.

Lemma inv_close_stop s s' :
  inv k s → close_chan (stopChan s) s = Done s' () → inv k s'.
Proof.
  intros Hinv. unfold close_chan.
  destruct (chans s !! stopChan s) as [c|] eqn:Hc; [|done].
  destruct (ch_closed c) eqn:Ecl; [done|]. intros [= <-].
  eapply inv_set_chan; [done..|by apply stopChan_not_stale|].
  intros ?. by destruct (inv_distinct _ _ Hinv).
Qed.

(** The two ways [Stop] works, by server. *)
Lemma Stop_cases s (r : outcome life (option error)) :
  Stop k eng_Stop os_Remove s = r →
  (k = KTcp ∧ (∃ e, r = Done s (Some e)) ∨
   k = KTcp ∧ epc s = ERun ∧ r = Done (set_epc EDown (set_err ErrClosed s)) None) ∨
  (k ≠ KTcp ∧ ∃ e, r = (close_chan (stopChan s);; mret e) s).
Proof.
  intros <-. unfold Stop. destruct k eqn:Hk; [left|right; split; [done|eauto]..].
  destruct (eng_Stop (epc s)) eqn:E; [left; eauto|right].
  split_and!; [done|by apply eng_Stop_serving|done].
Qed.

Lemma inv_Stop s s' :
  inv k s → (Stop k eng_Stop os_Remove;; mret ()) s = Done s' () → inv k s'.
Proof.
  intros Hinv E. unfold mbind, go_bind in E.
  destruct (Stop k eng_Stop os_Remove s) as [s1 r| |] eqn:Es; try done. injection E as <-.
  apply Stop_cases in Es as [[[_ [e E]]|(_ & He & E)]|[_ [e E]]].
  - by injection E as -> _.
  - injection E as -> _. apply inv_down; [done|congruence].
  - unfold mbind, go_bind in E. destruct (close_chan _ s) as [s2 []| |] eqn:Ec; try done.
    injection E as -> _. by eapply inv_close_stop.
Qed.

Lemma exec_inv l s s' : inv k s → exec k eng_Stop os_Remove l s = Done s' () → inv k s'.
Proof.
  intros Hinv. destruct l; simpl.
  - by apply inv_Start.
  - by apply inv_OnInitComplete.
  - by apply inv_send.
  - by apply inv_handshake.
  - by apply inv_Start_err.
  - by apply inv_Start_timeout.
  - by apply inv_Serve_fails.
  - by apply inv_engine_tick.
  - by apply inv_Stop.
  - destruct (decide (i = 1)) as [->|]; [by rewrite receive_stale|].
    intros E. by destruct (receive_inv _ _ _ Hinv E).
Qed.

Lemma reachable_inv s : reachable k eng_Stop os_Remove s → inv k s.
Proof.
  intros [ls Hr]. pose proof inv_NewServer as Hinv. revert Hinv Hr.
  generalize NewServer. induction ls as [|l ls IH]; intros s0 Hinv; simpl.
  - by intros [= <-].
  - destruct (exec k eng_Stop os_Remove l s0) as [s1 []|p|] eqn:E.
    + erewrite go_bind_done by exact E. apply IH. by eapply exec_inv.
    + by rewrite (go_bind_panic _ _ _ _ E).
    + by rewrite (go_bind_block _ _ _ E).
Qed.

(** C22: [Start] of a gnet server returns nil only for a server that came up: in every
    reachable state in which it has, the engine's boot callback has completed its
    send, so the engine is serving or has ended since; an engine that fails before it is
    in another state, from which it never serves. *)
Theorem start_nil_means_up (s : life) :
  reachable k eng_Stop os_Remove s → spc s = SUp ∨ spc s = SRet None → engine_up s.
Proof.
  intros Hinv%reachable_inv [Hs|Hs]; [by apply (inv_up _ _ Hinv)|].
  right. by apply (inv_ret _ _ Hinv).
Qed.

(** The one panic of the protocol, from the invariant. *)
Lemma exec_panics (s : life) (l : label) (p : panic) :
  inv k s → exec k eng_Stop os_Remove l s = Panicked p →
  l = Call_Stop ∧ k ≠ KTcp ∧ is_closed s (stopChan s) = true ∧ p = PanicCloseClosed.
Proof.
  intros Hinv. destruct l; simpl.
  - unfold Start. destruct (spc s); try done.
  - unfold OnInitComplete. by destruct (epc s).
  - unfold send_buffered. destruct (epc s) eqn:Ep; try done.
    destruct (chans s !! started s) as [c|] eqn:Hc; [|done].
    rewrite (started_open s c Hinv Hc); [by case_decide|].
    intros Hs. apply (inv_up _ _ Hinv) in Hs as []; congruence.
  - destruct (spc s) eqn:Hs; try (by unfold Start_started; rewrite Hs).
    destruct (receive (started s) s) as [s1 []|p'|] eqn:Er.
    + by destruct (Start_started_eq s s1 Hinv Hs Er) as (c & _ & -> & _).
    + unfold receive in Er. by repeat case_match.
    + unfold Start_started. rewrite Hs. by rewrite (go_bind_block _ _ _ Er).
  - unfold Start_err. by destruct (spc s), (errChan s).
  - unfold Start_timeout. by destruct (spc s).
  - unfold Serve_fails. by destruct (epc s).
  - unfold engine_tick. destruct (epc s); try done.
    unfold mbind, go_bind, Tick. by destruct (is_closed _ _).
  - intros E. destruct (Stop_cases s _ eq_refl) as [[[_ [e Es]]|(_ & _ & Es)]|[? [e Es]]];
      unfold mbind, go_bind in E; rewrite Es in E; try done.
    unfold mbind, go_bind, close_chan in E. unfold is_closed.
    destruct (inv_stop _ _ Hinv) as [c Hc]. rewrite Hc in *.
    destruct (ch_closed c); [|done]. by injection E as <-.
  - unfold receive. repeat case_match; done.
Qed.

(** The start and stop protocol panics in one way only: a second [Stop] of a UDP,
    UDS or dummy server, which closes the stop channel again. In particular
    [Start] never closes [started] twice and the boot callback never sends on it
    after it was closed. *)
Theorem lifecycle_panics_only_on_double_stop (s : life) (l : label) (p : panic) :
  reachable k eng_Stop os_Remove s → exec k eng_Stop os_Remove l s = Panicked p →
  l = Call_Stop ∧ k ≠ KTcp ∧ is_closed s (stopChan s) = true ∧ p = PanicCloseClosed.
Proof. intros Hinv%reachable_inv. by apply exec_panics. Qed.

(** The channel [WaitStarted] hands out matters: one taken before [Start] is
    called is replaced by [Start] and never delivers, one taken from a server
    whose [Start] completed the handshake never blocks. *)
Theorem WaitStarted_channels (s : life) :
  reachable k eng_Stop os_Remove s →
  receive (WaitStarted NewServer) s = Blocked ∧
  (spc s = SUp → ∃ s', receive (WaitStarted s) s = Done s' ()).
Proof.
  intros Hinv%reachable_inv. split; [by apply receive_stale|].
  intros Hs. destruct (inv_started _ _ Hinv) as (c & Hc & Hcl & _).
  apply Hcl in Hs. unfold WaitStarted, receive. rewrite Hc, Hs. destruct (ch_buf c); eauto.
Qed.

(** [Stop] of a serving UDP, UDS or dummy server ends it at the next tick, the
    server goroutine then reporting no error, and without [Stop] ticks leave it
    serving. *)
Theorem stop_ends_at_next_tick (s : life) :
  k ≠ KTcp → reachable k eng_Stop os_Remove s → epc s = ERun →
  if is_closed s (stopChan s)
  then ∃ s', engine_tick s = Done s' () ∧ epc s' = EDown ∧ errChan s' = ErrClosed
  else engine_tick s = Done s () ∧
       ∃ s' r s'', Stop k eng_Stop os_Remove s = Done s' r ∧ engine_tick s' = Done s'' () ∧
                   epc s'' = EDown ∧ errChan s'' = ErrClosed.
Proof.
  intros Hk Hinv%reachable_inv He. unfold engine_tick, mbind, go_bind, Tick.
  destruct (is_closed s (stopChan s)) eqn:Hcl; rewrite He; [by eexists|].
  split; [done|]. destruct (inv_stop _ _ Hinv) as [c Hc].
  unfold is_closed in Hcl. rewrite Hc in Hcl.
  destruct (Stop_cases s _ eq_refl) as [[[? _]|(? & _ & _)]|[_ [e Es]]]; [done..|].
  rewrite Es. unfold mbind, go_bind. rewrite (close_chan_ok _ _ c) by done.
  eexists _, _, _. split; [done|]. simpl. rewrite He.
  unfold is_closed. simpl. rewrite list_lookup_insert_eq by (by eapply lookup_lt_Some).
  done.
Qed.

(** Only [Stop] closes the stop channel, and that of TCP does not. *)
Lemma exec_stop_open l s s' :
  k = KTcp ∨ l ≠ Call_Stop → inv k s → exec k eng_Stop os_Remove l s = Done s' () →
  is_closed s (stopChan s) = false → is_closed s' (stopChan s') = false.
Proof.
  intros Hk Hinv E Hs. destruct l; simpl in E.
  - unfold Start in E. destruct (spc s); try done.
    unfold mbind, go_bind, make_chan, modify in E. cbn in E. injection E as <-.
    unfold is_closed. simpl.
    rewrite lookup_app_l by (rewrite length_app; simpl; lia). by rewrite lookup_app_last.
  - unfold OnInitComplete in E. by destruct (epc s); try done; injection E as <-.
  - unfold send_buffered in E. destruct (epc s); try done.
    destruct (chans s !! started s) as [c|]; [|done].
    destruct (ch_closed c); [done|]. case_decide; [|done]. injection E as <-.
    unfold is_closed. simpl. rewrite list_lookup_insert_ne by
      (intros ?; by destruct (inv_distinct _ _ Hinv)). done.
  - destruct (spc s) eqn:Hsp; try (by unfold Start_started in E; rewrite Hsp in E).
    destruct (receive (started s) s) as [s1 []|p'|] eqn:Er.
    2,3: unfold Start_started in E; rewrite Hsp in E;
         unfold mbind, go_bind in E; rewrite Er in E; done.
    destruct (Start_started_eq s s1 Hinv Hsp Er) as (c & Hc & E1 & Hinv1 & _ & _ & _ & Hcl).
    rewrite E1 in E. injection E as <-. rewrite <- Hcl in Hs. unfold is_closed in *.
    simpl. rewrite list_lookup_insert_ne; [done|].
    intros ?. by destruct (inv_distinct _ _ Hinv1).
  - unfold Start_err in E. destruct (spc s), (errChan s); try done; by injection E as <-.
  - unfold Start_timeout in E. destruct (spc s); try done; by injection E as <-.
  - unfold Serve_fails in E. destruct (epc s); try done; by injection E as <-.
  - unfold engine_tick in E. destruct (epc s); try done.
    unfold mbind, go_bind, Tick in E. rewrite Hs in E. by injection E as <-.
  - destruct Hk as [Hk|?]; [|done].
    destruct (Stop_cases s _ eq_refl) as [[[_ [e Es]]|(_ & _ & Es)]|[? _]]; [| |done];
      unfold mbind, go_bind in E; rewrite Es in E; by injection E as <-.
  - destruct (decide (i = 1)) as [->|]; [by rewrite receive_stale in E|].
    destruct (receive_inv _ _ _ Hinv E) as (_ & _ & _ & _ & -> & ->); done.
Qed.

(** The TCP server never closes its stop channel, so its ticker never asks for a
    shutdown, in any reachable state: only [Engine.Stop] ends it. *)
Theorem tcp_tick_never_shuts_down (s : life) :
  k = KTcp → reachable k eng_Stop os_Remove s → Tick s = Done s false.
Proof.
  intros Hk [ls Hr]. unfold Tick. f_equal.
  pose proof (inv_NewServer) as Hinv. assert (is_closed NewServer (stopChan NewServer) = false)
    as Hs by done.
  revert Hinv Hs Hr. generalize NewServer. induction ls as [|l ls IH]; intros s0 Hinv Hs; simpl.
  { by intros [= <-]. }
  destruct (exec k eng_Stop os_Remove l s0) as [s1 []|p|] eqn:E.
  - erewrite go_bind_done by exact E. apply IH; [by eapply exec_inv|].
    eapply exec_stop_open; [by left|done..].
  - by rewrite (go_bind_panic _ _ _ _ E).
  - by rewrite (go_bind_block _ _ _ E).
Qed.
End proofs.

(** A client of [WaitStarted] can take the one token of the boot callback from
    [Start], which then reports that the server did not start in time although it
    is serving; for the dummy server the token waits in the buffer, and the same
    happens. *)
Theorem waiter_can_steal_the_token (k : kind) eng_Stop os_Remove :
  ∃ s, reachable k eng_Stop os_Remove s ∧ epc s = ERun ∧
    spc s = SRet (Some (Errorf (kind_name k +:+ " did not start in time") [])) ∧
    Start_started s = Blocked.
Proof.
  destruct (decide (k = KDummy)) as [->|Hk].
  - eexists. split; [by exists [Call_Start; Boot; Send; Observe 3; Sel_timeout]|]. done.
  - eexists. split; [exists [Call_Start; Boot; Observe 3; Sel_timeout]|].
    all: by destruct k.
Qed.
