(* ===== verification/Restart.v ===== *)
(** A gnet server of [transports/] that is started more than once: every call of [Start]
    with its engine, in steps that read and write the fields of the server one at a
    time. *)
From S2P Require Import Prelude GoRuntime Lifecycle.

(** * State *)

(** Where a call of [Start] stands: [stopChan] replaced; [started] replaced and the engine
    goroutine launched; in the [select], with the channel it read from the field; a
    token received, before [close(s.started)]; returned nil after that; returned from
    another case. *)
Inductive call_pc :=
  | CMade | CWait | CSelect (i : nat) | CToken | CUp | CRet (r : option error).

(** Where its engine stands: at its send the boot callback has read a channel from the
    field; failed before that send; serving after it, and ended. *)
Inductive engine_at := NotLaunched | Booting | Sending (i : nat) | Failed | Serving | Ended.

#[export] Instance engine_at_eq_dec : EqDecision engine_at.
Proof. solve_decision. Defined.

Record call := MkCall { c_err : err_chan; c_pc : call_pc; c_engine : engine_at }.

(** The fields of the server, the channels made so far, the calls of [Start] in order. *)
Record rserver := MkServer {
  r_chans : list chan;
  r_stop : nat;
  r_started : nat;
  r_eng : option nat;                (* whose engine the boot callback stored *)
  r_calls : list call;
}.

Definition new_rserver : rserver :=
  MkServer [MkChan 0 0 false; MkChan 0 0 false] 0 1 None [].

Definition put_chan (i : nat) (c : chan) (s : rserver) : rserver :=
  MkServer (<[i := c]> (r_chans s)) (r_stop s) (r_started s) (r_eng s) (r_calls s).
Definition put_call (c : nat) (x : call) (s : rserver) : rserver :=
  MkServer (r_chans s) (r_stop s) (r_started s) (r_eng s) (<[c := x]> (r_calls s)).

Definition set_pc (p : call_pc) (x : call) : call := MkCall (c_err x) p (c_engine x).
Definition set_engine (p : engine_at) (x : call) : call := MkCall (c_err x) (c_pc x) p.
(** The engine goroutine is over and has used its error channel. *)
Definition ended (p : engine_at) : engine_at := match p with Booting => Failed | _ => Ended end.
Definition end_engine (e : err_chan) (x : call) : call := MkCall e (c_pc x) (ended (c_engine x)).

Definition chan_closed (s : rserver) (i : nat) : bool :=
  match r_chans s !! i with Some c => ch_closed c | None => false end.

(** The engine as [gnet.Engine.Stop] sees it. *)
Definition engine_pc_of (p : engine_at) : engine_pc :=
  match p with
  | NotLaunched => ENone | Booting => EBoot | Sending _ => ESend
  | Failed => EFailed | Serving => ERun | Ended => EDown
  end.

(** * Steps *)

(** [close(c)] *)
Definition chan_close (i : nat) : Go rserver () := λ s,
  match r_chans s !! i with
  | None => Panicked PanicNil
  | Some c =>
      if ch_closed c then Panicked PanicCloseClosed
      else Done (put_chan i (MkChan (ch_cap c) (ch_buf c) true) s) ()
  end.

(** A receive from channel [i]: from the buffer or a closed channel, or from the engine
    [e] that waits at its send. *)
Definition chan_receive (i : nat) (e : option nat) : Go rserver () := λ s,
  match r_chans s !! i with
  | None => Blocked
  | Some c =>
      match e with
      | None =>
          match ch_buf c with
          | S n => Done (put_chan i (MkChan (ch_cap c) n (ch_closed c)) s) ()
          | 0 => if ch_closed c then Done s () else Blocked
          end
      | Some e =>
          match r_calls s !! e with
          | Some (MkCall _ _ (Sending j) as x) =>
              if decide (j = i ∧ ch_cap c = 0 ∧ ch_closed c = false)
              then Done (put_call e (set_engine Serving x) s) () else Blocked
          | _ => Blocked
          end
      end
  end.

(** A step of call [c], by where it stands. *)
Definition at_call (c : nat) (f : call → Go rserver ()) : Go rserver () := λ s,
  match r_calls s !! c with Some x => f x s | None => Blocked end.
Definition move (c : nat) (f : call → call) : Go rserver () := λ s,
  Done (match r_calls s !! c with Some x => put_call c (f x) s | None => s end) ().

Section steps.
Context (k : kind) (eng_Stop : engine_pc → option error) (os_Remove : option error).

(** [Start] makes [stopChan], *)
Definition Start_stopChan : Go rserver () := λ s,
  Done (MkServer (r_chans s ++ [MkChan 0 0 false]) (length (r_chans s)) (r_started s)
          (r_eng s) (r_calls s ++ [MkCall ErrEmpty CMade NotLaunched])) ().

(** then [started], and launches the engine, *)
Definition Start_launch (c : nat) : Go rserver () := at_call c (λ x s,
  match c_pc x, c_engine x with
  | CMade, NotLaunched =>
      Done (MkServer (r_chans s ++ [MkChan (started_cap k) 0 false]) (r_stop s)
              (length (r_chans s)) (r_eng s)
              (<[c := MkCall (c_err x) CWait Booting]> (r_calls s))) ()
  | _, _ => Blocked
  end).

(** and enters its [select]. *)
Definition Start_select (c : nat) : Go rserver () := at_call c (λ x s,
  match c_pc x with
  | CWait => Done (put_call c (set_pc (CSelect (r_started s)) x) s) ()
  | _ => Blocked
  end).

(** The first case of the [select], and the statement behind it. *)
Definition Select_started (c : nat) (e : option nat) : Go rserver () := at_call c (λ x,
  match c_pc x with
  | CSelect i => chan_receive i e;; move c (set_pc CToken)
  | _ => go_block
  end).

Definition Close_started (c : nat) : Go rserver () := at_call c (λ x s,
  match c_pc x with
  | CToken => (chan_close (r_started s);; move c (set_pc CUp)) s
  | _ => Blocked
  end).

(** The other cases. *)
Definition Select_err (c : nat) : Go rserver () := at_call c (λ x s,
  match c_pc x, c_err x with
  | CSelect _, ErrFull e =>
      Done (put_call c (MkCall ErrEmpty (CRet (Some (Wrap e ("failed to start " +:+ kind_name k))))
              (c_engine x)) s) ()
  | CSelect _, ErrClosed => Done (put_call c (set_pc (CRet None) x) s) ()
  | _, _ => Blocked
  end).

Definition Select_timeout (c : nat) : Go rserver () := at_call c (λ x s,
  match c_pc x with
  | CSelect _ =>
      Done (put_call c (set_pc (CRet (Some
        (Errorf (kind_name k +:+ " did not start in time") []))) x) s) ()
  | _ => Blocked
  end).

(** The boot callback up to its send: TCP stores the engine, all read [s.started]. *)
Definition Boot_callback (c : nat) : Go rserver () := at_call c (λ x s,
  match c_engine x with
  | Booting =>
      let eng := match k with KTcp => Some c | _ => r_eng s end in
      Done (put_call c (set_engine (Sending (r_started s)) x)
              (MkServer (r_chans s) (r_stop s) (r_started s) eng (r_calls s))) ()
  | _ => Blocked
  end).

(** The send, as far as it needs no receiver: into the buffer, or a panic on a channel
    that is closed, also while it waits. *)
Definition Boot_send (c : nat) : Go rserver () := at_call c (λ x s,
  match c_engine x with
  | Sending i =>
      match r_chans s !! i with
      | None => Blocked
      | Some ch =>
          if ch_closed ch then Panicked PanicSendClosed
          else if decide (ch_buf ch < ch_cap ch)
          then Done (put_call c (set_engine Serving x)
                       (put_chan i (MkChan (ch_cap ch) (S (ch_buf ch)) false) s)) ()
          else Blocked
      end
  | _ => Blocked
  end).

(** [gnet.Serve] fails, before the boot callback or after. *)
Definition Engine_fails (c : nat) (err : error) : Go rserver () := at_call c (λ x s,
  match c_engine x with
  | Booting | Serving => Done (put_call c (end_engine (ErrFull err) x) s) ()
  | _ => Blocked
  end).

(** The ticker of an engine reads the field [stopChan], whichever call it belongs to. *)
Definition Engine_tick (c : nat) : Go rserver () := at_call c (λ x s,
  match c_engine x with
  | Serving =>
      if chan_closed s (r_stop s) then Done (put_call c (end_engine ErrClosed x) s) ()
      else Done s ()
  | _ => Blocked
  end).

(** The engine that [s.eng] holds. *)
Definition stored_engine (s : rserver) : engine_at :=
  match r_eng s ≫= λ c, r_calls s !! c with Some x => c_engine x | None => NotLaunched end.

(** [Stop] *)
Definition Stop_server : Go rserver (option error) := λ s,
  match k with
  | KTcp =>
      match eng_Stop (engine_pc_of (stored_engine s)) with
      | Some e => Done s (Some e)
      | None => match r_eng s with
                | Some c => (move c (end_engine ErrClosed);; mret None) s
                | None => Done s None
                end
      end
  | KUdp | KDummy => (chan_close (r_stop s);; mret None) s
  | KUds => (chan_close (r_stop s);; mret os_Remove) s
  end.

Inductive rlabel :=
  | RStart | RLaunch (c : nat) | RSelect (c : nat) | RToken (c : nat) (e : option nat)
  | RClose (c : nat) | RErr (c : nat) | RTimeout (c : nat)
  | RBoot (c : nat) | RSend (c : nat) | RFail (c : nat) (err : error) | RTick (c : nat)
  | RStop | RObserve (i : nat) (e : option nat).

#[export] Instance rlabel_eq_dec : EqDecision rlabel.
Proof. solve_decision. Defined.

Definition rexec (l : rlabel) : Go rserver () :=
  match l with
  | RStart => Start_stopChan
  | RLaunch c => Start_launch c
  | RSelect c => Start_select c
  | RToken c e => Select_started c e
  | RClose c => Close_started c
  | RErr c => Select_err c
  | RTimeout c => Select_timeout c
  | RBoot c => Boot_callback c
  | RSend c => Boot_send c
  | RFail c err => Engine_fails c err
  | RTick c => Engine_tick c
  | RStop => Stop_server;; mret ()
  | RObserve i e => chan_receive i e
  end.

Fixpoint rrun (ls : list rlabel) : Go rserver () :=
  match ls with
  | [] => mret ()
  | l :: ls => rexec l;; rrun ls
  end.
End steps.

(** * One call of [Start] after the other *)

(** The boot callback has completed its send. *)
Definition came_up (p : engine_at) : bool :=
  match p with Serving | Ended => true | _ => false end.
Definition decided (p : engine_at) : bool :=
  match p with Failed | Serving | Ended => true | _ => false end.
(** The call has returned and its engine has come up or failed. *)
Definition call_over (x : call) : bool :=
  match c_pc x with
  | CUp | CRet _ => decided (c_engine x)
  | _ => false
  end.

(** What holds of call [c] of [n], for the channel [ch] in the field [started]. *)
Record call_inv (n started : nat) (ch : chan) (c : nat) (x : call) : Prop := {
  ci_last : S c = n ∨ call_over x = true;
  ci_made : c_pc x = CMade → c_engine x = NotLaunched;
  ci_select i : c_pc x = CSelect i → i = started;
  ci_sending i : c_engine x = Sending i → i = started;
  ci_up : c_pc x = CToken ∨ c_pc x = CUp → came_up (c_engine x) = true;
  ci_nil : c_pc x = CRet None → c_engine x = Ended;
  ci_err : c_err x ≠ ErrEmpty → c_engine x = Failed ∨ c_engine x = Ended;
  ci_closed : c_err x = ErrClosed → c_engine x = Ended;
  ci_chan : S c = n → c_pc x ≠ CMade →
    (ch_closed ch = true ↔ c_pc x = CUp) ∧ (0 < ch_buf ch → came_up (c_engine x) = true);
}.

Record server_inv (s : rserver) : Prop := {
  rv_stop : is_Some (r_chans s !! r_stop s);
  rv_distinct : r_stop s ≠ r_started s;
  rv_calls : ∃ ch, r_chans s !! r_started s = Some ch ∧
    ∀ c x, r_calls s !! c = Some x → call_inv (length (r_calls s)) (r_started s) ch c x;
}.

(** The case analysis on the fields of a call. *)
Ltac call_solve :=
  match goal with
  | H : call_inv _ _ _ _ _ |- call_inv _ _ _ _ _ =>
      destruct H; constructor; unfold call_over in *; simpl in *; intros; simplify_eq/=;
      auto; intuition (auto; congruence)
  end.

Lemma call_inv_old n n' st st' ch ch' c x :
  call_inv n st ch c x → call_over x = true → S c ≠ n' → call_inv n' st' ch' c x.
Proof.
  intros [] Ho Hn. unfold call_over in Ho.
  constructor; auto; intros; try done; destruct (c_pc x); simplify_eq;
    destruct (c_engine x); simplify_eq; auto.
Qed.

Lemma other_calls n st ch ch' c d x :
  call_inv n st ch d x → S c = n → d ≠ c → call_inv n st ch' d x.
Proof.
  intros H Hc Hd. destruct (ci_last _ _ _ _ _ H) as [?|Ho]; [lia|].
  eapply call_inv_old; [done..|lia].
Qed.

Lemma inv_call s c x x' :
  server_inv s → r_calls s !! c = Some x →
  (∀ ch, r_chans s !! r_started s = Some ch →
     call_inv (length (r_calls s)) (r_started s) ch c x →
     call_inv (length (r_calls s)) (r_started s) ch c x') →
  server_inv (put_call c x' s).
Proof.
  intros [? ? (ch & Hch & Hc)] Hx Himp. split; [done..|]. exists ch. split; [done|].
  intros d y. simpl. rewrite length_insert. intros [(<- & <- & _)|[? Hy]]%list_lookup_insert_Some; auto.
Qed.

Lemma inv_chan s i c c' :
  server_inv s → r_chans s !! i = Some c →
  (i = r_started s → ch_closed c' = ch_closed c ∧ ch_buf c' ≤ ch_buf c) →
  server_inv (put_chan i c' s).
Proof.
  intros [Hs Hd (ch & Hch & Hc)] Hi Himp. pose proof (lookup_lt_Some _ _ _ Hi). split; simpl.
  - destruct (decide (i = r_stop s)) as [<-|];
      [by rewrite list_lookup_insert_eq|by rewrite list_lookup_insert_ne].
  - done.
  - destruct (decide (i = r_started s)) as [->|].
    + destruct Himp as [E1 E2]; [done|]. assert (ch = c) as -> by congruence.
      exists c'. rewrite list_lookup_insert_eq by done. split; [done|].
      intros d y Hy%Hc. destruct Hy. constructor; auto. intros Hn Hm.
      destruct (ci_chan0 Hn Hm) as [? ?]. rewrite E1. split; [done|]. intros. auto with lia.
    + exists ch. by rewrite list_lookup_insert_ne.
Qed.

(** The last call and the channel change together. *)
Lemma inv_both s c x x' ch ch' :
  server_inv s → r_calls s !! c = Some x → S c = length (r_calls s) →
  r_chans s !! r_started s = Some ch →
  (call_inv (length (r_calls s)) (r_started s) ch c x →
   call_inv (length (r_calls s)) (r_started s) ch' c x') →
  server_inv (put_call c x' (put_chan (r_started s) ch' s)).
Proof.
  intros [Hs Hd (ch0 & Hch & Hc)] Hx Hlast Hch' Himp. assert (ch0 = ch) as -> by congruence.
  split; simpl; [by rewrite list_lookup_insert_ne|done|]. exists ch'.
  rewrite list_lookup_insert_eq by (by eapply lookup_lt_Some). split; [done|].
  intros d y. rewrite length_insert.
  intros [(<- & <- & _)|[? Hy]]%list_lookup_insert_Some; [auto|].
  eapply other_calls; [by apply Hc|done|done].
Qed.

Section proofs.
Context (k : kind) (eng_Stop : engine_pc → option error) (os_Remove : option error).
(** [Engine.Stop] succeeds on a serving engine only. *)
Hypothesis eng_Stop_serving : ∀ p, eng_Stop p = None → p = ERun.

Lemma at_call_done c f s s' :
  at_call c f s = Done s' () → ∃ x, r_calls s !! c = Some x ∧ f x s = Done s' ().
Proof. unfold at_call. destruct (r_calls s !! c) as [x|]; [eauto|done]. Qed.

Lemma at_call_panicked c f s p :
  at_call c f s = Panicked p → ∃ x, r_calls s !! c = Some x ∧ f x s = Panicked p.
Proof. unfold at_call. destruct (r_calls s !! c) as [x|]; [eauto|done]. Qed.

(** A call that is not over is the last one. *)
Lemma not_over_last s c x :
  server_inv s → r_calls s !! c = Some x → call_over x = false → S c = length (r_calls s).
Proof.
  intros [_ _ (ch & _ & Hc)] Hx Ho. destruct (ci_last _ _ _ _ _ (Hc c x Hx)); [done|congruence].
Qed.

(** What a receive does to the server. *)
Lemma chan_receive_inv i e s s' :
  server_inv s → chan_receive i e s = Done s' () →
  server_inv s' ∧ r_started s' = r_started s ∧ r_stop s' = r_stop s ∧
  length (r_calls s') = length (r_calls s) ∧
  ∀ c x, r_calls s !! c = Some x → call_over x = false → i = r_started s →
    c_pc x ≠ CMade → c_pc x ≠ CUp →
    ∃ x', r_calls s' !! c = Some x' ∧ c_pc x' = c_pc x ∧ c_err x' = c_err x ∧
          came_up (c_engine x') = true.
Proof.
  intros Hinv E. unfold chan_receive in E. destruct (r_chans s !! i) as [ch|] eqn:Hch; [|done].
  destruct e as [e|].
  - destruct (r_calls s !! e) as [[er pc [| |j| | |]]|] eqn:Hx; try done.
    case_decide as Hj; [|done]. injection E as <-. destruct Hj as (-> & _ & _).
    assert (S e = length (r_calls s)) as He.
    { by eapply not_over_last; [done..|destruct pc]. }
    split_and!; try done; simpl; [|by rewrite length_insert|].
    + eapply inv_call; [done..|]. intros ch' _ Hc. call_solve.
    + intros c x Hxc Ho _ _ _. assert (c = e) as ->.
      { apply (not_over_last s c x Hinv Hxc) in Ho. lia. }
      rewrite list_lookup_insert_eq by (by eapply lookup_lt_Some).
      assert (x = MkCall er pc (Sending i)) as -> by congruence. by eexists.
  - destruct (rv_calls _ Hinv) as (ch0 & Hch0 & Hc).
    destruct (ch_buf ch) as [|n] eqn:Hb.
    + destruct (ch_closed ch) eqn:Hcl; [|done]. injection E as <-. split_and!; try done.
      intros c x Hx Ho -> Hm Hup. assert (ch0 = ch) as -> by congruence.
      pose proof (not_over_last s c x Hinv Hx Ho) as Hl.
      destruct (ci_chan _ _ _ _ _ (Hc c x Hx) Hl Hm) as [Hiff _]. by apply Hiff in Hcl.
    + injection E as <-. split_and!; try done.
      * eapply inv_chan; [done..|]. intros _. simpl. split; [done|lia].
      * intros c x Hx Ho -> Hm _. assert (ch0 = ch) as -> by congruence.
        pose proof (not_over_last s c x Hinv Hx Ho) as Hl.
        destruct (ci_chan _ _ _ _ _ (Hc c x Hx) Hl Hm) as [_ Hs].
        exists x. split_and!; try done. apply Hs. lia.
Qed.

Lemma inv_new : server_inv new_rserver.
Proof. split; simpl; [by eexists|done|]. eexists. split; [done|]. intros c x. by rewrite lookup_nil. Qed.

Lemma inv_Start_stopChan s s' :
  server_inv s → Forall (λ x, call_over x = true) (r_calls s) →
  Start_stopChan s = Done s' () → server_inv s'.
Proof.
  intros [Hs Hd (ch & Hch & Hc)] Hover [= <-]. pose proof (lookup_lt_Some _ _ _ Hch) as Hlt.
  split; simpl; [by rewrite lookup_app_last|lia|]. exists ch.
  rewrite lookup_app_l by done. split; [done|]. intros c x. rewrite length_app. simpl.
  intros [Hx|[Hge Hx]]%lookup_app_Some.
  - pose proof (lookup_lt_Some _ _ _ Hx). eapply call_inv_old; [by apply Hc| |lia].
    by apply (Forall_lookup_1 _ _ _ _ Hover Hx).
  - destruct (c - length (r_calls s)) as [|] eqn:E; simplify_eq/=.
    constructor; simpl; intros; try done; [left; lia|intuition congruence].
Qed.

Lemma inv_Start_launch c s s' :
  server_inv s → Start_launch k c s = Done s' () → server_inv s'.
Proof.
  intros Hinv ([er pc en] & Hx & E)%at_call_done. simpl in E. destruct pc, en; try done.
  injection E as <-. pose proof (not_over_last s c _ Hinv Hx eq_refl) as Hl.
  destruct Hinv as [[sc Hs] Hd (ch & Hch & Hc)]. pose proof (lookup_lt_Some _ _ _ Hs) as Hlt.
  split; simpl; [by rewrite lookup_app_l; eauto|lia|].
  exists (MkChan (started_cap k) 0 false). rewrite lookup_app_last. split; [done|].
  intros d y. rewrite length_insert.
  intros [(<- & <- & _)|[Hne Hy]]%list_lookup_insert_Some.
  - specialize (Hc c _ Hx). destruct Hc. simpl in *.
    constructor; simpl; intros; try done; [intuition congruence..|].
    split; [done|lia].
  - specialize (Hc d y Hy). destruct (ci_last _ _ _ _ _ Hc) as [?|Ho]; [lia|].
    eapply call_inv_old; [done..|lia].
Qed.

Lemma inv_Start_select c s s' :
  server_inv s → Start_select c s = Done s' () → server_inv s'.
Proof.
  intros Hinv ([er pc en] & Hx & E)%at_call_done. destruct pc; try done. injection E as <-.
  eapply inv_call; [done..|]. intros ch _ Hc. call_solve.
Qed.

Lemma inv_Select_started c e s s' :
  server_inv s → Select_started c e s = Done s' () → server_inv s'.
Proof.
  intros Hinv ([er pc en] & Hx & E)%at_call_done. simpl in E.
  destruct pc as [| |i| | |]; try done.
  unfold mbind, go_bind in E. destruct (chan_receive i e s) as [s1 []| |] eqn:Er; try done.
  destruct (chan_receive_inv _ _ _ _ Hinv Er) as (Hinv1 & Hst & _ & Hlen & Hx1).
  assert (i = r_started s) as Hi.
  { destruct (rv_calls _ Hinv) as (ch & _ & Hc). by apply (ci_select _ _ _ _ _ (Hc c _ Hx)). }
  destruct (Hx1 c _ Hx) as ([er' pc' en'] & Hx' & Hpc & Herr & Hset); [done..|].
  simpl in Hpc, Herr, Hset. subst pc' er'. unfold move in E. rewrite Hx' in E. injection E as <-.
  eapply inv_call; [done..|]. intros ch _ Hc. call_solve.
Qed.

Lemma inv_Close_started c s s' :
  server_inv s → Close_started c s = Done s' () → server_inv s'.
Proof.
  intros Hinv ([er pc en] & Hx & E)%at_call_done. simpl in E. destruct pc; try done.
  unfold mbind, go_bind, chan_close in E.
  destruct (r_chans s !! r_started s) as [ch|] eqn:Hch; [|done].
  destruct (ch_closed ch) eqn:Hcl; [done|]. unfold move in E. simpl in E. rewrite Hx in E.
  injection E as <-. assert (S c = length (r_calls s)) as Hl.
  { by eapply not_over_last. }
  eapply inv_both; [done..|]. intros Hc. call_solve.
Qed.

Lemma inv_Select_err c s s' : server_inv s → Select_err k c s = Done s' () → server_inv s'.
Proof.
  intros Hinv ([er pc en] & Hx & E)%at_call_done. simpl in E.
  destruct pc; try done; destruct er; try done; injection E as <-;
    (eapply inv_call; [done..|]); intros ch _ Hc.
  - destruct (ci_err _ _ _ _ _ Hc) as [He|He]; [done|simpl in He; subst en..]; call_solve.
  - assert (en = Ended) as -> by (by apply (ci_closed _ _ _ _ _ Hc)). call_solve.
Qed.

Lemma inv_Select_timeout c s s' :
  server_inv s → Select_timeout k c s = Done s' () → server_inv s'.
Proof.
  intros Hinv ([er pc en] & Hx & E)%at_call_done. simpl in E. destruct pc; try done.
  injection E as <-. eapply inv_call; [done..|]. intros ch _ Hc. call_solve.
Qed.

(** Storing the engine is no matter of the invariant. *)
Lemma inv_set_eng s e :
  server_inv s → server_inv (MkServer (r_chans s) (r_stop s) (r_started s) e (r_calls s)).
Proof. by intros []. Qed.

Lemma inv_Boot_callback c s s' :
  server_inv s → Boot_callback k c s = Done s' () → server_inv s'.
Proof.
  intros Hinv ([er pc en] & Hx & E)%at_call_done. simpl in E. destruct en; try done.
  injection E as <-. eapply inv_call; [by apply inv_set_eng|done|]. intros ch _ Hc.
  destruct pc; call_solve.
Qed.

(** A channel that an engine sends to is the one in the field, and open. *)
Lemma sending_open s c x i ch :
  server_inv s → r_calls s !! c = Some x → c_engine x = Sending i →
  r_chans s !! i = Some ch →
  i = r_started s ∧ ch_closed ch = false ∧ S c = length (r_calls s) ∧ c_pc x ≠ CMade.
Proof.
  intros Hinv Hx He Hch. destruct (rv_calls _ Hinv) as (ch0 & Hch0 & Hc).
  specialize (Hc c x Hx). pose proof (ci_sending _ _ _ _ _ Hc _ He) as ->.
  assert (ch0 = ch) as -> by congruence.
  assert (S c = length (r_calls s)) as Hl.
  { eapply not_over_last; [done..|]. unfold call_over. rewrite He. by destruct (c_pc x). }
  assert (c_pc x ≠ CMade) as Hm by (intros Hm; apply (ci_made _ _ _ _ _ Hc) in Hm; congruence).
  split_and!; [done| |done|done].
  destruct (ci_chan _ _ _ _ _ Hc Hl Hm) as [Hiff _].
  apply not_true_is_false. intros Hup%Hiff.
  pose proof (ci_up _ _ _ _ _ Hc (or_intror Hup)) as Hs. by rewrite He in Hs.
Qed.

Lemma inv_Boot_send c s s' : server_inv s → Boot_send c s = Done s' () → server_inv s'.
Proof.
  intros Hinv ([er pc en] & Hx & E)%at_call_done. simpl in E. destruct en as [| |i| | |]; try done.
  destruct (r_chans s !! i) as [ch|] eqn:Hch; [|done].
  destruct (sending_open _ _ _ _ _ Hinv Hx eq_refl Hch) as (-> & Hcl & Hl & Hm).
  rewrite Hcl in E. case_decide; [|done]. injection E as <-.
  eapply inv_both; [done..|]. intros Hc. destruct pc; call_solve.
Qed.

(** An engine that serves ends, one that boots fails. *)
Lemma inv_end_engine s c x e :
  server_inv s → r_calls s !! c = Some x →
  c_engine x = Serving ∨ c_engine x = Booting ∧ e ≠ ErrClosed →
  server_inv (put_call c (end_engine e x) s).
Proof.
  intros Hinv Hx He. eapply inv_call; [done..|]. intros ch _ Hc.
  destruct x as [er pc en]. unfold end_engine. simpl in *.
  destruct He as [->|[-> He]]; destruct pc; call_solve.
Qed.

Lemma inv_Engine_fails c err s s' :
  server_inv s → Engine_fails c err s = Done s' () → server_inv s'.
Proof.
  intros Hinv (x & Hx & E)%at_call_done.
  destruct (c_engine x) eqn:He; try done; injection E as <-;
    (apply inv_end_engine; auto).
Qed.

Lemma inv_Engine_tick c s s' : server_inv s → Engine_tick c s = Done s' () → server_inv s'.
Proof.
  intros Hinv (x & Hx & E)%at_call_done. destruct (c_engine x) eqn:He; try done.
  destruct (chan_closed _ _); injection E as <-; [|done]. apply inv_end_engine; auto.
Qed.

(** The ways [Stop] works. *)
Lemma Stop_server_cases s :
  k = KTcp ∧ ((∃ e, Stop_server k eng_Stop os_Remove s = Done s (Some e)) ∨
    ∃ c x, r_eng s = Some c ∧ r_calls s !! c = Some x ∧ c_engine x = Serving ∧
      Stop_server k eng_Stop os_Remove s = Done (put_call c (end_engine ErrClosed x) s) None) ∨
  k ≠ KTcp ∧ ∃ e, Stop_server k eng_Stop os_Remove s = (chan_close (r_stop s);; mret e) s.
Proof.
  unfold Stop_server. destruct k; [left|right; split; [done|eauto]..]. split; [done|].
  destruct (eng_Stop _) as [e|] eqn:E; [left; eauto|right].
  apply eng_Stop_serving in E. unfold stored_engine in E.
  destruct (r_eng s) as [c|]; [|done]. simpl in E. destruct (r_calls s !! c) as [x|] eqn:Hx; [|done].
  exists c, x. split_and!; [done|done|by destruct (c_engine x)|].
  unfold mbind, go_bind, move. by rewrite Hx.
Qed.

Lemma inv_Stop_server s s' r :
  server_inv s → Stop_server k eng_Stop os_Remove s = Done s' r → server_inv s'.
Proof.
  intros Hinv. destruct (Stop_server_cases s) as
    [(_ & [[e ->]|(c & x & _ & Hx & He & ->)])|(_ & e & ->)]; [by intros [= <- _]| |].
  - intros [= <- _]. apply inv_end_engine; auto.
  - unfold mbind, go_bind, chan_close. destruct (r_chans s !! r_stop s) as [ch|] eqn:Hch; [|done].
    destruct (ch_closed ch); [done|]. intros [= <- _].
    eapply inv_chan; [done..|]. intros ?. by destruct (rv_distinct _ Hinv).
Qed.

(** A step of the server, a new call of [Start] only when the others are over. *)
Lemma rexec_inv l s s' :
  server_inv s → (l = RStart → Forall (λ x, call_over x = true) (r_calls s)) →
  rexec k eng_Stop os_Remove l s = Done s' () → server_inv s'.
Proof.
  intros Hinv Hl. destruct l; simpl.
  - by apply inv_Start_stopChan; auto.
  - by apply inv_Start_launch.
  - by apply inv_Start_select.
  - by apply inv_Select_started.
  - by apply inv_Close_started.
  - by apply inv_Select_err.
  - by apply inv_Select_timeout.
  - by apply inv_Boot_callback.
  - by apply inv_Boot_send.
  - by apply inv_Engine_fails.
  - by apply inv_Engine_tick.
  - unfold mbind, go_bind. destruct (Stop_server _ _ _ s) as [s1 r| |] eqn:E; try done.
    intros [= <-]. by eapply inv_Stop_server.
  - intros E. by destruct (chan_receive_inv _ _ _ _ Hinv E).
Qed.

(** The states of a server whose [Start] is called again only when every earlier call has
    returned and its engine has come up or ended. *)
Inductive sequential : rserver → Prop :=
  | sequential_new : sequential new_rserver
  | sequential_step s l s' :
      sequential s → (l = RStart → Forall (λ x, call_over x = true) (r_calls s)) →
      rexec k eng_Stop os_Remove l s = Done s' () → sequential s'.

Lemma sequential_inv s : sequential s → server_inv s.
Proof. induction 1; [apply inv_new|by eapply rexec_inv]. Qed.

Lemma chan_receive_never_panics i e s p : chan_receive i e s ≠ Panicked p.
Proof. unfold chan_receive. by repeat case_match. Qed.

(** The one panic. *)
Lemma rexec_panics s l p :
  server_inv s → rexec k eng_Stop os_Remove l s = Panicked p →
  l = RStop ∧ k ≠ KTcp ∧ chan_closed s (r_stop s) = true ∧ p = PanicCloseClosed.
Proof.
  intros Hinv. destruct l; simpl; try (by intros E; first
    [ discriminate E | by apply chan_receive_never_panics in E
    | apply at_call_panicked in E as (x & _ & E); by repeat case_match ]).
  - intros ([er pc en] & Hx & E)%at_call_panicked. simpl in E. destruct pc; try done.
    unfold mbind, go_bind in E. destruct (chan_receive _ _ s) as [?| |] eqn:Er; try done.
    by apply chan_receive_never_panics in Er.
  - intros ([er pc en] & Hx & E)%at_call_panicked. simpl in E. destruct pc; try done.
    destruct (rv_calls _ Hinv) as (ch & Hch & Hc).
    unfold mbind, go_bind, chan_close in E. rewrite Hch in E.
    destruct (ch_closed ch) eqn:Hcl; [|done].
    pose proof (not_over_last s c _ Hinv Hx eq_refl) as Hl.
    by apply (ci_chan _ _ _ _ _ (Hc c _ Hx) Hl) in Hcl.
  - intros (x & Hx & E)%at_call_panicked. destruct (c_engine x) as [| |i| | |] eqn:He; try done.
    destruct (r_chans s !! i) as [ch|] eqn:Hch; [|done].
    destruct (sending_open _ _ _ _ _ Hinv Hx He Hch) as (_ & Hcl & _).
    rewrite Hcl in E. by case_decide.
  - unfold mbind, go_bind. destruct (Stop_server _ _ _ s) as [?|p'|] eqn:E; try done.
    intros [= ->]. destruct (Stop_server_cases s) as
      [(_ & [[e E1]|(c & x & _ & _ & _ & E1)])|(Hk & e & E1)]; [congruence..|].
    rewrite E1 in E. unfold mbind, go_bind, chan_close in E. unfold chan_closed.
    destruct (rv_stop _ Hinv) as [ch Hch]. rewrite Hch in *.
    destruct (ch_closed ch); [|done]. by injection E as <-.
Qed.

(** The handshake of a call that waits with an engine that waits. *)
Lemma handshake_completes s c x i j :
  server_inv s → r_calls s !! c = Some x → c_pc x = CSelect i → c_engine x = Sending j →
  ∃ ls s' x', rrun k eng_Stop os_Remove ls s = Done s' () ∧ r_calls s' !! c = Some x' ∧
    c_pc x' = CUp ∧ c_engine x' = Serving.
Proof.
  intros Hinv Hx Hpc He. destruct (rv_calls _ Hinv) as (ch & Hch & Hc).
  pose proof (ci_select _ _ _ _ _ (Hc c x Hx) _ Hpc) as ->.
  pose proof (ci_sending _ _ _ _ _ (Hc c x Hx) _ He) as ->.
  destruct (sending_open _ _ _ _ _ Hinv Hx He Hch) as (_ & Hcl & Hl & Hm).
  assert (ch_buf ch = 0) as Hb.
  { destruct (ci_chan _ _ _ _ _ (Hc c x Hx) Hl Hm) as [_ Hb].
    destruct (ch_buf ch); [done|]. rewrite He in Hb. discriminate Hb. lia. }
  destruct x as [er pc en], ch as [cap buf cl]. simpl in *. subst.
  pose proof (lookup_lt_Some _ _ _ Hx) as Hlc. pose proof (lookup_lt_Some _ _ _ Hch) as Hli.
  exists (if decide (cap = 0) then [RToken c (Some c); RClose c]
          else [RSend c; RToken c None; RClose c]).
  case_decide as Hcap; [subst cap|]; eexists _, _; split.
  1,3: unfold rrun, rexec, mbind, go_bind, Boot_send, Select_started, Close_started, at_call;
    unfold mbind, go_bind, chan_receive, chan_close, move;
    repeat (simpl; rewrite ?Hx, ?Hch, ?list_lookup_insert_eq by (rewrite ?length_insert; done));
    rewrite decide_True by (done || lia);
    repeat (simpl; rewrite ?Hch, ?list_lookup_insert_eq by (rewrite ?length_insert; done));
    reflexivity.
  all: simpl; by rewrite list_lookup_insert_eq by (rewrite ?length_insert; done).
Qed.

(** C24: A server can be started again. As long as a new [Start] is only called when every
    earlier call has returned and its engine has come up or failed, the protocol of all
    calls together, one read or write of a field at a time, has the one panic of a single
    call: a [Stop] of a UDP, UDS or dummy server whose stop channel is closed already.
    A call that returned nil has an engine that came up, and a call in its [select] whose
    engine is at its send can complete the handshake. *)
Theorem sequential_starts_are_safe (s : rserver) :
  sequential s →
  (∀ l p, rexec k eng_Stop os_Remove l s = Panicked p →
     l = RStop ∧ k ≠ KTcp ∧ chan_closed s (r_stop s) = true ∧ p = PanicCloseClosed) ∧
  (∀ c x, r_calls s !! c = Some x → c_pc x = CUp ∨ c_pc x = CRet None →
     came_up (c_engine x) = true) ∧
  (∀ c x i j, r_calls s !! c = Some x → c_pc x = CSelect i → c_engine x = Sending j →
     ∃ ls s' x', rrun k eng_Stop os_Remove ls s = Done s' () ∧ r_calls s' !! c = Some x' ∧
       c_pc x' = CUp ∧ c_engine x' = Serving).
Proof.
  intros Hinv%sequential_inv. split_and!.
  - intros l p. by apply rexec_panics.
  - intros c x Hx Hr. destruct (rv_calls _ Hinv) as (ch & _ & Hc). specialize (Hc c x Hx).
    destruct Hr as [Hr|Hr]; [apply (ci_up _ _ _ _ _ Hc); by right|].
    by rewrite (ci_nil _ _ _ _ _ Hc Hr).
  - intros c x i j. by apply handshake_completes.
Qed.
End proofs.
