(* ===== verification/RestartStop.v ===== *)
(** Stopping a gnet server of which [Start] was called more than once: which engines end,
    which do not, and what happens when calls follow each other too early. *)
From S2P Require Import Prelude GoRuntime Lifecycle Restart.

(** * Engines and stop channels, under any steps *)

Section engines.
Context (k : kind) (eng_Stop : engine_pc → option error) (os_Remove : option error).
(** [Engine.Stop] succeeds on a serving engine only. *)
Hypothesis eng_Stop_serving : ∀ p, eng_Stop p = None → p = ERun.

Definition engine_is (s : rserver) (e : nat) (p : engine_at) : Prop :=
  c_engine <$> r_calls s !! e = Some p.

Lemma engine_is_lookup s c x p : r_calls s !! c = Some x → engine_is s c p → c_engine x = p.
Proof. unfold engine_is. intros ->. by intros [=]. Qed.

Lemma engine_put s c x e p :
  engine_is s e p → (c = e → c_engine x = p) → engine_is (put_call c x s) e p.
Proof.
  unfold engine_is. simpl. intros He Hc. destruct (decide (c = e)) as [->|].
  - rewrite list_lookup_insert_eq; [simpl; by rewrite Hc|].
    destruct (r_calls s !! e) eqn:E; [by eapply lookup_lt_Some|done].
  - by rewrite list_lookup_insert_ne.
Qed.

(** An engine whose boot callback sends on a closed channel can do nothing but panic. *)
Definition doomed (s : rserver) (p : engine_at) : Prop :=
  ∃ i, p = Sending i ∧ chan_closed s i = true.

Lemma engine_receive i d s s' e p :
  p = Serving ∨ p = Ended ∨ doomed s p → engine_is s e p → chan_receive i d s = Done s' () → engine_is s' e p.
Proof.
  intros Hp He E. unfold chan_receive in E. destruct (r_chans s !! i) as [ch|] eqn:Hi; [|done].
  destruct d as [d|]; [|by repeat case_match; simplify_eq].
  destruct (r_calls s !! d) as [[er pc en]|] eqn:Hx; [|done]. destruct en; try done.
  case_decide; [|done]. injection E as <-. apply engine_put; [done|]. intros ->.
  apply (engine_is_lookup _ _ _ _ Hx) in He. simpl in He. subst p.
  destruct Hp as [?|[?|(j & [= <-] & Hj)]]; [done..|]. destruct_and!. subst.
  unfold chan_closed in Hj. rewrite Hi in Hj. congruence.
Qed.

Lemma engine_move c f s s' e p :
  engine_is s e p → (∀ x, c_engine (f x) = c_engine x) → move c f s = Done s' () →
  engine_is s' e p.
Proof.
  unfold move. intros He Hf [= <-]. destruct (r_calls s !! c) as [x|] eqn:Hx; [|done].
  apply engine_put; [done|]. intros ->. rewrite Hf. by eapply engine_is_lookup.
Qed.

Lemma engine_close i s s' e p :
  engine_is s e p → chan_close i s = Done s' () → engine_is s' e p.
Proof. unfold chan_close. intros He E. by repeat case_match; simplify_eq. Qed.

(** What ends an engine that serves; one that has ended stays so. *)
Lemma engine_stays l s s' e p :
  p = Serving ∨ p = Ended ∨ doomed s p → engine_is s e p → rexec k eng_Stop os_Remove l s = Done s' () →
  engine_is s' e p ∨
  p = Serving ∧ ((l = RTick e ∧ chan_closed s (r_stop s) = true) ∨ (∃ err, l = RFail e err) ∨
                 (l = RStop ∧ k = KTcp ∧ r_eng s = Some e)).
Proof.
  intros Hp He. destruct l; simpl; intros E;
    try (apply at_call_done in E as ([er pc en] & Hx & E); simpl in E;
         pose proof (engine_is_lookup _ c _ p Hx) as Hc; simpl in Hc).
  - injection E as <-. left. unfold engine_is in *. simpl.
    destruct (r_calls s !! e) as [x|] eqn:Hx; [|done]. by rewrite (lookup_app_l_Some _ _ _ _ Hx).
  - destruct pc, en; try done. injection E as <-. left.
    apply (engine_put (MkServer _ _ _ _ (r_calls s))); [done|]. intros ->. specialize (Hc He). by destruct Hp as [?|[?|(? & ? & _)]]; simplify_eq.
  - destruct pc; try done. injection E as <-. left. apply engine_put; [done|]. intros ->; by apply Hc.
  - destruct pc; try done. unfold mbind, go_bind in E.
    destruct (chan_receive _ _ s) as [s1 []| |] eqn:Er; try done. left.
    by apply (engine_move c (set_pc CToken) s1); [eapply engine_receive|..].
  - destruct pc; try done. unfold mbind, go_bind in E.
    destruct (chan_close _ s) as [s1 []| |] eqn:Ec; try done. left.
    by apply (engine_move c (set_pc CUp) s1); [eapply engine_close|..].
  - destruct pc, er; try done; injection E as <-; left; (apply engine_put; [done|]); intros ->; by apply Hc.
  - destruct pc; try done. injection E as <-. left. apply engine_put; [done|]. intros ->; by apply Hc.
  - destruct en; try done. injection E as <-. left.
    apply (engine_put (MkServer _ _ _ _ (r_calls s))); [done|]. intros ->. specialize (Hc He). by destruct Hp as [?|[?|(? & ? & _)]]; simplify_eq.
  - destruct en as [| |i| | |]; try done. destruct (r_chans s !! i) as [ch|] eqn:Hi; [|done].
    destruct (ch_closed ch) eqn:Hcl; [done|]. case_decide; [|done]. injection E as <-. left.
    apply (engine_put (put_chan _ _ s)); [done|]. intros ->. specialize (Hc He).
    destruct Hp as [?|[?|(j & ? & Hj)]]; simplify_eq.
    unfold chan_closed in Hj. rewrite Hi in Hj. congruence.
  - destruct (decide (c = e)) as [->|].
    + specialize (Hc He). destruct en; try done; destruct Hp as [?|[?|(? & ? & _)]]; simplify_eq.
      right; eauto.
    + left. destruct en; try done; injection E as <-; by apply engine_put.
  - destruct en; try done. destruct (chan_closed _ _) eqn:Hcl; injection E as <-; [|by left].
    destruct (decide (c = e)) as [->|]; [|left; by apply engine_put].
    specialize (Hc He). destruct Hp as [?|[?|(? & ? & _)]]; simplify_eq. auto.
  - unfold mbind, go_bind in E. destruct (Stop_server _ _ _ s) as [s1 r| |] eqn:Es; try done.
    injection E as ->. destruct (Stop_server_cases k eng_Stop os_Remove eng_Stop_serving s) as
      [(Hk & [[e1 E1]|(c & x & Hr & Hx & He1 & E1)])|(_ & e1 & E1)]; rewrite E1 in Es.
    + injection Es as <- _. by left.
    + injection Es as <- _. destruct (decide (c = e)) as [->|]; [|left; by apply engine_put].
      pose proof (engine_is_lookup _ _ _ _ Hx He). destruct Hp as [->|[->|(? & -> & _)]]; [by auto 7|congruence..].
    + unfold mbind, go_bind in Es. destruct (chan_close _ s) as [s2 []| |] eqn:Ec; try done.
      injection Es as <- _. left. by eapply engine_close.
  - left. by eapply engine_receive.
Qed.

Lemma engine_is_Ended_stays l s s' e :
  engine_is s e Ended → rexec k eng_Stop os_Remove l s = Done s' () → engine_is s' e Ended.
Proof. intros He E. destruct (engine_stays l s s' e Ended) as [?|[? _]]; auto. done. Qed.

(** The steps that make and close no channel. *)
Record keeps (s s' : rserver) : Prop := {
  kp_stop : r_stop s' = r_stop s;
  kp_started : r_started s' = r_started s;
  kp_length : length (r_chans s') = length (r_chans s);
  kp_closed i : chan_closed s' i = chan_closed s i;
}.

#[local] Instance keeps_preorder : PreOrder keeps.
Proof.
  split; [by intros s|]. intros s1 s2 s3 [] []. split; [congruence..|]. intros i. congruence.
Qed.

Lemma put_call_keeps c x s : keeps s (put_call c x s).
Proof. done. Qed.

Lemma put_chan_keeps s i c c' :
  r_chans s !! i = Some c → ch_closed c' = ch_closed c → keeps s (put_chan i c' s).
Proof.
  intros Hi Hc. split; [done|done|apply length_insert|]. intros j. unfold chan_closed. simpl.
  destruct (decide (i = j)) as [->|]; [|by rewrite list_lookup_insert_ne].
  rewrite list_lookup_insert_eq by (by eapply lookup_lt_Some). by rewrite Hi.
Qed.

Lemma chan_receive_keeps i d s s' : chan_receive i d s = Done s' () → keeps s s'.
Proof.
  unfold chan_receive. destruct (r_chans s !! i) as [ch|] eqn:Hi; [|done].
  destruct d as [d|]; [by repeat case_match; intros; simplify_eq|].
  destruct (ch_buf ch); [by case_match; intros; simplify_eq|]. intros [= <-].
  by eapply put_chan_keeps.
Qed.

Lemma move_keeps c f s s' : move c f s = Done s' () → keeps s s'.
Proof. unfold move. intros [= <-]. by destruct (r_calls s !! c). Qed.

(** The other steps, by the channel they make or close. *)
Definition closes (i : nat) (s s' : rserver) : Prop :=
  r_stop s' = r_stop s ∧ r_started s' = r_started s ∧
  length (r_chans s') = length (r_chans s) ∧ chan_closed s' i = true ∧
  ∀ j, j ≠ i → chan_closed s' j = chan_closed s j.

Definition makes (s s' : rserver) : Prop :=
  length (r_chans s') = S (length (r_chans s)) ∧ chan_closed s' (length (r_chans s)) = false ∧
  ∀ i, i < length (r_chans s) → chan_closed s' i = chan_closed s i.

Lemma closes_keeps i s1 s2 s3 : closes i s1 s2 → keeps s2 s3 → closes i s1 s3.
Proof.
  intros (? & ? & ? & ? & Hj) []. split_and!; [congruence..|]. intros j ?. rewrite kp_closed0. auto.
Qed.

Lemma chan_close_closes i s s' : chan_close i s = Done s' () → closes i s s'.
Proof.
  unfold chan_close. destruct (r_chans s !! i) as [c|] eqn:Hi; [|done].
  destruct (ch_closed c); [done|]. intros [= <-]. split_and!; try done; simpl.
  - apply length_insert.
  - unfold chan_closed. simpl. by rewrite list_lookup_insert_eq by (by eapply lookup_lt_Some).
  - intros j ?. unfold chan_closed. simpl. by rewrite list_lookup_insert_ne.
Qed.

Lemma append_makes s s' cap :
  r_chans s' = r_chans s ++ [MkChan cap 0 false] → makes s s'.
Proof.
  intros E. unfold makes, chan_closed. rewrite E, length_app. simpl. split_and!; [lia| |].
  - by rewrite lookup_app_last.
  - intros i Hi. by rewrite lookup_app_l.
Qed.

(** Every step is of one of these sorts. *)
Lemma rexec_fields l s s' :
  rexec k eng_Stop os_Remove l s = Done s' () →
  match l with
  | RStart => makes s s' ∧ r_stop s' = length (r_chans s) ∧ r_started s' = r_started s
  | RLaunch _ => makes s s' ∧ r_stop s' = r_stop s ∧ r_started s' = length (r_chans s)
  | RClose _ => closes (r_started s) s s'
  | RStop => if decide (k = KTcp) then keeps s s' else closes (r_stop s) s s'
  | _ => keeps s s'
  end.
Proof.
  destruct l; simpl; intros E;
    try (apply at_call_done in E as ([er pc en] & Hx & E); simpl in E).
  - injection E as <-. split_and!; [by eapply append_makes|done..].
  - destruct pc, en; try done. injection E as <-. split_and!; [by eapply append_makes|done..].
  - destruct pc; try done. by injection E as <-.
  - destruct pc; try done. unfold mbind, go_bind in E.
    destruct (chan_receive _ _ s) as [s1 []| |] eqn:Er; try done.
    etrans; [by eapply chan_receive_keeps|by eapply move_keeps].
  - destruct pc; try done. unfold mbind, go_bind in E.
    destruct (chan_close _ s) as [s1 []| |] eqn:Ec; try done.
    eapply closes_keeps; [by apply chan_close_closes|by eapply move_keeps].
  - destruct pc, er; try done; by injection E as <-.
  - destruct pc; try done. by injection E as <-.
  - destruct en; try done. by injection E as <-.
  - destruct en as [| |i| | |]; try done. destruct (r_chans s !! i) as [ch|] eqn:Hi; [|done].
    destruct (ch_closed ch) eqn:Hcl; [done|]. case_decide; [|done]. injection E as <-.
    etrans; [|apply put_call_keeps]. by eapply put_chan_keeps.
  - destruct en; try done; by injection E as <-.
  - destruct en; try done. destruct (chan_closed _ _); by injection E as <-.
  - unfold mbind, go_bind in E. destruct (Stop_server _ _ _ s) as [s1 r| |] eqn:Es; try done.
    injection E as ->. destruct (Stop_server_cases k eng_Stop os_Remove eng_Stop_serving s) as
      [(Hk & [[e1 E1]|(c & x & _ & _ & _ & E1)])|(Hk & e1 & E1)]; rewrite E1 in Es.
    + rewrite decide_True by done. by injection Es as <- _.
    + rewrite decide_True by done. by injection Es as <- _.
    + rewrite decide_False by done. unfold mbind, go_bind in Es.
      destruct (chan_close _ s) as [s2 []| |] eqn:Ec; try done. injection Es as <- _.
      by apply chan_close_closes.
  - by eapply chan_receive_keeps.
Qed.

(** * Stopping *)

(** The stop channel in the field is closed. *)
Definition stop_closed (s : rserver) : Prop := chan_closed s (r_stop s) = true.

Lemma chan_closed_lt s i : chan_closed s i = true → i < length (r_chans s).
Proof.
  unfold chan_closed. destruct (r_chans s !! i) eqn:E; [|done]. intros _. by eapply lookup_lt_Some.
Qed.

Lemma stop_closed_stays l s s' :
  l ≠ RStart → stop_closed s → rexec k eng_Stop os_Remove l s = Done s' () → stop_closed s'.
Proof.
  unfold stop_closed. intros Hl Hs E%rexec_fields. pose proof (chan_closed_lt _ _ Hs).
  destruct l; try done;
    try match type of E with keeps _ _ => destruct E as [-> _ _ Hc]; by rewrite Hc end.
  - destruct E as ((_ & _ & Hc) & -> & _). by rewrite Hc.
  - destruct E as (-> & _ & _ & Hi & Hc).
    destruct (decide (r_stop s = r_started s)) as [->|]; [done|by rewrite Hc].
  - case_decide; [destruct E as [-> _ _ Hc]; by rewrite Hc|]. by destruct E as (-> & _ & _ & ? & _).
Qed.

Lemma tick_ends s e :
  stop_closed s → engine_is s e Serving →
  ∃ s', rexec k eng_Stop os_Remove (RTick e) s = Done s' () ∧ engine_is s' e Ended.
Proof.
  intros Hs He. unfold engine_is in *. destruct (r_calls s !! e) as [[er pc en]|] eqn:Hx; [|done].
  injection He as ->. simpl. unfold Engine_tick, at_call. rewrite Hx. simpl. rewrite Hs.
  eexists. split; [done|]. simpl. by rewrite list_lookup_insert_eq by (by eapply lookup_lt_Some).
Qed.

Lemma tick_serving s s' e :
  rexec k eng_Stop os_Remove (RTick e) s = Done s' () → engine_is s e Serving.
Proof.
  simpl. intros ([er pc en] & Hx & E)%at_call_done. unfold engine_is. rewrite Hx. by destruct en.
Qed.

Lemma stop_closed_run ls s s' :
  stop_closed s → RStart ∉ ls → rrun k eng_Stop os_Remove ls s = Done s' () →
  stop_closed s' ∧ (∀ e, engine_is s e Ended → engine_is s' e Ended) ∧
  ∀ e, RTick e ∈ ls → engine_is s' e Ended.
Proof.
  revert s. induction ls as [|l ls IH]; intros s Hs Hn; simpl.
  { intros [= <-]. split_and!; [done..|]. by intros e ?%not_elem_of_nil. }
  apply not_elem_of_cons in Hn as [Hl Hn]. unfold mbind, go_bind.
  destruct (rexec _ _ _ l s) as [s1 []| |] eqn:E; try done. intros Hr.
  destruct (IH s1) as (Hs' & Hend & Htick); [by eapply stop_closed_stays|done..|].
  split_and!; [done| |].
  - intros e He. apply Hend. by eapply engine_is_Ended_stays.
  - intros e [<-|?]%elem_of_cons; [|auto]. apply Hend.
    destruct (tick_ends s e Hs (tick_serving _ _ _ E)) as (s2 & E2 & He). congruence.
Qed.

(** C25: Stopping a UDP, UDS or dummy server ends every engine of it, those of earlier calls of
    [Start] too: in any run after [Stop] that does not call [Start] again, an engine whose
    ticker has been called has ended, and one that still serves ends when it is called
    next. *)
Theorem stop_ends_every_engine (s s1 s2 : rserver) (r : option error) (ls : list rlabel) :
  k ≠ KTcp → Stop_server k eng_Stop os_Remove s = Done s1 r → RStart ∉ ls →
  rrun k eng_Stop os_Remove ls s1 = Done s2 () →
  ∀ e, (RTick e ∈ ls → engine_is s2 e Ended) ∧
       (engine_is s2 e Serving →
        ∃ s3, rexec k eng_Stop os_Remove (RTick e) s2 = Done s3 () ∧ engine_is s3 e Ended).
Proof.
  intros Hk E Hn Hr e. assert (stop_closed s1) as Hs.
  { assert (rexec k eng_Stop os_Remove RStop s = Done s1 ()) as E1%rexec_fields.
    { simpl. by erewrite go_bind_done by exact E. }
    rewrite decide_False in E1 by done. unfold stop_closed. by destruct E1 as (-> & _ & _ & ? & _). }
  destruct (stop_closed_run _ _ _ Hs Hn Hr) as (Hs2 & _ & Htick). split; [apply Htick|].
  by apply tick_ends.
Qed.

(** ** TCP *)

(** The stop channel of a TCP server is open. *)
Record stop_open (s : rserver) : Prop := {
  so_open : chan_closed s (r_stop s) = false;
  so_distinct : r_stop s ≠ r_started s;
  so_stop : r_stop s < length (r_chans s);
  so_started : r_started s < length (r_chans s);
}.

Lemma stop_open_step l s s' :
  k = KTcp → stop_open s → rexec k eng_Stop os_Remove l s = Done s' () → stop_open s'.
Proof.
  intros Hk [] E%rexec_fields. destruct l; try match type of E with keeps _ _ =>
    destruct E as [E1 E2 E3 Hc]; split; rewrite ?E1, ?E2, ?E3, ?Hc; done end.
  - destruct E as ((E1 & E2 & Hc) & E3 & E4). split; rewrite ?E1, ?E3, ?E4; (done || lia).
  - destruct E as ((E1 & E2 & Hc) & E3 & E4). split; rewrite ?E1, ?E3, ?E4; try lia. by rewrite Hc.
  - destruct E as (E1 & E2 & E3 & _ & Hc). split; rewrite ?E1, ?E2, ?E3; try done. by rewrite Hc.
  - rewrite decide_True in E by done. destruct E as [E1 E2 E3 Hc].
    split; rewrite ?E1, ?E2, ?E3, ?Hc; done.
Qed.

Lemma stop_open_run ls s s' :
  k = KTcp → stop_open s → rrun k eng_Stop os_Remove ls s = Done s' () → stop_open s'.
Proof.
  intros Hk. revert s. induction ls as [|l ls IH]; intros s Hs; simpl; [by intros [= <-]|].
  unfold mbind, go_bind. destruct (rexec _ _ _ l s) as [s1 []| |] eqn:E; try done.
  apply IH. by eapply stop_open_step.
Qed.

(** The engine field changes in a boot callback only. *)
Lemma chan_receive_eng i d s s' : chan_receive i d s = Done s' () → r_eng s' = r_eng s.
Proof. unfold chan_receive. intros E. by repeat case_match; simplify_eq. Qed.

Lemma chan_close_eng i s s' : chan_close i s = Done s' () → r_eng s' = r_eng s.
Proof. unfold chan_close. intros E. by repeat case_match; simplify_eq. Qed.

Lemma move_eng c f s s' : move c f s = Done s' () → r_eng s' = r_eng s.
Proof. unfold move. intros [= <-]. by destruct (r_calls s !! c). Qed.

Lemma rexec_eng l s s' e :
  rexec k eng_Stop os_Remove l s = Done s' () → engine_is s e Serving → r_eng s ≠ Some e →
  r_eng s' ≠ Some e.
Proof.
  intros E He Hr. destruct l; simpl in E;
    try (apply at_call_done in E as ([er pc en] & Hx & E); simpl in E).
  - by injection E as <-.
  - destruct pc, en; try done. by injection E as <-.
  - destruct pc; try done. by injection E as <-.
  - destruct pc; try done. unfold mbind, go_bind in E.
    destruct (chan_receive _ _ s) as [s1 []| |] eqn:Er; try done.
    by rewrite (move_eng _ _ _ _ E), (chan_receive_eng _ _ _ _ Er).
  - destruct pc; try done. unfold mbind, go_bind in E.
    destruct (chan_close _ s) as [s1 []| |] eqn:Ec; try done.
    by rewrite (move_eng _ _ _ _ E), (chan_close_eng _ _ _ Ec).
  - destruct pc, er; try done; by injection E as <-.
  - destruct pc; try done. by injection E as <-.
  - destruct en; try done. injection E as <-. simpl. destruct k; try done.
    intros [= ->]. by apply (engine_is_lookup _ _ _ _ Hx) in He.
  - destruct en; try done. by repeat case_match; simplify_eq.
  - destruct en; try done; by injection E as <-.
  - destruct en; try done. case_match; by injection E as <-.
  - unfold mbind, go_bind in E. destruct (Stop_server _ _ _ s) as [s1 r| |] eqn:Es; try done.
    injection E as ->. destruct (Stop_server_cases k eng_Stop os_Remove eng_Stop_serving s) as
      [(Hk & [[e1 E1]|(c & x & _ & _ & _ & E1)])|(Hk & e1 & E1)]; rewrite E1 in Es;
      [by injection Es as <- _..|].
    unfold mbind, go_bind in Es. destruct (chan_close _ s) as [s2 []| |] eqn:Ec; try done.
    injection Es as <- _. by rewrite (chan_close_eng _ _ _ Ec).
  - by rewrite (chan_receive_eng _ _ _ _ E).
Qed.

(** C26: A TCP server has one engine field for all its engines. Once a later call of [Start]
    has stored its engine there, the engine of an earlier call cannot be stopped any more:
    whatever is called on the server, [Stop] and [Start] included, it goes on serving
    unless the library itself fails. *)
Theorem tcp_superseded_engine_never_ends (ls1 ls2 : list rlabel) (s1 s2 : rserver) (e : nat) :
  k = KTcp → rrun k eng_Stop os_Remove ls1 new_rserver = Done s1 () →
  engine_is s1 e Serving → r_eng s1 ≠ Some e →
  rrun k eng_Stop os_Remove ls2 s1 = Done s2 () → (∀ err, RFail e err ∉ ls2) →
  engine_is s2 e Serving.
Proof.
  intros Hk Hr1 He Hne. assert (stop_open s1) as Ho.
  { eapply stop_open_run; [done| |exact Hr1]. by split; simpl; auto. }
  clear Hr1. revert s1 He Hne Ho. induction ls2 as [|l ls IH]; intros s He Hne Ho; simpl.
  { by intros [= <-]. }
  unfold mbind, go_bind. destruct (rexec _ _ _ l s) as [s3 []| |] eqn:E; try done.
  intros Hr Hf. apply (IH s3); [|by eapply rexec_eng|by eapply stop_open_step|done|].
  - destruct (engine_stays l s s3 e Serving) as [?|[_ [[_ Hc]|[[err ->]|(_ & _ & ?)]]]]; auto.
    + rewrite (so_open _ Ho) in Hc. done.
    + destruct (Hf err). by left.
    + done.
  - intros err Hin. apply (Hf err). by right.
Qed.

(** * Restarting too early *)

(** A new [Start] replaces the stop channel before the ticker of a running engine has seen
    that it was closed: the engine goes on serving. *)
Theorem restart_undoes_stop (s : rserver) (e : nat) :
  engine_is s e Serving →
  ∃ s', rrun k eng_Stop os_Remove [RStart; RTick e] s = Done s' () ∧
        engine_is s' e Serving ∧ ¬ stop_closed s'.
Proof.
  intros He. set (s1 := MkServer (r_chans s ++ [MkChan 0 0 false]) (length (r_chans s)) (r_started s)
    (r_eng s) (r_calls s ++ [MkCall ErrEmpty CMade NotLaunched])).
  assert (chan_closed s1 (r_stop s1) = false) as Hc.
  { unfold chan_closed. simpl. by rewrite lookup_app_last. }
  unfold engine_is in He. destruct (r_calls s !! e) as [[er pc en]|] eqn:Hx; [|done].
  injection He as ->. assert (r_calls s1 !! e = Some (MkCall er pc Serving)) as Hx1.
  { simpl. by apply lookup_app_l_Some. }
  exists s1. split_and!; [|unfold engine_is; by rewrite Hx1|unfold stop_closed; by rewrite Hc].
  simpl. unfold mbind, go_bind, Start_stopChan. fold s1. unfold Engine_tick, at_call.
  rewrite Hx1. simpl c_engine. by rewrite Hc.
Qed.
(** ** Two calls that share a channel *)

Definition call_at (s : rserver) (c : nat) (p : call_pc) : Prop :=
  c_pc <$> r_calls s !! c = Some p.

(** The engines [a] and [b] wait to send on the channel in the field, from which the call
    [c] waits to receive. *)
Record shared (s : rserver) (c a b : nat) : Prop := {
  sh_chan : r_chans s !! r_started s = Some (MkChan (started_cap k) 0 false);
  sh_call : call_at s c (CSelect (r_started s));
  sh_first : engine_is s a (Sending (r_started s));
  sh_other : engine_is s b (Sending (r_started s));
  sh_two : a ≠ b;
}.

(** What call [c] of [Start] receives its token with. *)
Definition token (c a : nat) : list rlabel :=
  if decide (k = KDummy) then [RSend a; RToken c None] else [RToken c (Some a)].

Lemma rrun_cons l ls s s1 r :
  rexec k eng_Stop os_Remove l s = Done s1 () → rrun k eng_Stop os_Remove ls s1 = r →
  rrun k eng_Stop os_Remove (l :: ls) s = r.
Proof. simpl. unfold mbind, go_bind. by intros ->. Qed.

(** Channels stay closed, and a doomed engine where it is. *)
Lemma closed_stays l s s' i :
  chan_closed s i = true → rexec k eng_Stop os_Remove l s = Done s' () → chan_closed s' i = true.
Proof.
  intros Hi E%rexec_fields. pose proof (chan_closed_lt _ _ Hi).
  assert (∀ j, closes j s s' → chan_closed s' i = true) as Hcl.
  { intros j (_ & _ & _ & Hj & Hc). destruct (decide (i = j)) as [->|]; [done|by rewrite Hc]. }
  destruct l; try match type of E with keeps _ _ => by rewrite (kp_closed _ _ E) end; eauto.
  - destruct E as ((_ & _ & Hc) & _). by rewrite Hc.
  - destruct E as ((_ & _ & Hc) & _). by rewrite Hc.
  - case_decide; [by rewrite (kp_closed _ _ E)|eauto].
Qed.

Lemma doomed_run ls s s' e i :
  engine_is s e (Sending i) → chan_closed s i = true →
  rrun k eng_Stop os_Remove ls s = Done s' () →
  engine_is s' e (Sending i) ∧ chan_closed s' i = true.
Proof.
  revert s. induction ls as [|l ls IH]; intros s He Hc; simpl; [by intros [= <-]|].
  unfold mbind, go_bind. destruct (rexec _ _ _ l s) as [s1 []| |] eqn:E; try done.
  apply IH; [|by eapply closed_stays].
  destruct (engine_stays l s s1 e (Sending i)) as [?|[? _]]; [|done..]. unfold doomed. eauto.
Qed.

Lemma doomed_panics s e i :
  engine_is s e (Sending i) → chan_closed s i = true →
  rexec k eng_Stop os_Remove (RSend e) s = Panicked PanicSendClosed.
Proof.
  unfold engine_is, chan_closed. intros He Hc. simpl. unfold Boot_send, at_call.
  destruct (r_calls s !! e) as [[er pc en]|]; [|done]. injection He as ->. simpl.
  destruct (r_chans s !! i); [|done]. by rewrite Hc.
Qed.

Lemma rrun_app ls1 ls2 s s1 :
  rrun k eng_Stop os_Remove ls1 s = Done s1 () →
  rrun k eng_Stop os_Remove (ls1 ++ ls2) s = rrun k eng_Stop os_Remove ls2 s1.
Proof.
  revert s. induction ls1 as [|l ls1 IH]; intros s; simpl; [by intros [= ->]|].
  unfold mbind, go_bind. destruct (rexec _ _ _ l s) as [s2 []| |]; try done. apply IH.
Qed.

(** The parts of the calls that these steps leave as they were: where the calls other than
    [c] stand, and the engines other than [a]. *)
Record frame (c a : nat) (s s' : rserver) : Prop := {
  fr_calls d p : d ≠ c → call_at s d p → call_at s' d p;
  fr_engines d p : d ≠ a → engine_is s d p → engine_is s' d p;
  fr_started : r_started s' = r_started s;
}.

#[local] Instance frame_preorder c a : PreOrder (frame c a).
Proof. split; [by intros s|]. intros s1 s2 s3 [] []. split; [eauto..|congruence]. Qed.

Lemma call_at_put s c x d p :
  call_at s d p → (c = d → c_pc x = p) → call_at (put_call c x s) d p.
Proof.
  unfold call_at. simpl. intros Hd Hx. destruct (decide (c = d)) as [->|].
  - rewrite list_lookup_insert_eq; [simpl; by rewrite Hx|].
    destruct (r_calls s !! d) eqn:E; [by eapply lookup_lt_Some|done].
  - by rewrite list_lookup_insert_ne.
Qed.

Lemma frame_engine c a p x s :
  r_calls s !! a = Some x → frame c a s (put_call a (set_engine p x) s).
Proof.
  intros Hx. split; [|intros; by apply engine_put|done].
  intros d q _ Hd. apply call_at_put; [done|]. intros ->. unfold call_at in Hd.
  rewrite Hx in Hd. by injection Hd.
Qed.

Lemma frame_move c a p s : ∃ s', move c (set_pc p) s = Done s' () ∧ frame c a s s' ∧
  r_chans s' = r_chans s ∧ (∀ q, call_at s c q → call_at s' c p).
Proof.
  unfold move. eexists. split; [done|]. destruct (r_calls s !! c) as [x|] eqn:Hx.
  - split_and!; [split| |]; try done.
    + intros d q ? ?. apply call_at_put; congruence.
    + intros d q _ Hd. apply engine_put; [done|]. intros ->.
      simpl. by eapply engine_is_lookup.
    + intros q _. unfold call_at. simpl.
      by rewrite list_lookup_insert_eq by (by eapply lookup_lt_Some).
  - split_and!; [done..|]. intros q. unfold call_at. by rewrite Hx.
Qed.

Lemma receive_token s s1 c i e :
  call_at s c (CSelect i) → chan_receive i e s = Done s1 () → call_at s1 c (CSelect i) →
  ∃ s2, rexec k eng_Stop os_Remove (RToken c e) s = Done s2 () ∧
    call_at s2 c CToken ∧ (∀ a, frame c a s1 s2) ∧ r_chans s2 = r_chans s1.
Proof.
  intros Hc E Hc1. destruct (frame_move c c CToken s1) as (s2 & E2 & _ & Hch & Hat).
  exists s2. split_and!; [|eauto| |done].
  - unfold call_at in Hc. simpl. unfold Select_started, at_call.
    destruct (r_calls s !! c) as [[er pc en]|]; [|done]. injection Hc as ->. simpl.
    by rewrite (go_bind_done _ _ _ _ _ E).
  - intros a. destruct (frame_move c a CToken s1) as (? & ? & ? & _). congruence.
Qed.

(** The call takes the token of the first engine, *)
Lemma token_taken s c a b :
  shared s c a b →
  ∃ s1, rrun k eng_Stop os_Remove (token c a) s = Done s1 () ∧ call_at s1 c CToken ∧
    frame c a s s1 ∧ r_chans s1 !! r_started s = r_chans s !! r_started s.
Proof.
  intros [Hch Hc Ha _ _]. set (i := r_started s) in *. unfold engine_is in Ha.
  destruct (r_calls s !! a) as [[er pc en]|] eqn:Hx; [|done]. injection Ha as ->.
  pose proof (lookup_lt_Some _ _ _ Hch) as Hlt.
  set (x := MkCall er pc (Sending i)) in *. unfold token. rewrite Hch. case_decide as Hk.
  - assert (started_cap k = 1) as Hcap by by rewrite Hk. rewrite Hcap in *. set (s1 := put_call a (set_engine Serving x) (put_chan i (MkChan 1 1 false) s)).
    set (s2 := put_chan i (MkChan 1 0 false) s1).
    assert (frame c a s s1) as Hf.
    { etrans; [|apply (frame_engine c a Serving x (put_chan i (MkChan 1 1 false) s)); exact Hx].
      by split. }
    assert (call_at s1 c (CSelect i)) as Hc1.
    { apply (call_at_put (put_chan i _ s)); [done|]. intros ->. unfold call_at in Hc.
      rewrite Hx in Hc. by injection Hc. }
    destruct (receive_token s1 s2 c i None) as (s3 & E3 & Hc3 & Hf3 & Hch3); [done| |done|].
    { unfold chan_receive. simpl. by rewrite list_lookup_insert_eq. }
    exists s3. split_and!; [|done| |].
    + eapply rrun_cons; [|by eapply rrun_cons]. simpl. unfold Boot_send, at_call.
      rewrite Hx. simpl. by rewrite Hch.
    + etrans; [exact Hf|]. etrans; [|exact (Hf3 a)]. by split.
    + rewrite Hch3. simpl. by rewrite list_lookup_insert_eq by by rewrite length_insert.
  - set (s1 := put_call a (set_engine Serving x) s).
    destruct (receive_token s s1 c i (Some a)) as (s3 & E3 & Hc3 & Hf3 & Hch3); [done| | |].
    { unfold chan_receive. rewrite Hch, Hx. simpl. rewrite decide_True; [done|]. by destruct k. }
    { apply call_at_put; [done|]. intros ->. unfold call_at in Hc. rewrite Hx in Hc. by injection Hc. }
    exists s3. split_and!; [by eapply rrun_cons|done| |by rewrite Hch3].
    etrans; [by apply (frame_engine c a Serving)|exact (Hf3 a)].
Qed.

(** and closes the channel. *)
Lemma token_closed s c a b :
  shared s c a b →
  ∃ s1, rrun k eng_Stop os_Remove (token c a ++ [RClose c]) s = Done s1 () ∧ call_at s1 c CUp ∧
    frame c a s s1 ∧ chan_closed s1 (r_started s) = true.
Proof.
  intros Hs. destruct (token_taken s c a b Hs) as (s1 & E1 & Hc1 & Hf1 & Hch1).
  rewrite (sh_chan _ _ _ _ Hs) in Hch1. set (i := r_started s) in *.
  set (s2 := put_chan i (MkChan (started_cap k) 0 true) s1).
  destruct (frame_move c a CUp s2) as (s3 & E3 & Hf3 & Hch3 & Hat).
  exists s3. split_and!; [|by eapply Hat|etrans; [exact Hf1|]; etrans; [|exact Hf3]; by split|].
  - rewrite (rrun_app _ _ _ s1) by done. eapply rrun_cons; [|reflexivity].
    unfold call_at in Hc1. simpl. unfold Close_started, at_call.
    destruct (r_calls s1 !! c) as [[er pc en]|]; [|done]. injection Hc1 as ->. simpl.
    rewrite (go_bind_done (chan_close (r_started s1)) _ s1 s2 ()); [done|].
    unfold chan_close. rewrite (fr_started _ _ _ _ Hf1). fold i. by rewrite Hch1.
  - unfold chan_closed. rewrite Hch3. simpl.
    by rewrite list_lookup_insert_eq by (by eapply lookup_lt_Some).
Qed.

(** A call that still waits there then receives from the closed channel and closes it. *)
Lemma second_close_panics s d :
  call_at s d (CSelect (r_started s)) → chan_closed s (r_started s) = true →
  rrun k eng_Stop os_Remove [RToken d None; RClose d] s = Panicked PanicCloseClosed.
Proof.
  intros Hd Hcl. unfold chan_closed in Hcl.
  destruct (r_chans s !! r_started s) as [[cap buf cl]|] eqn:Hch; [|done]. simpl in Hcl. subst cl.
  pose proof (lookup_lt_Some _ _ _ Hch).
  assert (∃ s1 n, chan_receive (r_started s) None s = Done s1 () ∧ r_calls s1 = r_calls s ∧
    r_started s1 = r_started s ∧ r_chans s1 !! r_started s = Some (MkChan cap n true)) as
    (s1 & n & E & Hc1 & Hst1 & Hch1).
  { unfold chan_receive. rewrite Hch. simpl. destruct buf; eexists _, _; split_and!; try done.
    simpl. by rewrite list_lookup_insert_eq. }
  destruct (receive_token s s1 d (r_started s) None) as (s2 & E2 & Hd2 & Hf & Hch2); [done..| |].
  { unfold call_at. by rewrite Hc1. }
  eapply rrun_cons; [exact E2|]. cbn [rrun rexec]. apply go_bind_panic.
  unfold Close_started, at_call. unfold call_at in Hd2.
  destruct (r_calls s2 !! d) as [[er pc en]|]; [|done]. injection Hd2 as ->. simpl.
  unfold mbind, go_bind, chan_close. by rewrite (fr_started _ _ _ _ (Hf d)), Hst1, Hch2, Hch1.
Qed.

(** From any state of the server, two calls of [Start] that overlap come to share a channel, *)
Definition overlapping (n : nat) : list rlabel :=
  [RStart; RLaunch n; RStart; RLaunch (S n); RSelect n; RSelect (S n); RBoot n; RBoot (S n)].

(** and so do a call that was too slow and another one. *)
Definition retried (n : nat) : list rlabel :=
  [RStart; RLaunch n; RSelect n; RTimeout n; RStart; RLaunch (S n); RSelect (S n); RBoot n;
   RBoot (S n)].

Lemma lookup_past {A} (l1 l2 : list A) i : (l1 ++ l2) !! (length l1 + i) = l2 !! i.
Proof. rewrite lookup_app_r by lia. by replace (length l1 + i - length l1) with i by lia. Qed.

Lemma lookup_two {A} (l : list A) x y :
  (l ++ [x; y]) !! length l = Some x ∧ (l ++ [x; y]) !! S (length l) = Some y.
Proof.
  split; [by rewrite list_lookup_middle|]. rewrite <- (Nat.add_1_r (length l)). by rewrite lookup_past.
Qed.

(** The last calls of a server. *)
Lemma at_last cs x xs f chs st sta eng :
  at_call (length cs) f (MkServer chs st sta eng (cs ++ x :: xs)) =
  f x (MkServer chs st sta eng (cs ++ x :: xs)).
Proof. unfold at_call. simpl. by rewrite list_lookup_middle. Qed.

Lemma at_last_but cs x y f chs st sta eng :
  at_call (S (length cs)) f (MkServer chs st sta eng (cs ++ [x; y])) =
  f y (MkServer chs st sta eng (cs ++ [x; y])).
Proof. unfold at_call. simpl. by rewrite (proj2 (lookup_two cs x y)). Qed.

Lemma insert_last (cs xs : list call) x y : <[length cs := x]> (cs ++ y :: xs) = cs ++ x :: xs.
Proof. rewrite <- (Nat.add_0_r (length cs)). by rewrite insert_app_r. Qed.

Lemma insert_last_but (cs : list call) x y z :
  <[S (length cs) := z]> (cs ++ [x; y]) = cs ++ [x; z].
Proof. rewrite <- (Nat.add_1_r (length cs)). by rewrite insert_app_r. Qed.

Ltac step_last :=
  eapply rrun_cons;
  [cbn [rexec]; unfold Start_stopChan, Start_launch, Start_select, Select_timeout, Boot_callback;
   rewrite ?at_last, ?at_last_but; simpl; unfold put_call; simpl;
   rewrite ?insert_last, ?insert_last_but, <- ?(assoc_L (++)); simpl; reflexivity|].

Ltac share_last :=
  repeat split; unfold call_at, engine_is; simpl; rewrite ?length_app, ?lookup_past;
  rewrite ?(proj1 (lookup_two _ _ _)), ?(proj2 (lookup_two _ _ _)); simpl;
  rewrite ?length_app; (done || lia).

(** C27: A server must not be started again too early, whichever of the four it is and
    whatever was done with it before: a second call of [Start] that overlaps the first one
    can come to share its channel, and so can one that follows a call that timed out,
    whose late engine is then on that channel too. Whenever a call and two engines share
    a channel, the call can take the token of the first engine and return nil; from then
    on the other engine, which has not sent its own, can only panic in its boot callback,
    whatever is called on the server, [Stop] included; and another call that waits on the
    channel can go on to close it a second time and panic. *)
Theorem early_restart_crashes (s : rserver) (n := length (r_calls s)) :
  (∃ s1, rrun k eng_Stop os_Remove (overlapping n) s = Done s1 () ∧ shared s1 n n (S n) ∧
     call_at s1 (S n) (CSelect (r_started s1))) ∧
  (∃ s1, rrun k eng_Stop os_Remove (retried n) s = Done s1 () ∧ shared s1 (S n) n (S n) ∧
     call_at s1 n (CRet (Some (Errorf (kind_name k +:+ " did not start in time") [])))) ∧
  ∀ c a b, shared s c a b →
  ∃ s1, rrun k eng_Stop os_Remove (token c a ++ [RClose c]) s = Done s1 () ∧
    call_at s1 c CUp ∧
    (∀ ls s2, rrun k eng_Stop os_Remove ls s1 = Done s2 () →
       engine_is s2 b (Sending (r_started s)) ∧
       rexec k eng_Stop os_Remove (RSend b) s2 = Panicked PanicSendClosed) ∧
    (∀ d, d ≠ c → call_at s d (CSelect (r_started s)) →
       rrun k eng_Stop os_Remove [RToken d None; RClose d] s1 = Panicked PanicCloseClosed).
Proof.
  unfold n. clear n. split_and!.
  - destruct s as [chs st sta eng cs]. cbn [r_calls]. eexists.
    split; [unfold overlapping; do 8 step_last; reflexivity|share_last].
  - destruct s as [chs st sta eng cs]. cbn [r_calls]. eexists.
    split; [unfold retried; do 9 step_last; reflexivity|share_last].
  - intros c a b Hs. destruct (token_closed s c a b Hs) as (s1 & E1 & Hc1 & Hf & Hcl).
    exists s1. split_and!; [done|done| |].
    + intros ls s2 Hr. destruct (doomed_run ls s1 s2 b (r_started s)) as [Hb2 Hcl2]; [|done..|].
      * apply (fr_engines _ _ _ _ Hf); [|apply Hs]. intros ->. by apply (sh_two _ _ _ _ Hs).
      * split; [done|]. by eapply doomed_panics.
    + intros d Hne Hd. apply (fr_calls _ _ _ _ Hf) in Hd; [|done].
      apply second_close_panics; by rewrite (fr_started _ _ _ _ Hf).
Qed.
End engines.
