(* ===== verification/RestartSim.v ===== *)
(** One call of [Start], field access by field access, does what the coarser steps of
    [Lifecycle] say: a forward simulation along an abstraction function. *)
From S2P Require Import Prelude GoRuntime Lifecycle Restart RestartStop.

(** * The abstraction *)

Section abstraction.
Context (k : kind).

Definition start_of (p : call_pc) : start_pc :=
  match p with
  | CMade | CWait | CSelect _ => SWait
  | CToken | CUp => SUp
  | CRet r => SRet r
  end.

(** The engine is launched as soon as the call has begun. *)
Definition engine_of (p : engine_at) : engine_pc :=
  match p with NotLaunched => EBoot | _ => engine_pc_of p end.

Definition close_flag (c : chan) : chan := MkChan (ch_cap c) (ch_buf c) true.

(** A call that has begun has its channel, one that has its token has closed it. *)
Definition chans_of (s : rserver) (x : call) : list chan :=
  match c_pc x with
  | CMade => r_chans s ++ [MkChan (started_cap k) 0 false]
  | CToken => alter close_flag (r_started s) (r_chans s)
  | _ => r_chans s
  end.

Definition started_of (s : rserver) (x : call) : nat :=
  match c_pc x with CMade => length (r_chans s) | _ => r_started s end.

Definition life_of_call (s : rserver) (x : call) : life :=
  MkLife (chans_of s x) (r_stop s) (started_of s x) (c_err x) (start_of (c_pc x))
    (engine_of (c_engine x)).

Definition life_of (s : rserver) : life :=
  match r_calls s with
  | [] => MkLife (r_chans s) (r_stop s) (r_started s) ErrEmpty SIdle ENone
  | x :: _ => life_of_call s x
  end.

(** The steps of [Lifecycle] a step stands for. *)
Definition steps_of (l : rlabel) : list label :=
  match l with
  | RStart => [Call_Start]
  | RLaunch _ | RSelect _ | RClose _ => []
  | RToken _ _ => [Sel_started]
  | RErr _ => [Sel_err]
  | RTimeout _ => [Sel_timeout]
  | RBoot _ => [Boot]
  | RSend _ => [Send]
  | RFail _ err => [Fail_serve err]
  | RTick _ => [Tick_engine]
  | RStop => [Call_Stop]
  | RObserve i _ => [Observe i]
  end.
End abstraction.

(** * The simulation *)

Section simulation.
Context (k : kind) (eng_Stop : engine_pc → option error) (os_Remove : option error).
(** [Engine.Stop] succeeds on a serving engine only. *)
Hypothesis eng_Stop_serving : ∀ p, eng_Stop p = None → p = ERun.

Definition lrun : list label → Go life () := run k eng_Stop os_Remove.

Lemma lrun_one l s s' : exec k eng_Stop os_Remove l s = Done s' () → lrun [l] s = Done s' ().
Proof. intros E. unfold lrun. simpl. by erewrite go_bind_done by exact E. Qed.

Lemma lrun_app ls1 ls2 s s1 :
  lrun ls1 s = Done s1 () → lrun (ls1 ++ ls2) s = lrun ls2 s1.
Proof.
  unfold lrun. revert s. induction ls1 as [|l ls1 IH]; intros s; simpl; [by intros [= ->]|].
  unfold mbind, go_bind. destruct (exec _ _ _ l s) as [s2 []| |] eqn:E; try done. apply IH.
Qed.

(** The number of calls. *)
Lemma rexec_calls l s s' :
  rexec k eng_Stop os_Remove l s = Done s' () →
  length (r_calls s') = (if decide (l = RStart) then S else id) (length (r_calls s)).
Proof.
  intros E. case_decide as Hl; [subst l; injection E as <-; simpl; rewrite length_app; simpl; lia|].
  assert (∀ i d s1 s2, chan_receive i d s1 = Done s2 () → length (r_calls s2) = length (r_calls s1)) as Hr.
  { intros i d s1 s2. unfold chan_receive. intros E1. repeat case_match; simplify_eq; try done.
    simpl. by rewrite length_insert. }
  assert (∀ i s1 s2, chan_close i s1 = Done s2 () → length (r_calls s2) = length (r_calls s1)) as Hc.
  { intros i s1 s2. unfold chan_close. intros E1. by repeat case_match; simplify_eq. }
  assert (∀ c f s1 s2, move c f s1 = Done s2 () → length (r_calls s2) = length (r_calls s1)) as Hm.
  { intros c f s1 s2. unfold move. intros [= <-]. destruct (r_calls s1 !! c); simpl;
      by rewrite ?length_insert. }
  unfold id. destruct l; simpl in E;
    try (apply at_call_done in E as ([er pc en] & Hx & E); simpl in E); try done;
    try (repeat case_match; simplify_eq; simpl; by rewrite ?length_insert).
  - destruct pc; try done. unfold mbind, go_bind in E.
    destruct (chan_receive _ _ s) as [s1 []| |] eqn:Er; try done.
    by rewrite (Hm _ _ _ _ E), (Hr _ _ _ _ Er).
  - destruct pc; try done. unfold mbind, go_bind in E.
    destruct (chan_close _ s) as [s1 []| |] eqn:Er; try done.
    by rewrite (Hm _ _ _ _ E), (Hc _ _ _ Er).
  - unfold mbind, go_bind in E. destruct (Stop_server _ _ _ s) as [s1 r| |] eqn:Es; try done.
    injection E as ->. destruct (Stop_server_cases k eng_Stop os_Remove eng_Stop_serving s) as
      [(Hk & [[e1 E1]|(c & x & _ & _ & _ & E1)])|(Hk & e1 & E1)]; rewrite E1 in Es.
    + by injection Es as <- _.
    + injection Es as <- _. simpl. by rewrite length_insert.
    + unfold mbind, go_bind in Es. destruct (chan_close _ s) as [s2 []| |] eqn:Ec; try done.
      injection Es as <- _. by apply Hc in Ec.
  - by apply Hr in E.
Qed.

(** The channels of the two sides. *)
Definition flag (s : rserver) (x : call) (i : nat) (c : chan) : chan :=
  match c_pc x with
  | CToken => if decide (i = r_started s) then close_flag c else c
  | _ => c
  end.

Lemma flag_id s x i c : c_pc x ≠ CToken ∨ i ≠ r_started s → flag s x i c = c.
Proof. unfold flag. destruct (c_pc x); try done. intros [?|?]; [done|by rewrite decide_False]. Qed.

Lemma chans_of_lookup s x i c :
  r_chans s !! i = Some c → chans_of k s x !! i = Some (flag s x i c).
Proof.
  intros Hi. unfold chans_of, flag. destruct (c_pc x); try done.
  - by apply lookup_app_l_Some.
  - case_decide as E; [subst i; by rewrite list_lookup_alter_eq, Hi|by rewrite list_lookup_alter_ne].
Qed.

Lemma chans_of_put s x i c c' :
  r_chans s !! i = Some c →
  chans_of k (put_chan i c' s) x = <[i := flag s x i c']> (chans_of k s x).
Proof.
  intros Hi. pose proof (lookup_lt_Some _ _ _ Hi). unfold chans_of, flag.
  destruct (c_pc x); try done; simpl; [by rewrite insert_app_l|].
  apply list_eq. intros j. case_decide as E; [subst i|]; destruct (decide (j = r_started s)) as [->|].
  - rewrite list_lookup_alter_eq, !list_lookup_insert_eq; [done|by rewrite length_alter|done].
  - by rewrite list_lookup_alter_ne, !list_lookup_insert_ne, list_lookup_alter_ne.
  - by rewrite list_lookup_alter_eq, !list_lookup_insert_ne, list_lookup_alter_eq.
  - rewrite list_lookup_alter_ne by done. destruct (decide (i = j)) as [->|].
    + rewrite !list_lookup_insert_eq; [done|by rewrite length_alter|done].
    + by rewrite !list_lookup_insert_ne, list_lookup_alter_ne.
Qed.

(** The life of a server with one call. *)
Lemma life_of_one s x : r_calls s = [x] → life_of k s = life_of_call k s x.
Proof. unfold life_of. by intros ->. Qed.

Lemma life_of_put_call s x x' : r_calls s = [x] → life_of k (put_call 0 x' s) = life_of_call k s x'.
Proof. unfold life_of. simpl. by intros ->. Qed.

Lemma life_of_put s x i c c' :
  r_chans s !! i = Some c →
  life_of_call k (put_chan i c' s) x = set_chan i (flag s x i c') (life_of_call k s x).
Proof.
  intros Hi. unfold life_of_call, set_chan. simpl.
  rewrite (chans_of_put s x i c c' Hi). f_equal. unfold started_of. simpl. by rewrite length_insert.
Qed.

(** A call whose engine is at its send. *)
Lemma sim_sending s x i c :
  server_inv s → r_calls s = [x] → c_engine x = Sending i → r_chans s !! i = Some c →
  i = r_started s ∧ ch_closed c = false ∧ ch_buf c = 0 ∧ c_pc x ≠ CMade ∧ c_pc x ≠ CToken.
Proof.
  intros Hinv Hx He Hc. assert (r_calls s !! 0 = Some x) as Hx0 by by rewrite Hx.
  destruct (sending_open s 0 x i c Hinv Hx0 He Hc) as (-> & Hcl & Hl & Hm).
  destruct (rv_calls _ Hinv) as (ch & Hch & Hcalls). assert (ch = c) as -> by congruence.
  destruct (Hcalls 0 x Hx0). split_and!; try done.
  - destruct (ci_chan Hl Hm) as [_ Hb]. destruct (ch_buf c); [done|].
    rewrite He in Hb. discriminate Hb. lia.
  - intros Ht. rewrite He in ci_up. by specialize (ci_up (or_introl Ht)).
Qed.

Lemma sim_receive i e s s' :
  server_inv s → length (r_calls s) ≤ 1 → chan_receive i e s = Done s' () →
  receive i (life_of k s) = Done (life_of k s') ().
Proof.
  intros Hinv Hl E. unfold chan_receive in E.
  destruct (r_chans s !! i) as [c|] eqn:Hc; [|done].
  destruct (r_calls s) as [|x [|]] eqn:Hx; [| |simpl in Hl; lia].
  { destruct e; [done|]. unfold receive, life_of. rewrite Hx. simpl. rewrite Hc.
    destruct (ch_buf c); [by destruct (ch_closed c); simplify_eq; rewrite Hx|].
    injection E as <-. simpl. by rewrite Hx. }
  rewrite (life_of_one s x Hx). unfold receive. simpl. rewrite (chans_of_lookup s x i c Hc).
  destruct e as [e|].
  - destruct e as [|e]; [|done].
    destruct x as [er pc [| |j| | |]]; try done. simpl in E. case_decide as Hj; [|done].
    injection E as <-. destruct Hj as (-> & Hcap & Hcl).
    destruct (sim_sending s _ i c Hinv Hx eq_refl Hc) as (-> & _ & Hb & Hm & Ht).
    rewrite flag_id by (by left). rewrite Hb, Hcl. simpl in *.
    rewrite decide_True by (by destruct pc). by rewrite (life_of_put_call s _ _ Hx).
  - assert (ch_buf (flag s x i c) = ch_buf c) as ->.
    { unfold flag. destruct (c_pc x); try done. by case_decide. }
    destruct (ch_buf c) as [|n].
    + destruct (ch_closed c) eqn:Hcl; [|done]. injection E as <-.
      assert (ch_closed (flag s x i c) = true) as ->; [|by rewrite (life_of_one s x Hx)].
      unfold flag. destruct (c_pc x); try done. by case_decide.
    + injection E as <-. f_equal. rewrite (life_of_one (put_chan _ _ s) x Hx).
      erewrite life_of_put by done. f_equal.
      unfold flag. destruct (c_pc x); try done. by case_decide.
Qed.

(** A step of the one call. *)
Lemma at_one_call c f s s' :
  length (r_calls s) ≤ 1 → at_call c f s = Done s' () →
  ∃ x, c = 0 ∧ r_calls s = [x] ∧ f x s = Done s' ().
Proof.
  intros Hl (x & Hx & E)%at_call_done. destruct (r_calls s) as [|y [|]] eqn:Hc; [done| |simpl in Hl; lia].
  destruct c as [|c]; [|done]. injection Hx as ->. by exists x.
Qed.

Lemma sim_Start_launch c s s' :
  length (r_calls s) ≤ 1 → Start_launch k c s = Done s' () → life_of k s = life_of k s'.
Proof.
  intros Hl ([er pc en] & -> & Hx & E)%at_one_call; [|done]. simpl in E.
  destruct pc, en; try done. injection E as <-. unfold life_of. simpl. by rewrite Hx.
Qed.

Lemma sim_Start_select c s s' :
  length (r_calls s) ≤ 1 → Start_select c s = Done s' () → life_of k s = life_of k s'.
Proof.
  intros Hl ([er pc en] & -> & Hx & E)%at_one_call; [|done]. simpl in E.
  destruct pc; try done. injection E as <-. by rewrite (life_of_put_call s _ _ Hx), (life_of_one s _ Hx).
Qed.

Lemma sim_Close_started c s s' :
  length (r_calls s) ≤ 1 → Close_started c s = Done s' () → life_of k s = life_of k s'.
Proof.
  intros Hl ([er pc en] & -> & Hx & E)%at_one_call; [|done]. simpl in E.
  destruct pc; try done. unfold mbind, go_bind, chan_close, move in E.
  destruct (r_chans s !! r_started s) as [ch|] eqn:Hch; [|done].
  destruct (ch_closed ch); [done|]. simpl in E. rewrite Hx in E. injection E as <-. simpl.
  rewrite (life_of_one s _ Hx), (life_of_put_call (put_chan _ _ s) _ _ Hx).
  unfold life_of_call, chans_of. simpl. f_equal.
  apply list_eq. intros j. destruct (decide (j = r_started s)) as [->|].
  - rewrite list_lookup_alter_eq, list_lookup_insert_eq by (by eapply lookup_lt_Some).
    by rewrite Hch.
  - by rewrite list_lookup_alter_ne, list_lookup_insert_ne.
Qed.

(** The token of [Start], with the close that follows it. *)
Lemma sim_Select_started c e s s' :
  server_inv s → length (r_calls s) ≤ 1 → Select_started c e s = Done s' () →
  Start_started (life_of k s) = Done (life_of k s') ().
Proof.
  intros Hinv Hl (x & -> & Hx & E)%at_one_call; [|done]. simpl in E.
  destruct (c_pc x) as [| |i| | |] eqn:Hpc; try done. unfold mbind, go_bind in E.
  destruct (chan_receive i e s) as [s1 []| |] eqn:Er; try done.
  assert (r_calls s !! 0 = Some x) as Hx0 by by rewrite Hx.
  destruct (chan_receive_inv _ _ _ _ Hinv Er) as (Hinv1 & Hst & _ & Hlen & Hx1).
  assert (i = r_started s) as Hi.
  { destruct (rv_calls _ Hinv) as (ch & _ & Hc). by apply (ci_select _ _ _ _ _ (Hc 0 x Hx0)). }
  destruct (Hx1 0 x Hx0) as (x' & Hx' & Hpc' & _ & _);
    [by unfold call_over; rewrite Hpc|done|congruence..|].
  assert (r_calls s1 = [x']) as Hs1.
  { rewrite Hx in Hlen. destruct (r_calls s1) as [|y [|]]; try done. by injection Hx' as ->. }
  unfold move in E. rewrite Hx' in E. injection E as <-.
  pose proof (sim_receive _ _ _ _ Hinv Hl Er) as Hr. subst i.
  assert (started (life_of k s) = r_started s) as Hs.
  { rewrite (life_of_one s x Hx). simpl. unfold started_of. by rewrite Hpc. }
  destruct (rv_calls _ Hinv1) as (ch & Hch & Hc).
  destruct (ci_chan _ _ _ _ _ (Hc 0 x' Hx')) as [Hcl _]; [by rewrite Hs1|congruence|].
  unfold Start_started. replace (spc (life_of k s)) with SWait
    by (rewrite (life_of_one s x Hx); simpl; by rewrite Hpc).
  rewrite Hs. erewrite go_bind_done by exact Hr.
  rewrite (life_of_put_call s1 x' _ Hs1), (life_of_one s1 x' Hs1), <- Hst.
  erewrite go_bind_done.
  2: { apply close_chan_ok; [simpl; apply chans_of_lookup, Hch|].
       rewrite flag_id by (left; congruence). apply not_true_is_false. intros ?%Hcl. congruence. }
  rewrite flag_id by (left; congruence). unfold modify, life_of_call, set_spc, chans_of, started_of.
  simpl. rewrite Hpc', Hpc. f_equal. f_equal.
  apply list_eq. intros j. destruct (decide (j = r_started s1)) as [->|].
  - rewrite list_lookup_alter_eq, list_lookup_insert_eq by (by eapply lookup_lt_Some).
    by rewrite Hch.
  - by rewrite list_lookup_alter_ne, list_lookup_insert_ne.
Qed.

Lemma sim_Start_stopChan s s' :
  r_calls s = [] → Start_stopChan s = Done s' () → Start k (life_of k s) = Done (life_of k s') ().
Proof.
  intros Hx [= <-]. unfold life_of. simpl. rewrite Hx. simpl. unfold Start, life_of_call. simpl.
  unfold mbind, go_bind, make_chan, modify, chans_of, started_of. simpl.
  by rewrite length_app.
Qed.

(** The other cases of the [select]. *)
Lemma sim_Select_err c s s' :
  length (r_calls s) ≤ 1 → Select_err k c s = Done s' () →
  Start_err k (life_of k s) = Done (life_of k s') ().
Proof.
  intros Hl ([er pc en] & -> & Hx & E)%at_one_call; [|done]. simpl in E.
  destruct pc, er; try done; injection E as <-;
    by rewrite (life_of_put_call s _ _ Hx), (life_of_one s _ Hx).
Qed.

Lemma sim_Select_timeout c s s' :
  length (r_calls s) ≤ 1 → Select_timeout k c s = Done s' () →
  Start_timeout k (life_of k s) = Done (life_of k s') ().
Proof.
  intros Hl ([er pc en] & -> & Hx & E)%at_one_call; [|done]. simpl in E.
  destruct pc; try done; injection E as <-.
  by rewrite (life_of_put_call s _ _ Hx), (life_of_one s _ Hx).
Qed.

(** The engine. *)
Lemma sim_Boot_callback c s s' :
  length (r_calls s) ≤ 1 → Boot_callback k c s = Done s' () →
  OnInitComplete (life_of k s) = Done (life_of k s') ().
Proof.
  intros Hl ([er pc en] & -> & Hx & E)%at_one_call; [|done]. simpl in E.
  destruct en; try done; injection E as <-.
  rewrite (life_of_one s _ Hx), (life_of_put_call (MkServer _ _ _ _ (r_calls s)) _ _ Hx). done.
Qed.

Lemma sim_Boot_send c s s' :
  server_inv s → length (r_calls s) ≤ 1 → Boot_send c s = Done s' () →
  send_buffered (life_of k s) = Done (life_of k s') ().
Proof.
  intros Hinv Hl ([er pc en] & -> & Hx & E)%at_one_call; [|done]. simpl in E.
  destruct en as [| |i| | |]; try done. destruct (r_chans s !! i) as [ch|] eqn:Hch; [|done].
  destruct (sim_sending s _ i ch Hinv Hx eq_refl Hch) as (-> & Hcl & Hb & Hm & Ht).
  rewrite Hcl in E. case_decide as Hcap; [|done]. injection E as <-.
  rewrite (life_of_one s _ Hx), (life_of_put_call (put_chan _ _ s) _ _ Hx).
  erewrite life_of_put by done. unfold send_buffered. simpl in *.
  assert (started_of s (MkCall er pc (Sending (r_started s))) = r_started s) as ->
    by (unfold started_of; by destruct pc).
  rewrite (chans_of_lookup s _ _ ch Hch), flag_id by (by left). rewrite Hcl.
  rewrite decide_True by done. by rewrite flag_id by (by left).
Qed.

Lemma sim_Engine_fails c err s s' :
  length (r_calls s) ≤ 1 → Engine_fails c err s = Done s' () →
  Serve_fails err (life_of k s) = Done (life_of k s') ().
Proof.
  intros Hl ([er pc en] & -> & Hx & E)%at_one_call; [|done]. simpl in E.
  destruct en; try done; injection E as <-;
    by rewrite (life_of_put_call s _ _ Hx), (life_of_one s _ Hx).
Qed.

Lemma sim_stopChan s :
  server_inv s → length (r_calls s) ≤ 1 →
  ∃ c, r_chans s !! r_stop s = Some c ∧ chans (life_of k s) !! r_stop s = Some c ∧
    stopChan (life_of k s) = r_stop s ∧
    ∀ c', life_of k (put_chan (r_stop s) c' s) = set_chan (r_stop s) c' (life_of k s).
Proof.
  intros Hinv Hl. destruct (rv_stop _ Hinv) as [c Hc]. exists c. split; [done|].
  destruct (r_calls s) as [|x [|]] eqn:Hx; [| |simpl in Hl; lia].
  - unfold life_of. simpl. by rewrite Hx.
  - rewrite (life_of_one s x Hx). simpl.
    rewrite (chans_of_lookup s x _ c Hc), flag_id by (right; apply (rv_distinct _ Hinv)).
    split_and!; [done..|]. intros c'. rewrite (life_of_one (put_chan _ _ s) x Hx).
    erewrite life_of_put by done. by rewrite flag_id by (right; apply (rv_distinct _ Hinv)).
Qed.

Lemma sim_Engine_tick c s s' :
  server_inv s → length (r_calls s) ≤ 1 → Engine_tick c s = Done s' () →
  engine_tick (life_of k s) = Done (life_of k s') ().
Proof.
  intros Hinv Hl E. destruct (sim_stopChan s Hinv Hl) as (ch & Hch & Hch' & Hst & _).
  apply at_one_call in E as ([er pc en] & -> & Hx & E); [|done]. simpl in E.
  destruct en; try done. unfold engine_tick, mbind, go_bind, Tick, is_closed.
  rewrite Hst, Hch'. unfold chan_closed in E. rewrite Hch in E.
  rewrite (life_of_one s _ Hx). simpl.
  destruct (ch_closed ch); injection E as <-; [by rewrite (life_of_put_call s _ _ Hx)|].
  by rewrite (life_of_one s _ Hx).
Qed.

Lemma sim_close s :
  server_inv s → length (r_calls s) ≤ 1 →
  close_chan (stopChan (life_of k s)) (life_of k s) =
    match chan_close (r_stop s) s with
    | Done s' _ => Done (life_of k s') ()
    | Panicked p => Panicked p
    | Blocked => Blocked
    end.
Proof.
  intros Hinv Hl. destruct (sim_stopChan s Hinv Hl) as (ch & Hch & Hch' & Hst & Hput).
  unfold close_chan, chan_close. rewrite Hst, Hch, Hch'. by destruct (ch_closed ch); rewrite ?Hput.
Qed.

(** The TCP server holds the engine that serves. *)
Definition engine_stored (s : rserver) : Prop :=
  k = KTcp → ∀ x, r_calls s = [x] → engine_of (c_engine x) = ESend ∨ c_engine x = Serving →
  r_eng s = Some 0.

(** [Stop]: what it does and when it panics, the errors of [Engine.Stop] aside. *)
Lemma sim_Stop s :
  server_inv s → length (r_calls s) ≤ 1 → engine_stored s →
  exec k eng_Stop os_Remove Call_Stop (life_of k s) =
    match rexec k eng_Stop os_Remove RStop s with
    | Done s' _ => Done (life_of k s') ()
    | Panicked p => Panicked p
    | Blocked => Blocked
    end.
Proof.
  intros Hinv Hl Hstored. destruct (decide (k = KTcp)) as [Hk|Hk].
  - destruct (r_calls s) as [|x [|]] eqn:Hx; [| |simpl in Hl; lia].
    + assert (stored_engine s = NotLaunched) as Hn.
      { unfold stored_engine. destruct (r_eng s); simpl; [by rewrite Hx|done]. }
      assert (∀ p, p ≠ ERun → ∃ e, eng_Stop p = Some e) as He.
      { intros p Hp. destruct (eng_Stop p) eqn:E; [eauto|]. by apply eng_Stop_serving in E. }
      destruct (He ENone) as [e E]; [done|].
      unfold exec, rexec, Stop_server, Stop, mbind, go_bind. rewrite Hk, Hn. simpl.
      replace (epc (life_of KTcp s)) with ENone by (unfold life_of; by rewrite Hx).
      by rewrite E.
    + destruct (decide (c_engine x = Serving)) as [Hs|Hs].
      * pose proof (Hstored Hk x Hx (or_intror Hs)) as Hr.
        unfold exec, rexec, Stop_server, Stop, mbind, go_bind, stored_engine.
        rewrite Hk, Hr. simpl. rewrite Hx. simpl. rewrite Hs. simpl.
        rewrite <- Hk, (life_of_one s x Hx). unfold move. simpl. rewrite Hs. simpl.
        destruct (eng_Stop ERun) as [e|].
        -- exact (f_equal (λ l, Done l ()) (eq_sym (life_of_one s x Hx))).
        -- transitivity (Done (life_of_call k s (end_engine ErrClosed x)) ()).
           { unfold life_of_call, end_engine. simpl. by rewrite Hs. }
           exact (f_equal (λ l, Done l ()) (eq_sym (life_of_put_call s x (end_engine ErrClosed x) Hx))).
      * assert (∀ p, p ≠ ERun → ∃ e, eng_Stop p = Some e) as He.
        { intros p Hp. destruct (eng_Stop p) eqn:E; [eauto|]. by apply eng_Stop_serving in E. }
        destruct (He (epc (life_of k s))) as [e1 E1].
        { rewrite (life_of_one s x Hx). simpl. by destruct (c_engine x). }
        destruct (He (engine_pc_of (stored_engine s))) as [e2 E2].
        { unfold stored_engine. destruct (r_eng s) as [[|c]|]; simpl; [|by rewrite Hx|done].
          rewrite Hx. simpl. by destruct (c_engine x). }
        unfold exec, rexec, Stop_server, Stop, mbind, go_bind. rewrite Hk in E1 |- *. by rewrite E1, E2.
  - pose proof (sim_close s Hinv Hl) as Hclose. simpl. unfold Stop_server, Stop.
    destruct k eqn:Hk'; [done|..]; unfold mbind, go_bind;
      rewrite Hclose; by destruct (chan_close _ s) as [? []| |].
Qed.

Lemma receive_stored i e s s' :
  chan_receive i e s = Done s' () → engine_stored s → engine_stored s'.
Proof.
  intros E Hst Hk x Hx He. rewrite (chan_receive_eng _ _ _ _ E). unfold chan_receive in E.
  destruct (r_chans s !! i) as [c|]; [|done]. destruct e as [e|].
  - destruct (r_calls s !! e) as [[er pc en]|] eqn:He'; [|done]. destruct en; try done.
    case_decide; [|done]. injection E as <-. simpl in Hx.
    destruct (r_calls s) as [|y [|]] eqn:Hy; [done| |by destruct e as [|[|]]].
    destruct e; [|done]. injection He' as ->. by apply (Hst Hk _ Hy); left.
  - assert (r_calls s' = r_calls s) as Hc by (by repeat case_match; simplify_eq).
    rewrite Hc in Hx. by apply (Hst Hk x).
Qed.

Definition booted (p : engine_at) : Prop := engine_of p = ESend ∨ p = Serving.

Lemma ended_booted en : booted (ended en) → booted en.
Proof. unfold booted. destruct en; simpl; intuition congruence. Qed.

Lemma stored_call s x x' :
  engine_stored s → r_calls s = [x] → (booted (c_engine x') → booted (c_engine x)) →
  engine_stored (put_call 0 x' s).
Proof.
  intros Hst Hx Hb Hk y Hy He. simpl in Hy. rewrite Hx in Hy. injection Hy as <-.
  by apply (Hst Hk x Hx), Hb.
Qed.

(** A change of the other fields. *)
Lemma stored_frame s s' :
  engine_stored s → r_calls s' = r_calls s → r_eng s' = r_eng s → engine_stored s'.
Proof. intros Hst Hc He Hk x Hx Hb. rewrite He. apply (Hst Hk x); [congruence|done]. Qed.

Lemma stored_move c f s s' :
  engine_stored s → length (r_calls s) ≤ 1 → (∀ x, c_engine (f x) = c_engine x) →
  move c f s = Done s' () → engine_stored s'.
Proof.
  unfold move. intros Hst Hl Hf [= <-].
  destruct (r_calls s) as [|x [|]] eqn:Hx; [done| |simpl in Hl; lia]. destruct c; [|done]. simpl.
  eapply stored_call; [done..|]. by rewrite Hf.
Qed.

Lemma chan_close_frame i s s' :
  chan_close i s = Done s' () → r_calls s' = r_calls s ∧ r_eng s' = r_eng s.
Proof. unfold chan_close. intros E. by repeat case_match; simplify_eq. Qed.

Lemma stored_step l s s' :
  rexec k eng_Stop os_Remove l s = Done s' () → length (r_calls s) ≤ 1 → length (r_calls s') ≤ 1 →
  engine_stored s → engine_stored s'.
Proof.
  intros E Hl Hl' Hst. pose proof (rexec_calls _ _ _ E) as Hlen. destruct l; simpl in E;
    try (apply at_one_call in E as ([er pc en] & -> & Hx & E); [|done]; simpl in E).
  - injection E as <-. intros Hk x Hx He. simpl in Hx, Hlen. rewrite length_app in Hlen.
    destruct (r_calls s) as [|y ys]; [injection Hx as <-; by destruct He|].
    destruct ys; discriminate Hx.
  - destruct pc, en; try done. injection E as <-.
    eapply (stored_call (MkServer _ _ _ _ (r_calls s))); [by eapply stored_frame|done|by intros []].
  - destruct pc; try done. injection E as <-. by eapply stored_call.
  - destruct pc; try done. unfold mbind, go_bind in E.
    destruct (chan_receive _ _ s) as [s1 []| |] eqn:Er; try done.
    pose proof (rexec_calls (RObserve _ _) _ _ Er) as Hl1. simpl in Hl1.
    eapply (stored_move 0 (set_pc CToken) s1); [by eapply receive_stored|by rewrite Hl1|done..].
  - destruct pc; try done. unfold mbind, go_bind in E.
    destruct (chan_close _ s) as [s1 []| |] eqn:Ec; try done.
    apply chan_close_frame in Ec as [Hc1 He1].
    eapply (stored_move 0 (set_pc CUp) s1); [by eapply stored_frame|by rewrite Hc1|done..].
  - destruct pc, er; try done; injection E as <-; by eapply stored_call.
  - destruct pc; try done. injection E as <-. by eapply stored_call.
  - destruct en; try done. injection E as <-. intros Hk x _ _. simpl. by rewrite Hk.
  - destruct en as [| |i| | |]; try done. destruct (r_chans s !! i) as [ch|]; [|done].
    destruct (ch_closed ch); [done|]. destruct (decide (ch_buf ch < ch_cap ch)); [|done].
    injection E as <-.
    eapply (stored_call (put_chan _ _ s)); [by eapply stored_frame|done|]. by left.
  - destruct en; try done; injection E as <-; (eapply stored_call; [done..|]; by apply ended_booted).
  - destruct en; try done.
    destruct (chan_closed s (r_stop s)); injection E as <-; [|done].
    eapply stored_call; [done..|]. by apply ended_booted.
  - unfold mbind, go_bind in E. destruct (Stop_server _ _ _ s) as [s1 r| |] eqn:Es; try done.
    injection E as ->. destruct (Stop_server_cases k eng_Stop os_Remove eng_Stop_serving s) as
      [(Hk & [[e1 E1]|(c & x & _ & Hx & _ & E1)])|(Hk & e1 & E1)]; rewrite E1 in Es.
    + by injection Es as <- _.
    + injection Es as <- _. destruct (r_calls s) as [|y [|]] eqn:Hy; [done| |simpl in Hl; lia].
      destruct c; [|done]. injection Hx as ->. eapply stored_call; [done..|]. by apply ended_booted.
    + unfold mbind, go_bind in Es. destruct (chan_close _ s) as [s2 []| |] eqn:Ec; try done.
      injection Es as <- _. apply chan_close_frame in Ec as [? ?]. by eapply stored_frame.
  - by eapply receive_stored.
Qed.

(** One step. *)
Lemma sim_step l s s' :
  server_inv s → engine_stored s → length (r_calls s) ≤ 1 → length (r_calls s') ≤ 1 →
  rexec k eng_Stop os_Remove l s = Done s' () →
  lrun (steps_of l) (life_of k s) = Done (life_of k s') ().
Proof.
  intros Hinv Hst Hl Hl' E. pose proof (rexec_calls _ _ _ E) as Hlen.
  destruct l; simpl steps_of; try apply lrun_one.
  - simpl in Hlen. apply sim_Start_stopChan; [|exact E].
    destruct (r_calls s); [done|simpl in Hlen; lia].
  - unfold lrun. simpl. by rewrite (sim_Start_launch c s s').
  - unfold lrun. simpl. by rewrite (sim_Start_select c s s').
  - by eapply sim_Select_started.
  - unfold lrun. simpl. by rewrite (sim_Close_started c s s').
  - by eapply sim_Select_err.
  - by eapply sim_Select_timeout.
  - by eapply sim_Boot_callback.
  - by eapply sim_Boot_send.
  - by eapply sim_Engine_fails.
  - by eapply sim_Engine_tick.
  - rewrite sim_Stop by done. by rewrite E.
  - by eapply sim_receive.
Qed.

Lemma rrun_calls ls s s' :
  rrun k eng_Stop os_Remove ls s = Done s' () → length (r_calls s) ≤ length (r_calls s').
Proof.
  revert s. induction ls as [|l ls IH]; intros s; simpl; [by intros [= ->]|].
  unfold mbind, go_bind. destruct (rexec _ _ _ l s) as [s1 []| |] eqn:E; try done.
  intros Hr%IH. apply rexec_calls in E. case_decide; unfold id in E; lia.
Qed.

Lemma sim_run ls s s' :
  server_inv s → engine_stored s → length (r_calls s') ≤ 1 →
  rrun k eng_Stop os_Remove ls s = Done s' () →
  lrun (ls ≫= steps_of) (life_of k s) = Done (life_of k s') () ∧ server_inv s' ∧ engine_stored s'.
Proof.
  revert s. induction ls as [|l ls IH]; intros s Hinv Hst Hl; simpl.
  { by intros [= ->]. }
  unfold mbind at 1, go_bind. destruct (rexec _ _ _ l s) as [s1 []| |] eqn:E; try done. intros Hr.
  pose proof (rrun_calls _ _ _ Hr) as Hl1. pose proof (rexec_calls _ _ _ E) as Hl2.
  assert (length (r_calls s) ≤ 1) as Hls by (case_decide; unfold id in Hl2; lia).
  rewrite (lrun_app _ _ _ (life_of k s1)) by (eapply sim_step; eauto with lia).
  apply IH; [|eapply stored_step; eauto with lia|done|done].
  eapply rexec_inv; [done|done| |exact E]. intros ->. simpl in Hl2.
  destruct (r_calls s); [constructor|simpl in Hl2; lia].
Qed.

(** C23: The coarser steps of [Lifecycle], which makes a call of [Start] with all its
    assignments one step and the receive with the close behind it another, lose nothing:
    whatever a server whose [Start] is called once does, one read or write of a field at a
    time, [Lifecycle] does by the corresponding steps and ends in the corresponding
    state; and a step that panics there panics here. *)
Theorem one_call_refines_Lifecycle (ls : list rlabel) (s : rserver) :
  rrun k eng_Stop os_Remove ls new_rserver = Done s () → length (r_calls s) ≤ 1 →
  run k eng_Stop os_Remove (ls ≫= steps_of) NewServer = Done (life_of k s) () ∧
  ∀ l p, rexec k eng_Stop os_Remove l s = Panicked p →
    run k eng_Stop os_Remove (steps_of l) (life_of k s) = Panicked p.
Proof.
  intros Hr Hl. destruct (sim_run ls new_rserver s) as (Hrun & Hinv & Hst); [apply inv_new| |done..|].
  { intros Hk x Hx. discriminate Hx. }
  split; [exact Hrun|]. intros l p E.
  destruct (rexec_panics k eng_Stop os_Remove eng_Stop_serving s l p Hinv E) as (-> & _).
  unfold steps_of, run. apply go_bind_panic. rewrite sim_Stop by done. by rewrite E.
Qed.
End simulation.
