(* ===== verification/QuicLifecycle.v ===== *)
(** The goroutines of the QUIC server of [transports/quic/server.go]: [Start], the
    accept loops, the stream goroutines and [Stop], as steps of a state machine
    over the wait group and the channels [started] and [stopChan]. *)
From S2P Require Import Prelude GoRuntime.

(** * State *)

(** Where the goroutine of [acceptConnections] stands: not created, at the [select]
    of its loop, in [Accept], returned. *)
Inductive acceptor_pc := ANone | ASelect | AAccept | ADone.

(** A connection: in the listener's queue, its goroutine at [AcceptStream] while the peer
    is there, or after the peer has closed the connection, its goroutine returned. *)
Inductive conn_pc := CQueued | CRunning | CHungUp | CDone.

(** A stream: not accepted, its goroutine in [Read] while the peer may send more, or
    after the peer has ended the stream, in a handler, returned. *)
Inductive stream_pc := SQueued | SReading | SEnded | SHandling | SDone.

(** [st_data] counts the reads that will return data. *)
Record qstream := MkStream { st_conn : nat; st_pc : stream_pc; st_data : nat }.

(** The socket behind the first successful [ListenAddr]. *)
Inductive socket := NoSocket | OpenSocket | ClosedSocket.

(** The call of [Stop]: none, in [wg.Wait], returned. *)
Inductive stop_pc := StopNone | StopWaiting | StopReturned (r : option error).

#[export] Instance conn_pc_eq_dec : EqDecision conn_pc.
Proof. solve_decision. Defined.

Record qserver := MkQ {
  q_listener : bool;             (* the field listener is not nil *)
  q_socket : socket;
  q_started : bool;              (* started is closed *)
  q_stopped : bool;              (* stopChan is closed *)
  q_wg : nat;
  q_acceptor : acceptor_pc;
  q_conns : list conn_pc;
  q_streams : list qstream;
  q_stop : stop_pc;
}.

Definition set_listener (b : bool) (q : qserver) :=
  MkQ b (q_socket q) (q_started q) (q_stopped q) (q_wg q) (q_acceptor q)
    (q_conns q) (q_streams q) (q_stop q).
Definition set_socket (x : socket) (q : qserver) :=
  MkQ (q_listener q) x (q_started q) (q_stopped q) (q_wg q) (q_acceptor q)
    (q_conns q) (q_streams q) (q_stop q).
Definition set_wg (n : nat) (q : qserver) :=
  MkQ (q_listener q) (q_socket q) (q_started q) (q_stopped q) n (q_acceptor q)
    (q_conns q) (q_streams q) (q_stop q).
Definition set_acceptor (a : acceptor_pc) (q : qserver) :=
  MkQ (q_listener q) (q_socket q) (q_started q) (q_stopped q) (q_wg q) a
    (q_conns q) (q_streams q) (q_stop q).
Definition set_conns (cs : list conn_pc) (q : qserver) :=
  MkQ (q_listener q) (q_socket q) (q_started q) (q_stopped q) (q_wg q) (q_acceptor q)
    cs (q_streams q) (q_stop q).
Definition set_streams (ss : list qstream) (q : qserver) :=
  MkQ (q_listener q) (q_socket q) (q_started q) (q_stopped q) (q_wg q) (q_acceptor q)
    (q_conns q) ss (q_stop q).
Definition set_stop (x : stop_pc) (q : qserver) :=
  MkQ (q_listener q) (q_socket q) (q_started q) (q_stopped q) (q_wg q) (q_acceptor q)
    (q_conns q) (q_streams q) x.

Definition update (f : qserver → qserver) : Go qserver () := λ q, Done (f q) ().

Definition close_started : Go qserver () := λ q,
  if q_started q then Panicked PanicCloseClosed
  else Done (MkQ (q_listener q) (q_socket q) true (q_stopped q) (q_wg q) (q_acceptor q)
               (q_conns q) (q_streams q) (q_stop q)) ().

Definition close_stopChan : Go qserver () := λ q,
  if q_stopped q then Panicked PanicCloseClosed
  else Done (MkQ (q_listener q) (q_socket q) (q_started q) true (q_wg q) (q_acceptor q)
               (q_conns q) (q_streams q) (q_stop q)) ().

(** [s.wg.Add(1)] and [s.wg.Done()] *)
Definition wg_Add : Go qserver () := λ q, Done (set_wg (S (q_wg q)) q) ().
Definition wg_Done : Go qserver () := λ q,
  match q_wg q with
  | 0 => Panicked PanicWaitGroup
  | S n => Done (set_wg n q) ()
  end.

(** * Operations *)

(** [NewServer] with a TLS configuration. *)
Definition Quic_NewServer : qserver :=
  MkQ false NoSocket false false 0 ANone [] [] StopNone.

(** [s.Start(ctx)]; [listen_err] is the error of [quic.ListenAddr], which returns a
    nil listener with it. *)
Definition Quic_Start (listen_err : option error) : Go qserver (option error) :=
  match listen_err with
  | Some e =>
      update (set_listener false);;
      mret (Some (Wrap e "failed to start QUIC server: %w"))
  | None =>
      update (λ q, set_socket OpenSocket (set_listener true q));;
      close_started;;
      wg_Add;;
      update (set_acceptor ASelect);;
      mret None
  end.

(** [WaitStarted()] hands out the channel, of which the state has whether it is closed. *)
Definition Quic_WaitStarted (q : qserver) : bool := q_started q.

(** [isClosedNetworkConnectionError(err)]; [error_Error] is the text of an error. *)
Definition isClosedNetworkConnectionError (error_Error : error → string) (err : option error)
    : bool :=
  match err with
  | None => false
  | Some e => contains "use of closed network connection" (error_Error e) ||
              contains "server closed" (error_Error e)
  end.

(** Whether the loops print an error of [Accept], [AcceptStream] or [Read] before they
    return; [application_code] is [errors.As] with a QUIC application error. Those of
    [Read] that [quiet] tells are suppressed too. *)
Definition loop_prints (error_Error : error → string) (application_code : error → option Z)
    (quiet : error → bool) (e : error) : bool :=
  negb (bool_decide (application_code e = Some 0%Z) ||
        isClosedNetworkConnectionError error_Error (Some e) || quiet e).

(** What a blocking call of an accept loop gives: the [i]-th connection or stream, or
    an error; the kind of the error decides only what is logged. *)
Inductive accepted := Accepted (i : nat) | AcceptErr (e : error).

(** When the blocking calls fail: [Accept] once the listener's socket is closed;
    [AcceptStream] then, since the listener of [ListenAddr] closes its connections with
    it, and when the peer has closed the connection; [Read] when its connection is
    closed, and at the end of the stream. Otherwise they block. *)
Definition socket_closed (q : qserver) : bool :=
  match q_socket q with ClosedSocket => true | NoSocket | OpenSocket => false end.
Definition conn_closed (q : qserver) (i : nat) : bool :=
  socket_closed q ||
  match q_conns q !! i with Some (CHungUp | CDone) => true | _ => false end.
Definition read_fails (q : qserver) (s : qstream) : bool :=
  conn_closed q (st_conn s) ||
  match st_pc s, st_data s with SEnded, 0 => true | _, _ => false end.

(** One step of [acceptConnections]: the [select], or the return of [Accept]. *)
Definition acceptConnections (r : accepted) : Go qserver () := λ q,
  match q_acceptor q with
  | ASelect =>
      if q_stopped q then (update (set_acceptor ADone);; wg_Done) q
      else if q_listener q then Done (set_acceptor AAccept q) ()
      else Panicked PanicNil
  | AAccept =>
      match r with
      | AcceptErr _ =>
          if socket_closed q then (update (set_acceptor ADone);; wg_Done) q else Blocked
      | Accepted i =>
          if decide (q_conns q !! i = Some CQueued) then
            (wg_Add;; update (set_conns (<[i := CRunning]> (q_conns q)));;
             update (set_acceptor ASelect)) q
          else Blocked
      end
  | ANone | ADone => Blocked
  end.

(** One iteration of [handleConnection] on connection [i]. *)
Definition handleConnection (i : nat) (r : accepted) : Go qserver () := λ q,
  match q_conns q !! i with
  | Some (CRunning | CHungUp) =>
      match r with
      | AcceptErr _ =>
          if conn_closed q i
          then (update (set_conns (<[i := CDone]> (q_conns q)));; wg_Done) q else Blocked
      | Accepted j =>
          match q_streams q !! j with
          | Some (MkStream i' SQueued d) =>
              if decide (i' = i) then
                (wg_Add;; update (set_streams (<[j := MkStream i SReading d]> (q_streams q)))) q
              else Blocked
          | _ => Blocked
          end
      end
  | _ => Blocked
  end.

(** What a [stream.Read] leads to in [handleStream]: data that decode to a message
    with a handler, data that do not, or an error. *)
Inductive read_case := ReadServed | ReadUnserved | ReadErr.

(** [handleStream] of stream [j], from its [Read] to the handler or the return. *)
Definition stream_read (j : nat) (r : read_case) : Go qserver () := λ q,
  match q_streams q !! j with
  | Some (MkStream i (SReading | SEnded) d as s) =>
      let return_ :=
        (update (set_streams (<[j := MkStream i SDone d]> (q_streams q)));; wg_Done) q in
      match r, d with
      | ReadErr, _ => if read_fails q s then return_ else Blocked
      | ReadServed, S d' =>
          Done (set_streams (<[j := MkStream i SHandling d']> (q_streams q)) q) ()
      | ReadUnserved, S _ => return_
      | _, 0 => Blocked
      end
  | _ => Blocked
  end.

(** The handler of stream [j] returns. *)
Definition handler_returns (j : nat) : Go qserver () := λ q,
  match q_streams q !! j with
  | Some (MkStream i SHandling d) =>
      Done (set_streams (<[j := MkStream i SReading d]> (q_streams q)) q) ()
  | _ => Blocked
  end.

(** [s.listener.Close()] with the error [close_err] it returns; the listener of
    [ListenAddr] closes its connections with it. *)
Definition close_listener (close_err : option error) : Go qserver () := λ q,
  if q_listener q then
    match close_err with
    | Some e => Done (set_stop (StopReturned (Some e)) q) ()
    | None => Done (set_stop StopWaiting (set_socket ClosedSocket q)) ()
    end
  else Panicked PanicNil.

(** [s.Stop()] up to [s.wg.Wait()] *)
Definition Quic_Stop (close_err : option error) : Go qserver () :=
  close_stopChan;; close_listener close_err.

(** [s.wg.Wait()] returns when the counter is zero. *)
Definition Stop_wait : Go qserver () := λ q,
  match q_stop q, q_wg q with
  | StopWaiting, 0 => Done (set_stop (StopReturned None) q) ()
  | _, _ => Blocked
  end.

(** * The network

    New connections, streams and data arrive while the socket is open, and peers close
    their connections and end their streams; what a peer does while a handler runs is
    seen at the next [Read]. *)
Definition while_open (f : qserver → qserver) : Go qserver () := λ q,
  match q_socket q with OpenSocket => Done (f q) () | _ => Blocked end.

Definition conn_arrives : Go qserver () :=
  while_open (λ q, set_conns (q_conns q ++ [CQueued]) q).
Definition stream_arrives (i : nat) : Go qserver () :=
  while_open (λ q, set_streams (q_streams q ++ [MkStream i SQueued 0]) q).
Definition data_arrives (j : nat) : Go qserver () :=
  while_open (λ q, set_streams
    (alter (λ s, MkStream (st_conn s) (st_pc s) (S (st_data s))) j (q_streams q)) q).
Definition hang_up (c : conn_pc) : conn_pc := match c with CRunning => CHungUp | _ => c end.
Definition end_stream (s : qstream) : qstream :=
  MkStream (st_conn s) (match st_pc s with SReading => SEnded | p => p end) (st_data s).
Definition peer_closes (i : nat) : Go qserver () :=
  while_open (λ q, set_conns (alter hang_up i (q_conns q)) q).
Definition stream_ends (j : nat) : Go qserver () :=
  while_open (λ q, set_streams (alter end_stream j (q_streams q)) q).

(** * Runs *)

(** The steps of the server's goroutines and handlers. *)
Inductive goroutine :=
  | GAcceptor (r : accepted)
  | GConn (i : nat) (r : accepted)
  | GStream (j : nat) (r : read_case)
  | GHandler (j : nat).

Definition go_step (g : goroutine) : Go qserver () :=
  match g with
  | GAcceptor r => acceptConnections r
  | GConn i r => handleConnection i r
  | GStream j r => stream_read j r
  | GHandler j => handler_returns j
  end.

Inductive qlabel :=
  | QStart (listen_err : option error)
  | QStop (close_err : option error)
  | QWaited
  | QGo (g : goroutine)
  | QConn | QStream (i : nat) | QData (j : nat) | QHangUp (i : nat) | QEnd (j : nat).

Definition q_exec (l : qlabel) : Go qserver () :=
  match l with
  | QStart e => Quic_Start e;; mret ()
  | QStop e => Quic_Stop e
  | QWaited => Stop_wait
  | QGo g => go_step g
  | QConn => conn_arrives
  | QStream i => stream_arrives i
  | QData j => data_arrives j
  | QHangUp i => peer_closes i
  | QEnd j => stream_ends j
  end.

Fixpoint q_run (ls : list qlabel) : Go qserver () :=
  match ls with
  | [] => mret ()
  | l :: ls => q_exec l;; q_run ls
  end.

Definition q_reachable (q : qserver) : Prop := ∃ ls, q_run ls Quic_NewServer = Done q ().

(** * The goroutines *)

Definition acceptor_live (a : acceptor_pc) : nat :=
  match a with ASelect | AAccept => 1 | ANone | ADone => 0 end.
Definition conn_live (c : conn_pc) : nat :=
  match c with CRunning | CHungUp => 1 | CQueued | CDone => 0 end.
Definition stream_live (s : qstream) : nat :=
  match st_pc s with SReading | SEnded | SHandling => 1 | SQueued | SDone => 0 end.

(** The goroutines that run. *)
Definition live_goroutines (q : qserver) : nat :=
  acceptor_live (q_acceptor q) + sum_list_with conn_live (q_conns q) +
  sum_list_with stream_live (q_streams q).

(** The steps a server whose socket is closed can still make. *)
Definition conn_work (c : conn_pc) : nat :=
  match c with CQueued => 2 | CRunning | CHungUp => 1 | CDone => 0 end.
Definition stream_work (s : qstream) : nat :=
  match st_pc s with
  | SQueued | SHandling => 2 + 2 * st_data s
  | SReading | SEnded => 1 + 2 * st_data s
  | SDone => 0
  end.
Definition work (q : qserver) : nat :=
  acceptor_live (q_acceptor q) + sum_list_with conn_work (q_conns q) +
  sum_list_with stream_work (q_streams q).

Arguments stream_live !s /.
Arguments stream_work !s /.

Record q_inv (q : qserver) : Prop := {
  qi_wg : q_wg q = live_goroutines q;
  qi_fresh : q_started q = false → q_acceptor q = ANone;
  qi_listener : q_listener q = true → q_started q = true;
  qi_stop : q_stop q = StopWaiting ∨ q_stop q = StopReturned None →
    q_started q = true ∧ q_stopped q = true ∧ q_socket q = ClosedSocket;
  qi_returned : q_stop q = StopReturned None → q_wg q = 0;
}.

(** Steps that replace one connection or stream. *)
Lemma live_set_conn q i c c' :
  q_conns q !! i = Some c →
  live_goroutines (set_conns (<[i := c']> (q_conns q)) q) + conn_live c =
  live_goroutines q + conn_live c'.
Proof.
  intros Hc. unfold live_goroutines. simpl.
  pose proof (sum_list_with_insert conn_live _ _ _ c' Hc). lia.
Qed.

Lemma live_set_stream q j s s' :
  q_streams q !! j = Some s →
  live_goroutines (set_streams (<[j := s']> (q_streams q)) q) + stream_live s =
  live_goroutines q + stream_live s'.
Proof.
  intros Hs. unfold live_goroutines. simpl.
  pose proof (sum_list_with_insert stream_live _ _ _ s' Hs). lia.
Qed.

(** The shape of a goroutine step: the wait group follows the goroutines, the other
    fields stay, and the work shrinks once [stopChan] is closed. *)
Definition go_shape (q q' : qserver) : Prop :=
  q_listener q' = q_listener q ∧ q_socket q' = q_socket q ∧
  q_started q' = q_started q ∧ q_stopped q' = q_stopped q ∧ q_stop q' = q_stop q ∧
  q_wg q' + live_goroutines q = q_wg q + live_goroutines q' ∧
  0 < live_goroutines q ∧
  (q_acceptor q = ANone → q_acceptor q' = ANone) ∧
  (q_stopped q = true → work q' < work q).

Lemma conn_live_pos q i c :
  q_conns q !! i = Some c → conn_live c = 1 → 0 < live_goroutines q.
Proof. intros Hc Hl. pose proof (live_set_conn q i _ CDone Hc). simpl in *. lia. Qed.

Lemma stream_live_pos q j s :
  q_streams q !! j = Some s → stream_live s = 1 → 0 < live_goroutines q.
Proof.
  intros Hs Hl. pose proof (live_set_stream q j _ (MkStream 0 SDone 0) Hs) as H.
  rewrite Hl in H. change (stream_live (MkStream 0 SDone 0)) with 0 in H. lia.
Qed.

(** Evaluates the monadic operations of a step in [H]. *)
Ltac q_eval H :=
  unfold mbind, go_bind, update, wg_Add, wg_Done, mret, go_ret in H;
  cbn [set_acceptor set_conns set_streams set_wg q_wg q_acceptor q_conns q_streams] in H.

(** Closes the conjuncts of [go_shape] by arithmetic. *)
Ltac shape := split_and!; first [done | lia | intros; congruence | intros; lia].

Lemma acceptor_step_shape r q q' : acceptConnections r q = Done q' () → go_shape q q'.
Proof.
  unfold acceptConnections. destruct (q_acceptor q) eqn:Ea; try done; intros E.
  - destruct (q_stopped q) eqn:Es.
    + q_eval E. destruct (q_wg q) eqn:Ew; [done|]. injection E as <-.
      unfold go_shape, live_goroutines, work. simpl. rewrite Ea, Ew. simpl.
      shape.
    + destruct (q_listener q); [|done]. injection E as <-.
      unfold go_shape, live_goroutines. simpl. rewrite Ea, Es. simpl.
      shape.
  - destruct r as [i|e].
    + case_decide as Hc; [|done]. q_eval E. injection E as <-.
      pose proof (sum_list_with_insert conn_live _ _ _ CRunning Hc).
      pose proof (sum_list_with_insert conn_work _ _ _ CRunning Hc).
      unfold go_shape, live_goroutines, work. simpl in *. rewrite Ea. simpl.
      shape.
    + destruct (socket_closed q); [|done].
      q_eval E. destruct (q_wg q) eqn:Ew; [done|]. injection E as <-.
      unfold go_shape, live_goroutines, work. simpl. rewrite Ea, Ew. simpl.
      shape.
Qed.

Lemma conn_accept_shape i j q q' :
  0 < live_goroutines q →
  match q_streams q !! j with
  | Some (MkStream i' SQueued d) =>
      if decide (i' = i) then
        (wg_Add;; update (set_streams (<[j := MkStream i SReading d]> (q_streams q)))) q
      else Blocked
  | _ => Blocked
  end = Done q' () → go_shape q q'.
Proof.
  intros Hl E. destruct (q_streams q !! j) as [[i' [] d]|] eqn:Es; try done.
  case_decide; [subst i'|done]. q_eval E. injection E as <-.
  pose proof (sum_list_with_insert stream_live _ _ _ (MkStream i SReading d) Es).
  pose proof (sum_list_with_insert stream_work _ _ _ (MkStream i SReading d) Es).
  unfold go_shape, live_goroutines, work in *. simpl in *. shape.
Qed.

Lemma conn_return_shape i c q q' :
  q_conns q !! i = Some c → conn_live c = 1 → conn_work c = 1 →
  (update (set_conns (<[i := CDone]> (q_conns q)));; wg_Done) q = Done q' () → go_shape q q'.
Proof.
  intros Ec Hl Hw E. pose proof (conn_live_pos q i c Ec Hl).
  q_eval E. destruct (q_wg q) eqn:Ew; [done|]. injection E as <-.
  pose proof (sum_list_with_insert conn_live _ _ _ CDone Ec).
  pose proof (sum_list_with_insert conn_work _ _ _ CDone Ec).
  unfold go_shape, live_goroutines, work in *. simpl in *. rewrite Ew. shape.
Qed.

Lemma conn_step_shape i r q q' : handleConnection i r q = Done q' () → go_shape q q'.
Proof.
  unfold handleConnection. destruct (q_conns q !! i) as [[]|] eqn:Ec; try done; intros E.
  all: pose proof (conn_live_pos q i _ Ec eq_refl) as Hl; destruct r as [j|e];
    [by eapply conn_accept_shape|].
  all: destruct (conn_closed q i); [by eapply conn_return_shape|done].
Qed.

Lemma stream_update_shape j s s' q :
  q_streams q !! j = Some s → stream_live s = 1 → stream_work s' < stream_work s →
  stream_live s' = 1 → go_shape q (set_streams (<[j := s']> (q_streams q)) q).
Proof.
  intros Hs Hl Hw Hl'. pose proof (stream_live_pos q j s Hs Hl).
  pose proof (sum_list_with_insert stream_live _ _ _ s' Hs).
  pose proof (sum_list_with_insert stream_work _ _ _ s' Hs).
  unfold go_shape, live_goroutines, work in *. simpl in *. shape.
Qed.

Lemma stream_return_shape j i p d q q' :
  q_streams q !! j = Some (MkStream i p d) → p = SReading ∨ p = SEnded →
  (update (set_streams (<[j := MkStream i SDone d]> (q_streams q)));; wg_Done) q = Done q' () →
  go_shape q q'.
Proof.
  intros Hs Hp E. assert (stream_live (MkStream i p d) = 1) as Hl by by destruct Hp as [->| ->].
  assert (stream_work (MkStream i p d) = 1 + 2 * d) as Hwk by by destruct Hp as [->| ->].
  pose proof (stream_live_pos q j _ Hs Hl).
  q_eval E. destruct (q_wg q) eqn:Ew; [done|]. injection E as <-.
  pose proof (sum_list_with_insert stream_live _ _ _ (MkStream i SDone d) Hs) as H1.
  pose proof (sum_list_with_insert stream_work _ _ _ (MkStream i SDone d) Hs) as H2.
  rewrite Hl in H1. rewrite Hwk in H2.
  unfold go_shape, live_goroutines, work in *. simpl in *. rewrite Ew. shape.
Qed.

Lemma stream_step_shape j r q q' : stream_read j r q = Done q' () → go_shape q q'.
Proof.
  unfold stream_read. destruct (q_streams q !! j) as [[i [] d]|] eqn:Es; try done; intros E.
  all: destruct r, d; try done; try (eapply stream_return_shape; [done|by auto|done]).
  all: try (destruct (read_fails _ _); [|done]; eapply stream_return_shape; [done|by auto|done]).
  all: injection E as <-; eapply stream_update_shape; [done..| |done]; simpl; lia.
Qed.

Lemma go_step_shape g q q' : go_step g q = Done q' () → go_shape q q'.
Proof.
  destruct g; simpl; [apply acceptor_step_shape|apply conn_step_shape|apply stream_step_shape|].
  unfold handler_returns. destruct (q_streams q !! j) as [[i [] d]|] eqn:Es; try done.
  intros [= <-]. eapply stream_update_shape; [done..| |done]. simpl. lia.
Qed.

(** * The invariant *)

Lemma q_inv_init : q_inv Quic_NewServer.
Proof. split; try done. by intros [|]. Qed.

Lemma q_inv_go g q q' : q_inv q → go_step g q = Done q' () → q_inv q'.
Proof.
  intros [Hwg Hf Hl Hs Hr] (El & Eso & Est & Esp & Esto & Hw & Hpos & Ha & _)%go_step_shape.
  split; rewrite ?El, ?Eso, ?Est, ?Esp, ?Esto; [lia|auto..].
  intros Hret%Hr. lia.
Qed.

(** A step of the network changes the queues only. *)
Lemma q_inv_network (q : qserver) cs ss :
  q_inv q → sum_list_with conn_live cs = sum_list_with conn_live (q_conns q) →
  sum_list_with stream_live ss = sum_list_with stream_live (q_streams q) →
  q_inv (set_streams ss (set_conns cs q)).
Proof.
  intros [Hwg Hf Hl Hs Hr] Hc Hss. split; simpl; try done.
  rewrite Hwg. unfold live_goroutines. simpl. lia.
Qed.

Lemma stream_live_data j ss :
  sum_list_with stream_live
    (alter (λ s, MkStream (st_conn s) (st_pc s) (S (st_data s))) j ss)
  = sum_list_with stream_live ss.
Proof.
  revert j. induction ss as [|s ss IH]; intros [|j]; simpl; [done..|].
  f_equal. apply IH.
Qed.

Lemma conn_live_hang_up i cs :
  sum_list_with conn_live (alter hang_up i cs) = sum_list_with conn_live cs.
Proof.
  revert i. induction cs as [|c cs IH]; intros [|i]; simpl; [done..|by destruct c|].
  f_equal. apply IH.
Qed.

Lemma stream_live_end j ss :
  sum_list_with stream_live (alter end_stream j ss) = sum_list_with stream_live ss.
Proof.
  revert j. induction ss as [|s ss IH]; intros [|j]; simpl; [done..|by destruct s as [? []]|].
  f_equal. apply IH.
Qed.

Lemma q_inv_Start e q q' : q_inv q → (Quic_Start e;; mret ()) q = Done q' () → q_inv q'.
Proof.
  intros [Hwg Hf Hl Hs Hr] E. unfold Quic_Start in E. destruct e as [e|]; q_eval E.
  - injection E as <-. split; done.
  - unfold close_started in E. simpl in E. destruct (q_started q) eqn:Est; [done|].
    injection E as <-. split; simpl; try done.
    + rewrite Hwg. unfold live_goroutines. simpl. by rewrite Hf.
    + intros [? _]%Hs. congruence.
    + intros Hret. destruct Hs as [? _]; [by right|congruence].
Qed.

Lemma q_inv_Stop e q q' : q_inv q → Quic_Stop e q = Done q' () → q_inv q'.
Proof.
  intros [Hwg Hf Hl Hs Hr] E. unfold Quic_Stop, close_stopChan, close_listener in E.
  q_eval E. destruct (q_stopped q) eqn:Esp; [done|]. simpl in E.
  destruct (q_listener q) eqn:El; [|done].
  destruct e; injection E as <-; split; simpl; try done; auto; by intros [].
Qed.

Lemma q_exec_inv l q q' : q_inv q → q_exec l q = Done q' () → q_inv q'.
Proof.
  intros Hi. destruct l; simpl.
  - by apply q_inv_Start.
  - by apply q_inv_Stop.
  - destruct Hi as [Hwg Hf Hl Hs Hr]. unfold Stop_wait.
    destruct (q_stop q) eqn:Es, (q_wg q) eqn:Ew; try done. intros [= <-].
    split; simpl; try done; [by rewrite Ew, Hwg|]. intros _. apply Hs. by left.
  - by apply q_inv_go.
  - unfold conn_arrives, while_open. destruct (q_socket q); try done. intros [= <-].
    apply (q_inv_network q (q_conns q ++ [CQueued]) (q_streams q)); [done| |done].
    rewrite sum_list_with_app. simpl. lia.
  - unfold stream_arrives, while_open. destruct (q_socket q); try done. intros [= <-].
    apply (q_inv_network q (q_conns q) (q_streams q ++ [MkStream i SQueued 0])); [done..|].
    rewrite sum_list_with_app. simpl. lia.
  - unfold data_arrives, while_open. destruct (q_socket q); try done. intros [= <-].
    apply (q_inv_network q (q_conns q)); [done..|]. apply stream_live_data.
  - unfold peer_closes, while_open. destruct (q_socket q); try done. intros [= <-].
    apply (q_inv_network q _ (q_streams q)); [done| |done]. apply conn_live_hang_up.
  - unfold stream_ends, while_open. destruct (q_socket q); try done. intros [= <-].
    apply (q_inv_network q (q_conns q)); [done..|]. apply stream_live_end.
Qed.

Lemma q_run_inv ls q q' : q_inv q → q_run ls q = Done q' () → q_inv q'.
Proof.
  revert q. induction ls as [|l ls IH]; intros q Hi; simpl; [by intros [= <-]|].
  unfold mbind, go_bind. destruct (q_exec l q) as [q1 []|p|] eqn:E; [|done..].
  apply IH. by eapply q_exec_inv.
Qed.

Lemma q_reachable_inv q : q_reachable q → q_inv q.
Proof. intros [ls Hr]. eapply q_run_inv; [apply q_inv_init|done]. Qed.

(** * Theorems *)

(** C19: [Stop] of the QUIC server returns nil only when every goroutine the server
    ever started has returned and the socket is closed, in every interleaving of
    connections, streams, handlers and the network: the wait group counts exactly
    the goroutines that run, its counter never being below zero. *)
Theorem Stop_waits_for_goroutines (q : qserver) :
  q_reachable q →
  q_wg q = live_goroutines q ∧
  (q_stop q = StopReturned None → live_goroutines q = 0 ∧ q_socket q = ClosedSocket).
Proof.
  intros [Hwg _ _ Hs Hr]%q_reachable_inv. split; [done|]. intros Hret.
  split; [rewrite <- Hwg; by apply Hr | apply Hs; by right].
Qed.

(** The panics of the operations of the server, with the state each needs. *)
Definition q_panic (q : qserver) (l : qlabel) (p : panic) : Prop :=
  match l with
  | QStart None => q_started q = true ∧ p = PanicCloseClosed
  | QStop _ => (q_stopped q = true ∧ p = PanicCloseClosed) ∨
               (q_stopped q = false ∧ q_listener q = false ∧ p = PanicNil)
  | QGo (GAcceptor _) => q_stopped q = false ∧ q_listener q = false ∧ p = PanicNil
  | _ => False
  end.

Lemma wg_Done_live q q1 p :
  q_wg q = live_goroutines q → 0 < live_goroutines q → q_wg q1 = q_wg q →
  wg_Done q1 ≠ Panicked p.
Proof. intros Hw Hl He. unfold wg_Done. destruct (q_wg q1) eqn:E; [lia|done]. Qed.

Lemma go_step_panics g q p :
  q_inv q → go_step g q = Panicked p → q_panic q (QGo g) p.
Proof.
  intros Hi. pose proof (qi_wg _ Hi) as Hwg. destruct g; simpl.
  - unfold acceptConnections. destruct (q_acceptor q) eqn:Ea; try done.
    all: assert (0 < live_goroutines q) as Hl by (unfold live_goroutines; rewrite Ea; simpl; lia).
    + destruct (q_stopped q); [|destruct (q_listener q)]; try done.
      * intros E. by destruct (wg_Done_live q (set_acceptor ADone q) p Hwg Hl).
      * by intros [= <-].
    + destruct r; [by case_decide|]. destruct (socket_closed q); [|done].
      intros E. by destruct (wg_Done_live q (set_acceptor ADone q) p Hwg Hl).
  - unfold handleConnection. destruct (q_conns q !! i) as [[]|] eqn:Ec; try done.
    all: pose proof (conn_live_pos q i _ Ec eq_refl) as Hl; destruct r as [j|].
    1,3: destruct (q_streams q !! j) as [[? [] ?]|]; try done; by case_decide.
    all: destruct (conn_closed q i); [|done]; intros E;
      by destruct (wg_Done_live q (set_conns (<[i := CDone]> (q_conns q)) q) p Hwg Hl).
  - unfold stream_read. destruct (q_streams q !! j) as [[i [] d]|] eqn:Es; try done.
    all: pose proof (stream_live_pos q j _ Es eq_refl) as Hl;
      pose proof (wg_Done_live q (set_streams (<[j := MkStream i SDone d]> (q_streams q)) q)
                  p Hwg Hl eq_refl) as Hr; intros E.
    all: destruct r, d; try done; try destruct (read_fails _ _); try done; by destruct (Hr E).
  - unfold handler_returns. by destruct (q_streams q !! j) as [[? [] ?]|].
Qed.

Lemma q_exec_panics (q : qserver) (l : qlabel) (p : panic) :
  q_inv q → q_exec l q = Panicked p → q_panic q l p.
Proof.
  intros Hi. destruct l; simpl.
  - unfold Quic_Start. destruct listen_err; [done|]. intros E. q_eval E.
    unfold close_started in E. simpl in E. destruct (q_started q); [|done].
    by injection E as <-.
  - unfold Quic_Stop, close_stopChan, close_listener. intros E. q_eval E.
    destruct (q_stopped q); simpl in E; [left; by injection E as <-|right].
    destruct (q_listener q); [by destruct close_err|]. by injection E as <-.
  - unfold Stop_wait. by destruct (q_stop q), (q_wg q).
  - by apply go_step_panics.
  - unfold conn_arrives, while_open. by destruct (q_socket q).
  - unfold stream_arrives, while_open. by destruct (q_socket q).
  - unfold data_arrives, while_open. by destruct (q_socket q).
  - unfold peer_closes, while_open. by destruct (q_socket q).
  - unfold stream_ends, while_open. by destruct (q_socket q).
Qed.

(** C21: The QUIC server panics in four ways only: a [Start] that can listen after one
    that did (also after [Stop]: the server cannot be restarted), a second [Stop],
    a [Stop] without a listener (before [Start], or after a [Start] that failed,
    which sets the listener to nil even when the server is running), and the accept
    loop after such a [Start]. The wait group is never driven below zero. *)
Theorem quic_panics (q : qserver) (l : qlabel) (p : panic) :
  q_reachable q → q_exec l q = Panicked p → q_panic q l p.
Proof. intros Hi%q_reachable_inv. by apply q_exec_panics. Qed.

Definition go_run (gs : list goroutine) : Go qserver () := q_run (QGo <$> gs).

(** A run of goroutine steps after [stopChan] was closed is no longer than the work
    left. *)
Lemma go_run_work gs q q' :
  q_stopped q = true → go_run gs q = Done q' () →
  length gs + work q' ≤ work q ∧ q_stop q' = q_stop q.
Proof.
  unfold go_run. revert q. induction gs as [|g gs IH]; intros q Hs; simpl; [by intros [= <-]|].
  unfold mbind, go_bind. destruct (go_step g q) as [q1 []|p|] eqn:E; [|done..].
  apply go_step_shape in E as (_ & _ & _ & Hs1 & Hst & _ & _ & _ & Hw).
  intros Hr%IH; [|congruence]. specialize (Hw Hs). destruct Hr as [? ->]. split; [lia|done].
Qed.

Lemma wg_Done_total (q : qserver) : 0 < q_wg q → ∃ q', wg_Done q = Done q' ().
Proof. unfold wg_Done. destruct (q_wg q); [lia|eauto]. Qed.

(** A stopping server with a goroutine left can make a step: with its socket closed
    every blocked [Accept], [AcceptStream] and [Read] fails, every handler returns. *)
Lemma live_go_step q :
  q_stopped q = true → q_socket q = ClosedSocket → q_wg q = live_goroutines q →
  0 < live_goroutines q → ∃ g q', go_step g q = Done q' ().
Proof.
  intros Hs Hso Hwg Hl. assert (0 < q_wg q) as Hpos by lia. unfold live_goroutines in Hl.
  assert (socket_closed q = true) as Hsc by (unfold socket_closed; by rewrite Hso).
  assert (∀ i, conn_closed q i = true) as Hcc by (intros i; unfold conn_closed; by rewrite Hsc).
  set (err := AcceptErr (External "quic" "ErrServerClosed")).
  destruct (q_acceptor q) eqn:Ea; simpl in Hl.
  2: { exists (GAcceptor err). simpl. unfold acceptConnections. rewrite Ea, Hs.
       by apply (wg_Done_total (set_acceptor ADone q)). }
  2: { exists (GAcceptor err). simpl. unfold acceptConnections. rewrite Ea, Hsc.
       by apply (wg_Done_total (set_acceptor ADone q)). }
  all: destruct (decide (0 < sum_list_with conn_live (q_conns q))) as [Hc|Hc];
    [apply sum_list_with_pos in Hc as (i & [] & Hi & Hx); simpl in Hx; try lia;
     exists (GConn i err); simpl; unfold handleConnection; rewrite Hi, Hcc;
     by apply (wg_Done_total (set_conns (<[i := CDone]> (q_conns q)) q))|].
  all: destruct (sum_list_with_pos stream_live (q_streams q)) as (j & [i [] d] & Hj & Hx);
    [lia|simpl in Hx; try lia..].
  all: first
    [ exists (GStream j ReadErr); simpl; unfold stream_read, read_fails; rewrite Hj, Hcc;
      by apply (wg_Done_total (set_streams (<[j := MkStream i SDone d]> (q_streams q)) q))
    | exists (GHandler j); simpl; unfold handler_returns; rewrite Hj; by eexists ].
Qed.

(** C20: [Stop] of the QUIC server ends: once it waits, the goroutines and handlers make
    at most [work q] steps, whatever their order, and as long as they have not all
    returned one of them can make a step, which rests on [Stop] having closed the
    listener: a blocked [Accept], [AcceptStream] or [Read] of the model fails only when
    its socket is closed or its peer is gone, and no peer need do anything. When no step
    is left, [Stop] returns nil. A handler that never returns is the only thing that keeps
    it waiting. *)
Theorem quic_stop_terminates (q q' : qserver) (gs : list goroutine) :
  q_reachable q → q_stop q = StopWaiting → go_run gs q = Done q' () →
  length gs ≤ work q ∧
  ((∃ g q'', go_step g q' = Done q'' ()) ∨
   (live_goroutines q' = 0 ∧ Stop_wait q' = Done (set_stop (StopReturned None) q') ())).
Proof.
  intros Hi%q_reachable_inv Hst Hr.
  destruct (qi_stop _ Hi) as (_ & Hs & _); [by left|].
  destruct (go_run_work gs q q' Hs Hr) as [Hw Hst']. split; [lia|].
  apply q_run_inv in Hr as Hi'; [|done].
  destruct (qi_stop _ Hi') as (_ & Hs' & Hso'); [left; congruence|].
  pose proof (qi_wg _ Hi') as Hwg. destruct (decide (live_goroutines q' = 0)) as [H0|].
  - right. split; [done|]. unfold Stop_wait. by rewrite Hst', Hst, Hwg, H0.
  - left. apply live_go_step; [done..|lia].
Qed.
