(* ===== verification/Fdb.v ===== *)
(** The assembly of the service: the transport manager of [transports/manager.go],
    [New] and the loop of [Start] of [fdb.go], the transport registry of
    [registry.go] and the logger selection. *)
From S2P Require Import Prelude GoRuntime Slices Types Messages Config Mdbx Database BatchWriter WriterSpec WriterCorrect.

(** * The transport manager *)

(** [T] stands for pointers to servers. *)
Abbreviation TransportManager T := (gmap Z T) (only parsing).

Section manager.
Context {T : Type}.

Definition NewTransportManager : TransportManager T := ∅.

Definition RegisterTransport (tType : TransportType) (transport : T) (tm : TransportManager T)
    : TransportManager T * option error :=
  match tm !! tType with
  | Some _ => (tm, Some (Errorf "transport already registered" []))
  | None => (<[tType := transport]> tm, None)
  end.

Definition GetTransport (tType : TransportType) (tm : TransportManager T) : res T :=
  match tm !! tType with
  | None => Err (Errorf "transport not found" [])
  | Some transport => Ok transport
  end.

Definition DeregisterTransport (tType : TransportType) (tm : TransportManager T)
    : TransportManager T * option error :=
  match tm !! tType with
  | None => (tm, Some (Errorf "transport not registered" []))
  | Some _ => (delete tType tm, None)
  end.
End manager.

(** * The environment of the assembly *)

(** The parts of [zap], [os] and the transports' [Stop] the assembly calls. *)
Class Host := {
  ParseAtomicLevel : string → option error;
  zap_Build (production : bool) : option error;
  os_exists : string → bool;
  os_Remove : string → option error;
}.

Section fdb.
Context `{Mdbx} `{TlsEnv} `{Host}.

(** [GetProductionLogger(level)] and [GetDevelopmentLogger(level)]: the configuration of
    zap, built. *)
Definition GetProductionLogger : option error := zap_Build true.
Definition GetDevelopmentLogger : option error := zap_Build false.

(** [logger.GetLogger(env, level)] *)
Definition GetLogger (env level : string) : option error :=
  match ParseAtomicLevel level with
  | Some e => Some (Errorf "invalid logger level provided: %s - err: %s" [AStr level])
  | None =>
      if decide (env = "development") then GetDevelopmentLogger
      else if decide (env = "production") then GetProductionLogger
      else Some (Errorf "not supported environment requested env: %s" [AStr env])
  end.

(** A handler registered on a server: the write handler of a batch writer, the read
    handler of a database, the dummy transport's write handler. *)
Inductive handler := HWrite (writer : nat) (db : Db) | HRead (db : Db) | HDummyWrite (db : Db).

(** A transport server: the configuration it was created from tells its kind. *)
Record server := MkServer { srv_config : TransportConfig; srv_handlers : gmap byte handler }.

Record FDB := MkFDB {
  fdb_config : Config;
  fdb_tm : TransportManager nat;
  fdb_dbManager : Manager;
}.

(** The getters. *)
Definition GetConfig (fdb : FDB) : Config := fdb_config fdb.
Definition GetDbManager (fdb : FDB) : Manager := fdb_dbManager fdb.
Definition GetTransportManager (fdb : FDB) : TransportManager nat := fdb_tm fdb.
Definition FDB_GetTransportByType (tType : TransportType) (fdb : FDB) : res nat :=
  GetTransport tType (fdb_tm fdb).

(** The objects in memory: servers and batch writers, by number. *)
Record objects := MkObj { obj_servers : list server; obj_writers : list BatchWriter }.

(** * New *)

(** [transport_dummy.NewDummyServer], [transport_quic.NewServer] and so on: the
    type switch of [New] with the type the server is registered under and the
    error messages; an unknown dynamic type is the [default] case. *)
Definition new_server (cnf : TransportConfig) : Go objects (res TransportType) :=
  match cnf with
  | NilConfig =>
      t ← GetTransportType NilConfig;
      mret (Err (Errorf "unknown transport type provided: %v" [AInt t]))
  | DummyConfig _ => mret (Ok DummyTransportType)
  | QuicConfig c =>
      match QuicTransport_GetTLSConfig c with
      | Err e => mret (Err (Wrap (Wrap e "could not get TLS config for quic transport")
                              "failed to create QUIC server"))
      | Ok _ => mret (Ok QUICTransportType)
      end
  | UdsConfig c =>
      if os_exists (uds_Socket c) then
        match os_Remove (uds_Socket c) with
        | Some e => mret (Err (Wrap (Wrap e "failed to remove existing UDS socket file")
                                "failed to create UDS server"))
        | None => mret (Ok UDSTransportType)
        end
      else mret (Ok UDSTransportType)
  | TcpConfig _ => mret (Ok TCPTransportType)
  | UdpConfig _ => mret (Ok UDPTransportType)
  end.

Definition register_msg (t : TransportType) : string :=
  if decide (t = QUICTransportType) then "failed to register QUIC transport"
  else if decide (t = TCPTransportType) then "failed to register TCP transport"
  else if decide (t = UDPTransportType) then "failed to register UDP transport"
  else "failed to register UDS transport".

Definition add_server (srv : server) : Go objects nat := λ o,
  Done (MkObj (obj_servers o ++ [srv]) (obj_writers o)) (length (obj_servers o)).

(** The loop of [New] over the configured transports. *)
Fixpoint create_transports (ts : list Transport) (tm : TransportManager nat)
    : Go objects (res (TransportManager nat)) :=
  match ts with
  | [] => mret (Ok tm)
  | t :: ts =>
      r ← new_server (transport_Config t);
      match r with
      | Err e => mret (Err e)
      | Ok tType =>
          srv ← add_server (MkServer (transport_Config t) ∅);
          match RegisterTransport tType srv tm with
          | (_, Some e) => mret (Err (Wrap e (register_msg tType)))
          | (tm, None) => create_transports ts tm
          end
      end
  end.

(** The state of [New] and [Start]: the library's and the objects. *)
Record fstate := MkF { f_mdbx : mdbx_state; f_obj : objects }.

Definition in_objects {A} : Go objects A → Go fstate A :=
  go_zoom f_obj (λ o s, MkF (f_mdbx s) o).

Definition New (cnf : Config) : Go fstate (res FDB) := λ s,
  match Config_Validate cnf with
  | Some e => Done s (Err (Wrap e "failure to validate (f)db configuration"))
  | None =>
      match (if logger_Enabled (cfg_Logger cnf)
             then GetLogger (logger_Environment (cfg_Logger cnf)) (logger_Level (cfg_Logger cnf))
             else None) with
      | Some e => Done s (Err (Wrap e "failure to construct new logger"))
      | None =>
          match NewManager (cfg_Mdbx cnf) (f_mdbx s) with
          | (m, Err e) => Done (MkF m (f_obj s)) (Err (Wrap e "failure to create database manager"))
          | (m, Ok dbM) =>
              (r ← in_objects (create_transports (cfg_Transports cnf) NewTransportManager);
               match r with
               | Err e => mret (Err e)
               | Ok tm => mret (Ok (MkFDB cnf tm dbM))
               end : Go fstate (res FDB)) (MkF m (f_obj s))
          end
      end
  end.

(** * The transport registry *)

Definition new_writer (bw : BatchWriter) : Go objects nat := λ o,
  Done (MkObj (obj_servers o) (obj_writers o ++ [bw])) (length (obj_writers o)).

(** [s.RegisterHandler(actionType, handler)] on the server at [srv]. *)
Definition set_handler (srv : nat) (actionType : byte) (h : handler) : Go objects () := λ o,
  match obj_servers o !! srv with
  | None => Panicked PanicNil
  | Some s => Done (MkObj (<[srv := MkServer (srv_config s)
                               (<[actionType := h]> (srv_handlers s))]> (obj_servers o))
                      (obj_writers o)) ()
  end.

(** The name in the messages and the dynamic type an entry expects. *)
Definition entry_kind (t : TransportType) (c : TransportConfig) : bool :=
  match c with
  | QuicConfig _ => bool_decide (t = QUICTransportType)
  | TcpConfig _ => bool_decide (t = TCPTransportType)
  | UdsConfig _ => bool_decide (t = UDSTransportType)
  | UdpConfig _ => bool_decide (t = UDPTransportType)
  | _ => false
  end.
Definition entry_name (t : TransportType) : string * string :=
  if decide (t = QUICTransportType) then ("QUIC", "QuicServer")
  else if decide (t = TCPTransportType) then ("TCP", "TcpServer")
  else if decide (t = UDSTransportType) then ("UDS", "UdsServer")
  else ("UDP", "UdpServer").

(** Half a second, in nanoseconds. *)
Definition flush_interval : Z := 500000000.

(** A batch writer on [dbP] and both handlers for the server at [srv]. *)
Definition prepare_server (srv : nat) (dbP : Db) : Go objects () :=
  bw ← NewBatchWriter dbP 512 flush_interval 15;
  writer ← new_writer bw;
  set_handler srv WriteHandlerType (HWrite writer dbP);;
  set_handler srv ReadHandlerType (HRead dbP).

(** The function the registry holds for type [t]. *)
Definition transport_fn (t : TransportType) (fdb : FDB) (dbP : Db)
    : Go objects (res nat) :=
  let '(name, srvName) := entry_name t in
  match GetTransport t (fdb_tm fdb) with
  | Err e => mret (Err (Wrap e ("failed to retrieve " +:+ name +:+ " transport: %w")))
  | Ok srv =>
      o ← go_get;
      match obj_servers o !! srv with
      | Some s =>
          if entry_kind t (srv_config s) then
            prepare_server srv dbP;;
            mret (Ok srv)
          else mret (Err (Errorf ("failed to cast transport to " +:+ srvName) []))
      | None => go_panic PanicNil
      end
  end.

(** [tRegistry]: there is no entry for the dummy transport. *)
Definition tRegistry (t : TransportType) : option (FDB → Db → Go objects (res nat)) :=
  if decide (t = QUICTransportType ∨ t = TCPTransportType ∨ t = UDSTransportType ∨
             t = UDPTransportType)
  then Some (transport_fn t) else None.

(** * The loop of Start *)

(** A goroutine of the error group: the profiling server or a transport. *)
Inductive task := TaskPprof (p : Pprof) | TaskTransport (srv : nat).

(** The loop of [Start]: the goroutines started, in order, and the error that
    ends it early; the goroutines already started go on. *)
Fixpoint launch (fdb : FDB) (bDb : Db) (ts : list TransportType) (g : list task)
    : Go objects (list task * option error) :=
  match ts with
  | [] => mret (g, None)
  | t :: ts =>
      match tRegistry t with
      | None => mret (g, Some (Errorf
          "unknown transport type provided: %v - rejecting serving transports"
          [AStr (TransportType_String t)]))
      | Some transportFn =>
          r ← transportFn fdb bDb;
          match r with
          | Err e => mret (g, Some (Wrap e
              ("failure to create transport: " +:+ TransportType_String t)))
          | Ok srv => launch fdb bDb ts (g ++ [TaskTransport srv])
          end
      end
  end.

(** * Specifications *)

(** The type a configuration is registered under. *)
Definition config_type (c : TransportConfig) : option TransportType :=
  match c with
  | NilConfig => None
  | DummyConfig _ => Some DummyTransportType
  | QuicConfig _ => Some QUICTransportType
  | UdsConfig _ => Some UDSTransportType
  | TcpConfig _ => Some TCPTransportType
  | UdpConfig _ => Some UDPTransportType
  end.

(** The manager's entries point to servers of their type. *)
Definition tm_typed (tm : TransportManager nat) (o : objects) : Prop :=
  ∀ t srv, tm !! t = Some srv →
    ∃ s, obj_servers o !! srv = Some s ∧ config_type (srv_config s) = Some t.

(** The manager holds the types of the configured transports and no others. *)
Definition tm_covers (tm : TransportManager nat) (ts : list Transport) : Prop :=
  ∀ t, is_Some (tm !! t) ↔ Some t ∈ (config_type ∘ transport_Config) <$> ts.

(** A writer that was just made for a database. *)
Definition fresh_writer (bDb : Db) (bw : BatchWriter) : Prop :=
  bw_db bw = bDb ∧ wf_bw bw ∧ quiescent bw ∧ unstopped bw ∧
  bw_workers bw = 15%Z ∧ bw_maxBatchSize bw = 512%Z ∧
  bw_flushInterval bw = 500000000%Z.

(** A server that [Start] prepared: both handlers, with a writer of its own. *)
Definition served_by (o : objects) (bDb : Db) (srv writer : nat) : Prop :=
  ∃ s bw, obj_servers o !! srv = Some s ∧
    srv_handlers s !! WriteHandlerType = Some (HWrite writer bDb) ∧
    srv_handlers s !! ReadHandlerType = Some (HRead bDb) ∧
    obj_writers o !! writer = Some bw ∧ fresh_writer bDb bw.
End fdb.

(** * New *)

Section new_spec.
Context `{Mdbx} `{TlsEnv} `{Host}.

Lemma new_server_ok c o o' t :
  new_server c o = Done o' (Ok t) → o' = o ∧ config_type c = Some t.
Proof.
  unfold new_server. destruct c; simpl; try done; try (by intros [= -> ->]).
  - by destruct (QuicTransport_GetTLSConfig _); intros [= -> ->].
  - by destruct (os_exists _); [destruct (os_Remove _)|]; intros [= -> ->].
Qed.

(** Creating a server of a known configuration returns. *)
Lemma new_server_returns c o : c ≠ NilConfig → ∃ r, new_server c o = Done o r.
Proof.
  intros Hc. unfold new_server. destruct c; simpl; try done; eauto.
  - destruct (QuicTransport_GetTLSConfig _); eauto.
  - destruct (os_exists _); [destruct (os_Remove _)|]; eauto.
Qed.

Lemma RegisterTransport_ok {T} t (srv : T) tm tm' :
  RegisterTransport t srv tm = (tm', None) → tm !! t = None ∧ tm' = <[t := srv]> tm.
Proof. unfold RegisterTransport. destruct (tm !! t) eqn:E; [done|]. by intros [= <-]. Qed.

Lemma tm_typed_add t c tm o :
  tm_typed tm o → config_type c = Some t →
  tm_typed (<[t := length (obj_servers o)]> tm)
    (MkObj (obj_servers o ++ [MkServer c ∅]) (obj_writers o)).
Proof.
  intros Hty Hc t' srv. rewrite lookup_insert. case_decide as Ht.
  - intros [= <-]. subst t'. eexists. simpl. by rewrite lookup_app_last.
  - intros (s & Hs & ?)%Hty. exists s. simpl. split; [|done].
    rewrite lookup_app_l; [done|]. by eapply lookup_lt_Some.
Qed.

Lemma create_transports_ok ts tm o o' tm' :
  create_transports ts tm o = Done o' (Ok tm') → tm_typed tm o →
  tm_typed tm' o' ∧ obj_writers o' = obj_writers o ∧
  (∀ t, is_Some (tm' !! t) ↔
     is_Some (tm !! t) ∨ Some t ∈ (config_type ∘ transport_Config) <$> ts) ∧
  NoDup ((config_type ∘ transport_Config) <$> ts) ∧
  (∀ t, is_Some (tm !! t) → Some t ∉ (config_type ∘ transport_Config) <$> ts).
Proof.
  revert tm o. induction ts as [|c ts IH]; intros tm o; simpl.
  { intros [= <- <-] Hty. split_and!; [done|done| |constructor|by intros ? _ ?%not_elem_of_nil].
    intros t. split; [by left|]. by intros [|?%not_elem_of_nil]. }
  destruct (new_server (transport_Config c) o) as [o1 [t|e]| |] eqn:E;
    unfold mbind at 1, go_bind at 1; rewrite E; try done.
  apply new_server_ok in E as [-> Hc]. cbn -[RegisterTransport create_transports].
  unfold mbind, go_bind, add_server. cbn -[RegisterTransport create_transports].
  destruct (RegisterTransport t _ tm) as [tm1 [e|]] eqn:Er; [done|].
  apply RegisterTransport_ok in Er as [Ht ->]. intros Hrun Hty.
  destruct (IH _ _ Hrun) as (Hty' & Hw & Hdom & Hnd & Hdis); [by apply tm_typed_add|].
  assert (is_Some ((<[t:=length (obj_servers o)]> tm) !! t)) as Hin
    by (rewrite lookup_insert_eq; eauto).
  split_and!; [done|done| | |].
  - intros t'. rewrite Hdom, elem_of_cons, lookup_insert. unfold compose at 2.
    rewrite Hc. case_decide as Hd; [subst t'; split; [by right; left|by eauto]|].
    split; [by intros [?|?]; [left|right; right]|].
    intros [?|[[= ?]|?]]; [by left|by destruct Hd|by right].
  - constructor; [|done]. unfold compose at 1. rewrite Hc. by apply Hdis.
  - intros t' Ht' [Heq|Hin']%elem_of_cons.
    + unfold compose in Heq. rewrite Hc in Heq. injection Heq as ->.
      rewrite Ht in Ht'. by destruct Ht'.
    + revert Hin'. apply Hdis. rewrite lookup_insert. case_decide; eauto.
Qed.

(** The service [New] returns. *)
Lemma New_ok (cnf : Config) (s s' : fstate) (fdb : FDB) :
  New cnf s = Done s' (Ok fdb) →
  fdb_config fdb = cnf ∧
  tm_typed (fdb_tm fdb) (f_obj s') ∧ tm_covers (fdb_tm fdb) (cfg_Transports cnf) ∧
  NoDup ((config_type ∘ transport_Config) <$> cfg_Transports cnf) ∧
  obj_writers (f_obj s') = obj_writers (f_obj s).
Proof.
  unfold New. simpl. destruct (if logger_Enabled _ then _ else _); [done|].
  destruct (NewManager _ _) as [m [dbM|e]]; [|done].
  unfold mbind, go_bind, in_objects, go_zoom. simpl.
  destruct (create_transports _ _ _) as [o' [tm|e]| |] eqn:E; try done.
  intros [= <- <-]. apply create_transports_ok in E as (Hty & Hw & Hdom & Hnd & _).
  2: { intros t srv. unfold NewTransportManager. by rewrite lookup_empty. }
  split_and!; try done. intros t. unfold NewTransportManager in Hdom.
  rewrite Hdom, lookup_empty. split; [by intros [[]|]|by right].
Qed.

(** C28: A service [New] returns holds one server for every configured transport and
    nothing else, whatever their [Enabled] flags say: the manager maps exactly
    the types of the configured transports, each to a server created from a
    configuration of that type, and the types are pairwise distinct, a second
    transport of a type making [New] fail. *)
Theorem New_registers_transports (cnf : Config) (s s' : fstate) (fdb : FDB) :
  New cnf s = Done s' (Ok fdb) →
  fdb_config fdb = cnf ∧
  tm_typed (fdb_tm fdb) (f_obj s') ∧ tm_covers (fdb_tm fdb) (cfg_Transports cnf) ∧
  NoDup ((config_type ∘ transport_Config) <$> cfg_Transports cnf) ∧
  obj_writers (f_obj s') = obj_writers (f_obj s).
Proof. apply New_ok. Qed.

Lemma create_transports_returns ts tm o :
  Forall transport_typed ts → ∃ o' r, create_transports ts tm o = Done o' r.
Proof.
  intros Hty. revert tm o. induction Hty as [|c ts Hc _ IH]; intros tm o; simpl; [by eexists _, _|].
  destruct (new_server_returns (transport_Config c) o) as [r E].
  { intros E. unfold transport_typed in Hc. by rewrite E in Hc. }
  erewrite go_bind_done by exact E. destruct r as [t|e]; [|by eexists _, _].
  unfold mbind, go_bind, add_server. cbn -[RegisterTransport create_transports].
  destruct (RegisterTransport _ _ _) as [tm1 [e|]]; [by eexists _, _|]. apply IH.
Qed.

(** [New] returns on a configuration whose transports came out of [UnmarshalYAML]: the
    call on a nil interface in its [default] case is never reached, whatever the
    databases, the logger and the file system do. *)
Theorem New_returns (cnf : Config) (s : fstate) :
  Forall transport_typed (cfg_Transports cnf) → ∃ s' r, New cnf s = Done s' r.
Proof.
  intros Hty. unfold New. simpl. destruct (if logger_Enabled _ then _ else _); [by eexists _, _|].
  destruct (NewManager _ _) as [m [dbM|e]]; [|by eexists _, _].
  destruct (create_transports_returns (cfg_Transports cnf) NewTransportManager (f_obj s) Hty)
    as (o' & r & E).
  unfold mbind, go_bind, in_objects, go_zoom. simpl. rewrite E.
  destruct r; by eexists _, _.
Qed.
End new_spec.

(** * Start *)

Section start_spec.
Context `{Mdbx} `{TlsEnv} `{Host}.

(** The writers every entry of the registry creates. *)
Lemma registry_writer (db : Db) :
  ∃ bw, (∀ S (s : S), NewBatchWriter db 512 flush_interval 15 s = Done s bw) ∧
    fresh_writer db bw.
Proof.
  exists (MkBW db (replicate 15 []) (replicate 15 ∅) 512 flush_interval false 15
            (replicate 15 WStart)).
  split; [done|]. split; [done|]. split.
  - apply (wf_fresh db 512 flush_interval false 15); [lia|done].
  - split; [split; by repeat constructor|]. split; [|done].
    split; [done|done|by repeat constructor].
Qed.

(** The objects after a server was prepared: its handlers, a new writer. *)
Lemma prepare_server_ok srv bDb o s :
  obj_servers o !! srv = Some s →
  ∃ o', prepare_server srv bDb o = Done o' () ∧
    served_by o' bDb srv (length (obj_writers o)) ∧
    (∃ hs, obj_servers o' = <[srv := MkServer (srv_config s) hs]> (obj_servers o)) ∧
    ∃ bw, obj_writers o' = obj_writers o ++ [bw] ∧ fresh_writer bDb bw.
Proof.
  intros Es. destruct (registry_writer bDb) as (bw & Hbw & Hdb & Hwf & Hq & Hu).
  unfold prepare_server. rewrite (go_bind_done _ _ _ _ _ (Hbw _ o)).
  unfold mbind, go_bind, new_writer, set_handler. simpl. rewrite Es. simpl.
  pose proof (lookup_lt_Some _ _ _ Es) as Hlt.
  rewrite list_lookup_insert_eq by done. simpl. rewrite list_insert_insert_eq.
  eexists. split; [done|]. split_and!; [|by eexists|by exists bw].
  eexists _, bw. simpl. rewrite list_lookup_insert_eq by done.
  split; [done|]. simpl. rewrite lookup_insert_ne, !lookup_insert_eq by done.
  by rewrite lookup_app_last.
Qed.

(** The objects after a transport function ran. *)
Lemma transport_fn_ok t fdb bDb o o' srv :
  transport_fn t fdb bDb o = Done o' (Ok srv) →
  fdb_tm fdb !! t = Some srv ∧
  served_by o' bDb srv (length (obj_writers o)) ∧
  (∀ srv', srv' ≠ srv → obj_servers o' !! srv' = obj_servers o !! srv') ∧
  ∃ bw, obj_writers o' = obj_writers o ++ [bw] ∧ fresh_writer bDb bw.
Proof.
  unfold transport_fn. destruct (entry_name t) as [name srvName].
  unfold GetTransport. destruct (fdb_tm fdb !! t) as [srv0|]; [|done].
  unfold mbind at 1, go_bind at 1, go_get at 1. cbv beta iota zeta.
  destruct (obj_servers o !! srv0) as [s|] eqn:Es; [|done].
  destruct (entry_kind t (srv_config s)); [|done].
  destruct (prepare_server_ok srv0 bDb o s Es) as (o1 & E & Hs & (hs & Hsrv) & Hbw).
  erewrite go_bind_done by exact E. intros [= <- <-]. split_and!; [done..| |done].
  intros srv' Hne. by rewrite Hsrv, list_lookup_insert_ne.
Qed.

Lemma served_by_keep o o' bDb srv writer :
  served_by o bDb srv writer →
  obj_servers o' !! srv = obj_servers o !! srv →
  (∃ bws, obj_writers o' = obj_writers o ++ bws) → served_by o' bDb srv writer.
Proof.
  intros (s & bw & Hs & Hw & Hr & Hbw & ? & ? & ?) Hs' [bws Hws]. exists s, bw.
  rewrite Hs', Hws. split_and!; [done|done|done| |done..].
  rewrite lookup_app_l; [done|]. by eapply lookup_lt_Some.
Qed.

(** After [launch] every server it launched is served, and one served before is. *)
Lemma launch_spec fdb bDb ts g o o' g' :
  launch fdb bDb ts g o = Done o' (g', None) →
  ∃ srvs, g' = g ++ (TaskTransport <$> srvs) ∧
    Forall2 (λ t srv, fdb_tm fdb !! t = Some srv) ts srvs ∧
    (∃ bws, obj_writers o' = obj_writers o ++ bws ∧ length bws = length ts ∧
       Forall (fresh_writer bDb) bws) ∧
    (∀ srv, (srv ∈ srvs ∨ ∃ w, served_by o bDb srv w) → ∃ w, served_by o' bDb srv w).
Proof.
  revert g o. induction ts as [|t ts IH]; intros g o; simpl.
  { intros [= <- <-]. exists []. rewrite app_nil_r.
    split_and!; [done|constructor|..].
    + exists []. by rewrite app_nil_r.
    + by intros srv [?%not_elem_of_nil|]. }
  destruct (tRegistry t) as [fn|] eqn:Et; [|done].
  assert (fn = transport_fn t) as -> by (unfold tRegistry in Et; case_decide; congruence).
  destruct (transport_fn t fdb bDb o) as [o1 [srv|e]| |] eqn:E;
    unfold mbind, go_bind; rewrite E; try done.
  apply transport_fn_ok in E as (Htm & Hserved & Hother & bw & Hbw & Hfresh).
  intros (srvs & -> & Hf & (bws & Hws & Hlen & Hbws) & Hall)%IH.
  exists (srv :: srvs). split_and!; [by rewrite <- app_assoc|by constructor| |].
  - exists (bw :: bws). rewrite Hws, Hbw, <- app_assoc.
    split_and!; [done|simpl; lia|by constructor].
  - intros srv' Hcase. apply Hall. destruct (decide (srv' = srv)) as [->|Hne]; [eauto|].
    destruct Hcase as [[?|?]%elem_of_cons|[w Hw]]; [done|by left|right].
    exists w. eapply served_by_keep; [done|by apply Hother|by exists [bw]].
Qed.

(** C29: When the loop of [Start] gets through, the service it launched is complete:
    one goroutine per requested transport, in the order requested, each on the
    server the manager holds for the type, and each of these servers has the
    read handler of the database the loop is given and the write handler of a
    well-formed, empty batch writer of 15 workers on that database, which stores at
    most 512 entries at a time and flushes every 500 milliseconds; as many batch
    writers were made as transports were requested. *)
Theorem launch_serves (fdb : FDB) (bDb : Db) (ts : list TransportType) (g g' : list task)
    (o o' : objects) :
  launch fdb bDb ts g o = Done o' (g', None) →
  ∃ srvs, g' = g ++ (TaskTransport <$> srvs) ∧
    Forall2 (λ t srv, fdb_tm fdb !! t = Some srv) ts srvs ∧
    Forall (λ srv, ∃ writer, served_by o' bDb srv writer) srvs ∧
    length (obj_writers o') = length (obj_writers o) + length ts.
Proof.
  intros (srvs & Hg & Hf & (bws & Hws & Hlen & _) & Hall)%launch_spec.
  exists srvs. split_and!; [done..| |].
  - apply Forall_forall. eauto.
  - rewrite Hws, length_app. lia.
Qed.

(** * The transport manager is a finite map *)

(** The transport manager is a finite map that never overwrites: registering
    succeeds exactly for a type without transport and makes [GetTransport] give
    that transport, deregistering succeeds exactly for a type with one and makes
    it fail, and neither changes any other type; a failed call changes nothing. *)
Theorem transport_manager_map {T} (tm : TransportManager T) (t t' : TransportType) (srv : T) :
  (let '(tm', err) := RegisterTransport t srv tm in
   match GetTransport t tm with
   | Ok _ => err = Some (Errorf "transport already registered" []) ∧ tm' = tm
   | Err _ => err = None ∧
       GetTransport t' tm' = if decide (t' = t) then Ok srv else GetTransport t' tm
   end) ∧
  (let '(tm', err) := DeregisterTransport t tm in
   match GetTransport t tm with
   | Err _ => err = Some (Errorf "transport not registered" []) ∧ tm' = tm
   | Ok _ => err = None ∧
       GetTransport t' tm' = if decide (t' = t) then Err (Errorf "transport not found" [])
                             else GetTransport t' tm
   end).
Proof.
  unfold RegisterTransport, DeregisterTransport, GetTransport.
  destruct (tm !! t) as [srv0|]; (split; [|]); try done; split; try done;
    rewrite ?lookup_insert, ?lookup_delete; case_decide as Ht; case_decide; congruence || done.
Qed.
End start_spec.
