(* ===== verification/Serve.v ===== *)
(** [Start] and [Stop] of [fdb.go] over servers that run: the error group, the profiling
    server of [pprof/pprof.go], the start and stop protocols of the servers
    interleaved, and the [serve] command of [cmd/serve.go]. *)
From S2P Require Import Prelude GoRuntime Slices Types Messages Config Mdbx Database BatchWriter WriterSpec WriterCorrect Lifecycle QuicLifecycle Fdb.

(** * The profiling server *)

Record PprofServer := MkPprofServer { pp_opts : Pprof }.

(** [pprof.New(ctx, opts)]: the context is stored and not used. *)
Definition pprof_New (opts : Pprof) : PprofServer := MkPprofServer opts.
Definition IsEnabled (p : PprofServer) : bool := pprof_Enabled (pp_opts p).
Definition GetName (p : PprofServer) : string := pprof_Name (pp_opts p).
Definition GetAddress (p : PprofServer) : string := pprof_Addr (pp_opts p).

(** [p.Start()]: [ListenAndServe] gives the error of serving an address, and nothing as
    long as it serves; it has no other way to end. *)
Definition Pprof_Start {S} (ListenAndServe : string → option error) (p : PprofServer)
    : Go S (option error) :=
  match ListenAndServe (pprof_Addr (pp_opts p)) with
  | Some e => mret (Some e)
  | None => go_block
  end.

(** * Servers that run *)

(** What stopping a server meets: [gnet.Engine.Stop], given where the engine is, the
    close of a QUIC listener, the removal of a socket file. [Engine.Stop] succeeds on
    a serving engine only. *)
Class Engines := {
  engine_Stop : engine_pc → option error;
  listener_Close : option error;
  socket_Remove : string → option error;
  engine_Stop_serving p : engine_Stop p = None → p = ERun;
}.

(** A server: the state of its start and stop protocol; for gnet its kind and the result
    of removing its socket file. *)
Inductive live := LiveGnet (k : kind) (remove : option error) (s : life) | LiveQuic (q : qserver).

(** The goroutines of the group that ended, in that order: their numbers and results. *)
Definition ended : Type := list (nat * option error).

(** The servers, by number, and the goroutines that ended. *)
Record net := MkNet { n_lives : list live; n_ended : ended }.

(** What happens while the group runs: the profiling server gives up, a goroutine calls
    [Start] of its server ([listen_err] is what [quic.ListenAddr] returns), a [Start]
    returns, a server or its network makes a step. *)
Inductive net_event :=
  | PprofEnds (i : nat) (e : error)
  | CallStart (i : nat) (listen_err : option error)
  | StartReturns (i : nat)
  | GnetStep (srv : nat) (l : label)
  | QuicStep (srv : nat) (l : qlabel).

(** The steps of a server other than the calls of [Start] and [Stop]. *)
Definition gnet_own (l : label) : bool :=
  match l with Call_Start | Call_Stop => false | _ => true end.
Definition quic_own (l : qlabel) : bool :=
  match l with QStart _ | QStop _ | QWaited => false | _ => true end.

Section serve.
Context `{Mdbx} `{TlsEnv} `{Host} `{Engines}.

(** The server [New] makes from a configuration. *)
Definition new_live (c : TransportConfig) : live :=
  match c with
  | QuicConfig _ => LiveQuic Quic_NewServer
  | TcpConfig _ => LiveGnet KTcp None NewServer
  | UdpConfig _ => LiveGnet KUdp None NewServer
  | UdsConfig c => LiveGnet KUds (socket_Remove (uds_Socket c)) NewServer
  | DummyConfig _ | NilConfig => LiveGnet KDummy None NewServer
  end.

(** An operation of one server, in the net. *)
Definition on_gnet {A} (srv : nat) (c : kind → option error → Go life A) : Go net A := λ n,
  match n_lives n !! srv with
  | Some (LiveGnet k rm s) =>
      match c k rm s with
      | Done s' a => Done (MkNet (<[srv := LiveGnet k rm s']> (n_lives n)) (n_ended n)) a
      | Panicked p => Panicked p
      | Blocked => Blocked
      end
  | _ => Blocked
  end.

Definition on_quic {A} (srv : nat) (c : Go qserver A) : Go net A := λ n,
  match n_lives n !! srv with
  | Some (LiveQuic q) =>
      match c q with
      | Done q' a => Done (MkNet (<[srv := LiveQuic q']> (n_lives n)) (n_ended n)) a
      | Panicked p => Panicked p
      | Blocked => Blocked
      end
  | _ => Blocked
  end.

(** Goroutine [i] of the group returns. *)
Definition end_task (i : nat) (r : option error) : Go net () := λ n,
  Done (MkNet (n_lives n) (n_ended n ++ [(i, r)])) ().

(** Goroutine [i], as long as it runs. *)
Definition active (g : list task) (i : nat) (n : net) : option task :=
  if decide (i ∈ (n_ended n).*1) then None else g !! i.

(** The return value of a [Start] that is over. *)
Definition start_returned (_ : kind) (_ : option error) : Go life (option error) := λ s,
  match spc s with
  | SUp => Done s None
  | SRet r => Done s r
  | SIdle | SWait => Blocked
  end.

(** One event, with the goroutines [g]. A gnet server is started by one goroutine at
    most. *)
Definition net_step (g : list task) (ev : net_event) : Go net () := λ n,
  match ev with
  | PprofEnds i e =>
      match active g i n with
      | Some (TaskPprof p) => (Pprof_Start (λ _, Some e) (pprof_New p) ≫= end_task i) n
      | _ => Blocked
      end
  | CallStart i listen_err =>
      match active g i n with
      | Some (TaskTransport srv) =>
          match n_lives n !! srv with
          | Some (LiveQuic _) => (on_quic srv (Quic_Start listen_err) ≫= end_task i) n
          | Some (LiveGnet _ _ _) => on_gnet srv (λ k rm, exec k engine_Stop rm Call_Start) n
          | None => Panicked PanicNil
          end
      | _ => Blocked
      end
  | StartReturns i =>
      match active g i n with
      | Some (TaskTransport srv) => (on_gnet srv start_returned ≫= end_task i) n
      | _ => Blocked
      end
  | GnetStep srv l =>
      if gnet_own l then on_gnet srv (λ k rm, exec k engine_Stop rm l) n else Blocked
  | QuicStep srv l => if quic_own l then on_quic srv (q_exec l) n else Blocked
  end.

Fixpoint net_run (g : list task) (evs : list net_event) : Go net () :=
  match evs with
  | [] => mret ()
  | ev :: evs => net_step g ev;; net_run g evs
  end.

(** * Start *)

(** What happens until [Start] is done, before the [Stop] of a server, and while that
    waits. *)
Record schedule := MkSchedule {
  sc_start : list net_event;
  sc_before : nat → list net_event;
  sc_waiting : nat → list net_event;
}.

Definition all_ended (size : nat) (results : ended) : Prop :=
  Forall (λ i, i ∈ results.*1) (seq 0 size).

#[export] Instance all_ended_dec size results : Decision (all_ended size results).
Proof. apply Forall_dec. intros. apply _. Defined.

(** [g.Wait()] waits for every goroutine and gives the first error. *)
Fixpoint first_error (results : list (option error)) : option error :=
  match results with
  | [] => None
  | Some e :: _ => Some e
  | None :: results => first_error results
  end.

Definition group_Wait (size : nat) : Go net (option error) := λ n,
  if decide (all_ended size (n_ended n)) then Done n (first_error (n_ended n).*2) else Blocked.

(** The service and its servers. *)
Record serving := MkServing { se_service : fstate; se_net : net }.

Definition on_fstate {A} : Go fstate A → Go serving A :=
  go_zoom se_service (λ f s, MkServing f (se_net s)).
Definition on_net {A} : Go net A → Go serving A :=
  go_zoom se_net (λ n s, MkServing (se_service s) n).

(** The end of [Start]: the group, then the context; [ctx_done] is [ctx.Err()] once the
    context is done, nothing for a context that never is. *)
Definition await (size : nat) (ctx_done : option error) : Go serving (option error) :=
  gErr ← on_net (group_Wait size);
  match gErr with
  | Some e => mret (Some (Wrap e "failure to start fdb database"))
  | None => match ctx_done with Some e => mret (Some e) | None => go_block end
  end.

(** [fdb.Start(ctx, transports...)]: the goroutines it launched, its error. They run from
    their launch on; as the loop touches only servers not yet launched, the events
    come after it. *)
Definition FDB_Start (fdb : FDB) (ts : list TransportType) (sched : schedule)
    (ctx_done : option error) : Go serving (list task * option error) :=
  match GetDb (fdb_dbManager fdb) "fdb" with
  | Err e => mret ([], Some (Wrap e "failed to retrieve fdb database: %w"))
  | Ok bDb =>
      match GetPprofByServiceTag (fdb_config fdb) "fdb" with
      | Err e => mret ([], Some (Wrap e "failed to retrieve fdb pprof config for service tag: fdb"))
      | Ok pCfg =>
          r ← on_fstate (in_objects (launch fdb bDb ts
                (if pprof_Enabled pCfg then [TaskPprof pCfg] else [])));
          on_net (net_run r.1 (sc_start sched));;
          match r.2 with
          | Some e => mret (r.1, Some e)
          | None => r' ← await (length r.1) ctx_done; mret (r.1, r')
          end
      end
  end.

(** * Stop *)

(** What [Stop] of a QUIC server returns after its close of the listener. *)
Definition quic_stopped (waiting : Go net ()) (srv : nat) : Go net (option error) := λ n,
  match n_lives n !! srv with
  | Some (LiveQuic q) =>
      match q_stop q with
      | StopReturned r => Done n r
      | _ => (waiting;; on_quic srv Stop_wait;; mret None) n
      end
  | _ => Blocked
  end.

(** [t.Stop()] of the server at [srv]. *)
Definition server_Stop (g : list task) (sched : schedule) (srv : nat)
    : Go net (option error) :=
  net_run g (sc_before sched srv);;
  n ← go_get;
  match n_lives n !! srv with
  | Some (LiveGnet _ _ _) => on_gnet srv (λ k rm, Lifecycle.Stop k engine_Stop rm)
  | Some (LiveQuic _) =>
      on_quic srv (Quic_Stop listener_Close);;
      quic_stopped (net_run g (sc_waiting sched srv)) srv
  | None => go_panic PanicNil
  end.

(** [fdb.Stop(transports...)]; [stop] is the servers' [Stop]. *)
Fixpoint FDB_Stop {S} (stop : nat → Go S (option error)) (fdb : FDB) (ts : list TransportType)
    : Go S (option error) :=
  match ts with
  | [] => mret None
  | t :: ts =>
      match GetTransport t (fdb_tm fdb) with
      | Err e => mret (Some e)
      | Ok srv =>
          r ← stop srv;
          match r with
          | Some e => mret (Some e)
          | None => FDB_Stop stop fdb ts
          end
      end
  end.

(** * The serve command *)

(** The flags [config] and [transports] with their default values. *)
Definition serve_config : string := "./config.yaml".
Definition serve_transports : list string := ["quic"; "uds"; "tcp"; "udp"].

Fixpoint parse_transports (names : list string) : res (list TransportType) :=
  match names with
  | [] => Ok []
  | t :: names =>
      match ParseTransportType t with
      | Err e => Err (Wrap e ("invalid transport type: " +:+ t))
      | Ok tType => ts ← parse_transports names; mret (tType :: ts)
      end
  end.

(** The servers [New] made, none of them started. *)
Definition new_net : Go serving () := λ s,
  Done (MkServing (se_service s)
          (MkNet (new_live ∘ srv_config <$> obj_servers (f_obj (se_service s))) [])) ().

(** [Start] with the deferred [Stop], whose result is dropped. *)
Definition start_and_stop (fdb : FDB) (ts : list TransportType) (sched : schedule)
    (ctx_done : option error) : Go serving (option error) :=
  r ← FDB_Start fdb ts sched ctx_done;
  FDB_Stop (λ srv, on_net (server_Stop r.1 sched srv)) fdb ts;;
  mret r.2.

(** The action of [ServeCommand]: [load] is [LoadConfig], [config] and [transports] are
    the flags given, [ctx_done] is that of [c.Context]. *)
Definition serve_action (load : string → res Config) (config : option string)
    (transports : option (list string)) (sched : schedule) (ctx_done : option error)
    : Go serving (option error) :=
  match load (default serve_config config) with
  | Err e => mret (Some (Wrap e "failed to load configuration"))
  | Ok cfg =>
      r ← on_fstate (New cfg);
      match r with
      | Err e => mret (Some (Wrap e "failed to initialize FDB"))
      | Ok fdb =>
          new_net;;
          match parse_transports (default serve_transports transports) with
          | Err e => mret (Some e)
          | Ok ts => start_and_stop fdb ts sched ctx_done
          end
      end
  end.
End serve.

(** * What Start and Stop do with their lists *)

Section lists.
Context `{Mdbx} `{TlsEnv} `{Host} `{Engines}.

Lemma launch_app_unknown fdb bDb ts1 t ts2 g g1 o o1 :
  launch fdb bDb ts1 g o = Done o1 (g1, None) → tRegistry t = None →
  launch fdb bDb (ts1 ++ t :: ts2) g o
  = Done o1 (g1, Some (Errorf
      "unknown transport type provided: %v - rejecting serving transports"
      [AStr (TransportType_String t)])).
Proof.
  intros E Ht. revert g o E. induction ts1 as [|t1 ts1 IH]; intros g o; simpl.
  { intros [= <- <-]. by rewrite Ht. }
  destruct (tRegistry t1) as [fn|]; [|done].
  destruct (fn fdb bDb o) as [o2 [srv|e]| |] eqn:E;
    unfold mbind, go_bind; rewrite E; try done. apply IH.
Qed.

(** The dummy transport cannot be served: [Start] fails at the first dummy entry of its
    list with an unknown-transport error, after having launched the transports before
    it, whose goroutines it leaves where they are. *)
Theorem start_rejects_dummy (fdb : FDB) (bDb : Db) (ts1 ts2 : list TransportType)
    (pCfg : Pprof) (g : list task) (sched : schedule) (ctx_done : option error)
    (s : serving) (o1 : objects) (n : net) :
  GetDb (fdb_dbManager fdb) "fdb" = Ok bDb →
  GetPprofByServiceTag (fdb_config fdb) "fdb" = Ok pCfg → pprof_Enabled pCfg = false →
  launch fdb bDb ts1 [] (f_obj (se_service s)) = Done o1 (g, None) →
  net_run g (sc_start sched) (se_net s) = Done n () →
  FDB_Start fdb (ts1 ++ DummyTransportType :: ts2) sched ctx_done s
  = Done (MkServing (MkF (f_mdbx (se_service s)) o1) n) (g, Some (Errorf
      "unknown transport type provided: %v - rejecting serving transports" [AStr "dummy"])).
Proof.
  intros Hdb Hp Hen E Hr. unfold FDB_Start. rewrite Hdb, Hp, Hen.
  unfold mbind, go_bind, on_fstate, in_objects, on_net, go_zoom.
  rewrite (launch_app_unknown fdb bDb ts1 DummyTransportType ts2 [] g _ o1 E eq_refl). simpl.
  by rewrite Hr.
Qed.

(** The servers one after the other, up to the first error. *)
Fixpoint stop_each {S} (stop : nat → Go S (option error)) (srvs : list nat) : Go S (option error) :=
  match srvs with
  | [] => mret None
  | srv :: srvs =>
      r ← stop srv;
      match r with Some e => mret (Some e) | None => stop_each stop srvs end
  end.

(** [Stop] works through its list in order and ends at the first failure: for a list of
    registered transports it stops their servers one after the other up to the first
    error, and behind these a transport that is not registered is an error that keeps
    the rest of the list from being stopped. *)
Theorem stop_stops_in_order {S} (stop : nat → Go S (option error)) (fdb : FDB)
    (ts1 ts2 : list TransportType) (srvs : list nat) (t : TransportType) (s : S) :
  Forall2 (λ t srv, fdb_tm fdb !! t = Some srv) ts1 srvs → fdb_tm fdb !! t = None →
  FDB_Stop stop fdb ts1 s = stop_each stop srvs s ∧
  FDB_Stop stop fdb (ts1 ++ t :: ts2) s =
    match stop_each stop srvs s with
    | Done s' None => Done s' (Some (Errorf "transport not found" []))
    | r => r
    end.
Proof.
  intros Hf Ht. revert s. induction Hf as [|t1 srv ts1 srvs Hsrv _ IH]; intros s; simpl.
  - unfold GetTransport. by rewrite Ht.
  - unfold GetTransport, mbind, go_bind. rewrite Hsrv.
    destruct (stop srv s) as [s1 [e|]| |]; [done|apply IH|done..].
Qed.
End lists.
