(* ===== verification/ServeSound.v ===== *)
(** The service of the file Serve is sound: whatever the order of events, its servers keep
    the invariants of their protocols, and it panics in one place only. *)
From S2P Require Import Prelude GoRuntime Slices Types Messages Config Mdbx Database BatchWriter WriterSpec WriterCorrect Lifecycle QuicLifecycle Fdb Serve.

(** * Servers stay sound *)

Section sound.
Context `{Mdbx} `{TlsEnv} `{Host} `{Engines}.

(** The kind of a server: nothing for QUIC. *)
Definition live_kind (l : live) : option kind :=
  match l with LiveGnet k _ _ => Some k | LiveQuic _ => None end.

(** The protocol's invariant holds, and a QUIC server that was started has a listener. *)
Definition live_safe (l : live) : Prop :=
  match l with
  | LiveGnet k _ s => inv k s
  | LiveQuic q => q_inv q ∧ (q_started q = true → q_listener q = true)
  end.

(** [Stop] has not been called. *)
Definition live_open (l : live) : Prop :=
  match l with
  | LiveGnet _ _ s => is_closed s (stopChan s) = false
  | LiveQuic q => q_stopped q = false
  end.

(** The QUIC server at [srv] has a listener. *)
Definition quic_up (srv : nat) (n : net) : Prop :=
  ∃ q, n_lives n !! srv = Some (LiveQuic q) ∧ q_listener q = true.

(** The net of servers of the kinds [ks] run by the goroutines [g], those of [called]
    having been asked to stop, the QUIC servers of [ups] having listeners. *)
Record net_inv (g : list task) (ks : list (option kind)) (ups called : list nat) (n : net) : Prop := {
  ni_kinds : live_kind <$> n_lives n = ks;
  ni_safe : Forall live_safe (n_lives n);
  ni_open : ∀ srv l, n_lives n !! srv = Some l → srv ∉ called → live_open l;
  ni_once : ∀ i srv q, g !! i = Some (TaskTransport srv) → n_lives n !! srv = Some (LiveQuic q) →
    q_started q = true → i ∈ (n_ended n).*1;
  ni_there : ∀ srv, TaskTransport srv ∈ g → srv < length (n_lives n);
  ni_up : ∀ srv, srv ∈ ups → quic_up srv n;
  ni_pprof : ∀ i p r, g !! i = Some (TaskPprof p) → (i, r) ∈ n_ended n → is_Some r;
}.

(** A server changes. *)
Lemma net_inv_live g ks ups called n srv l l' :
  net_inv g ks ups called n → n_lives n !! srv = Some l → live_kind l' = live_kind l →
  live_safe l' → (srv ∉ called → live_open l → live_open l') →
  (∀ q q', l = LiveQuic q → l' = LiveQuic q' →
     (q_started q' = true → q_started q = true) ∧ (q_listener q = true → q_listener q' = true)) →
  net_inv g ks ups called (MkNet (<[srv := l']> (n_lives n)) (n_ended n)).
Proof.
  intros [Hk Hs Ho Hon Ht Hu Hp] Hl Hkind Hsafe Hopen Hst.
  pose proof (lookup_lt_Some _ _ _ Hl) as Hlt. split; simpl; try done.
  - rewrite list_fmap_insert, Hkind, list_insert_id; [done|]. by rewrite list_lookup_fmap, Hl.
  - by apply Forall_insert.
  - intros srv' l0 Hl0 Hc. apply list_lookup_insert_Some in Hl0 as [(-> & <- & _)|[_ Hl0]]; eauto.
  - intros i srv' q Hi Hq Hstart.
    apply list_lookup_insert_Some in Hq as [(<- & -> & _)|[_ Hq]]; [|eauto].
    destruct l as [k rm s|q0]; [done|]. eapply Hon; [done|done|by eapply Hst].
  - intros srv' Hin. rewrite length_insert. eauto.
  - intros srv' (q & Hq & Hlis)%Hu. destruct (decide (srv' = srv)) as [->|Hne].
    + rewrite Hl in Hq. injection Hq as ->. destruct l' as [|q']; [done|]. exists q'. simpl.
      rewrite list_lookup_insert_eq by done. split; [done|]. by eapply Hst.
    + exists q. simpl. by rewrite list_lookup_insert_ne.
Qed.

(** A goroutine ends. *)
Lemma net_inv_end g ks ups called n i r :
  net_inv g ks ups called n → (∀ p, g !! i = Some (TaskPprof p) → is_Some r) →
  net_inv g ks ups called (MkNet (n_lives n) (n_ended n ++ [(i, r)])).
Proof.
  intros [Hk Hs Ho Hon Ht Hu Hp] Hr. split; simpl; try done.
  - intros j srv q Hj Hq Hst. rewrite fmap_app, elem_of_app. left. eauto.
  - intros j p r' Hj [Hin|[= -> ->]%list_elem_of_singleton]%elem_of_app; eauto.
Qed.

(** The steps of a QUIC server leave what [Start] and [Stop] set. *)
Lemma quic_own_keeps l q q' :
  quic_own l = true → q_exec l q = Done q' () →
  q_listener q' = q_listener q ∧ q_started q' = q_started q ∧ q_stopped q' = q_stopped q.
Proof.
  destruct l; simpl; intros Hl E; try done.
  - apply go_step_shape in E as (? & _ & ? & ? & _). done.
  - unfold conn_arrives, while_open in E. destruct (q_socket q); by simplify_eq.
  - unfold stream_arrives, while_open in E. destruct (q_socket q); by simplify_eq.
  - unfold data_arrives, while_open in E. destruct (q_socket q); by simplify_eq.
  - unfold peer_closes, while_open in E. destruct (q_socket q); by simplify_eq.
  - unfold stream_ends, while_open in E. destruct (q_socket q); by simplify_eq.
Qed.

Lemma quic_own_never_panics l q p :
  live_safe (LiveQuic q) → quic_own l = true → q_exec l q ≠ Panicked p.
Proof.
  intros [Hi Hst] Hl E. pose proof (q_exec_panics q l p Hi E) as Hp.
  destruct l as [| | |[]| | | | |]; try done. destruct Hp as (_ & Hlis & _).
  destruct (q_started q) eqn:Es; [by rewrite Hst in Hlis|].
  pose proof (qi_fresh _ Hi Es) as Ha. simpl in E. unfold acceptConnections in E.
  by rewrite Ha in E.
Qed.

Lemma gnet_own_never_panics k rm l s p :
  inv k s → l ≠ Call_Stop → exec k engine_Stop rm l s ≠ Panicked p.
Proof.
  intros Hi Hl E. by destruct (exec_panics k engine_Stop rm engine_Stop_serving s l p Hi E).
Qed.

(** An outcome that is no panic and satisfies a property of its state. *)
Definition fine {S A} (P : S → Prop) (o : outcome S A) : Prop :=
  match o with Done s _ => P s | Panicked _ => False | Blocked => True end.

Lemma fine_bind {S A B} (P Q : S → Prop) (c : Go S A) (k : A → Go S B) s :
  fine P (c s) → (∀ s' a, c s = Done s' a → P s' → fine Q (k a s')) → fine Q ((c ≫= k) s).
Proof. unfold mbind, go_bind. destruct (c s); simpl; auto. Qed.

(** A step of a gnet server other than [Stop]. *)
Lemma on_gnet_ok g ks ups called n srv l :
  net_inv g ks ups called n → l ≠ Call_Stop →
  fine (net_inv g ks ups called) (on_gnet srv (λ k rm, exec k engine_Stop rm l) n).
Proof.
  intros Hn Hl. unfold on_gnet. destruct (n_lives n !! srv) as [[k rm s|q]|] eqn:E; [|done..].
  pose proof (Forall_lookup_1 _ _ _ _ (ni_safe _ _ _ _ _ Hn) E) as Hs.
  destruct (exec k engine_Stop rm l s) as [s' []|p|] eqn:Ee; [|by eapply gnet_own_never_panics|done].
  eapply net_inv_live; [done|done|done|..|done].
  - by eapply exec_inv; [apply engine_Stop_serving|..].
  - simpl. intros _ Ho. by eapply exec_stop_open; [apply engine_Stop_serving|right|..].
Qed.

Lemma active_some g i n t : active g i n = Some t → g !! i = Some t ∧ i ∉ (n_ended n).*1.
Proof. unfold active. by case_decide. Qed.

(** [Start] of a QUIC server that was not started. *)
Lemma Quic_Start_ok e q :
  live_safe (LiveQuic q) → q_started q = false →
  ∃ q' r, Quic_Start e q = Done q' r ∧ live_safe (LiveQuic q') ∧ q_stopped q' = q_stopped q.
Proof.
  intros [Hi _] Hst. pose proof (q_inv_Start e q) as Hinv. destruct e as [e|].
  - eexists _, _. split; [done|]. split; [|done]. split; [by apply Hinv|]. simpl. by rewrite Hst.
  - unfold Quic_Start, mbind, go_bind, update, close_started, wg_Add in *. simpl in *.
    rewrite Hst in *. eexists _, _. split; [done|]. split; [|done]. split; [by apply Hinv|done].
Qed.

Lemma call_quic_ok g ks ups called n i srv q e :
  NoDup g → net_inv g ks ups called n → active g i n = Some (TaskTransport srv) →
  n_lives n !! srv = Some (LiveQuic q) →
  fine (net_inv g ks ups called) ((on_quic srv (Quic_Start e) ≫= end_task i) n).
Proof.
  intros Hnd Hn [Hi Hrun]%active_some Hq.
  pose proof (Forall_lookup_1 _ _ _ _ (ni_safe _ _ _ _ _ Hn) Hq) as Hs.
  assert (q_started q = false) as Hst.
  { destruct (q_started q) eqn:E; [|done]. destruct Hrun. by eapply ni_once. }
  destruct (Quic_Start_ok e q Hs Hst) as (q' & r & E & Hs' & Hstop).
  unfold mbind, go_bind, on_quic. rewrite Hq, E. unfold end_task, fine. simpl.
  pose proof (lookup_lt_Some _ _ _ Hq) as Hlt. destruct Hn as [Hk Hsafe Ho Hon Ht Hu Hp].
  split; simpl; try done.
  - rewrite list_fmap_insert, list_insert_id; [done|]. by rewrite list_lookup_fmap, Hq.
  - by apply Forall_insert.
  - intros srv' l0 Hl0 Hc. apply list_lookup_insert_Some in Hl0 as [(-> & <- & _)|[_ Hl0]]; [|eauto].
    simpl. rewrite Hstop. by apply (Ho srv' _ Hq).
  - intros j srv' q0 Hj Hq0 Hst0. rewrite fmap_app, elem_of_app.
    apply list_lookup_insert_Some in Hq0 as [(<- & _)|[_ Hq0]]; [|left; eauto].
    right. apply list_elem_of_singleton. by apply (NoDup_lookup g j i (TaskTransport srv)).
  - intros srv'. rewrite length_insert. eauto.
  - intros srv' (q0 & Hq0 & Hlis)%Hu. destruct (decide (srv' = srv)) as [->|Hne].
    + assert (q0 = q) as -> by congruence. destruct Hs as [Hqi _].
      apply (qi_listener _ Hqi) in Hlis. congruence.
    + exists q0. simpl. by rewrite list_lookup_insert_ne.
  - intros j p r' Hj. rewrite elem_of_app, list_elem_of_singleton. intros [Hin|[= -> ->]]; [eauto|].
    congruence.
Qed.

Lemma net_inv_same g ks ups called n srv l :
  net_inv g ks ups called n → n_lives n !! srv = Some l →
  net_inv g ks ups called (MkNet (<[srv := l]> (n_lives n)) (n_ended n)).
Proof. intros Hn Hl. rewrite list_insert_id by done. by destruct n. Qed.

(** No event makes the service panic, as long as no transport is started twice. *)
Lemma net_step_ok g ks ups called n ev :
  NoDup g → net_inv g ks ups called n → fine (net_inv g ks ups called) (net_step g ev n).
Proof.
  intros Hnd Hn. destruct ev as [i e|i e|i|srv l|srv l]; simpl.
  - destruct (active g i n) as [[p|]|] eqn:Ea; [|done..].
    unfold Pprof_Start, mbind, go_bind. simpl. by apply net_inv_end.
  - destruct (active g i n) as [[|srv]|] eqn:Ea; [done| |done].
    destruct (n_lives n !! srv) as [[k rm s|q]|] eqn:El.
    + by apply (on_gnet_ok g ks ups called n srv Call_Start).
    + by eapply call_quic_ok.
    + apply active_some in Ea as [Ei _]. apply list_elem_of_lookup_2, (ni_there _ _ _ _ _ Hn) in Ei.
      apply lookup_ge_None in El. simpl in *. lia.
  - destruct (active g i n) as [[|srv]|] eqn:Ea; [done| |done].
    unfold on_gnet, mbind, go_bind.
    destruct (n_lives n !! srv) as [[k rm s|q]|] eqn:El; [|done..].
    apply active_some in Ea as [Ei _]. unfold start_returned.
    destruct (spc s); try done; (apply (net_inv_end _ _ _ _ (MkNet _ _)); [|intros; congruence]);
      by apply net_inv_same.
  - destruct (gnet_own l) eqn:Hl; [|done]. apply on_gnet_ok; [done|]. by intros ->.
  - destruct (quic_own l) eqn:Hl; [|done]. unfold on_quic.
    destruct (n_lives n !! srv) as [[k rm s|q]|] eqn:El; [done| |done].
    pose proof (Forall_lookup_1 _ _ _ _ (ni_safe _ _ _ _ _ Hn) El) as Hs.
    destruct (q_exec l q) as [q' []|p|] eqn:Ee; [|by eapply quic_own_never_panics|done].
    destruct (quic_own_keeps l q q' Hl Ee) as (Hlis & Hst & Hstop). destruct Hs as [Hi Hs].
    eapply net_inv_live; [done|done|done|..]; simpl.
    + split; [by eapply q_exec_inv|]. by rewrite Hlis, Hst.
    + by rewrite Hstop.
    + intros q0 q1 [= <-] [= <-]. by rewrite Hst, Hlis.
Qed.

Lemma net_run_ok g ks ups called evs n :
  NoDup g → net_inv g ks ups called n → fine (net_inv g ks ups called) (net_run g evs n).
Proof.
  intros Hnd. revert n. induction evs as [|ev evs IH]; intros n Hn; simpl; [done|].
  eapply fine_bind; [by apply net_step_ok|]. intros n' _ _. apply IH.
Qed.

(** * Stop *)

Lemma net_inv_called g ks ups called n srv :
  net_inv g ks ups called n → net_inv g ks ups (srv :: called) n.
Proof.
  intros [Hk Hs Ho Hon Ht Hu Hp]. split; try done. intros srv' l Hl Hc. apply (Ho srv' l Hl).
  by intros ?; destruct Hc; right.
Qed.

(** The outcome of [Stop] of one server: it panics only for a QUIC server. *)
Definition stops (g : list task) (ks : list (option kind)) (ups called : list nat) (srv : nat)
    (o : outcome net (option error)) : Prop :=
  match o with
  | Done n' _ => net_inv g ks ups (srv :: called) n'
  | Panicked p => p = PanicNil ∧ ks !! srv = Some None ∧ srv ∉ ups
  | Blocked => True
  end.

Lemma gnet_stop_ok g ks ups called n srv k rm s :
  net_inv g ks ups called n → n_lives n !! srv = Some (LiveGnet k rm s) → srv ∉ called →
  stops g ks ups called srv (on_gnet srv (λ k rm, Lifecycle.Stop k engine_Stop rm) n).
Proof.
  intros Hn Hl Hc. unfold on_gnet. rewrite Hl.
  pose proof (Forall_lookup_1 _ _ _ _ (ni_safe _ _ _ _ _ Hn) Hl) as Hs. simpl in Hs.
  pose proof (ni_open _ _ _ _ _ Hn _ _ Hl Hc) as Ho. simpl in Ho.
  destruct (Lifecycle.Stop k engine_Stop rm s) as [s' r|p|] eqn:E; simpl; [| |done].
  - eapply net_inv_live; [by apply net_inv_called|done|done|..|done].
    + eapply (inv_Stop k engine_Stop rm engine_Stop_serving s s' Hs).
      by rewrite (go_bind_done _ _ _ _ _ E).
    + intros Hnc. destruct Hnc. by left.
  - destruct (exec_panics k engine_Stop rm engine_Stop_serving s Call_Stop p Hs) as (_ & _ & Hcl & _).
    + simpl. by rewrite (go_bind_panic _ _ _ _ E).
    + congruence.
Qed.

(** [Stop] of a QUIC server with the listener it looks at. *)
Lemma Quic_Stop_ok e q :
  live_safe (LiveQuic q) → q_stopped q = false →
  if q_listener q then ∃ q', Quic_Stop e q = Done q' () ∧ live_safe (LiveQuic q') ∧
                             q_started q' = q_started q ∧ q_listener q' = true
  else Quic_Stop e q = Panicked PanicNil.
Proof.
  intros [Hi Hst] Hs. pose proof (q_inv_Stop e q) as Hinv.
  unfold Quic_Stop, close_stopChan, close_listener, mbind, go_bind in *. rewrite Hs in *. simpl in *.
  destruct (q_listener q) eqn:El; [|done].
  destruct e; eexists; (split; [done|]); (split; [split; [by apply Hinv|done]|done]).
Qed.

Lemma quic_wait_ok g ks ups called n srv :
  NoDup g → net_inv g ks ups called n → ∀ evs,
  fine (net_inv g ks ups called) (quic_stopped (net_run g evs) srv n).
Proof.
  intros Hnd Hn evs. unfold quic_stopped.
  destruct (n_lives n !! srv) as [[|q]|] eqn:El; [done| |done].
  assert (fine (net_inv g ks ups called)
    ((net_run g evs;; on_quic srv Stop_wait;; mret (None : option error)) n)) as Hw.
  { eapply fine_bind; [by apply net_run_ok|]. intros n1 [] _ Hn1.
    unfold on_quic, mbind, go_bind.
    destruct (n_lives n1 !! srv) as [[|q1]|] eqn:E1; [done| |done].
    pose proof (Forall_lookup_1 _ _ _ _ (ni_safe _ _ _ _ _ Hn1) E1) as [Hi Hst].
    destruct (Stop_wait q1) as [q2 []|p|] eqn:Ew; simpl; [| |done].
    - pose proof (q_exec_inv QWaited _ _ Hi Ew) as Hi2. unfold Stop_wait in Ew.
      destruct (q_stop q1), (q_wg q1); try done. injection Ew as <-.
      eapply net_inv_live; [done|done|done|by split|done|].
      by intros q0 q3 [= <-] [= <-].
    - unfold Stop_wait in Ew. by destruct (q_stop q1), (q_wg q1). }
  by destruct (q_stop q).
Qed.

Lemma quic_stop_ok g ks ups called n srv q evs :
  NoDup g → net_inv g ks ups called n → n_lives n !! srv = Some (LiveQuic q) → srv ∉ called →
  stops g ks ups called srv
    ((on_quic srv (Quic_Stop listener_Close);; quic_stopped (net_run g evs) srv) n).
Proof.
  intros Hnd Hn Hl Hc. pose proof (Forall_lookup_1 _ _ _ _ (ni_safe _ _ _ _ _ Hn) Hl) as Hs.
  pose proof (Quic_Stop_ok listener_Close q Hs (ni_open _ _ _ _ _ Hn _ _ Hl Hc)) as Hq.
  unfold mbind, go_bind, on_quic. rewrite Hl. destruct (q_listener q) eqn:El.
  - destruct Hq as (q' & -> & Hs' & Hst' & Hl').
    assert (net_inv g ks ups (srv :: called) (MkNet (<[srv:=LiveQuic q']> (n_lives n)) (n_ended n))) as Hn'.
    { eapply net_inv_live; [by apply net_inv_called|done|done|done| |].
      + intros Hnc. destruct Hnc. by left.
        + intros q0 q1 [= <-] [= <-]. by rewrite Hst', Hl'. }
    pose proof (quic_wait_ok _ _ _ _ _ srv Hnd Hn' evs) as Hw.
    by destruct (quic_stopped _ _ _).
  - rewrite Hq. simpl. split; [done|]. rewrite <- (ni_kinds _ _ _ _ _ Hn), list_lookup_fmap, Hl.
    split; [done|]. intros (q0 & Hq0 & Hlis)%(ni_up _ _ _ _ _ Hn). congruence.
Qed.

Lemma server_Stop_ok g ks ups called n srv sched :
  NoDup g → net_inv g ks ups called n → srv ∉ called → srv < length ks →
  stops g ks ups called srv (server_Stop g sched srv n).
Proof.
  intros Hnd Hn Hc Hlt. unfold server_Stop.
  pose proof (net_run_ok g ks ups called (sc_before sched srv) n Hnd Hn) as Hr.
  destruct (net_run g (sc_before sched srv) n) as [n1 []|p|] eqn:E; [| done|].
  2: { by rewrite (go_bind_block _ _ _ E). }
  rewrite (go_bind_done _ _ _ _ _ E). simpl in Hr. unfold mbind at 1, go_bind at 1, go_get.
  destruct (n_lives n1 !! srv) as [[k rm s|q]|] eqn:El.
  - by eapply gnet_stop_ok.
  - by eapply quic_stop_ok.
  - apply lookup_ge_None in El. rewrite <- (ni_kinds _ _ _ _ _ Hr), length_fmap in Hlt. lia.
Qed.

(** [Stop] over transports of distinct servers. *)
Lemma FDB_Stop_ok g ks ups sched fdb ts called s p :
  NoDup g → net_inv g ks ups called (se_net s) →
  (∀ t srv, t ∈ ts → fdb_tm fdb !! t = Some srv → (srv ∉ called) ∧ srv < length ks) →
  (∀ t1 t2 srv, t1 ∈ ts → t2 ∈ ts → fdb_tm fdb !! t1 = Some srv → fdb_tm fdb !! t2 = Some srv → t1 = t2) →
  NoDup ts →
  FDB_Stop (λ srv, on_net (server_Stop g sched srv)) fdb ts s = Panicked p →
  p = PanicNil ∧ ∃ t srv, t ∈ ts ∧ fdb_tm fdb !! t = Some srv ∧ ks !! srv = Some None ∧ srv ∉ ups.
Proof.
  intros Hnd. revert called s. induction ts as [|t ts IH]; intros called s Hn Hc Hinj Hts; simpl; [done|].
  unfold GetTransport. destruct (fdb_tm fdb !! t) as [srv|] eqn:Et; [|done].
  destruct (Hc t srv) as [Hnc Hlt]; [by left|done|].
  pose proof (server_Stop_ok g ks ups called _ srv sched Hnd Hn Hnc Hlt) as Hs.
  unfold mbind, go_bind, on_net, go_zoom.
  destruct (server_Stop g sched srv (se_net s)) as [n' r|p'|] eqn:Es; simpl in Hs; [|..|done].
  - destruct r as [e|]; [done|]. apply NoDup_cons in Hts as [Hni Hts].
    intros E. eapply IH in E as (-> & t' & srv' & Ht' & Hrest); [|exact Hs|..|done].
    + split; [done|]. exists t', srv'. split; [by right|done].
    + intros t' srv' Ht' Hs'. destruct (Hc t' srv') as [Hnc' Hlt']; [by right|done|].
      split; [|done]. intros [->|?]%elem_of_cons; [|done].
      destruct Hni. replace t with t'; [done|]. apply (Hinj t' t srv); [by right|by left|done..].
    + intros t1 t2 srv' Ht1 Ht2. apply Hinj; by right.
  - intros [= <-]. destruct Hs as [-> Hk]. split; [done|]. exists t, srv. split; [by left|done].
Qed.

(** * The whole service *)

Lemma transport_fn_fine t fdb bDb o :
  tm_typed (fdb_tm fdb) o →
  ∃ o' r, transport_fn t fdb bDb o = Done o' r ∧ tm_typed (fdb_tm fdb) o' ∧
    (∀ srv, r = Ok srv → fdb_tm fdb !! t = Some srv).
Proof.
  intros Hty. unfold transport_fn. destruct (entry_name t) as [name srvName]. unfold GetTransport.
  destruct (fdb_tm fdb !! t) as [srv|] eqn:Et; [|by eexists _, _].
  destruct (Hty t srv Et) as (s & Hs & Hc).
  unfold mbind at 1, go_bind at 1, go_get. rewrite Hs.
  destruct (entry_kind t (srv_config s)); [|by eexists _, _].
  destruct (prepare_server_ok srv bDb o s Hs) as (o' & E & _ & (hs & Ho') & _).
  rewrite (go_bind_done _ _ _ _ _ E). eexists _, _. split; [done|].
  split; [|by intros ? [= <-]]. intros t' srv' Ht'. destruct (Hty t' srv' Ht') as (s' & Hs' & Hc').
  rewrite Ho'. destruct (decide (srv' = srv)) as [->|Hne].
  - eexists. rewrite list_lookup_insert_eq by (by eapply lookup_lt_Some). split; [done|].
    simpl. congruence.
  - exists s'. by rewrite list_lookup_insert_ne.
Qed.

(** The loop of [Start] returns, with goroutines for a prefix of its transports. *)
Lemma launch_fine fdb bDb ts g o :
  tm_typed (fdb_tm fdb) o →
  ∃ o' e ts1 srvs, launch fdb bDb ts g o = Done o' (g ++ (TaskTransport <$> srvs), e) ∧
    ts1 `prefix_of` ts ∧ Forall2 (λ t srv, fdb_tm fdb !! t = Some srv) ts1 srvs.
Proof.
  assert (∀ ts0 : list TransportType, [] `prefix_of` ts0) as Hnil by (intros; apply prefix_nil).
  revert g o. induction ts as [|t ts IH]; intros g o Hty; simpl.
  { exists o, None, [], []. rewrite app_nil_r. by repeat constructor. }
  destruct (tRegistry t) as [fn|] eqn:Er.
  2: { eexists o, _, [], []. rewrite app_nil_r. by repeat constructor. }
  assert (fn = transport_fn t) as -> by (unfold tRegistry in Er; case_decide; congruence).
  destruct (transport_fn_fine t fdb bDb o Hty) as (o1 & r & E & Hty1 & Hr).
  rewrite (go_bind_done _ _ _ _ _ E). destruct r as [srv|e].
  2: { eexists o1, _, [], []. rewrite app_nil_r. by repeat constructor. }
  destruct (IH (g ++ [TaskTransport srv]) o1 Hty1) as (o' & e & ts1 & srvs & -> & Hp & Hf).
  exists o', e, (t :: ts1), (srv :: srvs). rewrite <- app_assoc.
  split; [done|]. split; [by apply prefix_cons|]. constructor; auto.
Qed.

(** The kinds of the servers of the objects. *)
Definition kinds (o : objects) : list (option kind) :=
  live_kind ∘ new_live ∘ srv_config <$> obj_servers o.

Lemma kinds_quic tm o t srv :
  tm_typed tm o → tm !! t = Some srv →
  srv < length (kinds o) ∧ (kinds o !! srv = Some None → t = QUICTransportType).
Proof.
  intros Hty Ht. destruct (Hty t srv Ht) as (s & Hs & Hc). unfold kinds.
  rewrite length_fmap, list_lookup_fmap, Hs. split; [by eapply lookup_lt_Some|].
  unfold compose. simpl. destruct (srv_config s); try done. injection Hc as <-. done.
Qed.

Lemma tm_typed_inj tm o t1 t2 srv :
  tm_typed tm o → tm !! t1 = Some srv → tm !! t2 = Some srv → t1 = t2.
Proof.
  intros Hty (s1 & Hs1 & Hc1)%Hty (s2 & Hs2 & Hc2)%Hty. congruence.
Qed.

(** The goroutines of [Start], for the servers of a duplicate-free list of transports. *)
Definition tasks (pCfg : Pprof) (srvs : list nat) : list task :=
  (if pprof_Enabled pCfg then [TaskPprof pCfg] else []) ++ (TaskTransport <$> srvs).

Lemma tasks_NoDup pCfg tm o ts srvs :
  tm_typed tm o → NoDup ts → Forall2 (λ t srv, tm !! t = Some srv) ts srvs → NoDup (tasks pCfg srvs).
Proof.
  intros Hty Hnd Hf. assert (NoDup (TaskTransport <$> srvs)) as Hs.
  { apply NoDup_fmap_2; [by intros ?? [=]|]. induction Hf as [|t srv ts srvs Ht Hf IH]; [constructor|].
    apply NoDup_cons in Hnd as [Hni Hnd]. constructor; [|by apply IH].
    intros Hin. destruct Hni. apply list_elem_of_lookup in Hin as [i Hi].
    destruct (Forall2_lookup_r _ _ _ _ _ Hf Hi) as (t' & Ht' & Htm).
    rewrite (tm_typed_inj tm o t t' srv); [|done..]. by eapply list_elem_of_lookup_2. }
  unfold tasks. destruct (pprof_Enabled pCfg); [|done]. constructor; [|done].
  by intros (? & ? & _)%list_elem_of_fmap.
Qed.

(** No server has been started. *)
Definition fresh_net (o : objects) : net := MkNet (new_live ∘ srv_config <$> obj_servers o) [].

Lemma new_live_safe c : live_safe (new_live c) ∧ live_open (new_live c).
Proof.
  destruct c; simpl; (split; [|done]); try apply inv_NewServer. split; [apply q_inv_init|done].
Qed.

Lemma fresh_net_lookup o srv l : n_lives (fresh_net o) !! srv = Some l → ∃ c, l = new_live c.
Proof.
  simpl. intros Hl. apply list_elem_of_lookup_2, list_elem_of_fmap in Hl as (s & -> & _).
  by eexists.
Qed.

Lemma fresh_net_inv g o :
  (∀ srv, TaskTransport srv ∈ g → srv < length (obj_servers o)) →
  net_inv g (kinds o) [] [] (fresh_net o).
Proof.
  intros Ht. split.
  - unfold kinds. simpl. by rewrite <- list_fmap_compose.
  - apply Forall_lookup_2. intros srv l [c ->]%fresh_net_lookup. apply new_live_safe.
  - intros srv l [c ->]%fresh_net_lookup _. apply new_live_safe.
  - intros i srv q _ [c Hc]%fresh_net_lookup. by destruct c; simplify_eq/=.
  - intros srv Hin. simpl. rewrite length_fmap. auto.
  - by intros srv ?%not_elem_of_nil.
  - by intros i p r _ ?%not_elem_of_nil.
Qed.

(** [Start] never panics; its goroutines are those of distinct servers, all of which keep
    their invariants, and it returns an error only. *)
Lemma FDB_Start_fine fdb ts sched ctx_done s (o := f_obj (se_service s)) :
  NoDup ts → tm_typed (fdb_tm fdb) o → se_net s = fresh_net o →
  match FDB_Start fdb ts sched ctx_done s with
  | Done s' (g, r) => NoDup g ∧ net_inv g (kinds o) [] [] (se_net s') ∧ is_Some r
  | Panicked _ => False
  | Blocked => True
  end.
Proof.
  intros Hnd Hty Hnet.
  assert (net_inv [] (kinds o) [] [] (se_net s)) as Hn0.
  { rewrite Hnet. apply fresh_net_inv. by intros ? ?%not_elem_of_nil. }
  unfold FDB_Start.
  destruct (GetDb _ _) as [bDb|e]; [|by split; [constructor|]].
  destruct (GetPprofByServiceTag _ _) as [pCfg|e]; [|by split; [constructor|]].
  destruct (launch_fine fdb bDb ts (if pprof_Enabled pCfg then [TaskPprof pCfg] else []) o Hty)
    as (o' & err & ts1 & srvs & E & Hpre & Hf).
  fold (tasks pCfg srvs) in E.
  assert (NoDup (tasks pCfg srvs)) as Hg.
  { eapply tasks_NoDup; [done| |done]. destruct Hpre as [ts2 ->]. by apply NoDup_app in Hnd as [? _]. }
  assert (net_inv (tasks pCfg srvs) (kinds o) [] [] (se_net s)) as Hn.
  { rewrite Hnet. apply fresh_net_inv. intros srv. unfold tasks. rewrite elem_of_app.
    intros [Hin|(srv' & [= <-] & Hin)%list_elem_of_fmap].
    + destruct (pprof_Enabled pCfg); [by apply list_elem_of_singleton in Hin|by apply not_elem_of_nil in Hin].
    + apply list_elem_of_lookup in Hin as [i Hi].
      destruct (Forall2_lookup_r _ _ _ _ _ Hf Hi) as (t & _ & Ht).
      destruct (Hty t srv Ht) as (s' & Hs' & _). by eapply lookup_lt_Some. }
  pose proof (net_run_ok _ _ _ _ (sc_start sched) _ Hg Hn) as Hr.
  unfold mbind, go_bind, on_fstate, in_objects, on_net, go_zoom. subst o. rewrite E. simpl.
  destruct (net_run _ _ _) as [n' []| |]; [|done..]. simpl in Hr.
  destruct err as [e|]; [done|]. unfold await, mbind, go_bind, on_net, go_zoom, group_Wait. simpl.
  case_decide; [|done]. destruct (first_error _); [done|]. by destruct ctx_done.
Qed.

(** The servers found listening may be counted on. *)
Lemma net_inv_up g ks ups called n srv :
  net_inv g ks ups called n → quic_up srv n → net_inv g ks (srv :: ups) called n.
Proof.
  intros [Hk Hs Ho Hon Ht Hu Hp] Hup. split; try done.
  intros srv' [->|?]%elem_of_cons; auto.
Qed.

Lemma start_and_stop_panics fdb ts sched ctx_done s p (o := f_obj (se_service s)) :
  NoDup ts → tm_typed (fdb_tm fdb) o → se_net s = fresh_net o →
  start_and_stop fdb ts sched ctx_done s = Panicked p →
  p = PanicNil ∧ ∃ srv s' r, QUICTransportType ∈ ts ∧ fdb_tm fdb !! QUICTransportType = Some srv ∧
    FDB_Start fdb ts sched ctx_done s = Done s' r ∧ ¬ quic_up srv (se_net s').
Proof.
  intros Hnd Hty Hnet. pose proof (FDB_Start_fine fdb ts sched ctx_done s Hnd Hty Hnet) as Hs.
  unfold start_and_stop, mbind, go_bind.
  destruct (FDB_Start fdb ts sched ctx_done s) as [s' [g r]| |]; [|done..].
  destruct Hs as (Hg & Hn & _). simpl.
  destruct (FDB_Stop _ fdb ts s') as [s2 r2|p'|] eqn:E; [done| |done]. intros [= <-].
  assert (∀ ups, net_inv g (kinds o) ups [] (se_net s') →
    p' = PanicNil ∧ ∃ srv, QUICTransportType ∈ ts ∧ fdb_tm fdb !! QUICTransportType = Some srv ∧
      srv ∉ ups) as Hpanic.
  { intros ups Hups. eapply FDB_Stop_ok in E as (-> & t & srv & Ht & Hm & Hk & Hup); [|done|exact Hups|..|done].
    - split; [done|]. destruct (kinds_quic _ _ _ _ Hty Hm) as [_ Hq]. rewrite <- (Hq Hk). eauto.
    - intros t srv _ Hm. split; [by apply not_elem_of_nil|]. by apply (kinds_quic _ _ _ _ Hty Hm).
    - intros t1 t2 srv _ _ Ht1 Ht2. by eapply tm_typed_inj. }
  destruct (Hpanic [] Hn) as (-> & srv & Hq & Hm & _). split; [done|].
  exists srv, s', (g, r). split_and!; [done..|]. intros Hup.
  destruct (Hpanic [srv] (net_inv_up _ _ _ _ _ _ Hn Hup)) as (_ & srv' & _ & Hm' & Hni).
  destruct Hni. apply list_elem_of_singleton. congruence.
Qed.

(** Nothing that returns from [Start] or the command is a success. *)
Lemma FDB_Start_error fdb ts sched ctx_done s s' g r :
  FDB_Start fdb ts sched ctx_done s = Done s' (g, r) → is_Some r.
Proof.
  unfold FDB_Start. destruct (GetDb _ _); [|by intros [= <- <- <-]].
  destruct (GetPprofByServiceTag _ _) as [pCfg|]; [|by intros [= <- <- <-]].
  unfold mbind, go_bind, on_fstate, in_objects, on_net, go_zoom.
  destruct (launch _ _ _ _ _) as [o [g1 e]| |]; [|done..]. simpl.
  destruct (net_run _ _ _) as [n []| |]; [|done..]. destruct e as [e|]; [by intros [= <- <- <-]|].
  unfold await, mbind, go_bind, on_net, go_zoom, group_Wait. simpl. case_decide; [|done].
  destruct (first_error _) as [e|]; [by intros [= <- <- <-]|].
  destruct ctx_done; [|done]. by intros [= <- <- <-].
Qed.

Lemma serve_action_error load config transports sched ctx_done s s' r :
  serve_action load config transports sched ctx_done s = Done s' r → is_Some r.
Proof.
  unfold serve_action. destruct (load _) as [cfg|]; [|by intros [= <- <-]].
  unfold mbind, go_bind. destruct (on_fstate (New cfg) s) as [s1 [fdb|e]| |]; [|by intros [= <- <-]|done..].
  simpl. destruct (parse_transports _) as [ts|e]; [|by intros [= <- <-]].
  unfold start_and_stop, mbind, go_bind. destruct (FDB_Start _ _ _ _ _) as [s2 [g r2]| |] eqn:E; [|done..].
  destruct (FDB_Stop _ _ _ _); [|done..]. intros [= _ <-]. by eapply FDB_Start_error.
Qed.

(** The command up to [Start]: it returns an error, or runs a service whose servers were
    just made, for every transport once. *)
Lemma serve_action_spec load config transports sched ctx_done s cfg :
  load (default serve_config config) = Ok cfg → Forall transport_typed (cfg_Transports cfg) →
  (∃ s' e, serve_action load config transports sched ctx_done s = Done s' (Some e)) ∨
  (∃ fdb f ts, New cfg (se_service s) = Done f (Ok fdb) ∧ tm_typed (fdb_tm fdb) (f_obj f) ∧
     parse_transports (default serve_transports transports) = Ok ts ∧
     serve_action load config transports sched ctx_done s
     = start_and_stop fdb ts sched ctx_done (MkServing f (fresh_net (f_obj f)))).
Proof.
  intros Hl Hty. unfold serve_action. rewrite Hl.
  destruct (New_returns cfg (se_service s) Hty) as (f & r & E).
  assert (on_fstate (New cfg) s = Done (MkServing f (se_net s)) r) as E1
    by (unfold on_fstate, go_zoom; by rewrite E).
  rewrite !(go_bind_done _ _ _ _ _ E1). destruct r as [fdb|e].
  2: { left. by eexists _, _. }
  unfold mbind, go_bind, new_net. cbn -[start_and_stop parse_transports New].
  destruct (parse_transports _) as [ts|e]; [|left; by eexists _, _].
  right. exists fdb, f, ts. split; [done|]. split; [|by split].
  by apply New_ok in E as (_ & ? & _).
Qed.

Lemma serve_action_panics load config transports sched ctx_done s p :
  (∀ cfg, load (default serve_config config) = Ok cfg → Forall transport_typed (cfg_Transports cfg)) →
  serve_action load config transports sched ctx_done s = Panicked p →
  ∃ ts, parse_transports (default serve_transports transports) = Ok ts ∧
    (NoDup ts → p = PanicNil ∧ QUICTransportType ∈ ts).
Proof.
  intros Hty E. destruct (load (default serve_config config)) as [cfg|e] eqn:Hl.
  2: { unfold serve_action in E. by rewrite Hl in E. }
  destruct (serve_action_spec load config transports sched ctx_done s cfg Hl (Hty cfg eq_refl))
    as [(s' & e & E')|(fdb & f & ts & _ & Ht & Hp & E')]; rewrite E' in E; [done|].
  exists ts. split; [done|]. intros Hnd.
  apply start_and_stop_panics in E as (-> & srv & s' & r & ? & _); done.
Qed.

(** C30: Serving panics in one way only. Whatever the order in which the goroutines, servers and
    networks make their steps, whichever servers fail and whenever [Stop] finds them, a
    [serve] whose list names no transport twice can only panic in the deferred [Stop] of
    its QUIC server, and only if that had no listener when [Start] returned. Nothing
    the servers do before that panics. *)
Theorem serve_panics_only_without_listener (load : string → res Config) (config : option string)
    (transports : option (list string)) (sched : schedule) (ctx_done : option error)
    (s : serving) (cfg : Config) (ts : list TransportType) (p : panic) :
  load (default serve_config config) = Ok cfg → Forall transport_typed (cfg_Transports cfg) →
  parse_transports (default serve_transports transports) = Ok ts → NoDup ts →
  serve_action load config transports sched ctx_done s = Panicked p →
  p = PanicNil ∧ ∃ fdb f srv s' r, New cfg (se_service s) = Done f (Ok fdb) ∧
    QUICTransportType ∈ ts ∧ fdb_tm fdb !! QUICTransportType = Some srv ∧
    FDB_Start fdb ts sched ctx_done (MkServing f (fresh_net (f_obj f))) = Done s' r ∧
    ¬ quic_up srv (se_net s').
Proof.
  intros Hl Hty Hp Hnd E.
  destruct (serve_action_spec load config transports sched ctx_done s cfg Hl Hty)
    as [(s' & e & E')|(fdb & f & ts' & HN & Ht & Hp' & E')]; rewrite E' in E; [done|].
  assert (ts' = ts) as -> by congruence.
  apply start_and_stop_panics in E as (-> & srv & s' & r & ?); [|done..].
  split; [done|]. by exists fdb, f, srv, s', r.
Qed.

Lemma first_error_in results e : first_error results = Some e → Some e ∈ results.
Proof.
  induction results as [|[e'|] results IH]; simpl; [done|intros [= ->]; by left|right; auto].
Qed.

(** What [Start] waits for with a context that is never done. *)
Lemma await_forever size s s' r :
  await size None s = Done s' r →
  s' = s ∧ all_ended size (n_ended (se_net s)) ∧
  ∃ i e, (i, Some e) ∈ n_ended (se_net s) ∧ r = Some (Wrap e "failure to start fdb database").
Proof.
  unfold await, mbind, go_bind, on_net, go_zoom, group_Wait. case_decide as Ha; [|done].
  destruct (first_error _) as [e|] eqn:E; [|done]. intros [= <- <-]. split; [by destruct s|].
  split; [done|]. apply first_error_in, list_elem_of_fmap in E as ([i r] & Hr & Hin). simpl in Hr. subst r.
  by exists i, e.
Qed.

(** [Start] after its loop got through. *)
Lemma FDB_Start_launched fdb ts sched ctx_done s s' g g' r o' bDb pCfg :
  GetDb (fdb_dbManager fdb) "fdb" = Ok bDb →
  GetPprofByServiceTag (fdb_config fdb) "fdb" = Ok pCfg →
  launch fdb bDb ts (if pprof_Enabled pCfg then [TaskPprof pCfg] else []) (f_obj (se_service s))
  = Done o' (g, None) →
  FDB_Start fdb ts sched ctx_done s = Done s' (g', r) →
  g' = g ∧ net_run g (sc_start sched) (se_net s) = Done (se_net s') () ∧
  (ctx_done = None → all_ended (length g) (n_ended (se_net s')) ∧
   ∃ i e, (i, Some e) ∈ n_ended (se_net s') ∧ r = Some (Wrap e "failure to start fdb database")).
Proof.
  intros Hdb Hp E. unfold FDB_Start. rewrite Hdb, Hp.
  unfold mbind at 1, go_bind at 1, on_fstate, in_objects, go_zoom. rewrite E. simpl.
  unfold mbind at 1, go_bind at 1, on_net at 1, go_zoom. simpl.
  destruct (net_run _ _ _) as [n' []| |] eqn:Er; [|done..].
  intros Ha. unfold mbind, go_bind in Ha. destruct (await _ _ _) as [s2 r2| |] eqn:Ew; [|done..].
  injection Ha as <- <- <-. split; [done|]. split.
  - unfold await, mbind, go_bind, on_net, go_zoom, group_Wait in Ew. simpl in Ew.
    case_decide; [|done]. destruct (first_error _); [|destruct ctx_done; [|done]]; by injection Ew as <-.
  - intros ->. by apply await_forever in Ew as (-> & Hall & Hr).
Qed.

(** C32: A service ends by failing. Once the loop of [Start] got through, [serve], whose context
    is never done, only returns after every goroutine of the group has ended, one of
    them with the error it returns; with the profiling server among them, after that
    has failed too. So a service that came up stays up and never stops its servers,
    and with profiling enabled a transport that cannot start is not reported. *)
Theorem serve_returns_on_failure (fdb : FDB) (bDb : Db) (pCfg : Pprof) (ts : list TransportType)
    (sched : schedule) (g : list task) (o' : objects) (s s' : serving) (r : option error) :
  NoDup ts → tm_typed (fdb_tm fdb) (f_obj (se_service s)) →
  se_net s = fresh_net (f_obj (se_service s)) →
  GetDb (fdb_dbManager fdb) "fdb" = Ok bDb →
  GetPprofByServiceTag (fdb_config fdb) "fdb" = Ok pCfg →
  launch fdb bDb ts (if pprof_Enabled pCfg then [TaskPprof pCfg] else []) (f_obj (se_service s))
  = Done o' (g, None) →
  start_and_stop fdb ts sched None s = Done s' r →
  ∃ n, net_run g (sc_start sched) (se_net s) = Done n () ∧ all_ended (length g) (n_ended n) ∧
    (∃ i e, (i, Some e) ∈ n_ended n ∧ r = Some (Wrap e "failure to start fdb database")) ∧
    (pprof_Enabled pCfg = true → ∃ e, (0, Some e) ∈ n_ended n).
Proof.
  intros Hnd Hty Hnet Hdb Hp Hl. unfold start_and_stop, mbind, go_bind.
  pose proof (FDB_Start_fine fdb ts sched None s Hnd Hty Hnet) as Hs.
  destruct (FDB_Start _ _ _ _ _) as [s1 [g1 r1]| |] eqn:E; [|done..].
  apply (FDB_Start_launched _ _ _ _ _ _ _ _ _ _ _ _ Hdb Hp Hl) in E as (-> & Hr & Hall).
  destruct Hall as [Hall Herr]; [done|].
  destruct (FDB_Stop _ _ _ _); [|done..]. intros [= _ <-].
  exists (se_net s1). split_and!; [done..|]. intros Hen. rewrite Hen in Hl.
  destruct Hs as (_ & Hn & _).
  apply launch_spec in Hl as (srvs & -> & _).
  apply Forall_cons in Hall as [([i r] & Hi & Hin)%list_elem_of_fmap _]. simpl in Hi. subst i.
  destruct (ni_pprof _ _ _ _ _ Hn 0 pCfg r eq_refl Hin) as [e ->]. eauto.
Qed.

(** * A QUIC server that cannot listen *)

(** Goroutine [i] has given up to start the QUIC server at [srv]. *)
Definition quic_down (i srv : nat) (n : net) : Prop :=
  i ∈ (n_ended n).*1 ∧ ∃ q, n_lives n !! srv = Some (LiveQuic q) ∧ q_listener q = false.

Lemma quic_down_live i srv srv' n l :
  quic_down i srv n → n_lives n !! srv' = Some l →
  ∀ l', (∀ q, l = LiveQuic q → ∃ q', l' = LiveQuic q' ∧ (srv' = srv → q_listener q' = q_listener q)) →
  quic_down i srv (MkNet (<[srv' := l']> (n_lives n)) (n_ended n)).
Proof.
  intros [Hi (q & Hq & Hlis)] Hl l' Hl'. split; [done|]. simpl.
  destruct (decide (srv' = srv)) as [->|Hne].
  - assert (l = LiveQuic q) as -> by congruence. destruct (Hl' q eq_refl) as (q' & -> & Hsame).
    exists q'. rewrite list_lookup_insert_eq by (by eapply lookup_lt_Some).
    split; [done|]. by rewrite Hsame.
  - exists q. by rewrite list_lookup_insert_ne.
Qed.

Lemma quic_down_end i srv n j r :
  quic_down i srv n → quic_down i srv (MkNet (n_lives n) (n_ended n ++ [(j, r)])).
Proof. intros [Hi Hq]. split; [|done]. simpl. rewrite fmap_app, elem_of_app. by left. Qed.

Lemma on_gnet_down {A} i srv n srv' (c : kind → option error → Go life A) n' a :
  quic_down i srv n → on_gnet srv' c n = Done n' a → quic_down i srv n'.
Proof.
  intros Hd. unfold on_gnet. destruct (n_lives n !! srv') as [[k rm s|]|] eqn:El; [|done..].
  destruct (c k rm s); [|done..]. intros [= <- _]. by eapply quic_down_live.
Qed.

Lemma on_quic_down {A} i srv n srv' (c : Go qserver A) n' a :
  quic_down i srv n → on_quic srv' c n = Done n' a →
  (srv' = srv → ∀ q q' b, c q = Done q' b → q_listener q' = q_listener q) → quic_down i srv n'.
Proof.
  intros Hd E Hc. unfold on_quic in E. destruct (n_lives n !! srv') as [[|q]|] eqn:El; [done| |done].
  destruct (c q) as [q' b| |] eqn:Ec; [|done..]. injection E as <- _.
  eapply quic_down_live; [done..|]. intros q0 [= <-]. exists q'. split; [done|].
  intros Hs. by eapply Hc.
Qed.

(** It stays so: no other goroutine starts that server. *)
Lemma net_step_down g i srv ev n n' :
  NoDup g → g !! i = Some (TaskTransport srv) → quic_down i srv n →
  net_step g ev n = Done n' () → quic_down i srv n'.
Proof.
  intros Hnd Hi Hd. destruct ev as [j e|j e|j|srv' l|srv' l]; simpl.
  - destruct (active g j n) as [[p|]|]; [|done..]. unfold Pprof_Start, mbind, go_bind. simpl.
    intros [= <-]. by apply quic_down_end.
  - destruct (active g j n) as [[|srv']|] eqn:Ea; [done| |done].
    apply active_some in Ea as [Ej Hrun]. destruct (n_lives n !! srv') as [[|q]|]; [| |done].
    + by apply on_gnet_down.
    + unfold mbind, go_bind. destruct (on_quic _ _ _) as [n1 r| |] eqn:E; [|done..].
      intros [= <-]. apply quic_down_end. eapply on_quic_down; [done..|]. intros ->.
      destruct Hd as [Hend _]. destruct Hrun.
      by rewrite (NoDup_lookup g j i (TaskTransport srv) Hnd Ej Hi).
  - destruct (active g j n) as [[|srv']|]; [done| |done].
    unfold mbind, go_bind. destruct (on_gnet _ _ _) as [n1 r| |] eqn:E; [|done..].
    intros [= <-]. apply quic_down_end. by eapply on_gnet_down.
  - destruct (gnet_own l); [|done]. by apply on_gnet_down.
  - destruct (quic_own l) eqn:Hl; [|done]. intros E. eapply on_quic_down; [done..|].
    intros _ q q' [] Eq. by destruct (quic_own_keeps l q q' Hl Eq).
Qed.

Lemma net_run_down g i srv evs n n' :
  NoDup g → g !! i = Some (TaskTransport srv) → quic_down i srv n →
  net_run g evs n = Done n' () → quic_down i srv n'.
Proof.
  intros Hnd Hi. revert n. induction evs as [|ev evs IH]; intros n Hd; simpl; [by intros [= <-]|].
  unfold mbind, go_bind. destruct (net_step g ev n) as [n1 []| |] eqn:E; [|done..].
  apply IH. by eapply net_step_down.
Qed.

(** A failed [Start] brings it about. *)
Lemma call_fails g ks ups called i srv e n n' :
  net_inv g ks ups called n → NoDup g → g !! i = Some (TaskTransport srv) → ks !! srv = Some None →
  net_step g (CallStart i (Some e)) n = Done n' () → quic_down i srv n'.
Proof.
  intros Hn Hnd Hi Hk. simpl. destruct (active g i n) as [[|srv']|] eqn:Ea; [done| |done].
  apply active_some in Ea as [Ei _]. assert (srv' = srv) as -> by congruence.
  rewrite <- (ni_kinds _ _ _ _ _ Hn), list_lookup_fmap in Hk.
  destruct (n_lives n !! srv) as [[|q]|] eqn:El; [done| |done].
  unfold mbind, go_bind, on_quic. rewrite El. simpl. intros [= <-].
  split; simpl; [rewrite fmap_app, elem_of_app; right; by left|].
  eexists. rewrite list_lookup_insert_eq by (by eapply lookup_lt_Some). done.
Qed.

Lemma run_fails g ks ups called i srv e evs n n' :
  net_inv g ks ups called n → NoDup g → g !! i = Some (TaskTransport srv) → ks !! srv = Some None →
  CallStart i (Some e) ∈ evs → net_run g evs n = Done n' () → quic_down i srv n'.
Proof.
  intros Hn Hnd Hi Hk. revert n Hn. induction evs as [|ev evs IH]; intros n Hn; simpl.
  { by intros ?%not_elem_of_nil. }
  pose proof (net_step_ok g ks ups called n ev Hnd Hn) as Hs.
  unfold mbind, go_bind. destruct (net_step g ev n) as [n1 []| |] eqn:E; [|done..]. simpl in Hs.
  intros [<-|Hin]%elem_of_cons.
  - apply net_run_down; [done..|]. exact (call_fails _ _ _ _ _ _ _ _ _ Hn Hnd Hi Hk E).
  - by apply IH.
Qed.

(** [Stop] of such a server panics, if it gets there. *)
Lemma stop_down g ks ups called sched i srv n :
  net_inv g ks ups called n → NoDup g → g !! i = Some (TaskTransport srv) → srv ∉ called →
  quic_down i srv n →
  match server_Stop g sched srv n with Done _ _ => False | _ => True end.
Proof.
  intros Hn Hnd Hi Hc Hd. pose proof (net_run_ok g ks ups called (sc_before sched srv) n Hnd Hn) as Hr.
  unfold server_Stop, mbind at 1, go_bind at 1.
  destruct (net_run g (sc_before sched srv) n) as [n1 []| |] eqn:E; [|done..]. simpl in Hr.
  apply (net_run_down g i srv) in E as [_ (q & Hq & Hlis)]; [|done..].
  unfold mbind at 1, go_bind at 1, go_get. rewrite Hq.
  pose proof (Forall_lookup_1 _ _ _ _ (ni_safe _ _ _ _ _ Hr) Hq) as Hs.
  pose proof (Quic_Stop_ok listener_Close q Hs (ni_open _ _ _ _ _ Hr _ _ Hq Hc)) as Hst.
  rewrite Hlis in Hst. unfold mbind, go_bind, on_quic. by rewrite Hq, Hst.
Qed.

(** C31: A QUIC server that cannot listen is not reported. When QUIC comes first in the list, as
    in the default of [serve], and [quic.ListenAddr] fails, [serve] never returns: the
    error of [Start] is lost to the panic of the deferred [Stop], which dereferences
    the missing listener, unless some server keeps it from getting there. *)
Theorem quic_failure_is_not_reported (fdb : FDB) (bDb : Db) (pCfg : Pprof)
    (ts : list TransportType) (sched : schedule) (ctx_done : option error) (g : list task)
    (o' : objects) (s : serving) (i srv : nat) (e : error) :
  NoDup (QUICTransportType :: ts) → tm_typed (fdb_tm fdb) (f_obj (se_service s)) →
  se_net s = fresh_net (f_obj (se_service s)) →
  GetDb (fdb_dbManager fdb) "fdb" = Ok bDb →
  GetPprofByServiceTag (fdb_config fdb) "fdb" = Ok pCfg →
  launch fdb bDb (QUICTransportType :: ts) (if pprof_Enabled pCfg then [TaskPprof pCfg] else [])
    (f_obj (se_service s)) = Done o' (g, None) →
  fdb_tm fdb !! QUICTransportType = Some srv → g !! i = Some (TaskTransport srv) →
  CallStart i (Some e) ∈ sc_start sched →
  match start_and_stop fdb (QUICTransportType :: ts) sched ctx_done s with
  | Done _ _ => False
  | Panicked p => p = PanicNil
  | Blocked => True
  end.
Proof.
  intros Hnd Hty Hnet Hdb Hp Hl Hm Hi Hin.
  destruct (start_and_stop _ _ _ _ _) as [s' r|p|] eqn:E; [|by apply start_and_stop_panics in E as [? _]|done].
  revert E. unfold start_and_stop, mbind, go_bind.
  pose proof (FDB_Start_fine fdb _ sched ctx_done s Hnd Hty Hnet) as Hs.
  destruct (FDB_Start _ _ _ _ _) as [s1 [g1 r1]| |] eqn:E; [|done..].
  destruct Hs as (Hg & Hn & _).
  apply (FDB_Start_launched _ _ _ _ _ _ _ _ _ _ _ _ Hdb Hp Hl) in E as (-> & Hr & _).
  assert (kinds (f_obj (se_service s)) !! srv = Some None) as Hk.
  { destruct (Hty _ _ Hm) as (c & Hc & Hct). unfold kinds. rewrite list_lookup_fmap, Hc.
    unfold compose. simpl. by destruct (srv_config c). }
  assert (quic_down i srv (se_net s1)) as Hdown.
  { eapply run_fails; [|exact Hg|exact Hi|exact Hk|exact Hin|exact Hr].
    rewrite Hnet. apply fresh_net_inv. intros srv' Hin'%(ni_there _ _ _ _ _ Hn).
    revert Hin'. rewrite <- (length_fmap live_kind), (ni_kinds _ _ _ _ _ Hn). unfold kinds.
    by rewrite length_fmap. }
  pose proof (stop_down g _ _ _ sched i srv _ Hn Hg Hi ltac:(by apply not_elem_of_nil) Hdown) as Hstop.
  simpl. unfold GetTransport. rewrite Hm. unfold mbind, go_bind, on_net, go_zoom.
  by destruct (server_Stop _ _ _ _).
Qed.
End sound.
