(* ===== verification/System.v ===== *)
(** The assembled service at work: the writers that [Start] creates, run together. *)
From S2P Require Import Prelude GoRuntime Slices Types Config Mdbx Database BatchWriter WriterSpec WriterCorrect MultiWriter Fdb.

Section served.
Context `{MdbxLaws} `{TlsEnv} `{Host}.

(** The writers of the objects, over a heap and the library. *)
Definition running (h : heap) (m : mdbx_state) (log : list error) (o : objects) : mstate :=
  MkMs h m (obj_writers o) log.

Lemma launched_writers fdb bDb ts g g' o o' h m log :
  launch fdb bDb ts g o = Done o' (g', None) → obj_writers o = [] →
  length (obj_writers o') = length ts ∧
  ms_wf bDb (running h m log o') ∧ ms_quiescent (running h m log o').
Proof.
  intros (_ & _ & _ & (bws & Hws & Hlen & Hf) & _)%launch_spec Ho.
  unfold ms_wf, ms_quiescent, running. simpl. rewrite Hws, Ho. split; [done|].
  split; eapply Forall_impl; try exact Hf; by intros bw (? & ? & ? & ?).
Qed.

(** The service converges. [Start] gives every transport a batch writer of its own
    on the one database. However these writers run from there on, under any
    traffic and any schedule of their workers, as long as no flush fails: once all
    of them are idle, each key holds the last value some transport wrote to it, or
    nobody wrote it and it is as it was. Which transport wins is not determined. *)
Theorem served_writers_converge (fdb : FDB) (bDb : Db) (ts : list TransportType)
    (g g' : list task) (o o' : objects) (h : heap) (m : mdbx_state) (log : list error)
    (ls : list (nat * wlabel)) (ms' : mstate) (key : array32) :
  launch fdb bDb ts g o = Done o' (g', None) → obj_writers o = [] →
  mrun (running h m log o') ls ms' → ms_log ms' = log → ms_quiescent ms' →
  (∃ i, is_Some (last_write i ls key) ∧
        ms_db bDb ms' !! array_bytes key = last_write i ls key) ∨
  ((∀ i, last_write i ls key = None) ∧
   ms_db bDb ms' !! array_bytes key = db_view m bDb !! array_bytes key).
Proof.
  intros Hl Ho Hrun Hlog Hq.
  destruct (launched_writers _ _ _ _ _ _ _ h m log Hl Ho) as (_ & Hwf & Hq0).
  exact (converged bDb _ ls ms' key Hwf Hq0 Hrun Hlog Hq).
Qed.
End served.
