(* ===== verification/Service.v ===== *)
(** The whole service at work: bytes arrive at the transports that [Start] launched,
    their handlers answer from the database and queue writes at the transport's
    own batch writer, the workers of all writers run, the memory changes. *)
From S2P Require Import Prelude GoRuntime Slices Types Messages Config Mdbx Database BatchWriter WriterSpec WriterCorrect MultiWriter Held Handlers Servers Fdb System.

Section service.
Context `{MdbxLaws} `{TlsEnv} `{Host}.
Context (write_err : list event → option error).
Implicit Types (srv : server) (ms : mstate) (w : world) (h : heap).

(** * Handlers of the registered objects *)

(** The methods behind a registered handler. The number of the writer is not used
    here: a handler runs in a world that holds its writer. *)
Definition as_gnet (reply : nat → list byte → event) (hd : handler) : gnet_handler :=
  match hd with
  | HWrite _ _ => gnet_write reply
  | HRead d => gnet_read reply d
  | HDummyWrite _ => DummyWriteHandler_HandleMessage
  end.

Definition as_quic (hd : handler) : option quic_handler :=
  match hd with
  | HWrite _ _ => Some (QuicWriteHandler_HandleMessage write_err)
  | HRead d => Some (QuicReadHandler_HandleMessage write_err d)
  | HDummyWrite _ => None
  end.

(** * Input from the network *)

(** What the network libraries hand to a server: a frame of gnet, which is a slice of
    one of its buffers, or the bytes of one read from a QUIC stream. *)
Inductive input := InFrame (frame : slice) | InRead (chunk : list byte).

Definition input_bytes (h : heap) (inp : input) : list byte :=
  match inp with InFrame frame => bytes_of h frame | InRead chunk => chunk end.

(** The inputs of a kind of server. *)
Definition input_ok (h : heap) (cnf : TransportConfig) (inp : input) : Prop :=
  match cnf, inp with
  | TcpConfig _, InFrame frame | UdpConfig _, InFrame frame | UdsConfig _, InFrame frame =>
      slice_ok h frame
  | QuicConfig _, InRead chunk => length chunk ≤ 4096
  | _, _ => False
  end.

(** A server handles an input; the result are the bytes its callback returns. A read
    of a QUIC stream is followed by the end of the stream: after a message its loop
    is where it was at the start, so the reads of a stream are inputs one by one. *)
Definition serve_input srv (c : nat) (inp : input) : Go world (list byte) :=
  match srv_config srv, inp with
  | TcpConfig _, InFrame frame =>
      TCP_OnTraffic (as_gnet AsyncWrite <$> srv_handlers srv) c (Ok frame);; mret []
  | UdpConfig _, InFrame frame =>
      r ← UDP_React (as_gnet SendTo <$> srv_handlers srv) frame c; mret r.1
  | UdsConfig _, InFrame frame =>
      r ← UDS_React (as_gnet SendTo <$> srv_handlers srv) frame c; mret r.1
  | QuicConfig _, InRead chunk =>
      handleStream (omap as_quic (srv_handlers srv)) c
        [MkRead chunk None; MkRead [] (Some (External "io" "EOF"))];; mret []
  | _, _ => go_block
  end.

(** * What is promised about an input *)

(** The write a transport accepts: over gnet everything behind the key, over QUIC the
    data of the message. *)
Definition frame_write (bs : list byte) : option (array32 * list byte) :=
  if decide (bs !! 0 = Some WriteHandlerType ∧ 34 ≤ length bs)
  then Some (array32_of (take 32 (drop 1 bs)), drop 33 bs) else None.

Definition message_write (bs : list byte) : option (array32 * list byte) :=
  match parse_wire bs with
  | Ok mv => if decide (mv_handler mv = WriteHandlerType)
             then Some (mv_key mv, mv_data mv) else None
  | Err _ => None
  end.

Definition accepted_write (cnf : TransportConfig) (bs : list byte)
    : option (array32 * list byte) :=
  match cnf with
  | TcpConfig _ | UdpConfig _ | UdsConfig _ => frame_write bs
  | QuicConfig _ => message_write bs
  | _ => None
  end.

(** The handlers [Start] registers, for the writer number [n]. *)
Definition rw_handlers (n : nat) (d : Db) : gmap byte handler :=
  <[ReadHandlerType := HRead d]> (<[WriteHandlerType := HWrite n d]> ∅).

(** An input was handled: buffers were added at most, the database and the log are as
    they were, and the writer took the accepted write or is as it was. *)
Record taken (d : Db) (acc : option (array32 * list byte)) (w w' : world) : Prop := {
  tk_heap : ∃ bufs, ws_heap (w_ws w') = ws_heap (w_ws w) ++ bufs;
  tk_db : db_view (ws_mdbx (w_ws w')) d = db_view (ws_mdbx (w_ws w)) d;
  tk_log : ws_log (w_ws w') = ws_log (w_ws w);
  tk_writer :
    match acc with
    | None => ws_bw (w_ws w') = ws_bw (w_ws w)
    | Some (key, value) => ∃ s,
        BufferWrite key s (ws_bw (w_ws w)) = Done (ws_bw (w_ws w')) () ∧
        slice_ok (ws_heap (w_ws w')) s ∧ bytes_of (ws_heap (w_ws w')) s = value
    end;
}.

(** The queue of a key is full. *)
Definition queue_full (key : array32) (bw : BatchWriter) : Prop :=
  ∀ s, BufferWrite key s bw = Blocked.

(** The input ends, with one acknowledgement if it is a write, or it waits for the
    queue of the key it writes. *)
Definition handled (d : Db) (acc : option (array32 * list byte)) (w : world)
    (o : outcome world (list byte)) : Prop :=
  match o with
  | Done w' out => taken d acc w w' ∧
      (is_Some acc → answers w w' ++ out_answers out = [[x00]])
  | Blocked => ∃ key value, acc = Some (key, value) ∧ queue_full key (ws_bw (w_ws w))
  | Panicked _ => False
  end.

(** * Inputs are handled *)

Lemma gnet_registry reply n d :
  as_gnet reply <$> rw_handlers n d = rw_registry reply d.
Proof. unfold rw_handlers. by rewrite !fmap_insert, fmap_empty. Qed.

Lemma quic_registry n d :
  omap as_quic (rw_handlers n d) = quic_rw_registry write_err d.
Proof.
  apply map_eq. intros b. unfold rw_handlers, quic_rw_registry, RegisterHandler.
  rewrite lookup_omap, !lookup_insert. by repeat case_decide.
Qed.

Lemma queue_full_blocked key s bw :
  wf_bw bw → BufferWrite key s bw = Blocked → queue_full key bw.
Proof.
  intros Hwf Hb s'. destruct (BufferWrite_eq key s bw Hwf) as (ch & Hch & E).
  destruct (BufferWrite_eq key s' bw Hwf) as (ch' & Hch' & E').
  assert (ch' = ch) as -> by congruence. rewrite Hb in E. rewrite E'.
  by case_decide.
Qed.

Lemma BufferWrite_no_panic key s bw p : wf_bw bw → BufferWrite key s bw ≠ Panicked p.
Proof.
  intros Hwf. destruct (BufferWrite_eq key s bw Hwf) as (ch & _ & ->). by case_decide.
Qed.

Lemma taken_id d w : taken d None w w.
Proof. split; [exists []; by rewrite app_nil_r|done..]. Qed.

Lemma taken_refl d w es : taken d None w (trace_add es w).
Proof. split; [exists []; by rewrite app_nil_r|done..]. Qed.

Lemma taken_read d w m r k es :
  Db_Get d k (ws_mdbx (w_ws w)) = (m, r) → taken d None w (trace_add es (with_mdbx m w)).
Proof.
  intros E. split; [exists []; by rewrite app_nil_r| |done..]. simpl.
  by eapply Db_Get_frame.
Qed.

Lemma taken_write d w key s bw es :
  BufferWrite key s (ws_bw (w_ws w)) = Done bw () → slice_ok (ws_heap (w_ws w)) s →
  taken d (Some (key, bytes_of (ws_heap (w_ws w)) s)) w
    (trace_add es (with_writer bw w)).
Proof.
  intros E Hs. split; [exists []; by rewrite app_nil_r|done|done|]. by exists s.
Qed.

Lemma slice_ok_frame_value h frame :
  slice_ok h frame → 33 ≤ s_len frame → slice_ok h (frame_value frame).
Proof. intros [? ?] ?. unfold frame_value, slice_ok in *. simpl. lia. Qed.

Lemma frame_write_action w frame :
  frame_action w frame ≠ Some WriteHandlerType → frame_write (frame_bytes w frame) = None.
Proof.
  intros Ha. unfold frame_write. apply decide_False. intros [Hb _]. apply Ha.
  unfold frame_action. destruct (frame_bytes w frame) as [|b bs]; [done|].
  injection Hb as ->. by rewrite decide_True by by left.
Qed.

Lemma frame_write_eq w frame :
  frame_ok w frame → frame_action w frame = Some WriteHandlerType →
  frame_write (frame_bytes w frame) =
    if decide (s_len frame < 34) then None
    else Some (array32_of (frame_key w frame), bytes_of (ws_heap (w_ws w)) (frame_value frame)).
Proof.
  intros Hok Ha. pose proof (length_bytes_of _ _ Hok) as Hl. fold (frame_bytes w frame) in Hl.
  unfold frame_write. rewrite Hl. destruct (decide (s_len frame < 34)) as [Hlen|Hlen].
  - apply decide_False. lia.
  - rewrite decide_True; [by rewrite bytes_frame_value by lia|]. split; [|lia].
    revert Ha. unfold frame_action. destruct (frame_bytes w frame) as [|b bs]; [done|].
    simpl. by case_decide.
Qed.

Lemma out_answers_nil : out_answers [] = [].
Proof. unfold out_answers. by rewrite decide_True. Qed.

(** A handler of the gnet servers on a frame. *)
Lemma gnet_handler_handled (reply : nat → list byte → event) d c w frame a :
  (∀ bs, event_bytes (reply c bs) = bs) →
  frame_ok w frame → wf_bw (ws_bw (w_ws w)) → frame_action w frame = Some a →
  handled d (frame_write (frame_bytes w frame)) w
    (((if decide (a = WriteHandlerType) then gnet_write reply else gnet_read reply d) c frame;;
      mret []) w).
Proof.
  intros Hreply Hok Hwf Ha. unfold mbind, go_bind, mret, go_ret. case_decide as Hw.
  - subst a. rewrite gnet_write_eq, frame_write_eq by done. case_decide as Hl.
    { split; [apply taken_refl|]. by intros []. }
    destruct (BufferWrite _ _ _) as [bw []|p|] eqn:E.
    + split; [|by intros _; rewrite answers_add, out_answers_nil by done; cbn; rewrite Hreply].
      apply taken_write; [done|]. apply slice_ok_frame_value; [done|lia].
    + by apply BufferWrite_no_panic in E.
    + eexists _, _. split; [done|]. by eapply queue_full_blocked.
  - rewrite frame_write_action by congruence. rewrite gnet_read_eq by done.
    case_decide; [split; [apply taken_refl|by intros []]|].
    destruct (prov_Get _ _ _) as [m r] eqn:E. split; [|by intros []]. exact (taken_read _ _ _ _ _ _ E).
Qed.

Lemma tcp_handled n d c w frame :
  frame_ok w frame → wf_bw (ws_bw (w_ws w)) →
  handled d (frame_write (frame_bytes w frame)) w
    ((TCP_OnTraffic (as_gnet AsyncWrite <$> rw_handlers n d) c (Ok frame);; mret []) w).
Proof.
  intros Hok Hwf. rewrite gnet_registry. unfold mbind, go_bind, mret, go_ret.
  rewrite TCP_OnTraffic_eq by by intros ? [= <-].
  destruct (frame_action w frame) as [a|] eqn:Ea.
  - rewrite rw_registry_lookup by by eapply frame_action_cases.
    pose proof (gnet_handler_handled AsyncWrite d c w frame a) as Hh.
    unfold mbind, go_bind, mret, go_ret in Hh |- *.
    destruct (_ c frame w); by apply Hh.
  - rewrite frame_write_action by congruence. split; [apply taken_refl|by intros []].
Qed.

Lemma react_handled n d c w frame :
  frame_ok w frame → wf_bw (ws_bw (w_ws w)) →
  handled d (frame_write (frame_bytes w frame)) w
    ((r ← gnet_React (as_gnet SendTo <$> rw_handlers n d) frame c; mret r.1) w).
Proof.
  intros Hok Hwf. rewrite gnet_registry. unfold mbind, go_bind, mret, go_ret.
  rewrite gnet_React_eq by done.
  destruct (frame_action w frame) as [a|] eqn:Ea.
  - rewrite rw_registry_lookup by by eapply frame_action_cases.
    pose proof (gnet_handler_handled SendTo d c w frame a) as Hh.
    unfold mbind, go_bind, mret, go_ret in Hh |- *.
    destruct (_ c frame w); by apply Hh.
  - rewrite frame_write_action by congruence. split; [apply taken_id|by intros []].
Qed.

(** Buffers that are made before and after the handler ran do not matter. *)
Lemma taken_after_read_l d acc chunk w w' :
  taken d acc (after_read chunk w) w' → taken d acc w w'.
Proof.
  intros [(bufs & Hh) Hd Hl Hw]. split; [|done..]. eexists.
  rewrite Hh. cbn [after_read with_heap w_ws ws_heap]. by rewrite <- app_assoc.
Qed.

Lemma taken_after_read_r d acc chunk w w' :
  taken d acc w w' → taken d acc w (after_read chunk w').
Proof.
  intros [(bufs & Hh) Hd Hl Hw]. split; [|done..|].
  - eexists. cbn [after_read with_heap w_ws ws_heap]. by rewrite Hh, <- app_assoc.
  - destruct acc as [[key value]|]; [|done]. destruct Hw as (s & E & Hs & <-).
    exists s. split; [done|]. cbn [after_read with_heap w_ws ws_heap].
    split; [by apply slice_ok_alloc|by apply bytes_of_alloc].
Qed.

Lemma stream_end (reg : gmap byte quic_handler) c e w :
  handleStream reg c [MkRead [] (Some e)] w = Done (after_read [] w) ().
Proof.
  cbn [handleStream rd_bytes rd_err].
  erewrite go_bind_done by (apply lift_heap_done; done).
  erewrite go_bind_done by (apply lift_heap_done; done).
  set (w0 := with_heap _ _). assert (w0 = after_read [] w) as ->; [|done].
  unfold w0, after_read. cbn [with_heap w_ws ws_heap s_buf s_off s_len].
  by rewrite take_nil, poke_fresh.
Qed.

Lemma quic_read_taken d c m w :
  ∃ w', QuicReadHandler_HandleMessage write_err d c m w = Done w' () ∧ taken d None w w'.
Proof.
  destruct (quic_read_eq write_err d c m w) as (w' & E & Hw'). exists w'. split; [done|].
  destruct (prov_Get _ _ _) as [m' r] eqn:Eg. destruct Hw' as (Hm & Hbw & Hlog & Hh & _).
  split; [done| |done..]. rewrite Hm. exact (Db_Get_frame _ _ _ _ _ Eg).
Qed.

Lemma quic_handled n d c chunk e w :
  length chunk ≤ 4096 → wf_bw (ws_bw (w_ws w)) →
  handled d (message_write chunk) w
    ((handleStream (omap as_quic (rw_handlers n d)) c [MkRead chunk None; MkRead [] (Some e)];;
      mret []) w).
Proof.
  intros Hl Hwf. rewrite quic_registry. unfold message_write.
  destruct (handleStream_read (quic_rw_registry write_err d) c chunk
    [MkRead [] (Some e)] w Hl) as (m & Hm & E).
  set (w1 := after_read chunk w) in *.
  assert (∀ acc w', taken d acc w1 w' → taken d acc w w') as Htl
    by (intros acc w'; apply taken_after_read_l).
  unfold mbind, go_bind, mret, go_ret in E |- *. rewrite E. clear E.
  destruct (parse_wire chunk) as [mv|err] eqn:Ep.
  2: { split; [by apply taken_after_read_r, taken_id|by intros []]. }
  destruct (Hm mv eq_refl) as (Hv & _ & Hok). clear Hm.
  assert (mv_handler mv = Handler m ∧ mv_key mv = Key m ∧
    mv_data mv = bytes_of (ws_heap (w_ws w1)) (Data m)) as (-> & -> & ->) by by rewrite <- Hv.
  unfold quic_rw_registry, RegisterHandler. rewrite !lookup_insert.
  destruct (decide (ReadHandlerType = Handler m)) as [Hr|Hr];
    [|destruct (decide (WriteHandlerType = Handler m)) as [Hw|Hw]].
  - rewrite <- Hr, decide_False by done.
    destruct (quic_read_taken d c m w1) as (w2 & E & Ht). unfold mbind, go_bind. rewrite E.
    rewrite stream_end. split; [by apply taken_after_read_r, Htl|by intros []].
  - rewrite <- Hw, decide_True by done. unfold mbind, go_bind. rewrite quic_write_eq.
    destruct (BufferWrite _ _ _) as [bw []|p|] eqn:E.
    + rewrite stream_end. split.
      * apply taken_after_read_r, Htl. by apply taken_write.
      * intros _. rewrite out_answers_nil. unfold answers. cbn. by rewrite drop_app_length.
    + by apply BufferWrite_no_panic in E.
    + eexists _, _. split; [done|]. by eapply queue_full_blocked.
  - rewrite decide_False by congruence. split; [by apply taken_after_read_r, taken_id|by intros []].
Qed.

(** Every input of a prepared server is handled. *)
Lemma serve_input_handled n d srv c inp w :
  srv_handlers srv = rw_handlers n d → input_ok (ws_heap (w_ws w)) (srv_config srv) inp →
  wf_bw (ws_bw (w_ws w)) →
  handled d (accepted_write (srv_config srv) (input_bytes (ws_heap (w_ws w)) inp)) w
    (serve_input srv c inp w).
Proof.
  intros Hh Hin Hwf. unfold serve_input. rewrite Hh.
  destruct (srv_config srv), inp; try done; cbn [input_ok accepted_write input_bytes] in Hin |- *.
  - by apply quic_handled.
  - by apply react_handled.
  - by apply tcp_handled.
  - by apply react_handled.
Qed.

(** * Runs of the service *)

(** Bytes reach a server, a worker takes a step or a writer is stopped, memory
    changes. *)
Inductive svc_label :=
  | SInput (j c : nat) (bs : list byte)
  | SInner (i : nat) (l : wlabel)
  | SHeap.

(** A change of memory that keeps the values the writers hold: the buffers of the
    network libraries and everything no writer refers to may change. *)
Definition heap_keeps ms (h' : heap) : Prop :=
  ∀ i bw key s, ms_writers ms !! i = Some bw → held bw key s →
    slice_ok h' s ∧ bytes_of h' s = bytes_of (ms_heap ms) s.

Inductive svc_step (d : Db) (servers : list server) : mstate → svc_label → mstate → Prop :=
  | svc_input ms j srv n bw c inp w' out :
      servers !! j = Some srv → srv_handlers srv = rw_handlers n d →
      ms_writers ms !! n = Some bw → input_ok (ms_heap ms) (srv_config srv) inp →
      serve_input srv c inp (MkWorld (focus bw ms) []) = Done w' out →
      svc_step d servers ms (SInput j c (input_bytes (ms_heap ms) inp))
        (unfocus n (w_ws w') ms)
  | svc_inner ms i l ms' :
      l = LWorker ∨ l = LStop → mstep ms (i, l) ms' →
      svc_step d servers ms (SInner i l) ms'
  | svc_heap ms h' :
      heap_keeps ms h' →
      svc_step d servers ms SHeap (MkMs h' (ms_mdbx ms) (ms_writers ms) (ms_log ms)).

Inductive svc_run (d : Db) (servers : list server)
    : mstate → list svc_label → mstate → Prop :=
  | svc_nil ms : svc_run d servers ms [] ms
  | svc_cons ms l ms1 ls ms2 :
      svc_step d servers ms l ms1 → svc_run d servers ms1 ls ms2 →
      svc_run d servers ms (l :: ls) ms2.

(** The writes at the batch writers that a run amounts to. *)
Definition server_writer srv : option nat :=
  match srv_handlers srv !! WriteHandlerType with Some (HWrite n _) => Some n | _ => None end.

Definition svc_writes (servers : list server) (l : svc_label) : list (nat * wlabel) :=
  match l with
  | SInput j _ bs =>
      match servers !! j with
      | Some srv =>
          match server_writer srv, accepted_write (srv_config srv) bs with
          | Some n, Some (key, value) => [(n, LWrite key value)]
          | _, _ => []
          end
      | None => []
      end
  | SInner i l => [(i, l)]
  | SHeap => []
  end.

(** * The invariant of the service *)

Record svc_inv (d : Db) ms : Prop := {
  si_wf : ms_wf d ms;
  si_flight i bw key s :
    ms_writers ms !! i = Some bw → held bw key s → slice_ok (ms_heap ms) s;
}.

Lemma quiescent_inv d ms : ms_wf d ms → ms_quiescent ms → svc_inv d ms.
Proof.
  intros Hwf Hq. split; [done|]. intros i bw key s Hi Hh.
  apply (Forall_lookup_1 _ _ _ _ Hq) in Hi. by apply quiescent_held in Hh.
Qed.

Lemma slice_ok_grow h bufs s : slice_ok h s → slice_ok (h ++ bufs) s.
Proof.
  intros Hs. induction bufs as [|b bufs IH] using rev_ind; [by rewrite app_nil_r|].
  rewrite app_assoc. by apply slice_ok_alloc.
Qed.

Lemma bytes_of_grow h bufs s : slice_ok h s → bytes_of (h ++ bufs) s = bytes_of h s.
Proof.
  intros Hs. induction bufs as [|b bufs IH] using rev_ind; [by rewrite app_nil_r|].
  rewrite app_assoc, bytes_of_alloc; [done|]. by apply slice_ok_grow.
Qed.

Lemma grow_keeps d ms bufs : svc_inv d ms → heap_keeps ms (ms_heap ms ++ bufs).
Proof.
  intros [_ Hf] i bw key s Hi Hp. pose proof (Hf i bw key s Hi Hp).
  split; [by apply slice_ok_grow|by apply bytes_of_grow].
Qed.

Lemma keeps_refl d ms : svc_inv d ms → heap_keeps ms (ms_heap ms).
Proof. intros [_ Hf] i bw key s Hi Hp. split; [by eapply Hf|done]. Qed.

(** The state with other memory and another state of the library. *)
Definition refreshed (h : heap) (m : mdbx_state) ms : mstate :=
  MkMs h m (ms_writers ms) (ms_log ms).

Lemma refreshed_inv d ms h m : svc_inv d ms → heap_keeps ms h → svc_inv d (refreshed h m ms).
Proof. intros [Hwf _] Hk. split; [done|]. intros i bw key s Hi Hp. by eapply Hk. Qed.

Lemma refreshed_converging d init f key ms h m :
  heap_keeps ms h → db_view m d = ms_db d ms → converging d init f key ms →
  converging d init f key (refreshed h m ms).
Proof.
  intros Hk Hd [Hp Hdb]. split.
  - intros i bw s Hi Hs. rewrite (Hp i bw s) by done. cbn [refreshed ms_heap].
    by destruct (Hk i bw key s Hi (pending_held _ _ _ Hs)) as [_ ->].
  - unfold ms_db at 1 2. cbn [refreshed ms_mdbx ms_writers]. by rewrite Hd.
Qed.

Lemma inner_inv d ms i l ms' :
  l = LWorker ∨ l = LStop → svc_inv d ms → mstep ms (i, l) ms' → svc_inv d ms'.
Proof.
  intros Hl [Hwf Hf] Hs. split; [by eapply mstep_wf|].
  inversion Hs as [? ? bw ? st' Hi Hw]; subst.
  assert (ws_heap st' = ms_heap ms) as Hh
    by (destruct (wstep_heap _ _ _ Hw) as [->| ->]; [by destruct Hl|done]).
  intros j bwj key s [[-> ->]|[_ Hj]]%unfocus_lookup Hp; cbn [unfocus ms_heap]; rewrite Hh;
    [|by eapply Hf].
  destruct (wstep_held _ _ _ _ _ Hw Hp) as [?| ->]; [by eapply Hf|by destruct Hl].
Qed.

(** A handled input is a change of memory, then a write if it is one. *)
Lemma taken_unfold d acc ms n bw tr w' :
  ms_writers ms !! n = Some bw → svc_inv d ms →
  taken d acc (MkWorld (focus bw ms) tr) w' →
  let ms1 := refreshed (ws_heap (w_ws w')) (ws_mdbx (w_ws w')) ms in
  heap_keeps ms (ms_heap ms1) ∧ db_view (ms_mdbx ms1) d = ms_db d ms ∧
  match acc with
  | None => unfocus n (w_ws w') ms = ms1
  | Some (key, value) =>
      mstep ms1 (n, LWrite key value) (unfocus n (w_ws w') ms) ∧
      svc_inv d (unfocus n (w_ws w') ms)
  end.
Proof.
  intros Hn Hinv [(bufs & Hh) Hd Hlog Hacc] ms1.
  cbn [w_ws focus ws_heap ws_mdbx ws_log ws_bw] in Hh, Hd, Hlog, Hacc. assert (heap_keeps ms (ms_heap ms1)) as Hk.
  { unfold ms1. cbn [refreshed ms_heap]. rewrite Hh. by eapply grow_keeps. }
  split_and!; [done|done|]. destruct w' as [[h m bw' log] tr'].
  cbn [w_ws focus ws_heap ws_mdbx ws_log ws_bw] in *. subst log.
  destruct acc as [[key value]|].
  2: { subst bw'. unfold unfocus. cbn. by rewrite list_insert_id. }
  destruct Hacc as (s & E & Hs & <-).
  assert (mstep ms1 (n, LWrite key (bytes_of h s))
    (unfocus n (MkWs h m bw' (ms_log ms)) ms)) as Hstep.
  { apply (mstep_writer ms1 n bw (LWrite key (bytes_of h s)) (MkWs h m bw' (ms_log ms)) Hn).
    exact (step_write (focus bw ms1) key s bw' E). }
  split; [done|]. split; [eapply mstep_wf; [exact Hstep|apply Hinv]|].
  intros i bwi k s' [[-> ->]|[_ Hi]]%unfocus_lookup Hp.
  - apply (BufferWrite_held _ _ _ _ _ _ E) in Hp as [[_ ->]|Hp]; [done|]. by eapply Hk.
  - by eapply Hk.
Qed.

(** Every step of the service is a change of memory, followed by at most one step of a
    writer, the one the label stands for. *)
Inductive split_step (d : Db) (writes : list (nat * wlabel)) ms ms' : Prop :=
  | split_none h m :
      writes = [] → heap_keeps ms h → db_view m d = ms_db d ms → ms' = refreshed h m ms →
      split_step d writes ms ms'
  | split_writer h m i l :
      writes = [(i, l)] → heap_keeps ms h → db_view m d = ms_db d ms → l ≠ LHeap →
      mstep (refreshed h m ms) (i, l) ms' → split_step d writes ms ms'.

Lemma svc_step_split d servers ms l ms' :
  svc_inv d ms → svc_step d servers ms l ms' →
  split_step d (svc_writes servers l) ms ms' ∧ svc_inv d ms'.
Proof.
  intros Hinv. destruct 1 as [ms j srv n bw c inp w' out Hj Hh Hn Hin E|ms i l ms' Hl Hs|ms h' Hk].
  - destruct (ms_wf_lookup d ms n bw (si_wf _ _ Hinv) Hn) as [Hbw _].
    pose proof (serve_input_handled n d srv c inp (MkWorld (focus bw ms) []) Hh Hin Hbw) as Hr.
    rewrite E in Hr. destruct Hr as [Ht _].
    destruct (taken_unfold _ _ _ _ _ _ _ Hn Hinv Ht) as (Hk & Hd & Hacc).
    cbn [svc_writes]. rewrite Hj. unfold server_writer. rewrite Hh.
    replace (rw_handlers n d !! WriteHandlerType) with (Some (HWrite n d)) by done.
    cbn [w_ws focus ws_heap] in Hacc.
    destruct (accepted_write _ _) as [[k value]|].
    + destruct Hacc as [Hs Hinv']. split; [|done]. by eapply split_writer.
    + rewrite Hacc. split; [by eapply split_none|by apply refreshed_inv].
  - split; [|by eapply inner_inv]. eapply (split_writer _ _ _ _ (ms_heap ms) (ms_mdbx ms));
      [done|by apply keeps_refl with (d := d)|done|by intros ->; destruct Hl|].
    by destruct ms.
  - split; [by eapply (split_none _ _ _ _ h' (ms_mdbx ms))|].
    by apply (refreshed_inv d ms h' (ms_mdbx ms)).
Qed.

Lemma svc_step_inv d servers ms l ms' :
  svc_inv d ms → svc_step d servers ms l ms' → svc_inv d ms'.
Proof. intros Hinv Hs. by eapply svc_step_split. Qed.

(** Convergence is kept by a step, with the writes it amounts to. *)
Lemma svc_step_converging d servers init f key ms l ms' :
  svc_inv d ms → svc_step d servers ms l ms' → ms_log ms' = ms_log ms →
  converging d init f key ms →
  converging d init (foldl spec_mstep f (svc_writes servers l)) key ms'.
Proof.
  intros Hinv Hs Hlog Hcv.
  destruct (svc_step_split d servers ms l ms' Hinv Hs) as [Hsp _].
  destruct Hsp as [h m -> Hk Hd ->|h m i wl -> Hk Hd Hl Hm].
  - by apply refreshed_converging.
  - cbn [foldl]. eapply (converging_step d init f key (refreshed h m ms)); try done.
    + apply (refreshed_inv d ms h m Hinv Hk).
    + by apply refreshed_converging.
Qed.

Lemma svc_step_log d servers ms l ms' :
  svc_inv d ms → svc_step d servers ms l ms' → ∃ es, ms_log ms' = ms_log ms ++ es.
Proof.
  intros Hinv Hs. destruct (svc_step_split d servers ms l ms' Hinv Hs) as [Hsp _].
  destruct Hsp as [h m _ _ _ ->|h m i wl _ _ _ _ Hm].
  - exists []. by rewrite app_nil_r.
  - by apply mstep_log in Hm.
Qed.

Lemma svc_run_log d servers ms ls ms' :
  svc_inv d ms → svc_run d servers ms ls ms' → ∃ es, ms_log ms' = ms_log ms ++ es.
Proof.
  intros Hinv Hrun. induction Hrun as [ms|ms l ms1 ls ms2 Hs _ IH].
  - exists []. by rewrite app_nil_r.
  - destruct (svc_step_log _ _ _ _ _ Hinv Hs) as (es & Hl).
    destruct IH as (es' & Hl'); [by eapply svc_step_inv|].
    exists (es ++ es'). by rewrite Hl', Hl, app_assoc.
Qed.

Lemma svc_run_inv d servers ms ls ms' :
  svc_inv d ms → svc_run d servers ms ls ms' → svc_inv d ms'.
Proof.
  intros Hinv Hrun. induction Hrun as [ms|ms l ms1 ls ms2 Hs _ IH]; [done|].
  apply IH. by eapply svc_step_inv.
Qed.

Lemma svc_run_converging d servers init f key ms ls ms' :
  svc_inv d ms → svc_run d servers ms ls ms' → ms_log ms' = ms_log ms →
  converging d init f key ms →
  converging d init (foldl spec_mstep f (ls ≫= svc_writes servers)) key ms'.
Proof.
  intros Hinv Hrun. revert f Hinv.
  induction Hrun as [ms|ms l ms1 ls ms2 Hs Hrun IH]; intros f Hinv Hlog Hcv; [done|].
  pose proof (svc_step_inv _ _ _ _ _ Hinv Hs) as Hinv1.
  destruct (svc_step_log _ _ _ _ _ Hinv Hs) as [es Hes].
  destruct (svc_run_log _ _ _ _ _ Hinv1 Hrun) as [es' Hes'].
  assert (ms_log ms1 = ms_log ms ∧ ms_log ms2 = ms_log ms1) as [Hlog1 Hlog2]
    by by eapply log_extends_eq.
  cbn [mbind list_bind]. rewrite foldl_app. apply IH; [done|done|].
  by apply (svc_step_converging d servers init f key ms l ms1).
Qed.

Lemma svc_run_writers d servers ms ls ms' :
  svc_run d servers ms ls ms' → length (ms_writers ms') = length (ms_writers ms).
Proof.
  induction 1 as [|ms l ms1 ls ms2 Hs _ ->]; [done|].
  destruct Hs as [| ms i l ms' _ Hs |]; cbn; [by rewrite length_insert| |done].
  destruct Hs. cbn. by rewrite length_insert.
Qed.

(** * What [Start] launched *)

(** A server without handlers, or with those [Start] registers. *)
Definition fresh_or_rw (d : Db) srv : Prop :=
  srv_handlers srv = ∅ ∨ ∃ n, srv_handlers srv = rw_handlers n d.

Lemma prepare_server_handlers j d o o' :
  prepare_server j d o = Done o' () → Forall (fresh_or_rw d) (obj_servers o) →
  Forall (fresh_or_rw d) (obj_servers o').
Proof.
  destruct (registry_writer d) as (bw & Hbw & _).
  unfold prepare_server. rewrite (go_bind_done _ _ _ _ _ (Hbw _ o)).
  unfold mbind, go_bind, new_writer, set_handler. cbn.
  destruct (obj_servers o !! j) as [srv|] eqn:Ej; [|done]. cbn.
  pose proof (lookup_lt_Some _ _ _ Ej) as Hlt.
  rewrite list_lookup_insert_eq by done. cbn. rewrite list_insert_insert_eq.
  intros [= <-] Ho. cbn. apply Forall_insert; [done|]. right.
  exists (length (obj_writers o)). cbn. unfold rw_handlers.
  destruct (Forall_lookup_1 _ _ _ _ Ho Ej) as [-> |[n ->]]; [done|].
  apply map_eq. intros b. unfold rw_handlers. rewrite !lookup_insert.
  by repeat case_decide.
Qed.

Lemma launch_handlers fdb d ts g o o' g' :
  launch fdb d ts g o = Done o' (g', None) → Forall (fresh_or_rw d) (obj_servers o) →
  Forall (fresh_or_rw d) (obj_servers o').
Proof.
  revert g o. induction ts as [|t ts IH]; intros g o; simpl; [by intros [= <- <-]|].
  destruct (tRegistry t) as [fn|] eqn:Et; [|done].
  assert (fn = transport_fn t) as -> by (unfold tRegistry in Et; case_decide; congruence).
  destruct (transport_fn t fdb d o) as [o1 [srv|e]| |] eqn:E;
    unfold mbind, go_bind; rewrite E; try done.
  intros Hl Ho. apply (IH _ _ Hl). revert E. unfold transport_fn.
  destruct (entry_name t) as [name srvName]. destruct (GetTransport _ _) as [j|]; [|done].
  unfold mbind, go_bind, go_get, mret, go_ret.
  destruct (obj_servers o !! j) as [s|]; [|done]. destruct (entry_kind _ _); [|done].
  destruct (prepare_server j d o) as [o2 []| |] eqn:Ep; [|done..].
  intros [= -> _]. by eapply prepare_server_handlers.
Qed.

(** A launched server, its handlers and its writer. *)
Lemma launched_server fdb d ts g g' o o' h m log j srv :
  launch fdb d ts g o = Done o' (g', None) → (∀ k, TaskTransport k ∉ g) →
  Forall (λ s, srv_handlers s = ∅) (obj_servers o) →
  TaskTransport j ∈ g' → obj_servers o' !! j = Some srv →
  ∃ n, srv_handlers srv = rw_handlers n d ∧ n < length (ms_writers (running h m log o')).
Proof.
  intros Hl Hg Ho Hj Hsrv.
  assert (Forall (fresh_or_rw d) (obj_servers o')) as Hf.
  { eapply launch_handlers; [exact Hl|]. eapply Forall_impl; [exact Ho|]. by left. }
  destruct (launch_spec _ _ _ _ _ _ _ Hl) as (srvs & -> & _ & _ & Hall).
  apply elem_of_app in Hj as [?|Hj]; [by destruct (Hg j)|].
  apply list_elem_of_fmap in Hj as (j' & [= <-] & Hin).
  destruct (Hall j (or_introl Hin)) as (w & s & bw & Hs & Hw & _ & Hbw & _).
  assert (s = srv) as -> by congruence.
  destruct (Forall_lookup_1 _ _ _ _ Hf Hsrv) as [E|[n E]]; rewrite E in Hw; [done|].
  exists n. split; [done|]. change (Some (HWrite n d) = Some (HWrite w d)) in Hw.
  injection Hw as ->. by eapply lookup_lt_Some.
Qed.

(** * The service keeps its promises *)

(** From a state at rest, a key that no writer holds. *)
Lemma flushed_value d servers ms ls ms' key :
  ms_wf d ms → ms_quiescent ms → svc_run d servers ms ls ms' → ms_log ms' = ms_log ms →
  (∀ i bw, ms_writers ms' !! i = Some bw → pending bw key = None) →
  let writes := ls ≫= svc_writes servers in
  (∃ i, is_Some (last_write i writes key) ∧
        ms_db d ms' !! array_bytes key = last_write i writes key) ∨
  ((∀ i, last_write i writes key = None) ∧
   ms_db d ms' !! array_bytes key = ms_db d ms !! array_bytes key).
Proof.
  intros Hwf Hq0 Hrun Hlog Hno writes. pose proof (quiescent_inv d ms Hwf Hq0) as Hinv.
  assert (converging d (ms_db d ms !! array_bytes key) (λ _ _, None) key ms) as Hcv.
  { split; [|by right; right]. intros i bw s Hi. by rewrite (ms_quiescent_pending ms i bw). }
  destruct (svc_run_converging _ _ _ _ _ _ _ _ Hinv Hrun Hlog Hcv)
    as [_ [(i & bw & Hi & Hp)|Hdb]].
  { rewrite (Hno i bw) in Hp by done. by destruct Hp. }
  destruct Hdb as [(i & Hi & Hdb)|[Hnone Hdb]]; [left; exists i|right; split; [intros i|done]];
    by rewrite <- last_write_fold.
Qed.

(** From a state at rest to a state at rest. *)
Lemma settled_values d servers ms ls ms' key :
  ms_wf d ms → ms_quiescent ms → svc_run d servers ms ls ms' → ms_log ms' = ms_log ms →
  ms_quiescent ms' →
  let writes := ls ≫= svc_writes servers in
  (∃ i, is_Some (last_write i writes key) ∧
        ms_db d ms' !! array_bytes key = last_write i writes key) ∨
  ((∀ i, last_write i writes key = None) ∧
   ms_db d ms' !! array_bytes key = ms_db d ms !! array_bytes key).
Proof.
  intros Hwf Hq0 Hrun Hlog Hq. apply flushed_value; [done..|].
  intros i bw Hi. by apply (ms_quiescent_pending ms' i bw).
Qed.

(** C2: The service converges. [Start] gives every transport a batch writer of its own
    on the one database. Whatever bytes arrive at these transports from there on,
    in any interleaving with the workers of all writers, with stops of writers and
    with changes of memory that spare what the writers hold, as long as no flush
    fails: once all writers are idle, each key holds the last value that some
    transport accepted for it (over gnet everything behind the key, over QUIC the
    data), or no transport accepted a write of it and it is as it was. *)
Theorem service_converges (fdb : FDB) (bDb : Db) (ts : list TransportType)
    (g g' : list task) (o o' : objects) (h : heap) (m : mdbx_state) (log : list error)
    (ls : list svc_label) (ms' : mstate) (key : array32) :
  launch fdb bDb ts g o = Done o' (g', None) → obj_writers o = [] →
  svc_run bDb (obj_servers o') (running h m log o') ls ms' →
  ms_log ms' = log → ms_quiescent ms' →
  let writes := ls ≫= svc_writes (obj_servers o') in
  (∃ i, is_Some (last_write i writes key) ∧
        ms_db bDb ms' !! array_bytes key = last_write i writes key) ∨
  ((∀ i, last_write i writes key = None) ∧
   ms_db bDb ms' !! array_bytes key = db_view m bDb !! array_bytes key).
Proof.
  intros Hl Ho Hrun Hlog Hq writes.
  destruct (launched_writers _ _ _ _ _ _ _ h m log Hl Ho) as (_ & Hwf & Hq0).
  exact (settled_values bDb _ _ _ _ key Hwf Hq0 Hrun Hlog Hq).
Qed.

End service.
