(* ===== verification/ServiceReads.v ===== *)
(** What the reads of the running service may return: nothing but what was stored
    before or what some transport accepted for the key. *)
From S2P Require Import Prelude GoRuntime Slices Types Messages Config Mdbx Database BatchWriter WriterSpec WriterCorrect MultiWriter Held Handlers Servers EndToEnd Fdb System Service.

Section reads.
Context `{MdbxLaws} `{TlsEnv} `{Host}.
Context (write_err : list event → option error).
Implicit Types (srv : server) (ms : mstate) (w : world).

(** A value of a key that a run accounts for: it was in the database at the start, or
    a transport accepted it. *)
Definition accounted (d : Db) (servers : list server) (m0 : mdbx_state) (ls : list svc_label)
    (key : array32) (v : list byte) : Prop :=
  db_view m0 d !! array_bytes key = Some v ∨
  ∃ i, (i, LWrite key v) ∈ ls ≫= svc_writes servers.

(** Everything in the database or held by a writer satisfies [W]. *)
Record all_values (d : Db) (W : array32 → list byte → Prop) ms : Prop := {
  av_held i bw key s :
    ms_writers ms !! i = Some bw → held bw key s → W key (bytes_of (ms_heap ms) s);
  av_db key v : ms_db d ms !! array_bytes key = Some v → W key v;
}.

(** * All values are accounted for *)

Lemma mstep_all_values d W ms i l ms' :
  ms_wf d ms → mstep ms (i, l) ms' → l ≠ LHeap →
  (∀ key v, l = LWrite key v → W key v) → all_values d W ms → all_values d W ms'.
Proof.
  intros Hwf Hs Hl Hw [Hh Hd]. inversion Hs as [? ? bw ? st' Hi Hst]; subst.
  destruct (ms_wf_lookup d ms i bw Hwf Hi) as [_ Hdb].
  assert (ws_heap st' = ms_heap ms) as Hheap
    by (by destruct (wstep_heap _ _ _ Hst) as [?|?]).
  split.
  - intros j bwj key s Hj Hs'. cbn [unfocus ms_heap]. rewrite Hheap.
    apply unfocus_lookup in Hj as [[-> ->]|[_ Hj]]; [|by eapply Hh].
    destruct (wstep_held _ _ _ _ _ Hst Hs') as [?|El]; [by eapply Hh|by apply Hw].
  - intros key v Hv. destruct (wstep_stored _ _ _ key Hst) as [E|(s & Hs' & E)];
      unfold db_of in E; rewrite (wstep_db _ _ _ Hst) in E;
      cbn [focus ws_bw ws_mdbx ws_heap] in E; rewrite Hdb in E; unfold ms_db in Hv;
      cbn [unfocus ms_mdbx] in Hv; rewrite E in Hv.
    + by apply Hd.
    + injection Hv as <-. by eapply Hh.
Qed.

Lemma refreshed_all_values d W ms h m :
  heap_keeps ms h → db_view m d = ms_db d ms → all_values d W ms →
  all_values d W (refreshed h m ms).
Proof.
  intros Hk Hdb [Hh Hd]. split.
  - intros i bw key s Hi Hs. cbn [refreshed ms_heap].
    destruct (Hk i bw key s Hi Hs) as [_ ->]. by eapply Hh.
  - intros key v. unfold ms_db. cbn [refreshed ms_mdbx]. rewrite Hdb. apply Hd.
Qed.

Lemma svc_step_all_values d servers W ms l ms' :
  svc_inv d ms → svc_step write_err d servers ms l ms' →
  (∀ i key v, (i, LWrite key v) ∈ svc_writes servers l → W key v) →
  all_values d W ms → all_values d W ms'.
Proof.
  intros Hinv Hs HW Hav. destruct (svc_step_split _ _ _ _ _ _ Hinv Hs) as [Hsp _].
  destruct Hsp as [h m _ Hk Hd ->|h m i wl Hwr Hk Hd Hl Hm].
  - by apply refreshed_all_values.
  - rewrite Hwr in HW. apply (mstep_all_values d W (refreshed h m ms) i wl); try done.
    + apply (refreshed_inv d ms h m Hinv Hk).
    + intros key v ->. apply (HW i). by left.
    + by apply refreshed_all_values.
Qed.

Lemma svc_run_all_values d servers W ms ls ms' :
  svc_inv d ms → svc_run write_err d servers ms ls ms' →
  (∀ i key v, (i, LWrite key v) ∈ ls ≫= svc_writes servers → W key v) →
  all_values d W ms → all_values d W ms'.
Proof.
  intros Hinv Hrun. induction Hrun as [ms|ms l ms1 ls ms2 Hs _ IH]; intros HW Hav; [done|].
  apply IH.
  - by eapply svc_step_inv.
  - intros i key v Hin. apply (HW i). cbn [mbind list_bind]. apply elem_of_app. by right.
  - eapply svc_step_all_values; [done..| |done].
    intros i key v Hin. apply (HW i). cbn [mbind list_bind]. apply elem_of_app. by left.
Qed.

(** * The answer to a read *)

(** The servers over gnet that [Start] knows. *)
Definition gnet_kind (cnf : TransportConfig) : Prop :=
  match cnf with TcpConfig _ | UdpConfig _ | UdsConfig _ => True | _ => False end.

Lemma serve_read n d srv c frame key rest w :
  srv_handlers srv = rw_handlers n d → gnet_kind (srv_config srv) →
  shows w frame (ReadHandlerType :: array_bytes key ++ rest) →
  ∃ w' out r, serve_input write_err srv c (InFrame frame) w = Done w' out ∧
    (Db_Get d (array_bytes key) (ws_mdbx (w_ws w))).2 = r ∧
    answers w w' ++ out_answers out = [read_reply r].
Proof.
  intros Hh Hkind Hs. pose proof (frame_len _ _ _ Hs) as Hlen. simpl in Hlen.
  rewrite length_app, array32_length in Hlen.
  assert (frame_action w frame = Some ReadHandlerType) as Ha
    by (eapply frame_action_hd; eauto).
  assert (∀ reply, (∀ bs, event_bytes (reply c bs) = bs) → ∃ w' r,
    gnet_read reply d c frame w = Done w' () ∧
    (Db_Get d (array_bytes key) (ws_mdbx (w_ws w))).2 = r ∧
    answers w w' ++ out_answers [] = [read_reply r]) as Hread.
  { intros reply Hreply. rewrite gnet_read_eq by apply Hs.
    rewrite decide_False by lia. erewrite frame_key_of by exact Hs. simpl.
    destruct (Db_Get _ _ _) as [m r]. eexists _, r. split_and!; [done..|].
    rewrite answers_add, out_answers_nil by done. cbn. by rewrite Hreply. }
  unfold serve_input. rewrite Hh, !gnet_registry.
  destruct (srv_config srv); try done; unfold UDP_React, UDS_React, mbind, go_bind.
  all: rewrite ?gnet_React_eq by apply Hs.
  all: rewrite ?TCP_OnTraffic_eq by (intros ? [= <-]; apply Hs).
  all: rewrite Ha, rw_registry_lookup by auto.
  all: rewrite decide_False by done; unfold mbind, go_bind.
  1, 3: destruct (Hread SendTo) as (w' & r & E & Hr & Hans); [done|].
  3: destruct (Hread AsyncWrite) as (w' & r & E & Hr & Hans); [done|].
  all: rewrite E; by eexists _, _, _.
Qed.

(** An answer that a stored value accounts for: the value, the text for an empty one, or
    the text for a lookup that failed. *)
Definition answer_of (v : option (list byte)) (bs : list byte) : Prop :=
  bs = ascii "Error reading from database" ∨ ∃ val, v = Some val ∧ bs = read_reply (Ok val).

(** A read of [key] at any server over gnet gets exactly one answer, from the database. *)
Definition reads_give (d : Db) (key : array32) ms (v : option (list byte)) : Prop :=
  ∀ srv n bw c frame rest,
    srv_handlers srv = rw_handlers n d → gnet_kind (srv_config srv) →
    ms_writers ms !! n = Some bw →
    shows (MkWorld (focus bw ms) []) frame (ReadHandlerType :: array_bytes key ++ rest) →
    ∃ w' out bs,
      serve_input write_err srv c (InFrame frame) (MkWorld (focus bw ms) []) = Done w' out ∧
      answers (MkWorld (focus bw ms) []) w' ++ out_answers out = [bs] ∧ answer_of v bs.

Lemma reads_give_stored d key ms : reads_give d key ms (ms_db d ms !! array_bytes key).
Proof.
  intros srv n bw c frame rest Hh Hk Hn Hs.
  destruct (serve_read n d srv c frame key rest _ Hh Hk Hs) as (w' & out & r & E & Hr & Ha).
  exists w', out, (read_reply r). split_and!; [done..|].
  destruct r as [v|e]; [right; exists v; split; [|done]|by left].
  destruct (Db_Get _ _ _) as [m' r'] eqn:Eg. cbn in Hr. subst r'.
  exact (Db_Get_ok _ _ _ _ _ Eg).
Qed.

(** From a state at rest, what the database holds is accounted for. *)
Lemma svc_run_stored d servers ms0 ls ms key v :
  ms_wf d ms0 → ms_quiescent ms0 → svc_run write_err d servers ms0 ls ms →
  ms_db d ms !! array_bytes key = Some v → accounted d servers (ms_mdbx ms0) ls key v.
Proof.
  intros Hwf Hq Hrun.
  assert (all_values d (accounted d servers (ms_mdbx ms0) ls) ms) as [_ Hdb]; [|apply Hdb].
  eapply svc_run_all_values; [by apply quiescent_inv|exact Hrun| |].
  - intros i k v' Hin. right. by exists i.
  - split; [|by left]. intros i bw k s Hi Hh.
    apply (Forall_lookup_1 _ _ _ _ Hq) in Hi. by apply quiescent_held in Hh.
Qed.

(** C3: Reads tell the past. Start the service and let bytes arrive and workers run in
    any interleaving, flushes that fail and changes of memory included, provided that
    the memory of the values that the batch writers still hold is left alone (a
    transport that uses a frame buffer again breaks this). What the database then holds
    for a key, and what a read of the key over TCP, UDP or a Unix socket is answered
    with, is the value from before the start or one that some transport accepted for
    this very key; otherwise the answer is one of the two texts for a failed and an
    empty lookup. Every such read gets exactly one answer. *)
Theorem reads_tell_the_past (fdb : FDB) (bDb : Db) (ts : list TransportType)
    (g g' : list task) (o o' : objects) (h : heap) (m : mdbx_state) (log : list error)
    (ls : list svc_label) (ms : mstate) (key : array32) :
  launch fdb bDb ts g o = Done o' (g', None) → obj_writers o = [] →
  svc_run write_err bDb (obj_servers o') (running h m log o') ls ms →
  let accounts := accounted bDb (obj_servers o') m ls key in
  (∀ v, ms_db bDb ms !! array_bytes key = Some v → accounts v) ∧
  ∀ srv n bw c frame rest,
    srv_handlers srv = rw_handlers n bDb → gnet_kind (srv_config srv) →
    ms_writers ms !! n = Some bw →
    let w := MkWorld (focus bw ms) [] in
    shows w frame (ReadHandlerType :: array_bytes key ++ rest) →
    ∃ w' out bs, serve_input write_err srv c (InFrame frame) w = Done w' out ∧
      answers w w' ++ out_answers out = [bs] ∧
      (accounts bs ∨ bs = ascii "Error reading from database" ∨
       bs = ascii "No value found for key").
Proof.
  intros Hl Ho Hrun accounts.
  destruct (launched_writers _ _ _ _ _ _ _ h m log Hl Ho) as (_ & Hwf & Hq).
  pose proof (λ v, svc_run_stored _ _ _ _ _ key v Hwf Hq Hrun) as Hdb.
  split; [apply Hdb|]. intros srv n bw c frame rest Hh Hk Hn w Hs.
  destruct (reads_give_stored bDb key ms srv n bw c frame rest Hh Hk Hn Hs)
    as (w' & out & bs & E & Ha & Hbs).
  exists w', out, bs. split_and!; [done..|].
  destruct Hbs as [->|(val & Hval & ->)]; [by right; left|]. cbn [read_reply].
  case_decide; [by right; right|left]. by apply Hdb.
Qed.
End reads.
