(* ===== verification/ServiceSettle.v ===== *)
(** Nothing the service accepted is lost: from every state it reaches without a stop or
    a failed flush, its workers can store all they hold. *)
From S2P Require Import Prelude GoRuntime Slices Types Messages Config Mdbx Database BatchWriter WriterSpec WriterCorrect MultiWriter Held Handlers Servers Fdb System Service.

(** * Writers nobody stopped *)

Section unstopped.
Context `{MdbxLaws}.
Implicit Types (st : wstate) (bw : BatchWriter) (ms : mstate).

Lemma unstopped_ext bw bw' :
  bw_stopped bw' = bw_stopped bw → bw_flushInterval bw' = bw_flushInterval bw →
  bw_pcs bw' = bw_pcs bw → unstopped bw → unstopped bw'.
Proof. intros Hs Hi Hp [? ? ?]. split; by rewrite ?Hs, ?Hi, ?Hp. Qed.

Lemma flush_unstopped rng i st st' :
  flush rng i st = Done st' () → unstopped (ws_bw st) → unstopped (ws_bw st').
Proof. intros (_ & -> & _)%flush_frame. by apply unstopped_ext. Qed.

Lemma wstep_unstopped st l st' :
  wstep st l st' → l ≠ LStop → unstopped (ws_bw st) → unstopped (ws_bw st').
Proof.
  destruct 1 as [st k v bw' Hw|st bw' Hs|st rng i c st' _ Hr%runWorker_step|st h'];
    intros Hl Hu; try done.
  - unfold BufferWrite in Hw. repeat case_match; simplify_eq. by apply (unstopped_ext (ws_bw st)).
  - destruct Hr as [st _ _|st req ch buf _ _ _ _|st req ch buf st' _ _ _ _ Hf
      |st st' _ Hf|st st' _ Hstop _].
    + destruct Hu as [? ? ?]. split; [done..|]. by apply Forall_insert.
    + by apply (unstopped_ext (ws_bw st)).
    + eapply flush_unstopped; [exact Hf|]. by apply (unstopped_ext (ws_bw st)).
    + by eapply flush_unstopped.
    + destruct Hu. congruence.
Qed.

Definition ms_unstopped ms : Prop := Forall unstopped (ms_writers ms).

Lemma mstep_unstopped ms i l ms' :
  mstep ms (i, l) ms' → l ≠ LStop → ms_unstopped ms → ms_unstopped ms'.
Proof.
  intros Hs Hl Hu. inversion Hs as [? ? bw ? st' Hi Hw]; subst.
  apply Forall_insert; [done|]. eapply wstep_unstopped; [exact Hw|done|].
  by apply (Forall_lookup_1 _ _ _ _ Hu) in Hi.
Qed.

(** * Starting the workers of a writer *)

Lemma start_step rng st i :
  map_order rng → unstopped (ws_bw st) → bw_pcs (ws_bw st) !! i = Some WStart →
  wstep st LWorker (with_bw (set_pc i WLoop) st).
Proof.
  intros Hrng [_ Hi _] Hpc. apply (step_worker _ rng i CaseTick); [done|].
  unfold runWorker. rewrite Hpc. by rewrite decide_False by lia.
Qed.

(** What the start of workers leaves as it is. *)
Record started_from (st st' : wstate) : Prop := {
  sf_heap : ws_heap st' = ws_heap st;
  sf_mdbx : ws_mdbx st' = ws_mdbx st;
  sf_log : ws_log st' = ws_log st;
  sf_db : bw_db (ws_bw st') = bw_db (ws_bw st);
  sf_pcs : length (bw_pcs (ws_bw st')) = length (bw_pcs (ws_bw st));
}.

Lemma start_workers rng st n :
  map_order rng → unstopped (ws_bw st) → wf_bw (ws_bw st) →
  n ≤ length (bw_pcs (ws_bw st)) →
  ∃ st' ls, stable_run st ls st' ∧ Forall (λ l, l = LWorker) ls ∧ started_from st st' ∧
    unstopped (ws_bw st') ∧ wf_bw (ws_bw st') ∧
    ∀ i, i < n → bw_pcs (ws_bw st') !! i = Some WLoop.
Proof.
  intros Hrng Hu Hwf. induction n as [|n IH]; intros Hn.
  { exists st, []. split_and!; try done; [constructor|lia]. }
  destruct IH as (st1 & ls & Hr & Hls & Hf & Hu1 & Hwf1 & Hpc); [lia|].
  destruct (lookup_lt_is_Some_2 (bw_pcs (ws_bw st1)) n) as [pc Hn1];
    [rewrite (sf_pcs _ _ Hf); lia|].
  assert (pc = WStart ∨ pc = WLoop) as [-> | ->].
  { pose proof (Forall_lookup_1 _ _ _ _ (us_pcs _ Hu1) Hn1). destruct pc; auto; congruence. }
  - pose proof (start_step rng st1 n Hrng Hu1 Hn1) as Hs.
    exists (with_bw (set_pc n WLoop) st1), (ls ++ [LWorker]). split_and!.
    + eapply stable_run_app; [exact Hr|]. econstructor; [exact Hs|done|constructor].
    + apply Forall_app. split; [done|by constructor].
    + destruct Hf. split; try done. cbn. by rewrite length_insert.
    + by eapply wstep_unstopped.
    + by eapply wstep_wf.
    + intros i Hi. cbn. destruct (decide (i = n)) as [->|].
      * apply list_lookup_insert_eq. by eapply lookup_lt_Some.
      * rewrite list_lookup_insert_ne by done. apply Hpc. lia.
  - exists st1, ls. split_and!; try done. intros i Hi.
    destruct (decide (i = n)) as [->|]; [done|]. apply Hpc. lia.
Qed.
End unstopped.

(** * Settling *)

Section settle.
Context `{MdbxReliable} `{TlsEnv} `{Host}.
Context (write_err : list event → option error).
Implicit Types (ms : mstate).

(** A writer of the system starts its workers and drains. *)
Lemma settle_writer rng d ms i bw :
  map_order rng → env_live (ms_mdbx ms) (db_env d) → ms_wf d ms → ms_unstopped ms →
  ms_writers ms !! i = Some bw →
  ∃ st ls, mrun ms (pair i <$> ls) (unfocus i st ms) ∧ Forall (λ l, l = LWorker) ls ∧
    ws_log st = ms_log ms ∧ env_live (ws_mdbx st) (db_env d) ∧ quiescent (ws_bw st).
Proof.
  intros Hrng Hl Hwf Hu Hi. destruct (ms_wf_lookup d ms i bw Hwf Hi) as [Hbw Hd].
  pose proof (Forall_lookup_1 _ _ _ _ Hu Hi) as Hub.
  destruct (start_workers rng (focus bw ms) (length (bw_pcs bw)) Hrng Hub Hbw)
    as (st & ls & Hr & Hls & Hf & _ & Hwf1 & Hpc); [done|].
  assert (Forall (λ l, l ≠ LHeap) ls) as Hnh
    by (eapply Forall_impl; [exact Hls|]; by intros l ->).
  destruct (mrun_focus _ _ _ ms i bw Hr Hnh Hi eq_refl) as [Hm _].
  set (ms1 := unfocus i st ms) in *.
  assert (focus (ws_bw st) ms1 = st) as Hst by by destruct st.
  assert (drainable d ms1 i (ws_bw st)) as Hdr.
  { split; [|done| |].
    - cbn. apply list_lookup_insert_eq. by eapply lookup_lt_Some.
    - by rewrite (sf_db _ _ Hf).
    - apply Forall_lookup_2. intros j pc Hj. pose proof (lookup_lt_Some _ _ _ Hj) as Hlt.
      rewrite (sf_pcs _ _ Hf) in Hlt. rewrite Hpc in Hj by done. congruence. }
  destruct (drain_in_system rng d ms1 i (ws_bw st) Hrng)
    as (st' & ls' & Hm' & Hls' & _ & Hlog & Hl' & Hq & _); [|done|].
  { cbn. by rewrite (sf_mdbx _ _ Hf). }
  exists st', (ls ++ ls'). split_and!; [|by apply Forall_app| |done|done].
  - rewrite fmap_app. replace (unfocus i st' ms) with (unfocus i st' ms1)
      by apply unfocus_unfocus. by eapply mrun_app.
  - rewrite Hlog. cbn. by rewrite (sf_log _ _ Hf).
Qed.

(** Worker steps of the writers are steps of the service. *)
Definition worker_label (l : svc_label) : Prop := ∃ i, l = SInner i LWorker.

Lemma mrun_svc_run d servers ms i ls ms' :
  mrun ms (pair i <$> ls) ms' → Forall (λ l, l = LWorker) ls →
  svc_run write_err d servers ms (SInner i <$> ls) ms'.
Proof.
  revert ms. induction ls as [|l ls IH]; intros ms Hr Hls;
    inversion Hr as [|? ? ms1 ? ? Hs _ Hr1]; subst; [constructor|].
  apply Forall_cons in Hls as [-> Hls]. rewrite fmap_cons.
  econstructor; [|by apply IH]. constructor; [by left|exact Hs].
Qed.

Lemma svc_run_app d servers ms ls ms1 ls' ms2 :
  svc_run write_err d servers ms ls ms1 → svc_run write_err d servers ms1 ls' ms2 →
  svc_run write_err d servers ms (ls ++ ls') ms2.
Proof. induction 1; simpl; [done|]. econstructor; eauto. Qed.

Lemma mrun_keeps d ms i ls ms' :
  mrun ms (pair i <$> ls) ms' → Forall (λ l, l = LWorker) ls →
  ms_wf d ms → ms_unstopped ms → ms_wf d ms' ∧ ms_unstopped ms'.
Proof.
  revert ms. induction ls as [|l ls IH]; intros ms Hr Hls Hwf Hu;
    inversion Hr as [|? ? ms1 ? ? Hs _ Hr1]; subst; [done|].
  apply Forall_cons in Hls as [-> Hls].
  apply (IH ms1); [done|done|by eapply mstep_wf|by eapply mstep_unstopped].
Qed.

(** The first [n] writers settle, one after the other. *)
Lemma settle_upto rng d servers ms n :
  map_order rng → env_live (ms_mdbx ms) (db_env d) → ms_wf d ms → ms_unstopped ms →
  n ≤ length (ms_writers ms) →
  ∃ ls ms', svc_run write_err d servers ms ls ms' ∧ Forall worker_label ls ∧
    ms_log ms' = ms_log ms ∧ env_live (ms_mdbx ms') (db_env d) ∧
    ms_wf d ms' ∧ ms_unstopped ms' ∧ length (ms_writers ms') = length (ms_writers ms) ∧
    ∀ i bw, i < n → ms_writers ms' !! i = Some bw → quiescent bw.
Proof.
  intros Hrng Hl Hwf Hu. induction n as [|n IH]; intros Hn.
  { exists [], ms. split_and!; try done; [constructor|lia]. }
  destruct IH as (ls & ms1 & Hr & Hls & Hlog & Hl1 & Hwf1 & Hu1 & Hlen & Hq); [lia|].
  destruct (lookup_lt_is_Some_2 (ms_writers ms1) n) as [bw Hbw]; [lia|].
  destruct (settle_writer rng d ms1 n bw Hrng Hl1 Hwf1 Hu1 Hbw)
    as (st & ls' & Hm & Hls' & Hlog' & Hl' & Hqn).
  destruct (mrun_keeps d _ _ _ _ Hm Hls' Hwf1 Hu1) as [Hwf2 Hu2].
  exists (ls ++ (SInner n <$> ls')), (unfocus n st ms1). split_and!; try done.
  - eapply svc_run_app; [exact Hr|]. by apply mrun_svc_run.
  - apply Forall_app. split; [done|]. apply Forall_fmap. eapply Forall_impl; [exact Hls'|].
    intros l ->. by exists n.
  - cbn. by rewrite Hlog'.
  - cbn. by rewrite length_insert.
  - intros i b Hi [[_ ->]|[Hne Hb]]%unfocus_lookup; [done|]. apply (Hq i); [lia|done].
Qed.

(** * Runs without stops *)

Lemma svc_step_unstopped d servers ms l ms' :
  svc_inv d ms → svc_step write_err d servers ms l ms' → (∀ i, l ≠ SInner i LStop) →
  ms_unstopped ms → ms_unstopped ms'.
Proof.
  intros Hinv Hs Hns Hu. destruct (svc_step_split _ _ _ _ _ _ Hinv Hs) as [Hsp _].
  destruct Hsp as [h m _ _ _ ->|h m i wl Hwr _ _ _ Hm]; [done|].
  apply (mstep_unstopped _ _ _ _ Hm); [|done]. intros ->.
  destruct l as [j c bs|i' l'|]; cbn in Hwr; [|by simplify_eq; eapply Hns|done].
  by repeat case_match; simplify_eq.
Qed.

Lemma svc_run_unstopped d servers ms ls ms' :
  svc_inv d ms → svc_run write_err d servers ms ls ms' →
  Forall (λ l, ∀ i, l ≠ SInner i LStop) ls → ms_unstopped ms → ms_unstopped ms'.
Proof.
  intros Hinv Hrun. induction Hrun as [ms|ms l ms1 ls ms2 Hs _ IH]; intros Hls Hu; [done|].
  apply Forall_cons in Hls as [Hl Hls].
  apply IH; [by eapply svc_step_inv|done|by eapply svc_step_unstopped].
Qed.

(** Worker steps write nothing. *)
Lemma last_write_workers servers ls ws i key :
  Forall worker_label ws →
  last_write i ((ls ++ ws) ≫= svc_writes servers) key
  = last_write i (ls ≫= svc_writes servers) key.
Proof.
  intros Hws. rewrite <- !last_write_fold, bind_app, foldl_app.
  generalize (foldl spec_mstep (λ _ _, None) (ls ≫= svc_writes servers)). clear ls.
  induction Hws as [|l ws [j ->] _ IH]; intros f; [done|].
  cbn [mbind list_bind svc_writes]. rewrite foldl_app, IH. cbn [foldl].
  unfold spec_mstep. simpl. by case_decide.
Qed.

(** * The service settles *)

Lemma launched_unstopped fdb d ts g g' o o' h m log :
  launch fdb d ts g o = Done o' (g', None) → obj_writers o = [] →
  ms_unstopped (running h m log o').
Proof.
  intros (_ & _ & _ & (bws & Hws & _ & Hf) & _)%launch_spec Ho.
  unfold ms_unstopped, running. cbn. rewrite Hws, Ho.
  eapply Forall_impl; [exact Hf|]. by intros bw (_ & _ & _ & Hu & _).
Qed.

(** C7: Nothing accepted is lost. Start the service and let bytes arrive and workers run
    in any interleaving, without a stop of a writer and without a failed flush, and with
    changes of memory that leave alone the values that the batch writers still hold (a
    transport that uses a frame buffer again breaks this), up to any point at which the
    database is open and does not fail. Then the workers alone
    can bring the service to rest: they start if they have not yet, store everything
    that is queued or buffered, log nothing, and end with every writer idle; each key
    then holds the last value some transport accepted for it, or is as it was. *)
Theorem service_settles (fdb : FDB) (bDb : Db) (ts : list TransportType)
    (g g' : list task) (o o' : objects) (h : heap) (m : mdbx_state) (log : list error)
    (ls : list svc_label) (ms : mstate) :
  launch fdb bDb ts g o = Done o' (g', None) → obj_writers o = [] →
  svc_run write_err bDb (obj_servers o') (running h m log o') ls ms →
  Forall (λ l, ∀ i, l ≠ SInner i LStop) ls → ms_log ms = log →
  env_live (ms_mdbx ms) (db_env bDb) →
  ∃ ws ms', svc_run write_err bDb (obj_servers o') ms ws ms' ∧ Forall worker_label ws ∧
    ms_log ms' = log ∧ ms_quiescent ms' ∧
    ∀ key, let writes := ls ≫= svc_writes (obj_servers o') in
      (∃ i, is_Some (last_write i writes key) ∧
            ms_db bDb ms' !! array_bytes key = last_write i writes key) ∨
      ((∀ i, last_write i writes key = None) ∧
       ms_db bDb ms' !! array_bytes key = db_view m bDb !! array_bytes key).
Proof.
  intros Hl Ho Hrun Hns Hlog Hlive.
  destruct (launched_writers _ _ _ _ _ _ _ h m log Hl Ho) as (_ & Hwf0 & Hq0).
  pose proof (quiescent_inv bDb _ Hwf0 Hq0) as Hinv0.
  pose proof (svc_run_inv _ _ _ _ _ _ Hinv0 Hrun) as Hinv.
  assert (ms_unstopped ms) as Hu.
  { eapply svc_run_unstopped; [exact Hinv0|exact Hrun|done|]. by eapply launched_unstopped. }
  destruct (settle_upto map_to_list bDb (obj_servers o') ms (length (ms_writers ms)))
    as (ws & ms' & Hr & Hws & Hlog' & _ & _ & _ & Hlen & Hq);
    [by intros b|done|apply Hinv|done|done|].
  assert (ms_quiescent ms') as Hq'.
  { apply Forall_lookup_2. intros i bw Hi. apply (Hq i bw); [|done].
    rewrite <- Hlen. by eapply lookup_lt_Some. }
  exists ws, ms'. split_and!; [done|done|congruence|done|]. intros key writes.
  destruct (settled_values write_err bDb (obj_servers o') (running h m log o') (ls ++ ws) ms' key)
    as [(i & Hi & Hdb)|[Hno Hdb]]; [done..|by eapply svc_run_app|by rewrite Hlog'|done| |].
  - left. exists i. by rewrite last_write_workers in Hi, Hdb.
  - right. split; [|done]. intros i. specialize (Hno i). by rewrite last_write_workers in Hno.
Qed.
End settle.
