(* ===== verification/Register.v ===== *)
(** One key behind one batch writer, as a register with delayed stores: the values
    accepted form a history, the database holds one of them, and what it holds only
    moves forward, whatever is flushed, lost or overridden on the way. *)
From S2P Require Import Prelude GoRuntime Slices Types Messages Config Mdbx Database BatchWriter WriterSpec WriterCorrect MultiWriter Held Handlers Servers EndToEnd Fdb System Service ServiceReads.

(** * The specification *)

(** The values a key had or was given, in order, and the one that is stored. *)
Record register := MkReg { reg_history : list (option (list byte)); reg_cursor : nat }.

Definition reg_value (r : register) : option (list byte) :=
  default None (reg_history r !! reg_cursor r).

(** A value is accepted; a later value, or the same, is stored. *)
Inductive reg_step : register → list (list byte) → register → Prop :=
  | reg_accept h c v : reg_step (MkReg h c) [v] (MkReg (h ++ [Some v]) c)
  | reg_store h c c' : c ≤ c' < length h → reg_step (MkReg h c) [] (MkReg h c').

Inductive reg_run : register → list (list byte) → register → Prop :=
  | reg_nil r : reg_run r [] r
  | reg_cons r vs r1 ws r2 : reg_step r vs r1 → reg_run r1 ws r2 → reg_run r (vs ++ ws) r2.

(** A register only gains history, and its cursor never goes back. *)
Lemma reg_run_forward r vs r' :
  reg_run r vs r' → reg_cursor r < length (reg_history r) →
  reg_history r' = reg_history r ++ (Some <$> vs) ∧
  reg_cursor r ≤ reg_cursor r' < length (reg_history r').
Proof.
  induction 1 as [r|r vs r1 ws r2 Hs _ IH]; intros Hc.
  - rewrite app_nil_r. split; [done|lia].
  - destruct Hs as [h c v|h c c' Hc']; cbn in *.
    + destruct IH as [-> ?]; [rewrite length_app; lia|]. split; [by rewrite <- app_assoc|lia].
    + destruct IH as [-> ?]; [lia|]. split; [done|lia].
Qed.

Lemma register_lookup r :
  reg_cursor r < length (reg_history r) →
  reg_history r !! reg_cursor r = Some (reg_value r).
Proof. intros [x Hx]%lookup_lt_is_Some. unfold reg_value. by rewrite Hx. Qed.

(** The next value on its way is one of the history behind the cursor. *)
Lemma sublist_cursor {A} (x : A) k c hist :
  x :: k `sublist_of` drop (S c) hist →
  ∃ c', S c ≤ c' < length hist ∧ hist !! c' = Some x ∧ k `sublist_of` drop (S c') hist.
Proof.
  intros (k1 & k2 & Hk & Hrest)%sublist_cons_l. exists (S c + length k1).
  assert (hist !! (S c + length k1) = Some x) as Hlook.
  { rewrite <- lookup_drop, Hk, lookup_app_r, Nat.sub_diag by lia. done. }
  pose proof (lookup_lt_Some _ _ _ Hlook) as Hlt. split_and!; [lia|lia|done|].
  replace (S (S c + length k1)) with (S c + (length k1 + 1)) by lia.
  by rewrite <- drop_drop, Hk, drop_app_add.
Qed.

(** * The values of a key at a writer *)

Section line.
Context `{MdbxLaws}.
Implicit Types (st : wstate) (bw : BatchWriter) (key : array32) (s : slice).

Definition line_of (key : array32) (ch : list WriteRequest) (buf : gmap array32 slice)
    : list slice :=
  option_list (buf !! key) ++ (req_Value <$> filter (λ r, req_Key r = key) ch).

(** The buffered value and the queued ones, in the order in which they were accepted. *)
Definition line (bw : BatchWriter) (key : array32) : list slice :=
  let i := Z.to_nat (worker_of (bw_workers bw) key) in
  line_of key (default [] (bw_channels bw !! i)) (default ∅ (bw_buffers bw !! i)).

Lemma line_held bw key s : s ∈ line bw key → held bw key s.
Proof.
  unfold line, line_of. set (i := Z.to_nat _). intros [Hb|Hq]%elem_of_app.
  - destruct (bw_buffers bw !! i) as [buf|] eqn:Eb; cbn in Hb;
      [|rewrite lookup_empty in Hb; by apply not_elem_of_nil in Hb].
    destruct (buf !! key) as [s'|] eqn:Ek; cbn in Hb; [|by apply not_elem_of_nil in Hb].
    apply list_elem_of_singleton in Hb as ->. by eapply held_buffer.
  - apply list_elem_of_fmap in Hq as (r & -> & [Hk Hr]%list_elem_of_filter).
    destruct (bw_channels bw !! i) as [ch|] eqn:Ec; cbn in Hr;
      [|by apply not_elem_of_nil in Hr]. by eapply held_queue.
Qed.

Lemma line_update bw i ch buf key :
  wf_bw bw → i < length (bw_channels bw) →
  line (set_buffer i buf (set_channel i ch bw)) key =
    if decide (Z.to_nat (worker_of (bw_workers bw) key) = i)
    then line_of key ch buf else line bw key.
Proof.
  intros [Hw Hc Hb _ _ _] Hi. unfold line. simpl. case_decide as Hk.
  - rewrite Hk, !list_lookup_insert_eq; [done|lia|lia].
  - by rewrite !list_lookup_insert_ne.
Qed.

Lemma line_of_dequeue key req ch buf :
  line_of key ch (<[req_Key req := req_Value req]> buf) `sublist_of` line_of key (req :: ch) buf.
Proof.
  unfold line_of. rewrite filter_cons, lookup_insert. case_decide as Hk.
  - cbn. destruct (buf !! key); cbn; [by apply sublist_cons|done].
  - done.
Qed.

Lemma line_dequeue i req ch buf bw key :
  wf_bw bw → bw_channels bw !! i = Some (req :: ch) → bw_buffers bw !! i = Some buf →
  line (set_buffer i (<[req_Key req := req_Value req]> buf) (set_channel i ch bw)) key
    `sublist_of` line bw key.
Proof.
  intros Hwf Hc Hb. rewrite line_update by (done || by eapply lookup_lt_Some).
  case_decide as Hk; [|done]. unfold line. rewrite Hk, Hc, Hb. apply line_of_dequeue.
Qed.

Lemma line_write k v bw bw' key :
  wf_bw bw → BufferWrite k v bw = Done bw' () →
  line bw' key = line bw key ++ (if decide (k = key) then [v] else []).
Proof.
  intros Hwf (ch & Hch & ->)%BufferWrite_done; [|done].
  destruct (lookup_worker (bw_buffers bw) (bw_workers bw) k) as [buf Hbuf]; [apply Hwf..|].
  set (i := Z.to_nat (worker_of (bw_workers bw) k)) in *.
  rewrite <- (set_buffer_id (set_channel i (ch ++ [MkReq k v]) bw) i buf Hbuf).
  rewrite line_update by (done || by eapply lookup_lt_Some).
  case_decide as Hi.
  - unfold line. rewrite Hi, Hch, Hbuf. cbn. unfold line_of.
    rewrite filter_app, fmap_app, app_assoc. f_equal. rewrite filter_cons. cbn.
    by case_decide.
  - case_decide as Hk; [by subst key|]. by rewrite app_nil_r.
Qed.

(** A flush removes the buffered value from the line; if it stores anything for the
    key, it is that value. *)
Definition line_stored (st : wstate) (key : array32) (st' : wstate) : Prop :=
  (line (ws_bw st') key `sublist_of` line (ws_bw st) key ∧
   db_of st' !! array_bytes key = db_of st !! array_bytes key) ∨
  ∃ s, s :: line (ws_bw st') key `sublist_of` line (ws_bw st) key ∧
    db_of st' !! array_bytes key = Some (bytes_of (ws_heap st) s).

Lemma line_stored_refl st key st' :
  line (ws_bw st') key `sublist_of` line (ws_bw st) key →
  db_of st' !! array_bytes key = db_of st !! array_bytes key → line_stored st key st'.
Proof. by left. Qed.

Lemma flush_line rng i st st' key :
  map_order rng → wf_bw (ws_bw st) → flush rng i st = Done st' () → line_stored st key st'.
Proof.
  intros Hrng Hwf Hf. destruct (bw_buffers (ws_bw st) !! i) as [buf|] eqn:Eb.
  2: { unfold flush in Hf. by rewrite Eb in Hf. }
  destruct (bw_channels (ws_bw st) !! i) as [ch|] eqn:Ec.
  2: { apply lookup_ge_None in Ec. apply lookup_lt_Some in Eb. destruct Hwf. lia. }
  destruct (flush_outcome rng i st buf Hrng Eb) as (st1 & E & _ & Hbw & Hdb).
  assert (st1 = st') as -> by congruence. clear E.
  assert (line (ws_bw st') key =
    if decide (Z.to_nat (worker_of (bw_workers (ws_bw st)) key) = i)
    then line_of key ch ∅ else line (ws_bw st) key) as Hl.
  { rewrite Hbw. rewrite <- (set_channel_id (ws_bw st) i ch Ec) at 1.
    apply line_update; [done|]. by eapply lookup_lt_Some. }
  assert (∀ s, buf !! key = Some s →
    line (ws_bw st) key = s :: line (ws_bw st') key) as Hcons.
  { intros s Hs. rewrite Hl. pose proof (wf_routed_buffer _ Hwf i buf key s Eb Hs) as Hr.
    apply routed_iff in Hr; [|apply Hwf]. rewrite decide_True by done.
    unfold line. rewrite <- Hr, Ec, Eb. unfold line_of. cbn. by rewrite Hs, lookup_empty. }
  assert (line (ws_bw st') key `sublist_of` line (ws_bw st) key) as Hsub.
  { destruct (buf !! key) as [s|] eqn:Hs; [rewrite (Hcons s) by done; by apply sublist_cons|].
    rewrite Hl. case_decide as Hk; [|done]. unfold line. rewrite Hk, Ec, Eb.
    unfold line_of. cbn. by rewrite Hs, lookup_empty. }
  destruct Hdb as [(_ & Hdb & _)|(e & _ & Hdb)]; [|left; by rewrite Hdb].
  destruct (buf !! key) as [s|] eqn:Hs.
  - right. exists s. rewrite (Hcons s) by done. split; [done|]. by rewrite Hdb, Hs.
  - left. by rewrite Hdb, Hs.
Qed.

Lemma line_ext bw bw' key :
  bw_workers bw' = bw_workers bw → bw_channels bw' = bw_channels bw →
  bw_buffers bw' = bw_buffers bw → line bw' key = line bw key.
Proof. intros Hw Hc Hb. unfold line. by rewrite Hw, Hc, Hb. Qed.

Lemma worker_line rng i st st' key :
  map_order rng → wf_bw (ws_bw st) → worker_step rng i st st' → line_stored st key st'.
Proof.
  intros Hrng Hwf Hs. revert Hwf.
  destruct Hs as [st _ _|st req ch buf _ Hc Hb _|st req ch buf st' _ Hc Hb _ Hf
    |st st' _ Hf|st st' _ _ Hf]; intros Hwf.
  - by apply line_stored_refl.
  - apply line_stored_refl; [by apply line_dequeue|done].
  - pose proof (line_dequeue i req ch buf (ws_bw st) key Hwf Hc Hb) as Hd.
    destruct (flush_line rng i (dequeue i req ch buf st) st' key Hrng (wf_dequeue _ _ _ _ _ Hwf Hc Hb) Hf)
      as [[Hl Hv]|(s & Hl & Hv)].
    + left. split; [by etrans|done].
    + right. exists s. split; [by etrans|done].
  - by eapply flush_line.
  - exact (flush_line rng i st st' key Hrng Hwf Hf).
Qed.

(** A step of the writer, seen from the line of a key. *)
Lemma wstep_line st l st' key :
  wf_bw (ws_bw st) → wstep st l st' →
  (¬ writes_key key l ∧ line_stored st key st') ∨
  ∃ s, l = LWrite key (bytes_of (ws_heap st) s) ∧
    line (ws_bw st') key = line (ws_bw st) key ++ [s] ∧
    db_of st' !! array_bytes key = db_of st !! array_bytes key.
Proof.
  intros Hwf Hs. pose proof (wstep_db _ _ _ Hs) as Hdb. revert Hwf Hdb.
  destruct Hs as [st k v bw' Hw|st bw' Hs|st rng i c st' Hrng Hr%runWorker_step|st h'];
    intros Hwf Hdb.
  - pose proof (line_write k v _ bw' key Hwf Hw) as Hl. cbn in Hdb. unfold line_stored, db_of.
    cbn. rewrite Hdb. destruct (decide (k = key)) as [->|Hk].
    + right. by exists v.
    + left. split; [by intros [v' [= -> _]]|]. rewrite app_nil_r in Hl. left. by rewrite Hl.
  - left. split; [by intros []|]. unfold FlushAndStop in Hs.
    destruct (bw_stopped _); [done|]. injection Hs as <-. by apply line_stored_refl.
  - left. split; [by intros []|]. by eapply worker_line.
  - left. split; [by intros []|]. by apply line_stored_refl.
Qed.
End line.

(** * The simulation *)

Section register.
Context `{MdbxLaws} `{TlsEnv} `{Host}.
Context (write_err : list event → option error).
Implicit Types (ms : mstate) (r : register).

(** The values a label of a writer gives to a key. *)
Definition value_written (key : array32) (l : nat * wlabel) : list (list byte) :=
  match l.2 with
  | LWrite k v => if decide (k = key) then [v] else []
  | _ => []
  end.

(** The state of the service is that of the register of a key that only the [i]-th
    writer holds: what is stored is its value, what is held are later values of its
    history, in their order. *)
Record registers (d : Db) (i : nat) (key : array32) ms r : Prop := {
  rg_db : ms_db d ms !! array_bytes key = reg_value r;
  rg_cursor : reg_cursor r < length (reg_history r);
  rg_line bw : ms_writers ms !! i = Some bw →
    (λ s, Some (bytes_of (ms_heap ms) s)) <$> line bw key
      `sublist_of` drop (S (reg_cursor r)) (reg_history r);
  rg_alone j bw s : j ≠ i → ms_writers ms !! j = Some bw → ¬ held bw key s;
}.

Lemma refreshed_registers d i key ms h m r :
  heap_keeps ms h → db_view m d = ms_db d ms → registers d i key ms r →
  registers d i key (refreshed h m ms) r.
Proof.
  intros Hk Hd [Hdb Hc Hl Ha]. split; [|done| |done].
  - unfold ms_db. cbn [refreshed ms_mdbx]. by rewrite Hd.
  - intros bw Hi. cbn [refreshed ms_heap ms_writers] in *.
    replace ((λ s, Some (bytes_of h s)) <$> line bw key)
      with ((λ s, Some (bytes_of (ms_heap ms) s)) <$> line bw key); [by apply Hl|].
    apply list_fmap_ext. intros n s Hs. f_equal. symmetry.
    apply list_elem_of_lookup_2, line_held in Hs. by eapply Hk.
Qed.

(** A step of another writer. *)
Lemma other_registers d i j key ms l ms' r :
  ms_wf d ms → mstep ms (j, l) ms' → l ≠ LHeap → j ≠ i → ¬ writes_key key l →
  registers d i key ms r → registers d i key ms' r.
Proof.
  intros Hwf Hs Hl Hji Hw [Hdb Hc Hln Ha]. inversion Hs as [? ? bwj ? st' Hj Hst]; subst.
  destruct (ms_wf_lookup d ms j bwj Hwf Hj) as [_ Hd].
  assert (ws_heap st' = ms_heap ms) as Hh by by destruct (wstep_heap _ _ _ Hst).
  split; [|done| |].
  - rewrite <- Hdb. destruct (wstep_stored _ _ _ key Hst) as [E|(s & Hheld & _)];
      [|by destruct (Ha j bwj s)].
    unfold db_of in E. rewrite (wstep_db _ _ _ Hst) in E. cbn in E. by rewrite Hd in E.
  - intros bw Hi. cbn [unfocus ms_heap]. rewrite Hh. apply Hln.
    apply unfocus_lookup in Hi as [[-> _]|[_ Hi]]; [done|done].
  - intros k bw s Hk [[-> ->]|[_ Hbw]]%unfocus_lookup; [|by eapply Ha].
    intros [Hheld| ->]%(wstep_held _ _ _ _ _ Hst); [by destruct (Ha j bwj s)|].
    apply Hw. by eexists.
Qed.

(** A step of the writer itself. *)
Lemma own_registers d i key ms l ms' r :
  ms_wf d ms → mstep ms (i, l) ms' → l ≠ LHeap → registers d i key ms r →
  ∃ r', reg_step r (value_written key (i, l)) r' ∧ registers d i key ms' r'.
Proof.
  intros Hwf Hs Hl [Hdb Hc Hln Ha]. inversion Hs as [? ? bw ? st' Hi Hst]; subst.
  destruct (ms_wf_lookup d ms i bw Hwf Hi) as [Hbw Hd]. specialize (Hln bw Hi).
  assert (ws_heap st' = ms_heap ms) as Hh by by destruct (wstep_heap _ _ _ Hst).
  assert (∀ j b s, j ≠ i → ms_writers (unfocus i st' ms) !! j = Some b → ¬ held b key s) as Ha'.
  { intros j b s Hj [[-> _]|[_ Hb]]%unfocus_lookup; [done|by eapply Ha]. }
  assert (∀ b, ms_writers (unfocus i st' ms) !! i = Some b → b = ws_bw st') as Hi'.
  { intros b [[_ ->]|[? _]]%unfocus_lookup; done. }
  assert (ms_db d (unfocus i st' ms) = db_of st') as Hdb'.
  { unfold db_of, ms_db. rewrite (wstep_db _ _ _ Hst). cbn. by rewrite Hd. }
  assert (ms_db d ms = db_of (focus bw ms)) as Hdb0 by (unfold db_of; cbn; by rewrite Hd).
  destruct r as [hist c]. cbn [reg_history reg_cursor] in *.
  destruct (wstep_line (focus bw ms) l st' key Hbw Hst) as [[Hw Hls]|(s & -> & Hline & Hsame)].
  - replace (value_written key (i, l)) with (@nil (list byte)).
    2: { unfold value_written. cbn. destruct l; try done. rewrite decide_False; [done|].
         intros ->. apply Hw. by eexists. }
    destruct Hls as [[Hsub Hsame]|(s & Hsub & Hval)].
    + exists (MkReg hist c). split; [by constructor|]. split; [|done| |done].
      * by rewrite Hdb', Hsame, <- Hdb0.
      * intros b ->%Hi'. cbn [unfocus ms_heap]. rewrite Hh.
        etrans; [exact (fmap_sublist _ _ _ Hsub)|exact Hln].
    + assert (Some (bytes_of (ms_heap ms) s) ::
        ((λ s, Some (bytes_of (ms_heap ms) s)) <$> line (ws_bw st') key)
        `sublist_of` drop (S c) hist) as Hk.
      { etrans; [exact (fmap_sublist (λ s, Some (bytes_of (ms_heap ms) s)) _ _ Hsub)|exact Hln]. }
      apply sublist_cursor in Hk as (c' & Hc' & Hlook & Hrest).
      exists (MkReg hist c'). split; [constructor; lia|].
      split; [|cbn; lia| |done].
      * rewrite Hdb', Hval. unfold reg_value. cbn [reg_history reg_cursor]. by rewrite Hlook.
      * intros b ->%Hi'. cbn [unfocus ms_heap reg_history reg_cursor]. by rewrite Hh.
  - exists (MkReg (hist ++ [Some (bytes_of (ms_heap ms) s)]) c). split.
    + unfold value_written. cbn. rewrite decide_True by done. constructor.
    + split; [| | |done]; cbn [reg_history reg_cursor].
      * rewrite Hdb', Hsame, <- Hdb0, Hdb. unfold reg_value. cbn [reg_history reg_cursor].
        by rewrite lookup_app_l.
      * rewrite length_app. lia.
      * intros b ->%Hi'. cbn [unfocus ms_heap]. rewrite Hh, Hline, fmap_app.
        rewrite drop_app_le by lia. by apply sublist_app.
Qed.

(** A step of the service. *)
Definition single_writer (i : nat) (key : array32) (writes : list (nat * wlabel)) : Prop :=
  Forall (λ l, writes_key key l.2 → l.1 = i) writes.

Lemma value_written_none key l : ¬ writes_key key l.2 → value_written key l = [].
Proof.
  intros Hl. unfold value_written. destruct l as [j [k v| | |]]; try done. cbn in *.
  rewrite decide_False; [done|]. intros ->. apply Hl. by eexists.
Qed.

Lemma svc_step_registers d servers i key ms l ms' r :
  svc_inv d ms → svc_step write_err d servers ms l ms' →
  single_writer i key (svc_writes servers l) → registers d i key ms r →
  ∃ r', reg_run r (svc_writes servers l ≫= value_written key) r' ∧ registers d i key ms' r'.
Proof.
  intros Hinv Hs Hone Hr. destruct (svc_step_split _ _ _ _ _ _ Hinv Hs) as [Hsp _].
  destruct Hsp as [h m -> Hk Hd ->|h m j wl Hwr Hk Hd Hl Hm].
  { exists r. split; [constructor|by apply refreshed_registers]. }
  rewrite Hwr in *. apply (refreshed_registers _ _ _ _ h m) in Hr; [|done..].
  pose proof (si_wf _ _ (refreshed_inv d ms h m Hinv Hk)) as Hwf.
  apply Forall_cons in Hone as [Hone _]. cbn [mbind list_bind]. destruct (decide (j = i)) as [->|Hj].
  - destruct (own_registers d i key _ wl ms' r Hwf Hm Hl Hr) as (r' & Hstep & Hr').
    exists r'. split; [|done]. econstructor; [exact Hstep|constructor].
  - assert (¬ writes_key key wl) as Hw by by intros Hw; apply Hj, Hone.
    exists r. rewrite value_written_none by done. split; [constructor|].
    by eapply other_registers.
Qed.

Lemma reg_run_app r vs r1 ws r2 :
  reg_run r vs r1 → reg_run r1 ws r2 → reg_run r (vs ++ ws) r2.
Proof.
  induction 1 as [|r vs r1 us r' Hs _ IH]; [done|].
  intros Hr. rewrite <- app_assoc. econstructor; [exact Hs|by apply IH].
Qed.

(** The values a run gives to a key. *)
Definition values_of (servers : list server) (key : array32) (ls : list svc_label)
    : list (list byte) :=
  (ls ≫= svc_writes servers) ≫= value_written key.

Lemma svc_run_registers d servers i key ms ls ms' r :
  svc_inv d ms → svc_run write_err d servers ms ls ms' →
  single_writer i key (ls ≫= svc_writes servers) → registers d i key ms r →
  ∃ r', reg_run r (values_of servers key ls) r' ∧ registers d i key ms' r'.
Proof.
  intros Hinv Hrun. revert r. induction Hrun as [ms|ms l ms1 ls ms2 Hs _ IH]; intros r Hone Hr.
  { exists r. split; [constructor|done]. }
  unfold values_of. cbn [mbind list_bind] in Hone |- *.
  apply Forall_app in Hone as [Hone1 Hone2].
  destruct (svc_step_registers _ _ _ _ _ _ _ _ Hinv Hs Hone1 Hr) as (r1 & Hr1 & Hreg1).
  destruct (IH ltac:(by eapply svc_step_inv) r1 Hone2 Hreg1) as (r2 & Hr2 & Hreg2).
  exists r2. split; [|done]. rewrite bind_app. by eapply reg_run_app.
Qed.

(** The register of a key at the start. *)
Definition fresh_register (m : mdbx_state) (d : Db) (key : array32) : register :=
  MkReg [db_view m d !! array_bytes key] 0.

Lemma quiescent_registers d i key ms :
  ms_quiescent ms → registers d i key ms (fresh_register (ms_mdbx ms) d key).
Proof.
  intros Hq. assert (∀ j bw s, ms_writers ms !! j = Some bw → ¬ held bw key s) as Hno.
  { intros j bw s Hj. apply quiescent_held. by apply (Forall_lookup_1 _ _ _ _ Hq) in Hj. }
  split; [done|cbn; lia| |by eauto]. intros bw Hi.
  replace (line bw key) with (@nil slice); [apply sublist_nil_l|].
  symmetry. apply elem_of_nil_inv. intros s Hs%line_held. by eapply Hno.
Qed.

(** C4: A key that one transport writes is a register with delayed stores. Start the
    service and let bytes arrive and workers run in any interleaving, in which the
    writes of the key that are accepted all go to one batch writer; flushes may fail,
    writers may be stopped, and memory may change, provided that the memory of the
    values that the batch writers still hold is left alone (a transport that uses a
    frame buffer again breaks this). The database then holds for the key what the
    register holds: the value from before the start or one of those accepted, and each
    step that changes it moves on to a value that was accepted later. *)
Theorem key_refines_register (fdb : FDB) (bDb : Db) (ts : list TransportType)
    (g g' : list task) (o o' : objects) (h : heap) (m : mdbx_state) (log : list error)
    (ls : list svc_label) (ms : mstate) (i : nat) (key : array32) :
  launch fdb bDb ts g o = Done o' (g', None) → obj_writers o = [] →
  svc_run write_err bDb (obj_servers o') (running h m log o') ls ms →
  single_writer i key (ls ≫= svc_writes (obj_servers o')) →
  ∃ r, reg_run (fresh_register m bDb key) (values_of (obj_servers o') key ls) r ∧
    ms_db bDb ms !! array_bytes key = reg_value r.
Proof.
  intros Hl Ho Hrun Hone.
  destruct (launched_writers _ _ _ _ _ _ _ h m log Hl Ho) as (_ & Hwf & Hq).
  destruct (svc_run_registers _ _ _ _ _ _ _ _ (quiescent_inv _ _ Hwf Hq) Hrun Hone
    (quiescent_registers _ _ _ _ Hq)) as (r & Hr & Hreg).
  exists r. split; [exact Hr|apply Hreg].
Qed.

(** C5: Reads never go back. Start the service and let bytes arrive and workers run in any
    interleaving, in which the writes of the key that are accepted all go to one batch
    writer, and changes of memory leave alone the values that the batch writers still
    hold (a transport that uses a frame buffer again breaks this). Take two points of
    such a run, one after the other. What the database holds at them are the value from
    before the start or accepted values of the key, the second one not older than the
    first and the first accepted before the first point; and at each of the two points every read of the key over TCP, UDP or a
    Unix socket, on whichever transport, is answered once, with that value, unless the
    lookup fails. *)
Theorem reads_never_go_back (fdb : FDB) (bDb : Db) (ts : list TransportType)
    (g g' : list task) (o o' : objects) (h : heap) (m : mdbx_state) (log : list error)
    (ls1 ls2 : list svc_label) (ms1 ms2 : mstate) (i : nat) (key : array32) :
  launch fdb bDb ts g o = Done o' (g', None) → obj_writers o = [] →
  svc_run write_err bDb (obj_servers o') (running h m log o') ls1 ms1 →
  svc_run write_err bDb (obj_servers o') ms1 ls2 ms2 →
  single_writer i key ((ls1 ++ ls2) ≫= svc_writes (obj_servers o')) →
  let vs1 := values_of (obj_servers o') key ls1 in
  let vs2 := values_of (obj_servers o') key ls2 in
  let hist := (db_view m bDb !! array_bytes key) :: (Some <$> vs1 ++ vs2) in
  ∃ c1 c2 v1 v2, c1 ≤ c2 ∧ c1 ≤ length vs1 ∧ hist !! c1 = Some v1 ∧ hist !! c2 = Some v2 ∧
    ms_db bDb ms1 !! array_bytes key = v1 ∧ reads_give write_err bDb key ms1 v1 ∧
    ms_db bDb ms2 !! array_bytes key = v2 ∧ reads_give write_err bDb key ms2 v2.
Proof.
  intros Hl Ho Hrun1 Hrun2 Hone vs1 vs2 hist.
  destruct (launched_writers _ _ _ _ _ _ _ h m log Hl Ho) as (_ & Hwf & Hq).
  pose proof (quiescent_inv _ _ Hwf Hq) as Hinv.
  unfold single_writer in Hone. rewrite bind_app in Hone.
  apply Forall_app in Hone as [Hone1 Hone2].
  destruct (svc_run_registers _ _ _ _ _ _ _ _ Hinv Hrun1 Hone1
    (quiescent_registers _ _ _ _ Hq)) as (r1 & Hr1 & Hreg1).
  destruct (svc_run_registers _ _ _ _ _ _ _ _ (svc_run_inv _ _ _ _ _ _ Hinv Hrun1) Hrun2
    Hone2 Hreg1) as (r2 & Hr2 & Hreg2).
  apply reg_run_forward in Hr1 as [Hh1 Hc1]; [|cbn; lia].
  apply reg_run_forward in Hr2 as [Hh2 Hc2]; [|lia].
  change (running h m log o').(ms_mdbx) with m in Hh1. fold vs1 in Hh1. fold vs2 in Hh2.
  assert (reg_history r2 = hist) as Hhist.
  { rewrite Hh2, Hh1. unfold hist, fresh_register. cbn. by rewrite fmap_app. }
  assert (reg_history r1 `prefix_of` hist) as Hpre by (rewrite <- Hhist, Hh2; by eexists).
  exists (reg_cursor r1), (reg_cursor r2), (reg_value r1), (reg_value r2).
  rewrite <- !(rg_db _ _ _ _ _ Hreg1), <- !(rg_db _ _ _ _ _ Hreg2).
  split_and!; [lia| | | |done|apply reads_give_stored|done|apply reads_give_stored].
  - rewrite Hh1, length_app, length_fmap in Hc1. cbn in Hc1. lia.
  - apply (prefix_lookup_Some _ _ _ _ (register_lookup _ (proj2 Hc1))) in Hpre.
    by rewrite Hpre, <- (rg_db _ _ _ _ _ Hreg1).
  - rewrite <- Hhist, (register_lookup _ (proj2 Hc2)). by rewrite <- (rg_db _ _ _ _ _ Hreg2).
Qed.
End register.
