(* ===== verification/Crash.v ===== *)
(** A process that dies: what the database lacks at any moment of the service. *)
From S2P Require Import Prelude GoRuntime Slices Types Messages Config Mdbx Database BatchWriter WriterSpec WriterCorrect MultiWriter Held Handlers Servers Fdb System Service ServiceReads.

(** * The keys a writer holds *)

Section bounds.
Context `{MdbxLaws}.
Implicit Types (st : wstate) (bw : BatchWriter) (key : array32).

(** The keys in the queues and buffers. *)
Definition bw_keys bw : list array32 :=
  (bw_channels bw ≫= λ ch, req_Key <$> ch) ++ (bw_buffers bw ≫= λ b, (map_to_list b).*1).

Lemma pending_in_keys bw key : is_Some (pending bw key) → key ∈ bw_keys bw.
Proof.
  intros [s Hs%pending_held]. unfold bw_keys. rewrite elem_of_app.
  destruct Hs as [i ch req Hi Hr Hk _|i buf Hi Hb].
  - left. apply list_elem_of_bind. exists ch. split; [|by eapply list_elem_of_lookup_2].
    apply list_elem_of_fmap. by exists req.
  - right. apply list_elem_of_bind. exists buf. split; [|by eapply list_elem_of_lookup_2].
    apply list_elem_of_fmap. exists (key, s). split; [done|]. by apply elem_of_map_to_list.
Qed.

(** No queue is over its capacity, no buffer has a batch; the sizes are those given. *)
Record bounded (workers max : Z) bw : Prop := {
  bd_workers : bw_workers bw = workers;
  bd_max : bw_maxBatchSize bw = max;
  bd_channels : Forall (λ ch, Z.of_nat (length ch) ≤ channel_capacity)%Z (bw_channels bw);
  bd_buffers : buffers_bounded bw;
}.

Lemma keys_bounded workers max bw :
  wf_bw bw → bounded workers max bw →
  (Z.of_nat (length (bw_keys bw)) ≤ workers * (channel_capacity + (max - 1)))%Z.
Proof.
  intros [_ Hc Hb _ _ _] [<- <- Hch [_ Hbuf]]. unfold bw_keys. rewrite length_app.
  assert (Z.of_nat (length (bw_channels bw ≫= λ ch, req_Key <$> ch))
    ≤ channel_capacity * Z.of_nat (length (bw_channels bw)))%Z as H1.
  { apply length_bind_le. eapply Forall_impl; [exact Hch|]. intros ch. by rewrite length_fmap. }
  assert (Z.of_nat (length (bw_buffers bw ≫= λ b, (map_to_list b).*1))
    ≤ (bw_maxBatchSize bw - 1) * Z.of_nat (length (bw_buffers bw)))%Z as H2.
  { apply length_bind_le. eapply Forall_impl; [exact Hbuf|]. intros b.
    rewrite length_fmap, length_map_to_list. lia. }
  rewrite Hc in H1. rewrite Hb in H2. lia.
Qed.

Lemma worker_step_channels rng i st st' :
  worker_step rng i st st' →
  Forall (λ ch, Z.of_nat (length ch) ≤ channel_capacity)%Z (bw_channels (ws_bw st)) →
  Forall (λ ch, Z.of_nat (length ch) ≤ channel_capacity)%Z (bw_channels (ws_bw st')) ∧
  bw_workers (ws_bw st') = bw_workers (ws_bw st) ∧
  bw_maxBatchSize (ws_bw st') = bw_maxBatchSize (ws_bw st).
Proof.
  assert (∀ req ch buf st1, bw_channels (ws_bw st1) !! i = Some (req :: ch) →
    Forall (λ ch, Z.of_nat (length ch) ≤ channel_capacity)%Z (bw_channels (ws_bw st1)) →
    Forall (λ ch, Z.of_nat (length ch) ≤ channel_capacity)%Z
      (bw_channels (ws_bw (dequeue i req ch buf st1)))) as Hde.
  { intros req ch buf st1 Hi Hch. simpl. apply Forall_insert; [done|].
    apply (Forall_lookup_1 _ _ _ _ Hch) in Hi. simpl in Hi. lia. }
  destruct 1 as [st|st req ch buf _ Hi|st req ch buf st' _ Hi _ _ Hf|st st' _ Hf|st st' _ _ Hf];
    intros Hch; [done|split; [by eapply Hde|done]|..];
    apply flush_frame in Hf as (_ & Hbw & _); simpl; rewrite Hbw; simpl; [|done..].
  split; [|done]. by apply (Hde req ch buf st).
Qed.

Lemma wstep_bounds workers max st l st' :
  wf_bw (ws_bw st) → wstep st l st' → bounded workers max (ws_bw st) →
  bounded workers max (ws_bw st').
Proof.
  intros Hwf Hs [Hw Hm Hch Hb]. pose proof (wstep_bounded _ _ _ Hs Hb) as Hb'.
  destruct Hs as [st key v bw' E|st bw' E|st rng i c st' _ Hr%runWorker_step|st h'].
  - unfold BufferWrite in E. repeat case_match; simplify_eq. split; try done. simpl.
    apply Forall_insert; [done|]. rewrite length_app. simpl. lia.
  - unfold FlushAndStop in E. case_match; simplify_eq. by split.
  - apply worker_step_channels in Hr as (? & ? & ?); [|done]. split; [congruence..|done|done].
  - by split.
Qed.
End bounds.

(** * The service *)

Section crash.
Context `{MdbxLaws} `{TlsEnv} `{Host}.
Context (write_err : list event → option error).
Implicit Types (ms : mstate).

(** Some transport has accepted a write of the key that is not in the database yet. *)
Definition unflushed ms (key : array32) : Prop :=
  ∃ i bw, ms_writers ms !! i = Some bw ∧ is_Some (pending bw key).

Definition ms_bounded (workers max : Z) ms : Prop := Forall (bounded workers max) (ms_writers ms).

Lemma svc_step_bounded d servers workers max ms l ms' :
  svc_inv d ms → svc_step write_err d servers ms l ms' →
  ms_bounded workers max ms → ms_bounded workers max ms'.
Proof.
  intros Hinv Hs Hb. destruct (svc_step_split _ _ _ _ _ _ Hinv Hs) as [Hsp _].
  destruct Hsp as [h m _ _ _ ->|h m i wl _ _ _ _ Hm]; [done|].
  inversion Hm as [? ? bw ? st' Hi Hw]; subst. unfold ms_bounded. simpl.
  apply Forall_insert; [done|]. eapply (wstep_bounds _ _ (focus bw _)); [|exact Hw|].
  - by apply (ms_wf_lookup d ms i bw (si_wf _ _ Hinv)).
  - by apply (Forall_lookup_1 _ _ _ _ Hb Hi).
Qed.

Lemma svc_run_bounded d servers workers max ms ls ms' :
  svc_inv d ms → svc_run write_err d servers ms ls ms' →
  ms_bounded workers max ms → ms_bounded workers max ms'.
Proof.
  intros Hinv Hrun. induction Hrun as [ms|ms l ms1 ls ms2 Hs _ IH]; intros Hb; [done|].
  apply IH; [by eapply svc_step_inv|by eapply svc_step_bounded].
Qed.

Lemma launched_bounded fdb d ts g g' o o' h m log :
  launch fdb d ts g o = Done o' (g', None) → obj_writers o = [] →
  ms_bounded 15 512 (running h m log o').
Proof.
  intros (_ & _ & _ & (bws & Hws & _ & Hf) & _)%launch_spec Ho.
  unfold ms_bounded, running. cbn. rewrite Hws, Ho. eapply Forall_impl; [exact Hf|].
  intros bw (_ & _ & [Hc Hb] & _ & Hw & Hm & _). split; [done|done| |].
  - eapply Forall_impl; [exact Hc|]. by intros ch ->.
  - split; [by rewrite Hm|]. eapply Forall_impl; [exact Hb|]. intros b ->.
    by rewrite map_size_empty, Hm.
Qed.

Lemma quiescent_flushed ms key : ms_quiescent ms → ¬ unflushed ms key.
Proof.
  intros Hq (i & bw & Hi & Hp). rewrite (ms_quiescent_pending ms i bw key Hq Hi) in Hp.
  by apply is_Some_None in Hp.
Qed.

(** The keys that are not flushed, counted over all writers. *)
Lemma unflushed_bounded d workers max ms keys :
  ms_wf d ms → ms_bounded workers max ms → NoDup keys → Forall (unflushed ms) keys →
  (Z.of_nat (length keys)
   ≤ workers * (channel_capacity + (max - 1)) * Z.of_nat (length (ms_writers ms)))%Z.
Proof.
  intros Hwf Hb Hnd Hk.
  assert (Z.of_nat (length (ms_writers ms ≫= bw_keys))
    ≤ workers * (channel_capacity + (max - 1)) * Z.of_nat (length (ms_writers ms)))%Z as Hle.
  { apply length_bind_le, Forall_lookup_2. intros i bw Hi. apply keys_bounded.
    - by apply (ms_wf_lookup d ms i bw).
    - by apply (Forall_lookup_1 _ _ _ _ Hb Hi). }
  assert (keys ⊆+ ms_writers ms ≫= bw_keys) as Hsub.
  { apply NoDup_submseteq; [done|]. intros key Hin.
    destruct (proj1 (Forall_forall _ _) Hk key Hin) as (i & bw & Hi & Hp).
    apply list_elem_of_bind. exists bw. split; [by apply pending_in_keys|].
    by eapply list_elem_of_lookup_2. }
  apply submseteq_length in Hsub. lia.
Qed.

End crash.
