(* ===== verification/Client.v ===== *)
(** The client library of [client/]: the transports of a client by name, its dispatch
    of incoming data, and how that dispatch reads the server's answers. The TCP
    transport is in ClientTcp. *)
From S2P Require Import Prelude GoRuntime Slices Types Messages Config Mdbx Database BatchWriter WriterSpec Handlers Servers.

(** * The client *)

Section client.
(** A transport: what its [Connect], [Send] and [Close] do to a state [St]. *)
Context {St : Type}.

Record Transport := MkClientTransport {
  tr_Connect : Go St (option error);
  tr_Send : list byte → Go St (option error);
  tr_Close : Go St (option error);
}.

Definition Client : Type := gmap string Transport.

(** [NewConfig()] and [NewClient(ctx, cfg)], which takes over the map. *)
Definition NewConfig : gmap string Transport := ∅.
Definition NewClient (cfg : gmap string Transport) : Client := cfg.

(** [c.RegisterTransport(name, transport)] *)
Definition RegisterTransport (name : string) (t : Transport) (c : gmap string Transport)
    : gmap string Transport * option error :=
  match c !! name with
  | Some _ => (c, Some (Errorf "transport %s already registered" [AStr name]))
  | None => (<[name := t]> c, None)
  end.

Definition GetTransport (name : string) (c : gmap string Transport) : res Transport :=
  match c !! name with
  | None => Err (Errorf "transport not found" [])
  | Some t => Ok t
  end.

Definition SendMessage (name : string) (data : list byte) (c : gmap string Transport)
    : Go St (option error) :=
  match GetTransport name c with
  | Err e => mret (Some e)
  | Ok t => tr_Send t data
  end.

(** The loops of [Start] and [Close], over the transports in the order [ts] in
    which Go visits the map: they end at the first error. *)
Fixpoint until_error (op : Transport → Go St (option error)) (ts : list Transport)
    : Go St (option error) :=
  match ts with
  | [] => mret None
  | t :: ts =>
      err ← op t;
      match err with
      | Some e => mret (Some e)
      | None => until_error op ts
      end
  end.

Definition Client_Start (order : gmap string Transport → list Transport)
    (c : gmap string Transport) : Go St (option error) := until_error tr_Connect (order c).
Definition Client_Close (order : gmap string Transport → list Transport)
    (c : gmap string Transport) : Go St (option error) := until_error tr_Close (order c).
End client.

(** * The TCP transport *)

Definition InvalidActionMessageType : byte := x69.
Definition WriteSuccessMessageType : byte := x00.

Section tcp.
Context {St : Type}.

(** A [HandlerFunc]: it gets the data behind the type byte. *)
Definition HandlerFunc : Type := list byte → Go St (option error).

Definition TCPTransport_RegisterHandler (messageType : byte) (handler : HandlerFunc)
    (handlers : gmap byte HandlerFunc) : gmap byte HandlerFunc :=
  <[messageType := handler]> handlers.

(** [OnTraffic(c)] of the client, on the bytes or the error of [c.Next(-1)]: an
    error of a handler is logged only. *)
Definition Client_OnTraffic (handlers : gmap byte HandlerFunc) (next : res (list byte))
    : Go St action :=
  match next with
  | Err _ => mret ActClose
  | Ok [] => mret ActNone
  | Ok (b :: data) =>
      match handlers !! b with
      | Some handler => handler data;; mret ActNone
      | None => mret ActNone
      end
  end.

(** The registry of [handlers.go]: one handler, which only logs. *)
Definition messageRegistry : gmap byte HandlerFunc :=
  {[ InvalidActionMessageType := λ _, mret None ]}.
End tcp.

(** * Properties *)

(** The handler the client picks for an answer of the server, if any. *)
Definition dispatch_type (answer : list byte) : option byte := head answer.

Section props.
Context {St : Type}.

(** [Start] connects the transports in order up to the first failure: it returns
    nil exactly when every transport connected, and the transports behind the
    first failing one are not touched. *)
Theorem client_start_stops_at_error (ts1 ts2 : list (@Transport St)) (t : Transport)
    (s s1 s2 : St) (e : error) :
  until_error tr_Connect ts1 s = Done s1 None → tr_Connect t s1 = Done s2 (Some e) →
  until_error tr_Connect (ts1 ++ t :: ts2) s = Done s2 (Some e).
Proof.
  intros H1 H2. revert s H1. induction ts1 as [|t1 ts1 IH]; intros s; simpl.
  - intros [= ->]. by erewrite go_bind_done by exact H2.
  - destruct (tr_Connect t1 s) as [s' [e'|]| |] eqn:E; unfold mbind, go_bind; rewrite E;
      [done| |done..]. apply IH.
Qed.

(** The client dispatches on the first byte of what it reads: it runs the handler
    registered for it on the rest, drops data without handler, and closes the
    connection only when reading fails. *)
Theorem client_dispatch (handlers : gmap byte (@HandlerFunc St)) (b t : byte)
    (h : HandlerFunc) (data : list byte) (s : St) :
  Client_OnTraffic (TCPTransport_RegisterHandler t h handlers) (Ok (b :: data)) s =
    if decide (b = t) then (h data;; mret ActNone) s
    else Client_OnTraffic handlers (Ok (b :: data)) s.
Proof.
  unfold Client_OnTraffic, TCPTransport_RegisterHandler.
  rewrite lookup_insert. by do 2 case_decide.
Qed.
End props.

(** The client's message types do not separate the server's answers: the texts for a
    bad frame start with 'E', not with the [InvalidActionMessageType] 'i', and the
    answer to a read of a value written over TCP (its four length bytes and its
    data, of less than 16 MiB) is dispatched as [WriteSuccessMessageType], as is the
    acknowledgement of a write. *)
Theorem client_types_mismatch_answers (d : list byte) :
  (Z.of_nat (length d) < 2 ^ 24)%Z →
  dispatch_type (ascii "ERROR: Invalid action") ≠ Some InvalidActionMessageType ∧
  dispatch_type (ascii "ERROR: Unknown action") ≠ Some InvalidActionMessageType ∧
  dispatch_type (be32 (Z.of_nat (length d)) ++ d) = Some WriteSuccessMessageType ∧
  dispatch_type [x00] = Some WriteSuccessMessageType.
Proof.
  intros Hd. split_and!; [done|done| |done]. unfold dispatch_type, be32. simpl. f_equal.
  rewrite Z.shiftr_div_pow2, Z.div_small by lia. done.
Qed.
