(* ===== verification/ClientTcp.v ===== *)
(** The TCP transport of [client/tcp.go]: its fields [client] and [conn], which
    [Connect], [Close] and the callbacks of the event loop write without a common
    lock, and the connections [Send] picks. *)
From S2P Require Import Prelude GoRuntime Slices Types Messages Config Mdbx Database BatchWriter WriterSpec Handlers Servers Client.

(** * State *)

(** A connection: dialled, opened by the event loop, closed by it. *)
Inductive conn_state := ConnNew | ConnOpen | ConnClosed.

#[export] Instance conn_state_eq_dec : EqDecision conn_state.
Proof. solve_decision. Defined.

(** The transport. Clients of gnet, connections and contexts are numbered in the order
    they are made; [tt_ctxs] tells which contexts were cancelled. *)
Record tcp_transport := MkTcpTransport {
  tt_client : option nat;
  tt_conn : option nat;
  tt_clients : nat;
  tt_conns : list conn_state;
  tt_ctxs : list bool;
}.

Definition NewTCPTransport : tcp_transport := MkTcpTransport None None 0 [] [].

(** [t.ctx, t.cancel = context.WithCancel(ctx)] *)
Definition with_cancel : Go tcp_transport () := λ t,
  Done (MkTcpTransport (tt_client t) (tt_conn t) (tt_clients t) (tt_conns t)
          (tt_ctxs t ++ [false])) ().

(** [t.client = client] for a client just made. *)
Definition store_client : Go tcp_transport () := λ t,
  Done (MkTcpTransport (Some (tt_clients t)) (tt_conn t) (S (tt_clients t)) (tt_conns t)
          (tt_ctxs t)) ().

(** A connection comes up: [Dial] returns it. *)
Definition dialled : Go tcp_transport nat := λ t,
  Done (MkTcpTransport (tt_client t) (tt_conn t) (tt_clients t) (tt_conns t ++ [ConnNew])
          (tt_ctxs t)) (length (tt_conns t)).

(** [t.conn = c] *)
Definition store_conn (c : option nat) : Go tcp_transport () := λ t,
  Done (MkTcpTransport (tt_client t) c (tt_clients t) (tt_conns t) (tt_ctxs t)) ().

Definition set_conn_state (c : nat) (x : conn_state) : Go tcp_transport () := λ t,
  Done (MkTcpTransport (tt_client t) (tt_conn t) (tt_clients t) (<[c := x]> (tt_conns t))
          (tt_ctxs t)) ().

(** [t.cancel()] cancels the context of the last [Connect]; it is nil before one. *)
Definition cancel : Go tcp_transport () := λ t,
  match length (tt_ctxs t) with
  | 0 => Panicked PanicNil
  | S i => Done (MkTcpTransport (tt_client t) (tt_conn t) (tt_clients t) (tt_conns t)
                   (<[i := true]> (tt_ctxs t))) ()
  end.

(** * The callbacks *)

(** [OnOpen(c)] and [OnClose(c, err)], called by the event loop of the client. *)
Definition OnOpen (c : nat) : Go tcp_transport action := λ t,
  match tt_conns t !! c with
  | Some ConnNew => (set_conn_state c ConnOpen;; store_conn (Some c);; mret ActNone) t
  | _ => Blocked
  end.

Definition OnClose (c : nat) : Go tcp_transport action := λ t,
  match tt_conns t !! c with
  | Some ConnOpen => (set_conn_state c ConnClosed;; store_conn None;; mret ActNone) t
  | _ => Blocked
  end.

(** [OnBoot], [OnShutdown] and [OnTick] only log, or do nothing. *)
Definition Client_OnBoot : Go tcp_transport action := mret ActNone.
Definition Client_OnShutdown : Go tcp_transport () := mret ().
Definition Client_OnTick : Go tcp_transport (Z * action) := mret (1000000000%Z, ActNone).

Inductive event := Opened (c : nat) | Closed (c : nat).

Definition deliver (e : event) : Go tcp_transport () :=
  match e with Opened c => OnOpen c;; mret () | Closed c => OnClose c;; mret () end.

Fixpoint deliver_all (es : list event) : Go tcp_transport () :=
  match es with
  | [] => mret ()
  | e :: es => deliver e;; deliver_all es
  end.

(** * The operations *)

(** [Connect(ctx)]: [new_client] and [dial] are the errors of gnet's [NewClient] and
    [Dial]; [during] are the callbacks the event loop runs between the return of
    [Dial] and the store of its connection. *)
Definition Connect (new_client dial : option error) (during : list event)
    : Go tcp_transport (option error) :=
  with_cancel;;
  match new_client with
  | Some e => mret (Some e)
  | None =>
      store_client;;
      match dial with
      | Some e => mret (Some e)
      | None =>
          conn ← dialled;
          deliver_all during;;
          store_conn (Some conn);;
          mret None
      end
  end.

(** [Send(data)]: [AsyncWrite] is gnet's, on the connection it is called on. The field is
    read for the test and again for the call, [during] are the callbacks that run in
    between: they do not take the lock that [Send] holds. *)
Definition TCPTransport_Send (AsyncWrite : nat → list byte → option error)
    (during : list event) (data : list byte) : Go tcp_transport (option error) :=
  t ← go_get;
  match tt_conn t with
  | None => mret (Some (Errorf "no active connection" []))
  | Some _ =>
      deliver_all during;;
      t ← go_get;
      match tt_conn t with
      | None => go_panic PanicNil
      | Some c => mret (AsyncWrite c data)
      end
  end.

(** [Close()]: [stop] is the error of gnet's [Client.Stop], [during] the callbacks
    that run while it stops. *)
Definition TCPTransport_Close (stop : option error) (during : list event)
    : Go tcp_transport (option error) := λ t,
  match tt_client t with
  | None => Done t None
  | Some _ => (cancel;; deliver_all during;; mret stop) t
  end.

(** The transport behind the interface of the client, with the callbacks that run in the
    middle of its operations. *)
Definition tcp_client_transport (new_client dial stop : option error)
    (connecting sending closing : list event) (AsyncWrite : nat → list byte → option error)
    : @Transport tcp_transport :=
  MkClientTransport (Connect new_client dial connecting) (TCPTransport_Send AsyncWrite sending)
    (TCPTransport_Close stop closing).

(** * Histories *)

Inductive tcp_op :=
  | DoConnect (new_client dial : option error) (during : list event)
  | DoClose (stop : option error) (during : list event)
  | DoEvent (e : event).

Definition tcp_exec (o : tcp_op) : Go tcp_transport () :=
  match o with
  | DoConnect nc dial during => Connect nc dial during;; mret ()
  | DoClose stop during => TCPTransport_Close stop during;; mret ()
  | DoEvent e => deliver e
  end.

Fixpoint tcp_history (os : list tcp_op) : Go tcp_transport () :=
  match os with
  | [] => mret ()
  | o :: os => tcp_exec o;; tcp_history os
  end.

(** * The connection of [Send] *)

Definition is_live (t : tcp_transport) (c : nat) : Prop :=
  tt_conns t !! c = Some ConnNew ∨ tt_conns t !! c = Some ConnOpen.

(** No connection is closed between the return of [Dial] and the store. *)
Definition quiet (during : list event) : Prop := ∀ c, Closed c ∉ during.
Definition quiet_op (o : tcp_op) : Prop :=
  match o with DoConnect _ _ during => quiet during | _ => True end.

(** The stored connection is live; a single connection is stored while it is. *)
Record tracked (t : tcp_transport) : Prop := {
  tracked_ctx : tt_client t ≠ None → tt_ctxs t ≠ [];
  tracked_live : ∀ c, tt_conn t = Some c → is_live t c;
  tracked_one : length (tt_conns t) ≤ 1 → ∀ c, is_live t c → tt_conn t = Some c;
}.

Section tracking.
Implicit Types t : tcp_transport.

Lemma is_live_lt t c : is_live t c → c < length (tt_conns t).
Proof. by intros [?%lookup_lt_Some|?%lookup_lt_Some]. Qed.

Lemma OnOpen_done c t t' a :
  OnOpen c t = Done t' a →
  tt_conns t !! c = Some ConnNew ∧
  t' = MkTcpTransport (tt_client t) (Some c) (tt_clients t) (<[c := ConnOpen]> (tt_conns t))
         (tt_ctxs t).
Proof. unfold OnOpen. destruct (tt_conns t !! c) as [[]|]; by intros [= <-]. Qed.

Lemma OnClose_done c t t' a :
  OnClose c t = Done t' a →
  tt_conns t !! c = Some ConnOpen ∧
  t' = MkTcpTransport (tt_client t) None (tt_clients t) (<[c := ConnClosed]> (tt_conns t))
         (tt_ctxs t).
Proof. unfold OnClose. destruct (tt_conns t !! c) as [[]|]; by intros [= <-]. Qed.

(** One callback: what it does to the stored connection and to a connection [c]. *)
Lemma deliver_spec e t t' :
  deliver e t = Done t' () →
  tt_client t' = tt_client t ∧ tt_ctxs t' = tt_ctxs t ∧
  length (tt_conns t') = length (tt_conns t) ∧
  match e with
  | Opened c => is_live t c ∧ tt_conn t' = Some c ∧ ∀ d, is_live t' d ↔ is_live t d
  | Closed c => is_live t c ∧ tt_conn t' = None ∧ ∀ d, is_live t' d ↔ d ≠ c ∧ is_live t d
  end.
Proof.
  unfold deliver, mbind, go_bind. destruct e as [c|c].
  - destruct (OnOpen c t) as [t1 a| |] eqn:E; [|done..].
    apply OnOpen_done in E as [Hc ->]. intros [= <-]. simpl. rewrite length_insert.
    split_and!; [done..|by left|done|]. intros d. unfold is_live. simpl.
    destruct (decide (d = c)) as [->|]; [|by rewrite list_lookup_insert_ne by done].
    rewrite list_lookup_insert_eq by (by eapply lookup_lt_Some). rewrite Hc.
    split; intros _; [by left|by right].
  - destruct (OnClose c t) as [t1 a| |] eqn:E; [|done..].
    apply OnClose_done in E as [Hc ->]. intros [= <-]. simpl. rewrite length_insert.
    split_and!; [done..|by right|done|]. intros d. unfold is_live. simpl.
    destruct (decide (d = c)) as [->|]; [|by rewrite list_lookup_insert_ne by done; split; [|intros [_ ?]]].
    rewrite list_lookup_insert_eq by (by eapply lookup_lt_Some).
    split; [by intros [|]|by intros [? _]].
Qed.

Lemma deliver_tracked e t t' : tracked t → deliver e t = Done t' () → tracked t'.
Proof.
  intros [Hctx Hlive Hone] (Ecl & Ectx & Elen & He)%deliver_spec.
  split; [by rewrite Ecl, Ectx|..].
  - intros c Hc. destruct e as [d|d]; destruct He as (Hd & Ec & Hl); [|congruence].
    apply Hl. congruence.
  - rewrite Elen. intros Hlen c Hc. destruct e as [d|d]; destruct He as (Hd & Ec & Hl).
    + apply Hl, is_live_lt in Hc. apply is_live_lt in Hd. rewrite Ec. f_equal. lia.
    + apply Hl in Hc as [Hne Hc%is_live_lt]. apply is_live_lt in Hd. lia.
Qed.

Lemma deliver_all_tracked es t t' : tracked t → deliver_all es t = Done t' () → tracked t'.
Proof.
  revert t. induction es as [|e es IH]; intros t Ht; simpl; [by intros [= <-]|].
  unfold mbind, go_bind. destruct (deliver e t) as [t1 []| |] eqn:E; [|done..].
  apply IH. by eapply deliver_tracked.
Qed.

(** Callbacks make no connection, and only a close takes the stored one away. *)
Lemma deliver_all_length es t t' :
  deliver_all es t = Done t' () → length (tt_conns t') = length (tt_conns t).
Proof.
  revert t. induction es as [|e es IH]; intros t; simpl; [by intros [= <-]|].
  unfold mbind, go_bind. destruct (deliver e t) as [t1 []| |] eqn:E; [|done..].
  intros ->%IH. by apply deliver_spec in E as (_ & _ & ? & _).
Qed.

Lemma deliver_all_lost es t t' :
  tt_conn t ≠ None → deliver_all es t = Done t' () → tt_conn t' = None → ∃ c, Closed c ∈ es.
Proof.
  revert t. induction es as [|e es IH]; intros t Hc; simpl; [by intros [= <-]|].
  unfold mbind, go_bind. destruct (deliver e t) as [t1 []| |] eqn:E; [|done..]. intros Er Hn.
  destruct e as [c|c]; [|by exists c; left].
  apply deliver_spec in E as (_ & _ & _ & _ & Ec & _).
  destruct (IH t1) as [d Hd]; [by rewrite Ec|done..|]. exists d. by right.
Qed.

(** Callbacks that close nothing keep what is live. *)
Lemma deliver_all_quiet es t t' :
  quiet es → deliver_all es t = Done t' () →
  tt_client t' = tt_client t ∧ tt_ctxs t' = tt_ctxs t ∧
  length (tt_conns t') = length (tt_conns t) ∧ ∀ d, is_live t' d ↔ is_live t d.
Proof.
  revert t. induction es as [|e es IH]; intros t Hq; simpl; [by intros [= <-]|].
  unfold mbind, go_bind. destruct (deliver e t) as [t1 []| |] eqn:E; [|done..]. intros Er.
  apply deliver_spec in E as (Ecl & Ectx & Elen & He).
  destruct (IH t1) as (? & ? & ? & Hl); [by intros c Hc; eapply Hq; right|done|].
  destruct e as [c|c]; [|by destruct (Hq c); left].
  destruct He as (_ & _ & Hl'). split_and!; try congruence.
  intros d. by rewrite Hl, Hl'.
Qed.

Lemma Connect_tracked nc dial during t t' r :
  tracked t → quiet during → Connect nc dial during t = Done t' r → tracked t'.
Proof.
  intros [Hctx Hlive Hone] Hq. unfold Connect, mbind, go_bind, with_cancel, store_client,
    dialled, store_conn. destruct nc as [e|].
  { intros [= <- _]. split; simpl; [by destruct (tt_ctxs t)|exact Hlive|exact Hone]. }
  destruct dial as [e|].
  { intros [= <- _]. split; simpl; [by destruct (tt_ctxs t)|exact Hlive|exact Hone]. }
  simpl. set (t1 := MkTcpTransport _ _ _ _ _).
  destruct (deliver_all during t1) as [t2 []| |] eqn:E; [|done..]. intros [= <- _].
  apply deliver_all_quiet in E as (_ & Ectx & Elen & Hl); [|done].
  assert (∀ d, is_live t1 d ↔ is_live t2 d) as Hl' by (intros d; by rewrite Hl).
  split; simpl.
  - intros _. rewrite Ectx. simpl. by destruct (tt_ctxs t).
  - intros c [= <-]. apply Hl. left. simpl. by rewrite lookup_app_last.
  - intros Hlen c Hc. assert (c < length (tt_conns t2)) by exact (is_live_lt t2 c Hc).
    rewrite Elen in *. simpl in *. rewrite length_app in *. simpl in *. f_equal. lia.
Qed.

Lemma cancel_done t :
  tt_ctxs t ≠ [] → ∃ ctxs, ctxs ≠ [] ∧
    cancel t = Done (MkTcpTransport (tt_client t) (tt_conn t) (tt_clients t) (tt_conns t) ctxs) ().
Proof.
  intros Hne. unfold cancel. destruct (tt_ctxs t) as [|x l]; [done|]. simpl.
  eexists. split; [|done]. destruct (length l); simpl; done.
Qed.

Lemma Close_tracked stop during t t' r :
  tracked t → TCPTransport_Close stop during t = Done t' r → tracked t'.
Proof.
  intros Ht. unfold TCPTransport_Close. destruct (tt_client t) eqn:Ec; [|by intros [= <- _]].
  destruct (cancel_done t) as (ctxs & Hne & E); [by apply (tracked_ctx _ Ht); rewrite Ec|].
  unfold mbind, go_bind. rewrite E. set (t1 := MkTcpTransport _ _ _ _ _).
  destruct (deliver_all during t1) as [t2 []| |] eqn:E2; [|done..]. intros [= <- _].
  eapply deliver_all_tracked; [|exact E2].
  split; [done|exact (tracked_live _ Ht)|exact (tracked_one _ Ht)].
Qed.

Lemma history_tracked os t t' :
  tracked t → Forall quiet_op os → tcp_history os t = Done t' () → tracked t'.
Proof.
  intros Ht Hq. revert t Ht. induction Hq as [|o os Ho _ IH]; intros t Ht; simpl.
  { by intros [= <-]. }
  unfold mbind, go_bind. destruct (tcp_exec o t) as [t1 []| |] eqn:E; [|done..].
  apply IH. unfold tcp_exec, mbind, go_bind in E. destruct o as [nc dial during|stop during|e].
  - destruct (Connect nc dial during t) as [t2 r| |] eqn:E2; [|done..]. injection E as <-.
    by eapply Connect_tracked.
  - destruct (TCPTransport_Close stop during t) as [t2 r| |] eqn:E2; [|done..].
    injection E as <-. by eapply Close_tracked.
  - by eapply deliver_tracked.
Qed.
End tracking.

Lemma tracked_new : tracked NewTCPTransport.
Proof. split; simpl; [done..|]. intros _ c Hc%is_live_lt. simpl in Hc. lia. Qed.


(** [Send] does panic: the server closes the connection between its test and its call. *)
Lemma send_after_close_panics (AsyncWrite : nat → list byte → option error) (data : list byte) :
  ∃ t, tcp_history [DoConnect None None [Opened 0]] NewTCPTransport = Done t () ∧
    TCPTransport_Send AsyncWrite [Closed 0] data t = Panicked PanicNil.
Proof. eexists. split; reflexivity. Qed.

(** Without that condition it does not: a connection closed by the server while
    [Connect] is about to store it stays stored, and [Send] goes to it; and when a
    second [Connect] has succeeded, the close of the first connection makes [Send]
    fail although the second one is open. *)
Theorem stale_and_lost_connections :
  (∃ t, Connect None None [Opened 0; Closed 0] NewTCPTransport = Done t None ∧
     ∀ AsyncWrite data,
       TCPTransport_Send AsyncWrite [] data t = Done t (AsyncWrite 0 data) ∧ ¬ is_live t 0) ∧
  (∃ t, tcp_history [DoConnect None None [Opened 0]; DoConnect None None [Opened 1];
                     DoEvent (Closed 0)] NewTCPTransport = Done t () ∧
     is_live t 1 ∧ ∀ AsyncWrite data, TCPTransport_Send AsyncWrite [] data t
       = Done t (Some (Errorf "no active connection" []))).
Proof.
  split.
  - exists (MkTcpTransport (Some 0) (Some 0) 1 [ConnClosed] [false]).
    split; [reflexivity|]. intros AsyncWrite data. split; [reflexivity|]. by intros [|].
  - exists (MkTcpTransport (Some 1) None 2 [ConnClosed; ConnOpen] [false; false]).
    split; [reflexivity|]. split; [by right|reflexivity].
Qed.

(** * The client over the TCP transport *)

(** C37: A client with one TCP transport works from end to end: [Start] connects it, and
    [SendMessage] under the transport's name hands the data to the new connection,
    under any other name fails without sending; when gnet cannot dial, [Start] returns
    its error, sending reports that there is no connection, and [Close] stops the
    client that was made. The order in which Go visits the map does not matter. *)
Theorem client_connects_and_sends (order : gmap string (@Transport tcp_transport) → list Transport)
    (name other : string) (dial stop : option error) (connecting : list event)
    (AsyncWrite : nat → list byte → option error) (data : list byte)
    (tr := tcp_client_transport None dial stop connecting [] [] AsyncWrite)
    (c := (Client.RegisterTransport name tr (NewClient NewConfig)).1) :
  (∀ c, order c ≡ₚ snd <$> map_to_list c) → connecting ∈ [[]; [Opened 0]] → other ≠ name →
  ∃ t, Client_Start order c NewTCPTransport = Done t dial ∧
    SendMessage name data c t
    = Done t (match dial with
              | None => AsyncWrite 0 data
              | Some _ => Some (Errorf "no active connection" [])
              end) ∧
    SendMessage other data c t = Done t (Some (Errorf "transport not found" [])) ∧
    ∃ t', Client_Close order c t = Done t' stop.
Proof.
  intros Horder Hconn Hne.
  assert (c = {[name := tr]}) as -> by done.
  assert (order {[name := tr]} = [tr]) as Eo.
  { apply Permutation_singleton_r. by rewrite Horder, map_to_list_singleton. }
  unfold Client_Start, Client_Close, SendMessage, Client.GetTransport. rewrite Eo.
  rewrite lookup_singleton_eq, lookup_singleton_ne by done. cbn [until_error].
  subst tr. cbn [tcp_client_transport tr_Connect tr_Send tr_Close].
  repeat (apply elem_of_cons in Hconn as [->|Hconn]); [..|by apply not_elem_of_nil in Hconn];
    destruct dial as [e|], stop as [e'|]; (eexists; split; [reflexivity|]);
    (split; [reflexivity|]); (split; [reflexivity|]); eexists; reflexivity.
Qed.
