(* ===== verification/Session.v ===== *)
(** Client and server together: a message encoded by a client, sent over its TCP
    transport, served by the TCP server, and the answer dispatched to the client's
    handlers. *)
From S2P Require Import Prelude GoRuntime Slices Types Messages Config Mdbx Database BatchWriter WriterSpec WriterCorrect Client ClientTcp Handlers Servers EndToEnd.

Section session.
Context `{MdbxReliable}.
Implicit Types (w : world) (key : array32) (d : list byte).

(** * Definitions *)

(** The bytes a client makes of a message. *)
Definition client_encode (mv : message_value) : Go heap (res (list byte)) :=
  data ← fresh_bytes (mv_data mv);
  r ← Encode (MkMessage (mv_handler mv) (mv_key mv) data);
  match r with
  | Err e => mret (Err e)
  | Ok buf => h ← go_get; mret (Ok (bytes_of h buf))
  end.

(** Bytes that arrive at the TCP server on connection [c], in a buffer of their own. *)
Definition server_receive (c : nat) (bs : list byte) : Go world action :=
  frame ← lift_heap (fresh_bytes bs);
  w ← go_get;
  TCP_OnTraffic (rw_registry AsyncWrite (db w)) c (Ok frame).

(** What the handlers of the client were called with. *)
Abbreviation seen := (list (byte * list byte)) (only parsing).

Definition recording (t : byte) : @HandlerFunc seen := λ data s, Done (s ++ [(t, data)]) None.

(** A client that handles the acknowledgement of writes. *)
Definition client_handlers : gmap byte (@HandlerFunc seen) :=
  TCPTransport_RegisterHandler WriteSuccessMessageType (recording WriteSuccessMessageType) ∅.

(** The answers arrive at the client, each in one read. *)
Fixpoint client_receive (answers : list (list byte)) : Go seen () :=
  match answers with
  | [] => mret ()
  | a :: answers => Client_OnTraffic client_handlers (Ok a);; client_receive answers
  end.

Record session := MkSession {
  ses_client : tcp_transport;
  ses_seen : seen;
  ses_server : world;
}.

(** One exchange: the client encodes and sends, the server serves, the client dispatches
    the answers. *)
Definition exchange (mv : message_value) : Go session (option error) := λ s,
  match client_encode mv [] with
  | Done _ (Ok bs) =>
      match TCPTransport_Send (λ _ _, None) [] bs (ses_client s) with
      | Done _ (Some e) => Done s (Some e)
      | Done _ None =>
          match server_receive (default 0 (tt_conn (ses_client s))) bs (ses_server s) with
          | Done w' _ =>
              match client_receive (answers (ses_server s) w') (ses_seen s) with
              | Done seen' _ => Done (MkSession (ses_client s) seen' w') None
              | Panicked p => Panicked p
              | Blocked => Blocked
              end
          | Panicked p => Panicked p
          | Blocked => Blocked
          end
      | Panicked p => Panicked p
      | Blocked => Blocked
      end
  | Done _ (Err e) => Done s (Some e)
  | Panicked p => Panicked p
  | Blocked => Blocked
  end.

(** The server's workers store what they hold. *)
Definition settle_session (rng : gmap array32 slice → list (array32 * slice))
    : Go session () :=
  go_zoom ses_server (λ w s, MkSession (ses_client s) (ses_seen s) w) (settle rng).

(** * Lemmas *)

Lemma client_encode_spec mv : ∃ h, client_encode mv [] = Done h (Ok (wire mv)).
Proof.
  unfold client_encode, fresh_bytes, mbind, go_bind. cbv beta iota.
  set (m := MkMessage _ _ _).
  assert (value_of ([] ++ [mv_data mv]) m = mv) as Hv.
  { destruct mv as [hd k d]. unfold value_of, bytes_of, m. simpl. by rewrite take_ge. }
  rewrite Encode_spec.
  2: { split; simpl; [done|]. unfold buf_of. simpl. lia. }
  rewrite Hv. eexists. unfold go_get, bytes_of, buf_of. simpl.
  by rewrite firstn_all.
Qed.

(** The world in which a frame has just arrived. *)
Definition arrived (bs : list byte) (w : world) : world :=
  with_heap (ws_heap (w_ws w) ++ [bs]) w.
Definition arrival (bs : list byte) (w : world) : slice :=
  Slice (length (ws_heap (w_ws w))) 0 (length bs) (length bs).

Lemma server_receive_eq c bs w :
  server_receive c bs w
  = TCP_OnTraffic (rw_registry AsyncWrite (db w)) c (Ok (arrival bs w)) (arrived bs w).
Proof.
  unfold server_receive. by erewrite go_bind_done by (by apply lift_heap_done).
Qed.

Lemma arrival_shows bs w : shows (arrived bs w) (arrival bs w) bs.
Proof.
  unfold shows, frame_ok, frame_bytes, slice_ok, bytes_of, arrived, arrival. simpl.
  rewrite buf_of_alloc, drop_0, firstn_all. repeat split; lia.
Qed.

Lemma arrived_ready key bs w : ready key w → ready key (arrived bs w).
Proof. intros []. by split. Qed.

Lemma exchange_served mv c s w' act :
  tt_conn (ses_client s) = Some c →
  server_receive c (wire mv) (ses_server s) = Done w' act →
  exchange mv s
  = match client_receive (answers (ses_server s) w') (ses_seen s) with
    | Done seen' _ => Done (MkSession (ses_client s) seen' w') None
    | Panicked p => Panicked p
    | Blocked => Blocked
    end.
Proof.
  intros Hc Hs. unfold exchange. destruct (client_encode_spec mv) as [h ->].
  unfold TCPTransport_Send, go_get, mbind, go_bind. rewrite Hc. simpl. rewrite Hc. by rewrite Hs.
Qed.

(** A length below [2^24] starts with 0x00. *)
Lemma be32_head n : (0 ≤ n < 2 ^ 24)%Z → be32 n = x00 :: tail (be32 n).
Proof.
  intros Hn. unfold be32. simpl. f_equal. by rewrite Z.shiftr_div_pow2, Z.div_small by lia.
Qed.

(** * The session *)

(** C11: A client that writes and reads over a connected TCP transport: the write is
    acknowledged to its handler for [WriteSuccessMessageType] with no data; once the
    server's workers have stored what they hold, a read of the key calls the same
    handler, because the answer starts with the length of the value, and what it gets
    are the other three bytes of the length and the value: for values of less than
    16 MiB the client cannot tell an answer to a read from an acknowledgement. *)
Theorem client_session rng key d d' c s :
  map_order rng → ready key (ses_server s) → tt_conn (ses_client s) = Some c →
  (Z.of_nat (length d) < 2 ^ 24)%Z →
  ∃ s1 s2 s3,
    exchange (MsgVal WriteHandlerType key d) s = Done s1 None ∧
    ses_seen s1 = ses_seen s ++ [(WriteSuccessMessageType, [])] ∧
    settle_session rng s1 = Done s2 () ∧
    exchange (MsgVal ReadHandlerType key d') s2 = Done s3 None ∧
    ses_seen s3 = ses_seen s1 ++
      [(WriteSuccessMessageType, tail (be32 (Z.of_nat (length d))) ++ d)].
Proof.
  intros Hrng Hr Hc Hd. set (w := ses_server s) in *.
  set (wr := wire (MsgVal WriteHandlerType key d)).
  destruct (tcp_write_settles rng key (be32 (Z.of_nat (length d)) ++ d) c (arrived wr w)
    (arrival wr w)) as (w1 & w2 & E1 & Ht1 & E2 & Hl2 & Ht2 & Hv2);
    [done|by apply arrived_ready|apply arrival_shows|done|].
  assert (server_receive c wr w = Done w1 ActNone) as Es
    by (rewrite server_receive_eq; exact E1).
  set (s1 := MkSession (ses_client s) (ses_seen s ++ [(WriteSuccessMessageType, [])]) w1).
  set (s2 := MkSession (ses_client s) (ses_seen s1) w2).
  set (rd := wire (MsgVal ReadHandlerType key d')).
  destruct (tcp_read_stored key (be32 (Z.of_nat (length d')) ++ d') c (arrived rd w2) (arrival rd w2))
    as [m E3]; [exact Hl2|apply arrival_shows|].
  erewrite read_reply_some in E3;
    [|change (db (arrived rd w2)) with (db w2); simpl; rewrite Hv2; by rewrite decide_True|done].
  rewrite be32_head in E3 by lia. set (w3 := trace_add _ _) in E3.
  assert (server_receive c rd w2 = Done w3 ActNone) as Es2
    by (rewrite server_receive_eq; exact E3).
  exists s1, s2. eexists. split_and!.
  - erewrite exchange_served by (exact Hc || exact Es).
    fold w. assert (answers w w1 = [[x00]]) as ->; [|done].
    unfold answers. rewrite Ht1. change (w_trace (arrived wr w)) with (w_trace w).
    by rewrite drop_app_length.
  - done.
  - unfold settle_session, go_zoom. simpl. by rewrite E2.
  - erewrite exchange_served by (exact Hc || exact Es2).
    unfold w3. rewrite answers_add by done. reflexivity.
  - done.
Qed.
End session.
