(* ===== verification/Files.v ===== *)
(** The files the program writes: regular files with permissions, as a finite map. *)
From S2P Require Import Prelude GoRuntime.

(** A file: its bytes and its permission bits. *)
Record file := MkFile { file_data : list byte; file_mode : Z }.
Abbreviation files := (gmap string file) (only parsing).

(** The file mode creation mask of the process. *)
Class Umask := { os_umask : Z }.

(** The permissions of a file that is opened for writing and created if need be: those of
    the call less the mask, or those it has. *)
Definition opened_mode (umask perm : Z) (fs : files) (name : string) : Z :=
  match fs !! name with Some f => file_mode f | None => Z.ldiff perm umask end.

(** [os.WriteFile(name, data, perm)]. [fails] gives the error, if any, and after how many
    bytes of the truncated file it comes; [None] for one of opening. *)
Definition os_WriteFile (umask : Z) (fails : string → option (error * option nat))
    (name : string) (data : list byte) (perm : Z) : Go files (option error) := λ fs,
  let mode := opened_mode umask perm fs name in
  match fails name with
  | Some (e, None) => Done fs (Some e)
  | Some (e, Some n) => Done (<[name := MkFile (take n data) mode]> fs) (Some e)
  | None => Done (<[name := MkFile data mode]> fs) None
  end.

(** The permissions 0644, 0600 and, of [os.Create], 0666. *)
Definition mode_644 : Z := 420.
Definition mode_600 : Z := 384.
Definition mode_666 : Z := 438.

(** [os.Create(name)]: the file is truncated, or made. *)
Definition os_Create (umask : Z) (fails : string → option error) (name : string)
    : Go files (option error) := λ fs,
  match fails name with
  | Some e => Done fs (Some e)
  | None => Done (<[name := MkFile [] (opened_mode umask mode_666 fs name)]> fs) None
  end.

(** A write to the end of a file. *)
Definition file_Write (name : string) (data : list byte) : Go files () := λ fs,
  Done (alter (λ f, MkFile (file_data f ++ data) (file_mode f)) name fs) ().

(** * Lemmas *)

(** A file that was written: its new bytes, the permissions of [os.WriteFile]. *)
Definition written (umask perm : Z) (fs : files) (name : string) (data : list byte) : file :=
  MkFile data (opened_mode umask perm fs name).

Lemma os_WriteFile_ok umask fails name data perm fs fs' :
  os_WriteFile umask fails name data perm fs = Done fs' None →
  fs' = <[name := written umask perm fs name data]> fs.
Proof. unfold os_WriteFile. destruct (fails name) as [[e [n|]]|]; by intros [= <-]. Qed.

Lemma os_WriteFile_returns umask fails name data perm fs :
  ∃ fs' r, os_WriteFile umask fails name data perm fs = Done fs' r.
Proof. unfold os_WriteFile. destruct (fails name) as [[e [n|]]|]; by eexists _, _. Qed.

(** What is written to a file just created is its content; no other file changes. *)
Lemma create_write umask fails name data fs fs1 :
  os_Create umask fails name fs = Done fs1 None →
  file_Write name data fs1 = Done (<[name := written umask mode_666 fs name data]> fs) ().
Proof.
  unfold os_Create, file_Write. destruct (fails name); [done|]. intros [= <-].
  by rewrite alter_insert_eq.
Qed.

Lemma os_Create_returns umask fails name fs :
  ∃ fs' r, os_Create umask fails name fs = Done fs' r ∧ (r = None ∨ fs' = fs).
Proof. unfold os_Create. destruct (fails name); eexists _, _; (split; [done|]); auto. Qed.
