(* ===== verification/Float64.v ===== *)
(** Go's [float64]: the binary64 arithmetic of IEEE 754 with rounding to nearest even,
    executable on the Standard Library's specification of floating-point numbers. *)
From S2P Require Import Prelude GoRuntime.
From Stdlib Require Import SpecFloat.

(** * Operations *)

Definition float64 : Type := spec_float.

Definition f64_add : float64 → float64 → float64 := SFadd 53 1024.
Definition f64_sub : float64 → float64 → float64 := SFsub 53 1024.
Definition f64_mul : float64 → float64 → float64 := SFmul 53 1024.
Definition f64_div : float64 → float64 → float64 := SFdiv 53 1024.
Definition math_Sqrt : float64 → float64 := SFsqrt 53 1024.
Definition f64_gtb (x y : float64) : bool := SFltb y x.

(** The constant 0, and [float64(n)] for an integer. *)
Definition f64_zero : float64 := S754_zero false.
Definition f64_of_Z (n : Z) : float64 := binary_normalize 53 1024 n 0 false.

(** The constants 1e9, 0.9 and 0.99. *)
Definition f64_1e9 : float64 := f64_of_Z 1000000000.
Definition f64_0_9 : float64 := S754_finite false 8106479329266893 (-53).
Definition f64_0_99 : float64 := S754_finite false 8917127262193582 (-53).

(** [int(x)] for a finite [x] in range: truncation. *)
Definition f64_trunc (x : float64) : Z :=
  match x with
  | S754_finite s m e =>
      (let v := if decide (0 ≤ e) then Zpos m * 2 ^ e else Zpos m / 2 ^ (- e) in
       if s then - v else v)%Z
  | _ => 0%Z
  end.

(** [d.Seconds()] of a [time.Duration] in nanoseconds. *)
Definition Seconds (d : Z) : float64 :=
  let sec := Z.quot d 1000000000 in
  let nsec := Z.rem d 1000000000 in
  f64_add (f64_of_Z sec) (f64_div (f64_of_Z nsec) f64_1e9).

(** * Checks *)

(** The literals 0.9 and 0.99 are the quotients of their decimal digits. *)
Example f64_constants :
  f64_div (f64_of_Z 9) (f64_of_Z 10) = f64_0_9 ∧
  f64_div (f64_of_Z 99) (f64_of_Z 100) = f64_0_99.
Proof. done. Qed.

Example Seconds_examples :
  Seconds 1500000000 = f64_div (f64_of_Z 3) (f64_of_Z 2) ∧ Seconds 0 = f64_zero.
Proof. done. Qed.

(** * Comparison with zero *)

(** The sign of a positive number. *)
Lemma f64_gtb_zero x :
  f64_gtb x f64_zero = match x with
                       | S754_finite false _ _ | S754_infinity false => true
                       | _ => false
                       end.
Proof. by destruct x as [[]|[]| |[]]. Qed.

(** * Rounding

    [round53 p]: the integer [p] rounded to 53 significant bits, ties to even. *)
Definition round53 (p : Z) : Z :=
  (let sh := Z.max 0 (Z.log2 p - 52) in
   let q := p / 2 ^ sh in
   let r := p mod 2 ^ sh in
   let up := if decide (2 * r < 2 ^ sh) then 0
             else if decide (2 ^ sh < 2 * r) then 1
             else if Z.even q then 0 else 1 in
   (q + up) * 2 ^ sh)%Z.

Lemma digits2_log2 p : Zpos (digits2_pos p) = (Z.log2 (Zpos p) + 1)%Z.
Proof.
  induction p as [p IH|p IH|]; simpl digits2_pos; [..|done]; rewrite Pos2Z.inj_succ, IH.
  - rewrite (Pos2Z.inj_xI p), Z.log2_succ_double by lia. lia.
  - rewrite (Pos2Z.inj_xO p), Z.log2_double by lia. lia.
Qed.

Lemma Zdigits2_log2 p : (0 < p)%Z → Zdigits2 p = (Z.log2 p + 1)%Z.
Proof. intros Hp. destruct p; [lia|apply digits2_log2|lia]. Qed.

Lemma iter_pos_iter {A} (f : A → A) p x : iter_pos f p x = Pos.iter f x p.
Proof.
  revert x. induction p as [p IH|p IH|]; intros x; simpl; [|by rewrite !IH|done].
  rewrite !IH. by rewrite <- Pos.iter_swap, <- !Pos.iter_swap.
Qed.

Lemma shr_1_spec m r s :
  (0 ≤ m)%Z → shr_1 (Build_shr_record m r s) = Build_shr_record (m / 2) (Z.odd m) (r || s).
Proof. intros Hm. rewrite <- Z.div2_div. by destruct m as [|[p|p|]|p]. Qed.

(** A mantissa shifted to the right: the quotient, the first bit shifted out, and
    whether a later one was set. *)
Lemma shr_iter x (k : nat) :
  (0 ≤ x)%Z →
  Nat.iter (S k) shr_1 (Build_shr_record x false false)
  = Build_shr_record (x / 2 ^ Z.of_nat (S k)) (Z.odd (x / 2 ^ Z.of_nat k))
      (negb (x mod 2 ^ Z.of_nat k =? 0)%Z).
Proof.
  intros Hx. induction k as [|k IH].
  { cbn [Nat.iter nat_rect]. rewrite shr_1_spec by done. simpl.
    by rewrite Z.div_1_r, Z.mod_1_r. }
  rewrite Nat.iter_succ, IH. rewrite shr_1_spec by (apply Z.div_pos; lia).
  assert (2 ^ Z.of_nat (S (S k)) = 2 ^ Z.of_nat (S k) * 2)%Z as ->.
  { rewrite (Nat2Z.inj_succ (S k)), Z.pow_succ_r by lia. lia. }
  rewrite <- Z.div_div by lia. f_equal.
  rewrite (Nat2Z.inj_succ k), Z.pow_succ_r, (Z.mul_comm 2), Z.rem_mul_r by lia.
  pose proof (Z.mod_pos_bound x (2 ^ Z.of_nat k)).
  rewrite Zmod_odd. destruct (Z.odd _); simpl; [|f_equal; f_equal; lia].
  symmetry. apply negb_true_iff, Z.eqb_neq. lia.
Qed.

(** Rounding the record is rounding the quotient. *)
Lemma round_shifted x (n : nat) :
  (0 ≤ x)%Z → 0 < n →
  let mrs := Nat.iter n shr_1 (Build_shr_record x false false) in
  let q := (x / 2 ^ Z.of_nat n)%Z in
  let r := (x mod 2 ^ Z.of_nat n)%Z in
  round_nearest_even (shr_m mrs) (loc_of_shr_record mrs)
  = (q + if decide (2 * r < 2 ^ Z.of_nat n)%Z then 0
         else if decide (2 ^ Z.of_nat n < 2 * r)%Z then 1
         else if Z.even q then 0 else 1)%Z.
Proof.
  intros Hx Hn. destruct n as [|k]; [lia|]. cbv zeta. rewrite shr_iter by done.
  set (q := (x / 2 ^ Z.of_nat (S k))%Z). cbn [shr_m].
  rewrite (Nat2Z.inj_succ k), Z.pow_succ_r, (Z.mul_comm 2 (2 ^ Z.of_nat k)), Z.rem_mul_r by lia.
  pose proof (Z.mod_pos_bound x (2 ^ Z.of_nat k)).
  rewrite Zmod_odd. destruct (Z.odd (x / 2 ^ Z.of_nat k)).
  - rewrite decide_False by lia.
    destruct (Z.eqb_spec (x mod 2 ^ Z.of_nat k) 0); simpl.
    + rewrite decide_False by lia. by destruct (Z.even q); [rewrite Z.add_0_r|].
    + by rewrite decide_True by lia.
  - rewrite decide_True by lia. rewrite Z.add_0_r.
    by destruct (negb _).
Qed.

(** Exponents in the normal range. *)
Definition in_range (p e : Z) : Prop :=
  (0 < p ∧ Z.log2 p ≤ 150 ∧ -1000 ≤ e)%Z.

Lemma shr_fexp_spec p e :
  in_range p e →
  let n := Z.to_nat (Z.log2 p - 52) in
  shr_fexp 53 1024 p e loc_Exact
  = (Nat.iter n shr_1 (Build_shr_record p false false), (e + Z.of_nat n)%Z).
Proof.
  intros (Hp & Hl & He). cbv zeta. unfold shr_fexp, shr_record_of_loc.
  rewrite Zdigits2_log2 by done. unfold fexp, emin. pose proof (Z.log2_nonneg p).
  rewrite Z.max_l by lia.
  replace (Z.log2 p + 1 + e - 53 - e)%Z with (Z.log2 p - 52)%Z by lia.
  unfold shr. destruct (Z.log2 p - 52)%Z as [|k|k] eqn:Ek.
  - simpl. by rewrite Z.add_0_r.
  - rewrite iter_pos_iter, Pos2Nat.inj_iter. change (Z.to_nat (Zpos k)) with (Pos.to_nat k).
    by rewrite positive_nat_Z.
  - simpl. by rewrite Z.add_0_r.
Qed.

(** The mantissa after the first rounding. *)
Lemma round_first p (n := Z.to_nat (Z.log2 p - 52)) :
  (0 < p)%Z →
  let mrs := Nat.iter n shr_1 (Build_shr_record p false false) in
  let m := round_nearest_even (shr_m mrs) (loc_of_shr_record mrs) in
  (0 < m ≤ 2 ^ 53 ∧ m * 2 ^ Z.of_nat n = round53 p)%Z.
Proof.
  intros Hp. cbv zeta. pose proof (Z.log2_spec p Hp) as [Hlo Hhi].
  destruct (decide (Z.log2 p ≤ 52)%Z) as [Hs|Hs].
  - assert (n = 0) as -> by lia. simpl. unfold round53.
    rewrite Z.max_l by lia. rewrite Z.div_1_r, Z.mod_1_r. simpl.
    assert (p < 2 ^ 53)%Z.
    { eapply Z.lt_le_trans; [exact Hhi|]. apply Z.pow_le_mono_r; lia. }
    lia.
  - rewrite round_shifted by lia. unfold round53. rewrite Z.max_r by lia.
    replace (Z.of_nat n) with (Z.log2 p - 52)%Z by lia. split; [|done].
    set (sh := (Z.log2 p - 52)%Z). assert (0 < 2 ^ sh)%Z by (apply Z.pow_pos_nonneg; lia).
    replace (Z.succ (Z.log2 p)) with (53 + sh)%Z in Hhi by lia.
    replace (Z.log2 p) with (52 + sh)%Z in Hlo by lia.
    rewrite Z.pow_add_r in Hlo, Hhi by lia.
    assert (2 ^ 52 ≤ p / 2 ^ sh < 2 ^ 53)%Z as Hq.
    { split; [apply Z.div_le_lower_bound|apply Z.div_lt_upper_bound]; lia. }
    repeat case_decide; [lia..|]. destruct (Z.even _); lia.
Qed.

(** Rounding an exact positive mantissa gives the number [round53 p * 2 ^ e]. *)
Lemma round_aux_spec p e :
  in_range p e → (e ≤ 800)%Z →
  ∃ m k, binary_round_aux 53 1024 false p e loc_Exact = S754_finite false m (e + Z.of_nat k) ∧
    (Zpos m * 2 ^ Z.of_nat k = round53 p)%Z.
Proof.
  intros Hr He'. pose proof Hr as (Hp & Hl & He). unfold binary_round_aux.
  rewrite shr_fexp_spec by done. set (n := Z.to_nat (Z.log2 p - 52)).
  destruct (round_first p Hp) as [[Hm0 Hm] Hv]. fold n in Hm0, Hm, Hv.
  set (m := round_nearest_even _ _) in *.
  assert (Z.log2 m ≤ 53)%Z as Hlm.
  { change 53%Z with (Z.log2 (2 ^ 53)). by apply Z.log2_le_mono. }
  rewrite shr_fexp_spec by (split; lia).
  destruct (decide (m = 2 ^ 53)%Z) as [->|Hne].
  - exists 4503599627370496%positive, (S n). change (Z.to_nat (Z.log2 (2 ^ 53) - 52)) with 1. simpl.
    rewrite (proj2 (Z.leb_le _ _)) by lia. split; [f_equal; lia|].
    rewrite <- Hv. change (Z.pos (Pos.of_succ_nat n)) with (Z.of_nat (S n)).
    rewrite Nat2Z.inj_succ, Z.pow_succ_r by lia. lia.
  - assert (Z.log2 m < 53)%Z by (apply Z.log2_lt_pow2; lia).
    replace (Z.to_nat (Z.log2 m - 52)) with 0 by lia. simpl.
    destruct m as [|m|]; [lia| |lia]. rewrite (proj2 (Z.leb_le _ _)) by lia.
    exists m, n. split; [f_equal; lia|done].
Qed.

(** * Products of integers and constants *)

Lemma round53_small p : (0 < p)%Z → (Z.log2 p ≤ 52)%Z → round53 p = p.
Proof.
  intros Hp Hl. unfold round53. rewrite Z.max_l by lia.
  rewrite Z.div_1_r, Z.mod_1_r. simpl. lia.
Qed.

Lemma round53_double p : (0 < p → round53 (2 * p) = 2 * round53 p)%Z.
Proof.
  intros Hp. pose proof (Z.log2_nonneg p).
  assert (Z.log2 (2 * p) = Z.log2 p + 1)%Z as Hl by (rewrite Z.log2_double; lia).
  destruct (decide (Z.log2 p ≤ 51)%Z).
  { rewrite !round53_small by lia. lia. }
  unfold round53. rewrite Hl, !Z.max_r by lia.
  replace (Z.log2 p + 1 - 52)%Z with (Z.succ (Z.log2 p - 52)) by lia.
  set (sh := (Z.log2 p - 52)%Z). rewrite Z.pow_succ_r by lia.
  assert (0 < 2 ^ sh)%Z by (apply Z.pow_pos_nonneg; lia).
  rewrite Z.div_mul_cancel_l, Z.mul_mod_distr_l by lia.
  repeat case_decide; try lia.
Qed.

Lemma round53_scale p (t : nat) :
  (0 < p → round53 (p * 2 ^ Z.of_nat t) = round53 p * 2 ^ Z.of_nat t)%Z.
Proof.
  intros Hp. induction t as [|t IH]; [by rewrite !Z.mul_1_r|].
  rewrite Nat2Z.inj_succ, Z.pow_succ_r by lia.
  replace (p * (2 * 2 ^ Z.of_nat t))%Z with (2 * (p * 2 ^ Z.of_nat t))%Z by lia.
  rewrite round53_double by lia. lia.
Qed.

Lemma f64_trunc_value m e a (b : Z) :
  (0 ≤ b → 0 ≤ e + b → Zpos m * 2 ^ (e + b) = a →
   f64_trunc (S754_finite false m e) = a / 2 ^ b)%Z.
Proof.
  intros Hb He <-. unfold f64_trunc. case_decide.
  - rewrite Z.pow_add_r, Z.mul_assoc, Z.div_mul by lia. done.
  - replace (2 ^ b)%Z with (2 ^ (- e) * 2 ^ (e + b))%Z
      by (rewrite <- Z.pow_add_r by lia; f_equal; lia).
    rewrite Z.div_mul_cancel_r; [done| |]; apply Z.pow_nonzero; lia.
Qed.

(** [float64(n)] of a positive integer below [2^53] is that integer. *)
Lemma f64_of_Z_value n :
  (0 < n < 2 ^ 53)%Z →
  ∃ m k, f64_of_Z n = S754_finite false m (Z.log2 n - 52 + Z.of_nat k) ∧
    (Zpos m * 2 ^ Z.of_nat k = n * 2 ^ (52 - Z.log2 n))%Z.
Proof.
  intros Hn. pose proof (Z.log2_nonneg n).
  assert (Z.log2 n < 53)%Z by (apply Z.log2_lt_pow2; lia).
  set (t := Z.to_nat (52 - Z.log2 n)).
  assert (∃ mz, f64_of_Z n = binary_round_aux 53 1024 false (Zpos mz) (Z.log2 n - 52) loc_Exact ∧
                Zpos mz = (n * 2 ^ (52 - Z.log2 n))%Z) as (mz & -> & Hmz).
  { unfold f64_of_Z, binary_normalize. destruct n as [|n|]; [lia| |lia].
    unfold binary_round. rewrite digits2_log2. unfold fexp, emin. rewrite Z.max_l by lia.
    replace (Z.log2 (Z.pos n) + 1 + 0 - 53)%Z with (Z.log2 (Z.pos n) - 52)%Z by lia.
    unfold shl_align. rewrite Z.sub_0_r.
    destruct (Z.log2 (Z.pos n) - 52)%Z as [|d|d] eqn:Ed; [|lia|].
    - exists n. split; [done|]. replace (52 - _)%Z with 0%Z by lia. lia.
    - exists (Pos.iter xO n d). split; [done|].
      replace (52 - _)%Z with (Zpos d) by lia.
      rewrite <- (Pos2Z.inj_pow 2 d). rewrite <- Pos2Z.inj_mul. f_equal.
      clear. unfold Pos.pow. rewrite !Pos2Nat.inj_iter.
      induction (Pos.to_nat d) as [|i IH]; simpl; [lia|]. rewrite IH. lia. }
  assert (0 < Zpos mz)%Z as Hpos by lia.
  assert (Z.log2 (Zpos mz) = 52)%Z as Hlog.
  { rewrite Hmz. rewrite Z.log2_mul_pow2 by lia. lia. }
  destruct (round_aux_spec (Zpos mz) (Z.log2 n - 52)) as (m & k & E & Hv);
    [split; lia|lia|].
  exists m, k. split; [exact E|]. rewrite Hv, round53_small by lia. done.
Qed.

Lemma f64_mul_trunc n (c : positive) :
  (0 < n < 2 ^ 53 → Z.log2 (Zpos c) = 52 →
   f64_trunc (f64_mul (f64_of_Z n) (S754_finite false c (-53)))
   = round53 (n * Zpos c) / 2 ^ 53)%Z.
Proof.
  intros Hn Hc. pose proof (Z.log2_nonneg n).
  assert (Z.log2 n < 53)%Z by (apply Z.log2_lt_pow2; lia).
  destruct (f64_of_Z_value n Hn) as (m & k & -> & Hm).
  pose proof (Z.log2_spec n) as [_ Hhi]; [lia|].
  assert (n * 2 ^ (52 - Z.log2 n) < 2 ^ 53)%Z as Hlt.
  { replace (2 ^ 53)%Z with (2 ^ Z.succ (Z.log2 n) * 2 ^ (52 - Z.log2 n))%Z
      by (rewrite <- Z.pow_add_r by lia; f_equal; lia).
    apply Z.mul_lt_mono_pos_r; [apply Z.pow_pos_nonneg; lia|done]. }
  assert (0 < 2 ^ Z.of_nat k)%Z as Hk by (apply Z.pow_pos_nonneg; lia).
  assert (Z.pos m < 2 ^ 53)%Z by nia.
  assert (Z.of_nat k < 53)%Z by (apply (Z.pow_lt_mono_r_iff 2); nia).
  unfold f64_mul, SFmul. simpl xorb. rewrite Pos2Z.inj_mul.
  assert (Z.log2 (Zpos m * Zpos c) ≤ 150)%Z.
  { pose proof (Z.log2_mul_above (Zpos m) (Zpos c)).
    assert (Z.log2 (Zpos m) < 53)%Z by (apply Z.log2_lt_pow2; lia). lia. }
  destruct (round_aux_spec (Zpos m * Zpos c) (Z.log2 n - 52 + Z.of_nat k + -53))
    as (m2 & k2 & -> & Hm2); [split; lia|lia|].
  rewrite (f64_trunc_value _ _ (round53 (n * Zpos c) * 2 ^ (52 - Z.log2 n)) (105 - Z.log2 n));
    [|lia|lia|].
  - replace (2 ^ (105 - Z.log2 n))%Z with (2 ^ 53 * 2 ^ (52 - Z.log2 n))%Z
      by (rewrite <- Z.pow_add_r by lia; f_equal; lia).
    rewrite Z.div_mul_cancel_r; [done|lia|apply Z.pow_nonzero; lia].
  - replace (Z.log2 n - 52 + Z.of_nat k + -53 + Z.of_nat k2 + (105 - Z.log2 n))%Z
      with (Z.of_nat k2 + Z.of_nat k)%Z by lia.
    rewrite Z.pow_add_r, Z.mul_assoc, Hm2, <- round53_scale by lia.
    replace (52 - Z.log2 n)%Z with (Z.of_nat (Z.to_nat (52 - Z.log2 n))) by lia.
    rewrite <- round53_scale by lia. f_equal.
    rewrite Z2Nat.id by lia. nia.
Qed.
