(* ===== verification/Benchmark.v ===== *)
(** The benchmark of [benchmark/]: the report with its percentiles, one message of each
    suite, and the suite manager. The clients and their loops are in BenchClients. *)
From S2P Require Import Prelude GoRuntime Slices Types Messages Float64.
From stdpp Require Import sorting.

(** * The report *)

Record Report := MkReport {
  TotalClients : Z;
  MessagesPerClient : Z;
  TotalMessages : Z;
  SuccessMessages : Z;
  FailedMessages : Z;
  TotalDuration : Z;
  AvgLatency : Z;
  LatencyHistogram : list Z;
  P50Latency : Z;
  P90Latency : Z;
  P99Latency : Z;
  Throughput : float64;
  MemoryUsed : Z;
  Jitter : float64;
  LatencyStdDev : float64;
}.

Definition NewReport : Report :=
  MkReport 0 0 0 0 0 0 0 [] 0 0 0 f64_zero 0 f64_zero f64_zero.

Definition set_clients (clients perClient : Z) (r : Report) : Report :=
  MkReport clients perClient (TotalMessages r) (SuccessMessages r) (FailedMessages r)
    (TotalDuration r) (AvgLatency r) (LatencyHistogram r) (P50Latency r) (P90Latency r)
    (P99Latency r) (Throughput r) (MemoryUsed r) (Jitter r) (LatencyStdDev r).
Definition set_hist (h : list Z) (r : Report) : Report :=
  MkReport (TotalClients r) (MessagesPerClient r) (TotalMessages r) (SuccessMessages r)
    (FailedMessages r) (TotalDuration r) (AvgLatency r) h (P50Latency r) (P90Latency r)
    (P99Latency r) (Throughput r) (MemoryUsed r) (Jitter r) (LatencyStdDev r).
Definition set_total (t : Z) (r : Report) : Report :=
  MkReport (TotalClients r) (MessagesPerClient r) t (SuccessMessages r) (FailedMessages r)
    (TotalDuration r) (AvgLatency r) (LatencyHistogram r) (P50Latency r) (P90Latency r)
    (P99Latency r) (Throughput r) (MemoryUsed r) (Jitter r) (LatencyStdDev r).
Definition set_counts (success failed duration : Z) (r : Report) : Report :=
  MkReport (TotalClients r) (MessagesPerClient r) (TotalMessages r) success failed
    duration (AvgLatency r) (LatencyHistogram r) (P50Latency r) (P90Latency r)
    (P99Latency r) (Throughput r) (MemoryUsed r) (Jitter r) (LatencyStdDev r).
Definition set_latencies (avg : Z) (h : list Z) (p50 p90 p99 : Z) (r : Report) : Report :=
  MkReport (TotalClients r) (MessagesPerClient r) (TotalMessages r) (SuccessMessages r)
    (FailedMessages r) (TotalDuration r) avg h p50 p90 p99
    (Throughput r) (MemoryUsed r) (Jitter r) (LatencyStdDev r).
Definition set_rates (throughput : float64) (memory : Z) (jitter : float64) (r : Report)
    : Report :=
  MkReport (TotalClients r) (MessagesPerClient r) (TotalMessages r) (SuccessMessages r)
    (FailedMessages r) (TotalDuration r) (AvgLatency r) (LatencyHistogram r)
    (P50Latency r) (P90Latency r) (P99Latency r) throughput memory jitter (LatencyStdDev r).

(** [int(float64(n) * c)] *)
Definition percentile_index (n : Z) (c : float64) : Z := f64_trunc (f64_mul (f64_of_Z n) c).

(** [l[i]] *)
Definition index_Z {S} (l : list Z) (i : Z) : Go S Z :=
  if decide (0 ≤ i < Z.of_nat (length l))%Z then mret (l !!! Z.to_nat i)
  else go_panic PanicIndex.

(** [totalLatency], an [int64] sum. *)
Definition sum_latency (l : list Z) : Z := foldl (λ t x, i64 (t + x)) 0%Z l.

(** [calculateStdDev(latencies)], in seconds. *)
Definition calculateStdDev (latencies : list Z) : float64 :=
  match latencies with
  | [] => f64_zero
  | _ =>
      let n := f64_of_Z (Z.of_nat (length latencies)) in
      let mean := f64_div (Seconds (sum_latency latencies)) n in
      let variance := foldl (λ v latency,
        let diff := f64_sub (Seconds latency) mean in
        f64_add v (f64_mul diff diff)) f64_zero latencies in
      math_Sqrt (f64_div variance n)
  end.

(** The part of [Finalize] on a histogram that is not empty. *)
Definition finalize_latencies : Go Report () := λ r,
  (let n := Z.of_nat (length (LatencyHistogram r)) in
   let avg := Z.quot (sum_latency (LatencyHistogram r)) n in
   let h := merge_sort Z.le (LatencyHistogram r) in
   p50 ← index_Z h (n / 2);
   p90 ← index_Z h (percentile_index n f64_0_9);
   p99 ← index_Z h (percentile_index n f64_0_99);
   go_put (set_latencies avg h p50 p90 p99 r) : Go Report ()) r.

(** The part of [Finalize] after it: [memory] is what [GetMemoryUsage] reads from the
    run time. *)
Definition finalize_rates (memory : Z) (r : Report) : Report :=
  let seconds := Seconds (TotalDuration r) in
  let throughput :=
    if f64_gtb seconds f64_zero then f64_div (f64_of_Z (SuccessMessages r)) seconds
    else f64_zero in
  set_rates throughput memory (calculateStdDev (LatencyHistogram r)) r.

(** [r.Finalize()] *)
Definition Finalize (memory : Z) : Go Report () := λ r,
  let r := set_total (i64 (TotalClients r * MessagesPerClient r)) r in
  ((if decide (0 < length (LatencyHistogram r)) then finalize_latencies else mret ());;
   (λ r, Done (finalize_rates memory r) ()) : Go Report ()) r.

(** The lines of [PrintReport]: the format and the values it is printed with; [Comma] is
    that of [go-humanize]. *)
Inductive printed :=
  | PInt (n : Z)
  | PDuration (d : Z)
  | PString (s : string)
  | PFloat (x : float64).

Definition report_lines (Comma : Z → string) (r : Report) : list (string * list printed) :=
  [("--- Benchmark Report ---", []);
   ("Total Clients: %d", [PInt (TotalClients r)]);
   ("Messages per Client: %d", [PInt (MessagesPerClient r)]);
   ("Total Messages: %d", [PInt (TotalMessages r)]);
   ("Success Messages: %d", [PInt (SuccessMessages r)]);
   ("Failed Messages: %d", [PInt (FailedMessages r)]);
   ("Total Duration: %s", [PDuration (TotalDuration r)]);
   ("Average Latency: %s", [PDuration (AvgLatency r)]);
   ("P50 Latency: %s", [PDuration (P50Latency r)]);
   ("P90 Latency: %s", [PDuration (P90Latency r)]);
   ("P99 Latency: %s", [PDuration (P99Latency r)]);
   ("Throughput: %s messages/second", [PString (Comma (f64_trunc (Throughput r)))]);
   ("Memory Used: %.2f MB", [PFloat (f64_div (f64_of_Z (MemoryUsed r)) (f64_of_Z 1048576))]);
   ("Latency Jitter (StdDev): %.6fµs", [PFloat (f64_mul (Jitter r) (f64_of_Z 1000000))]);
   (EmptyString, [])].

(** * The messages *)

(** [[]byte(...)] of the benchmark's text. *)
Definition bench_text : list byte := String.list_byte_of_string "benchmark test data".

(** [createWriteMessage()]: [key] is what [rand.Read] leaves in the array; its error
    is dropped. *)
Definition createWriteMessage (key : array32) : Go heap Message :=
  data ← fresh_bytes bench_text;
  mret (MkMessage WriteHandlerType key data).

(** [createReadMessage(key)] *)
Definition createReadMessage (key : array32) : Message :=
  MkMessage ReadHandlerType key nil_slice.

(** * The messages of a client *)

(** A call that may never return: the connections have no deadlines, and the context of
    the benchmark is tested between the messages only. *)
Inductive reply (A : Type) := Returns (a : A) | NeverReturns.
Arguments Returns {A} _.
Arguments NeverReturns {A}.

(** What the network does to one message of a client: what [Write] and [Read] return, and
    the measured latency. *)
Record io := MkIo {
  io_write : reply (option error);
  io_read : reply (res (list byte));
  io_latency : Z;
}.

(** The outcome of one message, with or without a call of [Write]: a success, an error the
    client's goroutine returns with, counted as a failure or not, or none at all. *)
Inductive message_result :=
  | MsgOk (sent : bool)
  | MsgFail (sent counted : bool) (e : error)
  | MsgHangs (sent : bool).

(** [EncodeWithBuffer] into a buffer of the pool, by the lengths. *)
Definition encode_check (buflen datalen : Z) : option error :=
  if decide (buflen < 37 + datalen)%Z
  then Some (Errorf "buffer too small, need at least %d bytes" [AInt (37 + datalen)])
  else None.

(** Sizes: the pool's buffers, the write message's data. *)
Definition pool_buffer : Z := 64.
Definition bench_data : Z := Z.of_nat (length bench_text).

(** Reading the response. *)
Definition read_message (sent : bool) (msg : string) (i : io) : message_result :=
  match io_read i with
  | NeverReturns => MsgHangs sent
  | Returns (Err e) => MsgFail sent true (Wrap e msg)
  | Returns (Ok _) => MsgOk sent
  end.

(** Sending the write message and reading the response. *)
Definition write_message (encode_msg write_msg read_msg : string) (i : io) : message_result :=
  match encode_check pool_buffer bench_data with
  | Some e => MsgFail false false (Wrap e encode_msg)
  | None =>
      match io_write i with
      | NeverReturns => MsgHangs true
      | Returns (Some e) => MsgFail true true (Wrap e write_msg)
      | Returns None => read_message true read_msg i
      end
  end.

(** The body of the loop for TCP and UDP: a write is sent and its response read, a
    read only reads. *)
Definition net_message (name : string) (isWrite : bool) (i : io) : message_result :=
  let read_msg := "failed to read " +:+ name +:+ " response" in
  if isWrite then
    write_message "failed to encode message: %w" ("failed to write " +:+ name +:+ " message")
      read_msg i
  else read_message false read_msg i.

Definition tcp_message := net_message "TCP".
Definition udp_message := net_message "UDP".

(** UDS also checks that the response to a write is 0x00. *)
Definition uds_message (isWrite : bool) (i : io) : message_result :=
  match net_message "UDS" isWrite i, io_read i with
  | MsgOk true, Returns (Ok resp) =>
      if decide (default x00 (head resp) = x00) then MsgOk true
      else MsgFail true true (Errorf "received error response from UDS server" [])
  | r, _ => r
  end.

(** QUIC does nothing for a read. *)
Definition quic_message (isWrite : bool) (i : io) : message_result :=
  if isWrite then
    write_message "failed to encode message: %w" "failed to write QUIC message: %w"
      "failed to read QUIC response: %w" i
  else MsgOk false.

(** Dummy: the error of [Write] is assigned to a shadowing variable, and the one
    tested afterwards stays nil. *)
Definition dummy_message (isWrite : bool) (i : io) : message_result :=
  match encode_check pool_buffer (if isWrite then bench_data else 0) with
  | Some e => MsgFail false false (Wrap e "failed to encode message: %w")
  | None => match io_write i with Returns _ => MsgOk true | NeverReturns => MsgHangs true end
  end.

(** * The suite manager *)

Section suites.
Context {St : Type}.

(** The interface [TransportSuite]. *)
Record TransportSuite := MkSuite {
  suite_Start : Go St (option error);
  suite_Stop : Go St (option error);
  suite_RunWriteBenchmark : Z → Z → Go St (option error);
  suite_RunReadBenchmark : Z → Z → Go St (option error);
}.

Definition RegisterSuite (suiteType : string) (s : TransportSuite)
    (sm : gmap string TransportSuite) : gmap string TransportSuite := <[suiteType := s]> sm.

(** The suites [NewSuiteManager] registers. *)
Definition NewSuiteManager (quic dummy uds tcp udp : TransportSuite)
    : gmap string TransportSuite :=
  RegisterSuite "udp" udp (RegisterSuite "tcp" tcp (RegisterSuite "uds" uds
    (RegisterSuite "dummy" dummy (RegisterSuite "quic" quic ∅)))).

Definition not_found (suiteType : string) : error :=
  Errorf "suite type %s not found" [AStr suiteType].

Definition SuiteManager_Start (sm : gmap string TransportSuite) (t : string)
    : Go St (option error) :=
  match sm !! t with Some s => suite_Start s | None => mret (Some (not_found t)) end.

Definition SuiteManager_Stop (sm : gmap string TransportSuite) (t : string)
    : Go St (option error) :=
  match sm !! t with Some s => suite_Stop s | None => mret None end.

Definition SuiteManager_RunWriteBenchmark (sm : gmap string TransportSuite) (t : string)
    (numClients perClient : Z) : Go St (option error) :=
  match sm !! t with
  | Some s => suite_RunWriteBenchmark s numClients perClient
  | None => mret (Some (not_found t))
  end.

Definition SuiteManager_RunReadBenchmark (sm : gmap string TransportSuite) (t : string)
    (numClients perClient : Z) : Go St (option error) :=
  match sm !! t with
  | Some s => suite_RunReadBenchmark s numClients perClient
  | None => mret (Some (not_found t))
  end.
End suites.

(** * Percentiles *)

(** The constants 0.9 and 0.99, times [2^53]. *)
Definition const_0_9 : Z := 8106479329266893.
Definition const_0_99 : Z := 8917127262193582.

Lemma percentile_index_eq n :
  (0 < n < 2 ^ 53)%Z →
  percentile_index n f64_0_9 = (round53 (n * const_0_9) / 2 ^ 53)%Z ∧
  percentile_index n f64_0_99 = (round53 (n * const_0_99) / 2 ^ 53)%Z.
Proof. intros Hn. split; by apply f64_mul_trunc. Qed.

Lemma round53_near p :
  (0 < p → p * (2 ^ 52 - 1) ≤ round53 p * 2 ^ 52 ≤ p * (2 ^ 52 + 1))%Z.
Proof.
  intros Hp. unfold round53. set (sh := Z.max 0 (Z.log2 p - 52)).
  pose proof (Z.log2_spec p Hp) as [Hlog _]. pose proof (Z.log2_nonneg p).
  assert (0 < 2 ^ sh)%Z as Hsh by (apply Z.pow_pos_nonneg; lia).
  pose proof (Z.div_mod p (2 ^ sh)) as Hdm. pose proof (Z.mod_pos_bound p (2 ^ sh) Hsh).
  cbv zeta. set (q := (p / 2 ^ sh)%Z) in *. set (r := (p mod 2 ^ sh)%Z) in *.
  assert (r = 0 ∨ 2 ^ sh * 2 ^ 52 ≤ p)%Z as Hcase.
  { destruct (decide (Z.log2 p ≤ 52)%Z).
    - left. unfold r, sh. rewrite Z.max_l by lia. apply Z.mod_1_r.
    - right. rewrite <- Z.pow_add_r by lia.
      replace (sh + 52)%Z with (Z.log2 p) by lia. done. }
  set (up := if decide _ then _ else _).
  assert (0 ≤ up ≤ 1 ∧ (r = 0 → up = 0))%Z as [Hup Hup0].
  { unfold up. split; [|intros ->]; [repeat case_decide; try lia; by destruct (Z.even q)|].
    by rewrite decide_True by lia. }
  destruct Hcase as [Hr|Hr].
  - rewrite Hup0 by done. nia.
  - nia.
Qed.

Lemma percentile_bounds n c :
  (0 < n → 0 < c → c * (2 ^ 52 + 1) < 2 ^ 105 →
   0 ≤ round53 (n * c) / 2 ^ 53 < n)%Z.
Proof.
  intros Hn Hc Hb.
  pose proof (round53_near (n * c) ltac:(lia)) as [H1 H2].
  split; [apply Z.div_pos; [|lia]; nia|].
  apply Z.div_lt_upper_bound; [lia|]. nia.
Qed.

Lemma percentile_half n : (0 < n → n / 2 ≤ round53 (n * const_0_9) / 2 ^ 53)%Z.
Proof.
  intros Hn.
  pose proof (round53_near (n * const_0_9)) as Hr. unfold const_0_9 in *.
  apply Z.div_le_lower_bound; [lia|]. pose proof (Z.mul_div_le n 2). lia.
Qed.

Lemma percentile_mono n :
  (0 < n → round53 (n * const_0_9) / 2 ^ 53 ≤ round53 (n * const_0_99) / 2 ^ 53)%Z.
Proof.
  intros Hn. apply Z.div_le_mono; [lia|].
  pose proof (round53_near (n * const_0_9)). pose proof (round53_near (n * const_0_99)).
  unfold const_0_9, const_0_99 in *. lia.
Qed.

Lemma sorted_index (l : list Z) (i j : nat) :
  StronglySorted Z.le l → i ≤ j → j < length l → (l !!! i ≤ l !!! j)%Z.
Proof.
  revert i j. induction l as [|x l IH]; intros i j Hs Hij Hj; simpl in *; [lia|].
  apply StronglySorted_inv in Hs as [Hs Hall].
  destruct i as [|i], j as [|j]; simpl; [lia| |lia|apply IH; [done|lia|lia]].
  eapply Forall_forall in Hall; [exact Hall|].
  apply list_elem_of_lookup_total_2. lia.
Qed.

Lemma index_Z_ok {S} (l : list Z) (i : Z) (s : S) :
  (0 ≤ i < Z.of_nat (length l))%Z → index_Z l i s = Done s (l !!! Z.to_nat i).
Proof. intros. unfold index_Z. by rewrite decide_True. Qed.

(** The percentiles of a histogram that is not empty. *)
Lemma finalize_latencies_spec r (l := LatencyHistogram r) :
  l ≠ [] → (Z.of_nat (length l) < 2 ^ 53)%Z →
  ∃ p50 p90 p99, let h := merge_sort Z.le l in
    finalize_latencies r
    = Done (set_latencies (Z.quot (sum_latency l) (Z.of_nat (length l))) h p50 p90 p99 r) () ∧
    p50 ∈ l ∧ p90 ∈ l ∧ p99 ∈ l ∧ (p50 ≤ p90 ≤ p99)%Z.
Proof.
  intros Hne Hlt. set (h := merge_sort Z.le l).
  assert (h ≡ₚ l) as Hperm by apply merge_sort_Permutation.
  assert (StronglySorted Z.le h) as Hsort by (apply StronglySorted_merge_sort; apply _).
  assert (length h = length l) as Hlen by by rewrite Hperm.
  assert (0 < Z.of_nat (length l))%Z as Hn by (destruct l; [done|simpl; lia]).
  set (n := Z.of_nat (length l)) in *.
  destruct (percentile_index_eq n) as [E9 E99]; [lia|].
  pose proof (percentile_bounds n const_0_9 Hn ltac:(done) ltac:(done)).
  pose proof (percentile_bounds n const_0_99 Hn ltac:(done) ltac:(done)).
  pose proof (percentile_half n Hn). pose proof (percentile_mono n Hn).
  assert (0 ≤ n / 2)%Z by (apply Z.div_pos; lia).
  exists (h !!! Z.to_nat (n / 2)), (h !!! Z.to_nat (percentile_index n f64_0_9)),
    (h !!! Z.to_nat (percentile_index n f64_0_99)).
  unfold finalize_latencies. fold l n h. rewrite E9, E99.
  erewrite go_bind_done by (apply index_Z_ok; lia).
  erewrite go_bind_done by (apply index_Z_ok; lia).
  erewrite go_bind_done by (apply index_Z_ok; lia).
  assert (∀ i : nat, i < length h → h !!! i ∈ l) as Hin.
  { intros i Hi. rewrite <- Hperm. by apply list_elem_of_lookup_total_2. }
  split_and!; try done; try (apply Hin; lia); apply sorted_index; (done || lia).
Qed.

(** [Finalize] never panics on a histogram of samples: the indices of the
    percentiles, computed in [float64], are in range; it sorts the samples and
    reports members of them with P50 at most P90 at most P99, the average is the
    truncated quotient of their sum, the total is the product of clients and
    messages whatever was counted, the jitter is the deviation of the sorted samples,
    and the throughput is the quotient by the seconds, or zero where they are not
    positive. *)
Theorem Finalize_percentiles (memory : Z) (r : Report) :
  LatencyHistogram r ≠ [] → (Z.of_nat (length (LatencyHistogram r)) < 2 ^ 53)%Z →
  ∃ r', Finalize memory r = Done r' () ∧
    LatencyHistogram r' ≡ₚ LatencyHistogram r ∧
    StronglySorted Z.le (LatencyHistogram r') ∧
    P50Latency r' ∈ LatencyHistogram r ∧ P90Latency r' ∈ LatencyHistogram r ∧
    P99Latency r' ∈ LatencyHistogram r ∧
    (P50Latency r' ≤ P90Latency r' ≤ P99Latency r')%Z ∧
    AvgLatency r' = Z.quot (sum_latency (LatencyHistogram r))
                      (Z.of_nat (length (LatencyHistogram r))) ∧
    TotalMessages r' = i64 (TotalClients r * MessagesPerClient r) ∧
    Jitter r' = calculateStdDev (LatencyHistogram r') ∧
    Throughput r' = (if f64_gtb (Seconds (TotalDuration r)) f64_zero
                     then f64_div (f64_of_Z (SuccessMessages r)) (Seconds (TotalDuration r))
                     else f64_zero).
Proof.
  intros Hne Hlt. unfold Finalize. cbv zeta. simpl LatencyHistogram.
  rewrite decide_True by (destruct (LatencyHistogram r); [done|simpl; lia]).
  set (r0 := set_total _ r). destruct (finalize_latencies_spec r0 Hne Hlt)
    as (p50 & p90 & p99 & E & ?).
  erewrite go_bind_done by exact E. eexists. split; [done|].
  simpl. destruct_and!. split_and!; try done.
  - apply merge_sort_Permutation.
  - apply StronglySorted_merge_sort; apply _.
Qed.

(** * The requests *)

Lemma encode_check_spec m buf h :
  s_len buf = Z.to_nat pool_buffer →
  match encode_check pool_buffer (Z.of_nat (s_len (Data m))) with
  | Some e => EncodeWithBuffer m buf h = Done h (Err e)
  | None => 37 + s_len (Data m) ≤ s_len buf
  end.
Proof.
  intros Hb. unfold encode_check. case_decide.
  - replace (37 + _)%Z with (1 + 32 + 4 + Z.of_nat (s_len (Data m)))%Z by lia.
    apply EncodeWithBuffer_too_small. rewrite Hb. unfold pool_buffer in *. lia.
  - unfold pool_buffer in *. lia.
Qed.

(** The frame [EncodeWithBuffer] makes of a message in a buffer of the pool. *)
Lemma pool_frame h m buf :
  slice_ok h buf → slice_ok h (Data m) → no_alias m buf → s_len buf = Z.to_nat pool_buffer →
  37 + s_len (Data m) ≤ s_len buf →
  ∃ h' frame m', EncodeWithBuffer m buf h = Done h' (Ok frame) ∧
    s_len frame = 37 + s_len (Data m) ∧
    Decode frame h' = Done h' (Ok m') ∧ value_of h' m' = value_of h m.
Proof.
  intros Hbuf Hd Hal Hlen Hfit.
  destruct (EncodeWithBuffer_fits h m buf Hbuf Hd Hal Hfit) as (h' & E & Hw & Hok & _ & _).
  set (frame := Slice _ _ _ _) in *.
  assert (length_field_fits (bytes_of h' frame)) as Hff.
  { unfold length_field_fits. rewrite Hw, length_field_wire. simpl mv_data.
    rewrite length_bytes_of, u32_small by (done || unfold pool_buffer in *; lia).
    unfold pool_buffer in *; lia. }
  destruct (Decode_spec h' frame Hok (or_introl Hff)) as (r & Hr & Hp).
  pose proof (parse_wire_app (value_of h m) []) as Hp'. rewrite !app_nil_r in Hp'.
  rewrite Hw, Hp' in Hp.
  simpl mv_data in Hp. rewrite length_bytes_of in Hp by done.
  rewrite u32_small in Hp by (unfold pool_buffer in *; lia).
  rewrite Nat2Z.id, firstn_all2 in Hp by (by rewrite length_bytes_of).
  destruct r as [m'|]; [|done]. destruct Hp as ([= Hv] & _).
  exists h', frame, m'. split_and!; [done..|]. unfold value_of. simpl. congruence.
Qed.

(** Every request of the benchmarks fits the buffers of the pool, so that encoding it
    never fails, and its frame decodes to the handler, key and data it was made
    with: a write carries the benchmark's text under the key of the generator, a read
    carries nothing. *)
Theorem bench_requests_decode (h : heap) (key : array32) (buf : slice) :
  slice_ok h buf → s_len buf = Z.to_nat pool_buffer → s_buf buf < length h →
  (∃ h1 m h2 frame m', createWriteMessage key h = Done h1 m ∧
     EncodeWithBuffer m buf h1 = Done h2 (Ok frame) ∧ s_len frame = 56 ∧
     Decode frame h2 = Done h2 (Ok m') ∧
     value_of h2 m' = MsgVal WriteHandlerType key bench_text) ∧
  (∃ h2 frame m', EncodeWithBuffer (createReadMessage key) buf h = Done h2 (Ok frame) ∧
     s_len frame = 37 ∧ Decode frame h2 = Done h2 (Ok m') ∧
     value_of h2 m' = MsgVal ReadHandlerType key []).
Proof.
  intros Hok Hlen Hb. split.
  - destruct (pool_frame (h ++ [bench_text])
      (MkMessage WriteHandlerType key (Slice (length h) 0 (length bench_text) (length bench_text)))
      buf) as (h2 & frame & m' & E & Hl & HD & Hv).
    + by apply slice_ok_alloc.
    + split; simpl; [done|]. by rewrite buf_of_alloc.
    + right. simpl. lia.
    + done.
    + rewrite Hlen. vm_compute. lia.
    + eexists _, _, h2, frame, m'. split_and!; [done|done|done|done|].
      rewrite Hv. unfold value_of, bytes_of. simpl. by rewrite buf_of_alloc.
  - destruct (pool_frame h (createReadMessage key) buf)
      as (h2 & frame & m' & E & Hl & HD & Hv); [done|split; simpl; lia|by left|done|rewrite Hlen; vm_compute; lia|].
     exists h2, frame, m'. split_and!; [done|done|done|by rewrite Hv].
Qed.

Lemma Finalize_counts memory r r' :
  Finalize memory r = Done r' () →
  SuccessMessages r' = SuccessMessages r ∧ FailedMessages r' = FailedMessages r ∧
  TotalMessages r' = i64 (TotalClients r * MessagesPerClient r).
Proof.
  unfold Finalize, mbind, go_bind. cbv zeta. case_decide; [|by intros [= <-]].
  unfold finalize_latencies, mbind, go_bind, index_Z.
  repeat (case_decide; [|done]). by intros [= <-].
Qed.

Lemma Finalize_returns memory r :
  (Z.of_nat (length (LatencyHistogram r)) < 2 ^ 53)%Z → ∃ r', Finalize memory r = Done r' ().
Proof.
  intros Hlt. unfold Finalize. cbv zeta. simpl LatencyHistogram. case_decide as Hl.
  - destruct (finalize_latencies_spec (set_total (i64 (TotalClients r * MessagesPerClient r)) r))
      as (p50 & p90 & p99 & E & _); [by intros E; simpl in E; rewrite E in Hl; simpl in Hl; lia|done|].
    erewrite go_bind_done by exact E. by eexists.
  - by eexists.
Qed.

(** The dummy suite cannot see a failed write: a message whose [Write] fails counts as a
    success, like one whose [Write] succeeds. *)
Theorem dummy_counts_failed_writes (isWrite : bool) (i : io) (e : option error) :
  io_write i = Returns e → dummy_message isWrite i = MsgOk true.
Proof. intros Hw. unfold dummy_message. rewrite Hw. by destruct isWrite. Qed.

(** The read benchmarks of the TCP, UDP, UDS and QUIC suites write no request to
    their connections, whatever the network does: what they read or time is not
    the answer to a read. *)
Theorem read_benchmarks_send_nothing (message : bool → io → message_result) (i : io) :
  message ∈ [tcp_message; udp_message; uds_message; quic_message] →
  match message false i with MsgOk sent | MsgFail sent _ _ | MsgHangs sent => sent = false end.
Proof.
  intros Hm.
  repeat (apply elem_of_cons in Hm as [->|Hm]); [..|by apply not_elem_of_nil in Hm].
  - unfold tcp_message, net_message, read_message. by destruct (io_read i) as [[]|].
  - unfold udp_message, net_message, read_message. by destruct (io_read i) as [[]|].
  - unfold uds_message, net_message, read_message. by destruct (io_read i) as [[]|].
  - done.
Qed.

(** The suite manager runs the suite registered last under a name and only it; for
    a name without suite the benchmarks and [Start] fail with the name, while
    [Stop] reports success and stops nothing. *)
Theorem suite_manager_runs_registered {St} (sm : gmap string (@TransportSuite St))
    (t t' : string) (s : TransportSuite) (n m : Z) (st : St) :
  (let sm' := RegisterSuite t s sm in
   SuiteManager_Start sm' t' st =
     (if decide (t' = t) then suite_Start s st else SuiteManager_Start sm t' st) ∧
   SuiteManager_RunWriteBenchmark sm' t' n m st =
     (if decide (t' = t) then suite_RunWriteBenchmark s n m st
      else SuiteManager_RunWriteBenchmark sm t' n m st) ∧
   SuiteManager_Stop sm' t' st =
     (if decide (t' = t) then suite_Stop s st else SuiteManager_Stop sm t' st)) ∧
  (sm !! t = None →
   SuiteManager_Start sm t st = Done st (Some (not_found t)) ∧
   SuiteManager_RunReadBenchmark sm t n m st = Done st (Some (not_found t)) ∧
   SuiteManager_Stop sm t st = Done st None).
Proof.
  unfold SuiteManager_Start, SuiteManager_RunWriteBenchmark, SuiteManager_RunReadBenchmark,
    SuiteManager_Stop, RegisterSuite. split; [|by intros ->].
  cbv zeta. rewrite lookup_insert. repeat case_decide; done || congruence.
Qed.
