(* ===== verification/BenchClients.v ===== *)
(** The clients of a benchmark as goroutines: their loop one access to the shared state at
    a time, with the unsynchronised [append] to the histogram of the report, the error
    group they run in, and [runBenchmark] on top. *)
From S2P Require Import Prelude GoRuntime Slices Types Messages Float64 Benchmark.

(** * The shared state *)

(** A backing array: how many elements it has room for, and those written so far. *)
Record backing := MkBacking { bk_cap : nat; bk_data : list Z }.

(** The header of the slice in the field [LatencyHistogram]: its array, its length. *)
Record slice_header := MkHeader { sh_array : nat; sh_len : nat }.

(** Where a client's goroutine stands: in [AcquireClient]; at the test of the loop and its
    [select]; in the [Write] and [Read] of a message; before the three parts of the
    [append], with the sample and the header it loaded or built; at a [return] of an
    error; returned. *)
Inductive client_pc :=
  | AtAcquire (r : reply (option error))
  | AtSelect
  | AtMessage
  | AtLoad (x : Z)
  | AtAppend (x : Z) (h : slice_header)
  | AtStore (h : slice_header)
  | AtReturn (e : error)
  | Returned (r : option error).

(** A client: what the network does to its messages, the variable [j], where it stands. *)
Record client := MkClient { cl_ios : list io; cl_j : nat; cl_pc : client_pc }.

Definition at_pc (p : client_pc) (c : client) : client := MkClient (cl_ios c) (cl_j c) p.
Definition next_message (c : client) : client := MkClient (cl_ios c) (S (cl_j c)) AtSelect.

(** The counters, the arrays, the field of the report, why the context is done, the first
    error of the group, the clients. *)
Record group := MkGroup {
  g_success : Z;
  g_failed : Z;
  g_arrays : list backing;
  g_hist : slice_header;
  g_ctx : option error;
  g_err : option error;
  g_clients : list client;
}.

Definition set_client (k : nat) (c : client) (g : group) : group :=
  MkGroup (g_success g) (g_failed g) (g_arrays g) (g_hist g) (g_ctx g) (g_err g)
    (<[k := c]> (g_clients g)).

(** [atomic.AddInt64] to the counters. *)
Definition add_success (g : group) : group :=
  MkGroup (i64 (g_success g + 1)) (g_failed g) (g_arrays g) (g_hist g) (g_ctx g) (g_err g)
    (g_clients g).
Definition add_failed (g : group) : group :=
  MkGroup (g_success g) (i64 (g_failed g + 1)) (g_arrays g) (g_hist g) (g_ctx g) (g_err g)
    (g_clients g).

Definition set_arrays (bs : list backing) (g : group) : group :=
  MkGroup (g_success g) (g_failed g) bs (g_hist g) (g_ctx g) (g_err g) (g_clients g).
Definition store_hist (h : slice_header) (g : group) : group :=
  MkGroup (g_success g) (g_failed g) (g_arrays g) h (g_ctx g) (g_err g) (g_clients g).

(** The context becomes done, for the first reason there is. *)
Definition cancel_ctx (e : error) (g : group) : group :=
  MkGroup (g_success g) (g_failed g) (g_arrays g) (g_hist g)
    (match g_ctx g with None => Some e | r => r end) (g_err g) (g_clients g).

(** The error group keeps the first error and cancels its context. *)
Definition group_error (e : error) (g : group) : group :=
  match g_err g with
  | Some _ => g
  | None =>
      cancel_ctx (External "context" "Canceled")
        (MkGroup (g_success g) (g_failed g) (g_arrays g) (g_hist g) (g_ctx g) (Some e)
           (g_clients g))
  end.

(** The elements a header stands for. *)
Definition elements (bs : list backing) (h : slice_header) : list Z :=
  match bs !! sh_array h with Some b => take (sh_len h) (bk_data b) | None => [] end.
Definition histogram (g : group) : list Z := elements (g_arrays g) (g_hist g).

(** * Steps *)

Section clients.
(** A message, by what the network does to it, and the sampling: every how many messages
    the latency is sampled. *)
Context (message : io → message_result) (sampling : Z).

(** [j%latencySampling == 0] *)
Definition sampled (j : nat) : bool := bool_decide (Z.rem (Z.of_nat j) sampling = 0)%Z.

(** [append(hist, x)] on a header: in place while there is room, otherwise to a new array
    with room for [extra] more elements. *)
Definition append_to (extra : nat) (x : Z) (h : slice_header) (bs : list backing)
    : option (list backing * slice_header) :=
  match bs !! sh_array h with
  | None => None
  | Some b =>
      Some (if decide (sh_len h < bk_cap b)
            then (<[sh_array h := MkBacking (bk_cap b)
                      (take (sh_len h) (bk_data b) ++ x :: drop (S (sh_len h)) (bk_data b))]> bs,
                  MkHeader (sh_array h) (S (sh_len h)))
            else (bs ++ [MkBacking (S (sh_len h) + extra)
                           (take (sh_len h) (bk_data b) ++ [x])],
                  MkHeader (length bs) (S (sh_len h))))
  end.

(** One step of client [k]: at most one access to the shared state. *)
Definition client_step (k extra : nat) : Go group () := λ g,
  match g_clients g !! k with
  | None => Blocked
  | Some c =>
      match cl_pc c with
      | AtAcquire NeverReturns => Blocked
      | AtAcquire (Returns (Some e)) => Done (set_client k (at_pc (AtReturn e) c) g) ()
      | AtAcquire (Returns None) => Done (set_client k (at_pc AtSelect c) g) ()
      | AtSelect =>
          match cl_ios c !! cl_j c, g_ctx g with
          | None, _ => Done (set_client k (at_pc (Returned None) c) g) ()
          | Some _, Some e => Done (set_client k (at_pc (AtReturn e) c) g) ()
          | Some _, None => Done (set_client k (at_pc AtMessage c) g) ()
          end
      | AtMessage =>
          match cl_ios c !! cl_j c with
          | None => Blocked
          | Some i =>
              match message i with
              | MsgHangs _ => Blocked
              | MsgFail _ counted e =>
                  Done (set_client k (at_pc (AtReturn e) c) (if counted then add_failed g else g)) ()
              | MsgOk _ =>
                  Done (set_client k (if sampled (cl_j c) then at_pc (AtLoad (io_latency i)) c
                                      else next_message c) (add_success g)) ()
              end
          end
      | AtLoad x => Done (set_client k (at_pc (AtAppend x (g_hist g)) c) g) ()
      | AtAppend x h =>
          match append_to extra x h (g_arrays g) with
          | None => Blocked
          | Some (bs, h') => Done (set_client k (at_pc (AtStore h') c) (set_arrays bs g)) ()
          end
      | AtStore h => Done (set_client k (next_message c) (store_hist h g)) ()
      | AtReturn e => Done (set_client k (at_pc (Returned (Some e)) c) (group_error e g)) ()
      | Returned _ => Blocked
      end
  end.

(** What happens next: a client takes a step, or the time of the benchmark is over. *)
Inductive bench_event := RunClient (k extra : nat) | TimeOut.

Definition bench_exec (e : bench_event) : Go group () :=
  match e with
  | RunClient k extra => client_step k extra
  | TimeOut => λ g, Done (cancel_ctx (External "context" "DeadlineExceeded") g) ()
  end.

(** A schedule; the scheduler never picks a client that cannot take a step. *)
Definition attempt (e : bench_event) (g : group) : group :=
  match bench_exec e g with Done g' _ => g' | _ => g end.
Definition run_schedule (es : list bench_event) (g : group) : group := foldl (flip attempt) g es.

(** A client that can take a step. *)
Definition can_run (c : client) : bool :=
  match cl_pc c with
  | AtAcquire NeverReturns | Returned _ => false
  | AtMessage =>
      match cl_ios c !! cl_j c with
      | Some i => match message i with MsgHangs _ => false | _ => true end
      | None => false
      end
  | _ => true
  end.

Definition returned (c : client) : bool := match cl_pc c with Returned _ => true | _ => false end.
Definition all_returned (g : group) : Prop := Forall (λ c, returned c = true) (g_clients g).
#[export] Instance all_returned_dec g : Decision (all_returned g).
Proof. unfold all_returned. apply _. Defined.

(** The steps a client has left at most. *)
Definition client_work (c : client) : nat :=
  let left := length (cl_ios c) - cl_j c in
  match cl_pc c with
  | AtAcquire _ => 5 * left + 4
  | AtSelect => 5 * left + 3
  | AtMessage => 5 * left + 2
  | AtLoad _ => 5 * left + 1
  | AtAppend _ _ => 5 * left
  | AtStore _ => 5 * left - 1
  | AtReturn _ => 1
  | Returned _ => 0
  end.
Definition work (g : group) : nat := sum_list_with client_work (g_clients g).

(** Whatever the schedule left is run to the end: no goroutine that can run waits for
    ever. *)
Fixpoint drain (fuel : nat) (g : group) : group :=
  match fuel with
  | 0 => g
  | S fuel =>
      match list_find (λ c, can_run c = true) (g_clients g) with
      | Some (k, _) => drain fuel (attempt (RunClient k 0) g)
      | None => g
      end
  end.

(** [g.Wait()]: it returns when all clients have, with the first error. *)
Definition group_wait : Go group (option error) := λ g,
  if decide (all_returned g) then Done g (g_err g) else Blocked.

(** The clients on a schedule. *)
Definition run_clients (sched : list bench_event) : Go group (option error) := λ g,
  let g := run_schedule sched g in group_wait (drain (work g) g).
End clients.

(** The clients as [g.Go] launches them, by what [AcquireClient] and the messages meet; the
    array of the histogram has no spare room, like that of [NewReport]. *)
Definition launched_clients (cs : list (reply (option error) * list io)) (hist : list Z) : group :=
  MkGroup 0 0 [MkBacking (length hist) hist] (MkHeader 0 (length hist)) None None
    ((λ c, MkClient c.2 0 (AtAcquire c.1)) <$> cs).

(** * The benchmark *)

(** What a client meets: the error of resolving the server's address, or of dialling
    for QUIC, that of dialling, or of opening the stream, then its messages. *)
Record client_net := MkClientNet {
  cn_resolve : reply (option error);
  cn_dial : reply (option error);
  cn_io : Z → io;
}.

(** [AcquireClient]: its two calls with their messages. *)
Definition acquire_client (resolve_msg dial_msg : string) (c : client_net) : reply (option error) :=
  match cn_resolve c with
  | NeverReturns => NeverReturns
  | Returns (Some e) => Returns (Some (Wrap e resolve_msg))
  | Returns None =>
      match cn_dial c with
      | NeverReturns => NeverReturns
      | Returns (Some e) => Returns (Some (Wrap e dial_msg))
      | Returns None => Returns None
      end
  end.

(** That of the TCP, UDP, UDS and dummy suites, and of QUIC. *)
Definition AcquireClient : client_net → reply (option error) :=
  acquire_client "failed to resolve server address" "failed to connect to server".
Definition quic_AcquireClient : client_net → reply (option error) :=
  acquire_client "failed to dial QUIC server: %w" "failed to open stream: %w".

(** The network a benchmark runs on, by client, and the schedule of its clients. *)
Record network := MkNetwork { nw_client : Z → client_net; nw_sched : list bench_event }.

(** The loops [for i := 1; i <= numClients; i++] and
    [for j := 0; j < numMessagesPerClient; j++]. *)
Definition clients_of (acquire : client_net → reply (option error)) (net : Z → client_net)
    (numClients perClient : Z) : list (reply (option error) * list io) :=
  (λ i, (acquire (net i), cn_io (net i) <$> seqZ 0 perClient)) <$> seqZ 1 numClients.

(** [runBenchmark] of a suite: an error leaves the totals of the report unset. Nothing
    reads [totalLatency]. *)
Definition runBenchmark (acquire : client_net → reply (option error))
    (message : io → message_result) (sampling duration memory : Z) (net : network)
    (numClients numMessagesPerClient : Z) : Go Report (option error) := λ r,
  match run_clients message sampling (nw_sched net)
          (launched_clients (clients_of acquire (nw_client net) numClients numMessagesPerClient)
             (LatencyHistogram r)) with
  | Panicked p => Panicked p
  | Blocked => Blocked
  | Done g err =>
      let r := set_hist (histogram g) (set_clients numClients numMessagesPerClient r) in
      match err with
      | Some e => Done r (Some e)
      | None =>
          let throughput := f64_div (f64_of_Z (g_success g)) (Seconds duration) in
          (Finalize memory;; mret None)
            (set_rates throughput (MemoryUsed r) (calculateStdDev (histogram g))
               (set_total (i64 (g_success g + g_failed g))
                  (set_counts (g_success g) (g_failed g) duration r)))
      end
  end.

Definition tcp_runBenchmark isWrite := runBenchmark AcquireClient (tcp_message isWrite) 500.
Definition udp_runBenchmark isWrite := runBenchmark AcquireClient (udp_message isWrite) 500.
Definition uds_runBenchmark isWrite := runBenchmark AcquireClient (uds_message isWrite) 500.
Definition quic_runBenchmark isWrite := runBenchmark quic_AcquireClient (quic_message isWrite) 500.
Definition dummy_runBenchmark isWrite := runBenchmark AcquireClient (dummy_message isWrite) 500.

(** * Invariants *)

Section invariants.
Context (message : io → message_result) (sampling : Z).
Implicit Types (g : group) (c : client).

Abbreviation is_sampled := (sampled sampling).
Abbreviation step := (client_step message sampling).
Abbreviation exec_event := (bench_exec message sampling).
Abbreviation try_event := (attempt message sampling).
Abbreviation run := (run_schedule message sampling).

(** The latencies a client takes samples of, from message [j] on. *)
Fixpoint samples_from (j : nat) (ios : list io) : list Z :=
  match ios with
  | [] => []
  | i :: ios => (if is_sampled j then [io_latency i] else []) ++ samples_from (S j) ios
  end.
Definition samples : list io → list Z := samples_from 0.

Lemma samples_from_app j l1 l2 :
  samples_from j (l1 ++ l2) = samples_from j l1 ++ samples_from (j + length l1) l2.
Proof.
  revert j. induction l1 as [|i l1 IH]; intros j; simpl; [by rewrite Nat.add_0_r|].
  rewrite IH, <- (assoc_L (++)). by rewrite Nat.add_succ_r.
Qed.

Lemma samples_take_S ios j i :
  ios !! j = Some i →
  samples (take (S j) ios) = samples (take j ios) ++ (if is_sampled j then [io_latency i] else []).
Proof.
  intros Hi. pose proof (lookup_lt_Some _ _ _ Hi). unfold samples.
  rewrite (take_S_r _ _ i), samples_from_app, length_take_le by (done || lia).
  simpl. by rewrite app_nil_r.
Qed.

Lemma samples_length ios : length (samples ios) ≤ length ios.
Proof.
  unfold samples. generalize 0. induction ios as [|i ios IH]; intros j; simpl; [lia|].
  rewrite length_app. specialize (IH (S j)). destruct (is_sampled j); simpl; lia.
Qed.

(** What holds of a client by where it stands. *)
Record client_inv c : Prop := {
  bc_j : cl_j c ≤ length (cl_ios c);
  bc_pc : match cl_pc c with
          | AtMessage => cl_j c < length (cl_ios c)
          | AtLoad x | AtAppend x _ =>
              is_sampled (cl_j c) = true ∧ ∃ i, cl_ios c !! cl_j c = Some i ∧ io_latency i = x
          | AtStore _ => is_sampled (cl_j c) = true ∧ cl_j c < length (cl_ios c)
          | Returned None => cl_j c = length (cl_ios c)
          | _ => True
          end;
}.

(** The successes a client has counted, the samples it has written to an array. *)
Definition counted c : nat :=
  cl_j c + match cl_pc c with AtLoad _ | AtAppend _ _ | AtStore _ => 1 | _ => 0 end.
Definition written_samples c : list Z :=
  samples (take (cl_j c + match cl_pc c with AtStore _ => 1 | _ => 0 end) (cl_ios c)).

Definition header_ok (bs : list backing) (h : slice_header) : Prop :=
  ∃ b, bs !! sh_array h = Some b ∧ sh_len h ≤ length (bk_data b).
Definition client_header c : option slice_header :=
  match cl_pc c with AtAppend _ h | AtStore h => Some h | _ => None end.

(** Counters, arrays and headers: every array holds samples that were written, each of them
    at most once. *)
Record group_inv (hist : list Z) g : Prop := {
  gi_clients : Forall client_inv (g_clients g);
  gi_success : g_success g = i64 (Z.of_nat (sum_list_with counted (g_clients g)));
  gi_clean : g_err g = None →
    Forall (λ c, ∀ e, cl_pc c ≠ Returned (Some e)) (g_clients g) ∧
    (g_failed g = 0%Z ∨ Exists (λ c, ∃ e, cl_pc c = AtReturn e) (g_clients g));
  gi_arrays : Forall (λ b, bk_data b ⊆+ hist ++ (g_clients g ≫= written_samples)) (g_arrays g);
  gi_header : header_ok (g_arrays g) (g_hist g);
  gi_headers : Forall (λ c, ∀ h, client_header c = Some h → header_ok (g_arrays g) h)
    (g_clients g);
}.

(** ** Lists of clients *)

Lemma sum_insert {A} (f : A → nat) l k x y :
  l !! k = Some x → sum_list_with f (<[k := y]> l) + f x = sum_list_with f l + f y.
Proof.
  revert k. induction l as [|z l IH]; intros [|k] Hk; simpl in *; try done.
  - injection Hk as ->. lia.
  - specialize (IH k Hk). lia.
Qed.

Lemma bind_insert {A} (f : A → list Z) l k x y d :
  l !! k = Some x → f y = f x ++ d → <[k := y]> l ≫= f ≡ₚ (l ≫= f) ++ d.
Proof.
  intros Hk Hf. revert k Hk. induction l as [|z l IH]; intros [|k] Hk; simpl in *; try done.
  - injection Hk as ->. rewrite Hf, <- !(assoc_L (++)). f_equiv. apply Permutation_app_comm.
  - change (mbind f l) with (l ≫= f) in *. rewrite <- (assoc_L (++)). f_equiv. by apply IH.
Qed.

Lemma in_place_submseteq (l m : list Z) n x :
  l ⊆+ m → take n l ++ x :: drop (S n) l ⊆+ m ++ [x].
Proof.
  intros Hl. etrans; [|apply submseteq_app; [exact Hl|done]].
  rewrite <- (take_drop n l) at 3. rewrite <- (assoc_L (++)). apply submseteq_app; [done|].
  rewrite (Permutation_app_comm _ [x]). apply submseteq_skip. rewrite <- (Nat.add_1_r n), <- drop_drop.
  destruct (drop n l) as [|y l']; [done|]. simpl. rewrite drop_0. by constructor.
Qed.

Lemma grown_submseteq (l m : list Z) n x : l ⊆+ m → take n l ++ [x] ⊆+ m ++ [x].
Proof.
  intros Hl. apply submseteq_app; [|done]. etrans; [|exact Hl].
  rewrite <- (take_drop n l) at 2. by apply submseteq_inserts_r.
Qed.

(** An [append] is possible; what it does to the arrays, the headers, the elements. *)
Lemma append_to_ok extra x h bs :
  header_ok bs h →
  ∃ bs' h', append_to extra x h bs = Some (bs', h') ∧ header_ok bs' h' ∧
    (∀ h1, header_ok bs h1 → header_ok bs' h1) ∧
    (∀ m, Forall (λ b, bk_data b ⊆+ m) bs → Forall (λ b, bk_data b ⊆+ m ++ [x]) bs') ∧
    elements bs' h' = elements bs h ++ [x] ∧ elements bs' h = elements bs h ∧
    sh_len h' = S (sh_len h).
Proof.
  intros (b & Hb & Hlen). pose proof (lookup_lt_Some _ _ _ Hb) as Hlt.
  unfold append_to. rewrite Hb.
  set (data := take (sh_len h) (bk_data b)).
  assert (length data = sh_len h) as Hd by (apply length_take_le; lia).
  assert (∀ m, Forall (λ b, bk_data b ⊆+ m) bs → Forall (λ b, bk_data b ⊆+ m ++ [x]) bs) as Hmono.
  { intros m Hm. eapply Forall_impl; [exact Hm|]. intros b' Hb'. etrans; [exact Hb'|]. by apply submseteq_inserts_r. }
  case_decide as Hc; (eexists _, _; split; [reflexivity|]).
  - set (data' := data ++ x :: drop (S (sh_len h)) (bk_data b)).
    assert (take (S (sh_len h)) data' = data ++ [x]) as Hnew.
    { unfold data'. rewrite <- Hd at 1. rewrite <- (Nat.add_1_r (length data)), take_app_add. done. }
    assert (take (sh_len h) data' = data) as Hold.
    { unfold data'. by rewrite <- Hd at 1; rewrite take_app_length. }
    split_and!.
    + eexists. simpl. rewrite list_lookup_insert_eq by done. split; [done|]. simpl.
      unfold data'. rewrite length_app. simpl. lia.
    + intros h1 (b1 & Hb1 & Hl1). destruct (decide (sh_array h = sh_array h1)) as [He|Hne].
      * eexists. rewrite <- He, list_lookup_insert_eq by done. split; [done|]. simpl.
        rewrite <- He, Hb in Hb1. injection Hb1 as <-. unfold data'.
        rewrite length_app, Hd. simpl. rewrite length_drop. lia.
      * exists b1. by rewrite list_lookup_insert_ne.
    + intros m Hm. apply Forall_insert; [by apply Hmono|]. simpl.
      apply in_place_submseteq. by apply (Forall_lookup_1 _ _ _ _ Hm Hb).
    + unfold elements. simpl. rewrite list_lookup_insert_eq, Hb by done. exact Hnew.
    + unfold elements. simpl. rewrite list_lookup_insert_eq, Hb by done. exact Hold.
    + done.
  - split_and!.
    + eexists. simpl. rewrite lookup_app_last. split; [done|]. simpl. rewrite length_app. simpl. lia.
    + intros h1 (b1 & Hb1 & Hl1). exists b1. split; [by apply lookup_app_l_Some|done].
    + intros m Hm. apply Forall_app. split; [by apply Hmono|]. apply Forall_singleton.
      apply grown_submseteq. by apply (Forall_lookup_1 _ _ _ _ Hm Hb).
    + unfold elements. simpl. rewrite lookup_app_last, Hb. simpl.
      rewrite take_ge; [done|]. rewrite length_app. simpl. fold data. lia.
    + unfold elements. by rewrite (lookup_app_l_Some _ _ _ _ Hb), Hb.
    + done.
Qed.
(** ** Preservation *)

(** A step that turns client [c] into [c'], which counts [n] messages and writes the samples
    [d]. *)
Lemma inv_update hist g g' k c c' n d :
  group_inv hist g → g_clients g !! k = Some c → g_clients g' = <[k := c']> (g_clients g) →
  client_inv c' → counted c' = counted c + n → written_samples c' = written_samples c ++ d →
  g_success g' = i64 (g_success g + Z.of_nat n) →
  (g_err g' = None → g_err g = None ∧ (∀ e, cl_pc c' ≠ Returned (Some e)) ∧
     (g_failed g' = g_failed g ∧ (∀ e, cl_pc c ≠ AtReturn e) ∨ ∃ e, cl_pc c' = AtReturn e)) →
  (∀ m, Forall (λ b, bk_data b ⊆+ m) (g_arrays g) → Forall (λ b, bk_data b ⊆+ m ++ d) (g_arrays g')) →
  header_ok (g_arrays g') (g_hist g') →
  (∀ h, header_ok (g_arrays g) h → header_ok (g_arrays g') h) →
  (∀ h, client_header c' = Some h → header_ok (g_arrays g') h) →
  group_inv hist g'.
Proof.
  intros [Hcs Hs Hcl Ha Hh Hhs] Hk Hk' Hc' Hn Hd Hs' Hcl' Ha' Hh' Hmono Hnew.
  pose proof (lookup_lt_Some _ _ _ Hk) as Hlt. split; rewrite ?Hk'.
  - by apply Forall_insert.
  - rewrite Hs', Hs, i64_add. f_equal. pose proof (sum_insert counted _ _ _ c' Hk). lia.
  - intros Hn'. destruct (Hcl' Hn') as (Hn0 & Hr & Hf). destruct (Hcl Hn0) as [Hcr Hcf].
    split; [by apply Forall_insert|]. destruct Hf as [[-> Hne]|Hf].
    + destruct Hcf as [?|Hex]; [by left|right]. apply Exists_exists in Hex as (c0 & Hin & e & He).
      apply list_elem_of_lookup in Hin as [k0 Hk0]. apply Exists_exists. exists c0.
      split; [|by exists e]. apply list_elem_of_lookup. exists k0.
      rewrite list_lookup_insert_ne; [done|]. intros ->. rewrite Hk in Hk0. injection Hk0 as ->.
      by apply (Hne e).
    + right. apply Exists_exists. exists c'. split; [|done]. apply list_elem_of_lookup. exists k.
      by rewrite list_lookup_insert_eq.
  - eapply Forall_impl; [exact (Ha' _ Ha)|]. intros b Hb. etrans; [exact Hb|].
    rewrite (bind_insert _ _ _ _ _ _ Hk Hd). by rewrite (assoc_L (++)).
  - done.
  - apply Forall_insert; [|done]. eapply Forall_impl; [exact Hhs|]. auto.
Qed.

(** Steps that leave the arrays alone, and those that touch nothing shared. *)
Lemma inv_arrays hist g g' k c c' n :
  group_inv hist g → g_clients g !! k = Some c → g_clients g' = <[k := c']> (g_clients g) →
  client_inv c' → counted c' = counted c + n → written_samples c' = written_samples c →
  g_success g' = (if decide (n = 0) then g_success g else i64 (g_success g + Z.of_nat n)) →
  (g_err g' = None → g_err g = None ∧ (∀ e, cl_pc c' ≠ Returned (Some e)) ∧
     (g_failed g' = g_failed g ∧ (∀ e, cl_pc c ≠ AtReturn e) ∨ ∃ e, cl_pc c' = AtReturn e)) →
  g_arrays g' = g_arrays g → header_ok (g_arrays g) (g_hist g') →
  (∀ h, client_header c' = Some h → header_ok (g_arrays g) h) →
  group_inv hist g'.
Proof.
  intros Hg Hk Hk' Hc' Hn Hw Hs Hcl Ha Hh Hnew.
  eapply (inv_update hist g g' k c c' n []); try done; rewrite ?Ha; try done.
  - by rewrite app_nil_r.
  - rewrite Hs. case_decide as Hn0; [|done]. rewrite Hn0, Z.add_0_r, (gi_success _ _ Hg).
    symmetry. apply i64_idem.
  - intros m. by rewrite app_nil_r.
Qed.

Lemma inv_move hist g k c c' :
  group_inv hist g → g_clients g !! k = Some c → client_inv c' →
  counted c' = counted c → written_samples c' = written_samples c →
  (∀ e, cl_pc c' ≠ Returned (Some e)) → (∀ e, cl_pc c ≠ AtReturn e) →
  (∀ h, client_header c' = Some h → header_ok (g_arrays g) h) →
  group_inv hist (set_client k c' g).
Proof.
  intros Hg Hk Hc' Hn Hw Hr Hne Hh. eapply (inv_arrays hist g _ k c c' 0); try done.
  - by rewrite Hn, Nat.add_0_r.
  - intros. split_and!; [done..|]. by left.
  - apply Hg.
Qed.

(** A message that was answered, *)
Lemma inv_message hist g k ios j i :
  group_inv hist g → g_clients g !! k = Some (MkClient ios j AtMessage) → ios !! j = Some i →
  group_inv hist (set_client k (if is_sampled j then MkClient ios j (AtLoad (io_latency i))
                                else MkClient ios (S j) AtSelect) (add_success g)).
Proof.
  intros Hg Hk Hi. pose proof (lookup_lt_Some _ _ _ Hi).
  destruct (is_sampled j) eqn:Hsj; eapply (inv_arrays hist g _ k _ _ 1); try done;
    try (by unfold counted; simpl; lia); try (by intros; split_and!; [done..|left]); try apply Hg.
  - split; simpl; [lia|]. eauto.
  - unfold written_samples. simpl. rewrite !Nat.add_0_r.
    by rewrite (samples_take_S _ _ _ Hi), Hsj, app_nil_r.
Qed.

(** and an [append] in progress. *)
Lemma inv_append hist g k ios j x h bs h' :
  group_inv hist g → g_clients g !! k = Some (MkClient ios j (AtAppend x h)) →
  is_sampled j = true → (∃ i, ios !! j = Some i ∧ io_latency i = x) → header_ok bs h' →
  (∀ h1, header_ok (g_arrays g) h1 → header_ok bs h1) →
  (∀ m, Forall (λ b, bk_data b ⊆+ m) (g_arrays g) → Forall (λ b, bk_data b ⊆+ m ++ [x]) bs) →
  group_inv hist (set_client k (MkClient ios j (AtStore h')) (set_arrays bs g)).
Proof.
  intros Hg Hk Hsj (i & Hi & Hx) Hok Hmono Harr. pose proof (lookup_lt_Some _ _ _ Hi).
  eapply (inv_update hist g _ k _ _ 0 [x]); try done; simpl.
  - split; simpl; [lia|done].
  - unfold written_samples. simpl. rewrite Nat.add_0_r, Nat.add_1_r.
    rewrite (samples_take_S _ _ _ Hi), Hsj. by rewrite Hx.
  - rewrite Z.add_0_r, (gi_success _ _ Hg). symmetry. apply i64_idem.
  - intros. split_and!; [done..|]. by left.
  - apply Hmono, Hg.
  - intros h0 [= <-]. done.
Qed.

Lemma client_step_inv hist k extra g g' :
  group_inv hist g → step k extra g = Done g' () → group_inv hist g'.
Proof.
  intros Hg E. unfold client_step in E.
  destruct (g_clients g !! k) as [c|] eqn:Hk; [|done].
  pose proof (Forall_lookup_1 _ _ _ _ (gi_clients _ _ Hg) Hk) as [Hj Hpc].
  pose proof (Forall_lookup_1 _ _ _ _ (gi_headers _ _ Hg) Hk) as Hh.
  destruct c as [ios j pc]. unfold client_header in Hh. simpl in *.
  destruct pc as [[[e|]|]| | |x|x h|h|e|r]; try done.
  - injection E as <-. by eapply inv_move.
  - injection E as <-. by eapply inv_move.
  - destruct (ios !! j) as [i|] eqn:Hi.
    + pose proof (lookup_lt_Some _ _ _ Hi). destruct (g_ctx g); injection E as <-; by eapply inv_move.
    + apply lookup_ge_None in Hi. injection E as <-. eapply inv_move; try done. split; simpl; [done|lia].
  - destruct (ios !! j) as [i|] eqn:Hi; [|done]. destruct (message i) as [sent|sent ct e|]; [| |done].
    + injection E as <-. by apply inv_message.
    + injection E as <-. apply (inv_arrays hist g _ k _ (MkClient ios j (AtReturn e)) 0 Hg Hk);
        destruct ct; try done; try apply Hg; intros; (split_and!; [done..|right; by eexists]).
  - injection E as <-. eapply inv_move; try done. intros h [= <-]. apply Hg.
  - destruct (append_to_ok extra x h (g_arrays g) (Hh _ eq_refl))
      as (bs & h' & Ea & Hok & Hmono & Harr & _). rewrite Ea in E. injection E as <-.
    destruct Hpc. by eapply inv_append.
  - injection E as <-. destruct Hpc as [_ Hlt]. eapply (inv_arrays hist g _ k _ _ 0); try done.
    + unfold counted. simpl. lia.
    + unfold written_samples. simpl. by rewrite Nat.add_0_r, Nat.add_1_r.
    + intros. split_and!; [done..|]. by left.
    + by apply Hh.
  - injection E as <-.
    apply (inv_arrays hist g _ k _ (MkClient ios j (Returned (Some e))) 0 Hg Hk);
      unfold group_error; destruct (g_err g) eqn:He; try done; try apply Hg; simpl; by rewrite He.
Qed.

Lemma attempt_inv hist e g : group_inv hist g → group_inv hist (try_event e g).
Proof.
  intros Hg. unfold attempt. destruct (exec_event e g) as [g' []| |] eqn:E; [|done..].
  destruct e as [k extra|]; simpl in E; [by eapply client_step_inv|].
  injection E as <-. by destruct Hg.
Qed.

Lemma run_schedule_inv hist es g : group_inv hist g → group_inv hist (run es g).
Proof. revert g. induction es as [|e es IH]; intros g Hg; simpl; [done|]. by apply IH, attempt_inv. Qed.

Lemma launched_inv cs hist : group_inv hist (launched_clients cs hist).
Proof.
  split; simpl.
  - apply Forall_fmap, Forall_true. intros [acq ios]. split; simpl; [lia|done].
  - replace (sum_list_with _ _) with 0; [done|]. induction cs as [|c cs IH]; [done|]. exact IH.
  - intros _. split; [|by left]. by apply Forall_fmap, Forall_true.
  - apply Forall_singleton. simpl. by apply submseteq_inserts_r.
  - eexists. by split.
  - by apply Forall_fmap, Forall_true.
Qed.
(** ** Progress *)

Abbreviation runs := (can_run message).
Abbreviation drained := (drain message sampling).
Abbreviation run_all := (run_clients message sampling).

(** A step of a client: it could run, it has fewer steps left, its messages are the same. *)
Lemma client_step_shape k extra g g' :
  step k extra g = Done g' () →
  ∃ c c', g_clients g !! k = Some c ∧ g_clients g' = <[k := c']> (g_clients g) ∧
    cl_ios c' = cl_ios c ∧ runs c = true ∧ (∀ r, cl_pc c' ≠ AtAcquire r) ∧
    (client_inv c → client_work c' < client_work c).
Proof.
  unfold client_step, can_run, client_work. intros E.
  destruct (g_clients g !! k) as [c|] eqn:Hk; [|done]. exists c.
  destruct c as [ios j pc]. simpl in *. destruct pc as [[[e|]|]| | |x|x h|h|e|r]; try done.
  - injection E as <-. eexists. split_and!; [done..|]. simpl. intros _. lia.
  - injection E as <-. eexists. split_and!; [done..|]. simpl. intros _. lia.
  - destruct (ios !! j) as [i|]; [destruct (g_ctx g)|]; injection E as <-; eexists;
      (split_and!; [done..|]); simpl; intros _; lia.
  - destruct (ios !! j) as [i|] eqn:Hi; [|done]. pose proof (lookup_lt_Some _ _ _ Hi).
    destruct (message i) as [sent|sent ct e|]; [| |done]; injection E as <-.
    + destruct (is_sampled j); eexists; (split_and!; [done..|]); simpl; intros _; lia.
    + destruct ct; eexists; (split_and!; [done..|]); simpl; intros _; lia.
  - injection E as <-. eexists. split_and!; [done..|]. simpl. intros [_ [_ (i & Hi & _)]].
    simpl in Hi. pose proof (lookup_lt_Some _ _ _ Hi). lia.
  - destruct (append_to _ _ _ _) as [[bs h']|]; [|done]. injection E as <-. eexists.
    split_and!; [done..|]. simpl. intros [_ [_ (i & Hi & _)]].
    simpl in Hi. pose proof (lookup_lt_Some _ _ _ Hi). lia.
  - injection E as <-. eexists. split_and!; [done..|]. simpl. intros [_ [_ Hlt]]. simpl in Hlt. lia.
  - injection E as <-. exists (MkClient ios j (Returned (Some e))).
    split_and!; [done|by unfold group_error; destruct (g_err g)|done..|simpl; lia].
Qed.

(** A client that can run does. *)
Lemma can_run_steps hist k extra g c :
  group_inv hist g → g_clients g !! k = Some c → runs c = true →
  ∃ g', step k extra g = Done g' ().
Proof.
  intros Hg Hk Hr. pose proof (Forall_lookup_1 _ _ _ _ (gi_headers _ _ Hg) Hk) as Hh.
  unfold client_step. rewrite Hk. destruct c as [ios j pc].
  unfold can_run, client_header in *. simpl in *.
  destruct pc as [[[e|]|]| | |x|x h|h|e|r]; try done; try by eexists.
  - destruct (ios !! j); [destruct (g_ctx g)|]; by eexists.
  - destruct (ios !! j) as [i|]; [|done]. destruct (message i); [by eexists..|done].
  - destruct (append_to_ok extra x h (g_arrays g) (Hh _ eq_refl)) as (bs & h' & -> & _). by eexists.
Qed.

Lemma client_step_work hist k extra g g' :
  group_inv hist g → step k extra g = Done g' () → work g' < work g.
Proof.
  intros Hg (c & c' & Hk & Hk' & _ & _ & _ & Hw)%client_step_shape.
  pose proof (Forall_lookup_1 _ _ _ _ (gi_clients _ _ Hg) Hk) as Hc. apply Hw in Hc.
  unfold work. rewrite Hk'. pose proof (sum_insert client_work _ _ _ c' Hk). lia.
Qed.

(** With enough fuel no client can run any more; what was run is a schedule. *)
Lemma drain_runs_all hist fuel g :
  group_inv hist g → work g ≤ fuel →
  Forall (λ c, runs c = false) (g_clients (drained fuel g)) ∧
  ∃ ks, drained fuel g = run ((λ k, RunClient k 0) <$> ks) g.
Proof.
  revert g. induction fuel as [|fuel IH]; intros g Hg Hw; simpl;
    destruct (list_find (λ c, runs c = true) (g_clients g)) as [[k c]|] eqn:Ef.
  - apply list_find_Some in Ef as (Hk & Hr & _).
    destruct (can_run_steps hist k 0 g c Hg Hk Hr) as [g' E].
    pose proof (client_step_work _ _ _ _ _ Hg E). lia.
  - split; [|by exists []]. apply list_find_None in Ef. eapply Forall_impl; [exact Ef|].
    intros c Hc. apply not_true_is_false, Hc.
  - apply list_find_Some in Ef as (Hk & Hr & _).
    destruct (can_run_steps hist k 0 g c Hg Hk Hr) as [g' E].
    pose proof (client_step_work _ _ _ _ _ Hg E).
    destruct (IH (try_event (RunClient k 0) g)) as [Hd [ks Hks]].
    + by apply attempt_inv.
    + unfold attempt. simpl. rewrite E. lia.
    + split; [done|]. by exists (k :: ks).
  - split; [|by exists []]. apply list_find_None in Ef. eapply Forall_impl; [exact Ef|].
    intros c Hc. apply not_true_is_false, Hc.
Qed.

(** No connection keeps a client for ever. *)
Definition answered c : Prop :=
  cl_pc c ≠ AtAcquire NeverReturns ∧ Forall (λ i, ∀ sent, message i ≠ MsgHangs sent) (cl_ios c).

Lemma attempt_clients (P : client → Prop) e g :
  (∀ c c', P c → cl_ios c' = cl_ios c → (∀ r, cl_pc c' ≠ AtAcquire r) → P c') →
  Forall P (g_clients g) → Forall P (g_clients (try_event e g)).
Proof.
  intros HP Hc. unfold attempt. destruct (exec_event e g) as [g' []| |] eqn:E; [|done..].
  destruct e as [k extra|]; simpl in E; [|by injection E as <-].
  apply client_step_shape in E as (c & c' & Hk & -> & Hios & _ & Hpc & _).
  apply Forall_insert; [done|]. eapply HP; [|done..]. by apply (Forall_lookup_1 _ _ _ _ Hc Hk).
Qed.

Lemma run_schedule_clients (P : client → Prop) es g :
  (∀ c c', P c → cl_ios c' = cl_ios c → (∀ r, cl_pc c' ≠ AtAcquire r) → P c') →
  Forall P (g_clients g) → Forall P (g_clients (run es g)).
Proof.
  intros HP. revert g. induction es as [|e es IH]; intros g Hg; simpl; [done|].
  by apply IH, attempt_clients.
Qed.

Lemma run_schedule_ios es g : cl_ios <$> g_clients (run es g) = cl_ios <$> g_clients g.
Proof.
  revert g. induction es as [|e es IH]; intros g; simpl; [done|]. rewrite IH.
  unfold attempt. destruct (exec_event e g) as [g' []| |] eqn:E; [|done..].
  destruct e as [k extra|]; simpl in E; [|by injection E as <-].
  apply client_step_shape in E as (c & c' & Hk & -> & Hios & _).
  rewrite list_fmap_insert, Hios. apply list_insert_id. by rewrite list_lookup_fmap, Hk.
Qed.

(** The clients on a schedule: the group waits for ever, and then some client does, or they
    end as on a schedule that lets all of them return. *)
Lemma run_clients_spec hist sched g :
  group_inv hist g →
  (run_all sched g = Blocked ∧ ¬ Forall answered (g_clients g)) ∨
  ∃ es, let g' := run (sched ++ es) g in
    run_all sched g = Done g' (g_err g') ∧ all_returned g'.
Proof.
  intros Hg. set (g1 := run sched g).
  destruct (drain_runs_all hist (work g1) g1) as [Hstop [ks Hes]]; [by apply run_schedule_inv|done|].
  set (es := (λ k, RunClient k 0) <$> ks) in *.
  assert (drained (work g1) g1 = run (sched ++ es) g) as E.
  { rewrite Hes. unfold g1, run_schedule. by rewrite foldl_app. }
  unfold run_clients, group_wait. fold g1. rewrite E in *.
  case_decide as Hd; [by right; exists es|]. left. split; [done|]. intros Ha. apply Hd.
  apply (run_schedule_clients answered (sched ++ es)) in Ha.
  - pose proof (gi_clients _ _ (run_schedule_inv hist (sched ++ es) g Hg)) as Hinv.
    apply Forall_lookup. intros k c Hk. pose proof (Forall_lookup_1 _ _ _ _ Hstop Hk) as Hc.
    pose proof (Forall_lookup_1 _ _ _ _ Hinv Hk) as [_ Hpc0].
    destruct (Forall_lookup_1 _ _ _ _ Ha Hk) as [Hpc Hm].
    unfold can_run, returned in *. destruct (cl_pc c) as [[[e|]|]| | |x|x h|h|e|r]; try done.
    destruct (cl_ios c !! cl_j c) as [i|] eqn:Hi; [|].
    + pose proof (Forall_lookup_1 _ _ _ _ Hm Hi) as Hn.
      destruct (message i) as [| |sent] eqn:Em; [done..|]. by destruct (Hn sent).
    + apply lookup_ge_None in Hi. lia.
  - intros c c' [? ?] Hios Hpc. split; [apply Hpc|]. by rewrite Hios.
Qed.
(** ** Appends that do not overlap *)

(** At most one client is between the load and the store of its [append]. *)
Definition append_alone g : Prop :=
  ∀ k1 k2 c1 c2, g_clients g !! k1 = Some c1 → g_clients g !! k2 = Some c2 →
    is_Some (client_header c1) → is_Some (client_header c2) → k1 = k2.
Definition appends_alone (es : list bench_event) g : Prop :=
  ∀ es1 es2, es = es1 ++ es2 → append_alone (run es1 g).

(** The samples whose [append] a client has completed. *)
Definition stored_samples c : list Z := samples (take (cl_j c) (cl_ios c)).

(** Where a client stands in an [append] that nobody disturbs. *)
Definition appending (bs : list backing) (h : slice_header) c : Prop :=
  match cl_pc c with
  | AtAppend _ h' => h' = h
  | AtStore h' => ∃ x, samples (take (S (cl_j c)) (cl_ios c)) = stored_samples c ++ [x] ∧
                       elements bs h' = elements bs h ++ [x]
  | _ => True
  end.

Record alone_inv (hist : list Z) g : Prop := {
  al_inv : group_inv hist g;
  al_hist : histogram g ≡ₚ hist ++ (g_clients g ≫= stored_samples);
  al_clients : Forall (appending (g_arrays g) (g_hist g)) (g_clients g);
}.

(** A step that leaves the field of the report and its elements alone. *)
Lemma alone_update hist g g' k c c' :
  alone_inv hist g → group_inv hist g' → g_clients g !! k = Some c →
  g_clients g' = <[k := c']> (g_clients g) → g_hist g' = g_hist g →
  elements (g_arrays g') (g_hist g) = elements (g_arrays g) (g_hist g) →
  stored_samples c' = stored_samples c → appending (g_arrays g') (g_hist g) c' →
  (g_arrays g' = g_arrays g ∨ append_alone g ∧ is_Some (client_header c)) →
  alone_inv hist g'.
Proof.
  intros [Hg Hh Hc] Hg' Hk Hk' Eh Ee Es Ha Hal. split; [done|..]; rewrite Hk'.
  - unfold histogram. rewrite Eh, Ee, (bind_insert stored_samples _ _ _ c' [] Hk) by by rewrite app_nil_r.
    by rewrite app_nil_r.
  - rewrite Eh. apply Forall_lookup. intros k0 c0 Hk0.
    apply list_lookup_insert_Some in Hk0 as [(<- & <- & _)|[Hne Hk0]]; [done|].
    pose proof (Forall_lookup_1 _ _ _ _ Hc Hk0) as Hc0. destruct Hal as [->|[Hal Hhd]]; [done|].
    unfold appending in *. destruct (cl_pc c0) eqn:Hpc; try done; exfalso; apply Hne;
      apply (Hal k k0 _ c0 Hk Hk0 Hhd); unfold client_header; rewrite Hpc; by eexists.
Qed.

Lemma alone_step hist k extra g g' :
  append_alone g → alone_inv hist g → step k extra g = Done g' () → alone_inv hist g'.
Proof.
  intros Hal Hg E. pose proof (client_step_inv hist k extra g g' (al_inv _ _ Hg) E) as Hg'.
  unfold client_step in E. destruct (g_clients g !! k) as [c|] eqn:Hk; [|done].
  pose proof (Forall_lookup_1 _ _ _ _ (gi_clients _ _ (al_inv _ _ Hg)) Hk) as [Hj Hpc].
  pose proof (Forall_lookup_1 _ _ _ _ (gi_headers _ _ (al_inv _ _ Hg)) Hk) as Hh.
  pose proof (Forall_lookup_1 _ _ _ _ (al_clients _ _ Hg) Hk) as Hc.
  destruct c as [ios j pc]. unfold client_header, appending in Hh, Hc. simpl in *.
  destruct pc as [[[e|]|]| | |x|x h|h|e|r]; try done.
  - injection E as <-. eapply alone_update; try done. by left.
  - injection E as <-. eapply alone_update; try done. by left.
  - destruct (ios !! j); [destruct (g_ctx g)|]; injection E as <-; (eapply alone_update; try done; by left).
  - destruct (ios !! j) as [i|] eqn:Hi; [|done]. destruct (message i) as [sent|sent ct e|]; [| |done].
    + injection E as <-. destruct (is_sampled j) eqn:Hsj; [eapply alone_update; try done; by left|].
      eapply alone_update; try done; [|by left].
      unfold stored_samples. simpl. by rewrite (samples_take_S _ _ _ Hi), Hsj, app_nil_r.
    + injection E as <-. destruct ct; (eapply alone_update; try done; by left).
  - injection E as <-. eapply alone_update; try done. by left.
  - destruct (append_to_ok extra x h (g_arrays g) (Hh _ eq_refl))
      as (bs & h' & Ea & _ & _ & _ & En & Eo & _). rewrite Ea in E. injection E as <-.
    destruct Hpc as [Hsj (i & Hi & Hx)]. subst h.
    eapply alone_update; try done; [|right; split; [done|by eexists]].
    exists x. simpl. split; [by rewrite (samples_take_S _ _ _ Hi), Hsj, Hx|]. by rewrite En, Eo.
  - injection E as <-. destruct Hc as (x & Ex & En). split; [done|..]; simpl.
    + unfold histogram. simpl. rewrite En. fold (histogram g). rewrite (al_hist _ _ Hg).
      rewrite (bind_insert stored_samples _ _ _ (next_message (MkClient ios j (AtStore h))) [x] Hk Ex).
      by rewrite (assoc_L (++)).
    + apply Forall_lookup. intros k0 c0 Hk0.
      apply list_lookup_insert_Some in Hk0 as [(<- & <- & _)|[Hne Hk0]]; [done|].
      unfold appending. destruct (cl_pc c0) eqn:Hpc0; try done; exfalso; apply Hne;
        (apply (Hal k k0 _ c0 Hk Hk0); [by eexists|]); unfold client_header; rewrite Hpc0; by eexists.
  - injection E as <-. eapply (alone_update hist g _ k _ (MkClient ios j (Returned (Some e))) Hg);
      try done; unfold group_error; destruct (g_err g); try done; by left.
Qed.

Lemma alone_schedule hist es g :
  appends_alone es g → alone_inv hist g → alone_inv hist (run es g).
Proof.
  revert g. induction es as [|e es IH]; intros g Hal Hg; simpl; [done|]. apply IH.
  - intros es1 es2 ->. by apply (Hal (e :: es1) es2).
  - unfold attempt. destruct (exec_event e g) as [g' []| |] eqn:E; [|done..].
    destruct e as [k extra|]; simpl in E.
    + eapply alone_step; [by apply (Hal [] (RunClient k extra :: es))|done..].
    + injection E as <-. destruct Hg as [Hg ? ?]. split; [|done..].
      by apply (attempt_inv hist TimeOut) in Hg.
Qed.

Lemma launched_alone cs hist : alone_inv hist (launched_clients cs hist).
Proof.
  split; [apply launched_inv|..]; simpl.
  - unfold histogram, elements. simpl. rewrite firstn_all.
    replace (_ ≫= _) with ([] : list Z); [by rewrite app_nil_r|].
    induction cs as [|c cs IH]; [done|]. exact IH.
  - by apply Forall_fmap, Forall_true.
Qed.

(** ** The end of a run *)

Lemma returned_clean hist g c :
  group_inv hist g → g_err g = None → all_returned g → c ∈ g_clients g →
  cl_pc c = Returned None ∧ cl_j c = length (cl_ios c).
Proof.
  intros Hg He Hr Hin. destruct (gi_clean _ _ Hg He) as [Hn _].
  pose proof (proj1 (Forall_forall _ _) Hn c Hin) as Hnc.
  pose proof (proj1 (Forall_forall _ _) Hr c Hin) as Hrc.
  destruct (proj1 (Forall_forall _ _) (gi_clients _ _ Hg) c Hin) as [_ Hpc].
  cbv beta in Hnc, Hrc. unfold returned in Hrc. destruct (cl_pc c) as [| | | | | | |[e|]]; try done. by destruct (Hnc e).
Qed.

Lemma sum_list_with_ext {A} (f h : A → nat) l :
  (∀ x, x ∈ l → f x = h x) → sum_list_with f l = sum_list_with h l.
Proof.
  induction l as [|x l IH]; intros Hx; simpl; [done|].
  rewrite (Hx x) by left. rewrite IH; [done|]. intros y ?. apply Hx. by right.
Qed.

Lemma bind_ext {A} (f h : A → list Z) l : (∀ x, x ∈ l → f x = h x) → l ≫= f = l ≫= h.
Proof.
  induction l as [|x l IH]; intros Hx; simpl; [done|].
  rewrite (Hx x) by left. f_equal. apply IH. intros y ?. apply Hx. by right.
Qed.

Definition messages_of (ls : list (list io)) : nat := sum_list_with length ls.

(** What a run without error has counted and sampled. *)
Lemma clients_end hist cs es g :
  run es (launched_clients cs hist) = g → all_returned g → g_err g = None →
  g_success g = i64 (Z.of_nat (messages_of cs.*2)) ∧ g_failed g = 0%Z ∧
  histogram g ⊆+ hist ++ (cs.*2 ≫= samples) ∧
  (appends_alone es (launched_clients cs hist) → histogram g ≡ₚ hist ++ (cs.*2 ≫= samples)).
Proof.
  intros Hg Hr He. pose proof (run_schedule_inv hist es _ (launched_inv cs hist)) as Hinv.
  rewrite Hg in Hinv.
  assert (cs.*2 = cl_ios <$> g_clients g) as Hios.
  { rewrite <- Hg, run_schedule_ios. simpl. by rewrite <- list_fmap_compose. }
  assert (∀ c, c ∈ g_clients g → cl_pc c = Returned None ∧ cl_j c = length (cl_ios c)) as Hend.
  { intros c. by apply (returned_clean hist). }
  assert (∀ f, (∀ c, c ∈ g_clients g → f c = samples (cl_ios c)) →
    g_clients g ≫= f = cs.*2 ≫= samples) as Hsamples.
  { intros f Hf. rewrite Hios, (bind_ext f (samples ∘ cl_ios)) by done.
    clear. induction (g_clients g) as [|c l IH]; simpl; [done|]. by f_equal. }
  split_and!.
  - rewrite (gi_success _ _ Hinv). do 2 f_equal. rewrite Hios. unfold messages_of.
    rewrite (sum_list_with_ext counted (length ∘ cl_ios)).
    + clear. induction (g_clients g) as [|c l IH]; simpl; [done|]. by rewrite IH.
    + intros c Hc. destruct (Hend c Hc) as [Hpc Hj]. unfold counted. rewrite Hpc, Hj. simpl. lia.
  - destruct (gi_clean _ _ Hinv He) as [_ [?|Hex]]; [done|].
    apply Exists_exists in Hex as (c & Hc & e & Hpc). destruct (Hend c Hc) as [Hpc' _]. congruence.
  - destruct (gi_header _ _ Hinv) as (b & Hb & Hlen). unfold histogram, elements. rewrite Hb.
    rewrite <- (Hsamples written_samples).
    + etrans; [apply submseteq_take|]. by apply (Forall_lookup_1 _ _ _ _ (gi_arrays _ _ Hinv) Hb).
    + intros c Hc. destruct (Hend c Hc) as [Hpc Hj]. unfold written_samples.
      by rewrite Hpc, Nat.add_0_r, Hj, firstn_all.
  - intros Hal. pose proof (alone_schedule hist es _ Hal (launched_alone cs hist)) as Ha.
    rewrite Hg in Ha. rewrite (al_hist _ _ Ha), Hsamples; [done|].
    intros c Hc. destruct (Hend c Hc) as [_ Hj]. unfold stored_samples. by rewrite Hj, firstn_all.
Qed.
End invariants.

(** * Properties *)

(** C35: However the goroutines of the clients are scheduled, down to the single accesses to
    the shared report (the header of a slice being read and written as one): when all of
    them have returned without error, the successes are all messages of all clients and
    no failure was counted; of the latencies to be sampled none is in the histogram more
    often than it was measured, and nothing else is beside what was there before. Samples
    can be missing, since the [append] is not synchronised, but not when no two clients
    were in an [append] at the same time: then the histogram holds all of them. *)
Theorem clients_interleave (message : io → message_result) (sampling : Z)
    (cs : list (reply (option error) * list io)) (hist : list Z) (es : list bench_event) (g : group) :
  run_schedule message sampling es (launched_clients cs hist) = g →
  all_returned g → g_err g = None →
  g_success g = i64 (Z.of_nat (messages_of cs.*2)) ∧ g_failed g = 0%Z ∧
  histogram g ⊆+ hist ++ (cs.*2 ≫= samples sampling) ∧
  (appends_alone message sampling es (launched_clients cs hist) →
   histogram g ≡ₚ hist ++ (cs.*2 ≫= samples sampling)).
Proof. apply clients_end. Qed.

(** A sample that is lost: two clients with one message each load the same empty header, and
    the second store replaces what the first one appended. *)
Lemma sample_lost :
  let i l := MkIo (Returns None) (Returns (Ok [x00])) l in
  let step k := RunClient k 0 in
  let g := run_schedule (tcp_message true) 500
    [step 0; step 0; step 0; step 1; step 1; step 1; step 0; step 1; step 0; step 1;
     step 0; step 1; step 0; step 1]
    (launched_clients [(Returns None, [i 7%Z]); (Returns None, [i 9%Z])] []) in
  all_returned g ∧ g_err g = None ∧ g_success g = 2%Z ∧ histogram g = [9]%Z.
Proof. cbv zeta. split; [|by vm_compute]. apply (bool_decide_unpack _). by vm_compute. Qed.

(** Steps that are all taken. *)
Fixpoint take_steps (message : io → message_result) (sampling : Z) (ks : list (nat * nat))
    : Go group () :=
  match ks with
  | [] => mret ()
  | (k, extra) :: ks => client_step message sampling k extra;; take_steps message sampling ks
  end.

(** The clients stop: however they are scheduled, they take a bounded number of steps, and
    as long as one of them has neither returned nor is in a call of the network that does
    not return, a step can be taken. *)
Theorem clients_stop (message : io → message_result) (sampling : Z)
    (cs : list (reply (option error) * list io)) (hist : list Z) (es : list bench_event)
    (g := run_schedule message sampling es (launched_clients cs hist)) :
  (∀ ks g', take_steps message sampling ks g = Done g' () → length ks ≤ work g) ∧
  (∀ k c, g_clients g !! k = Some c →
     returned c = true ∨ cl_pc c = AtAcquire NeverReturns ∨
     (cl_pc c = AtMessage ∧ ∃ i sent, cl_ios c !! cl_j c = Some i ∧ message i = MsgHangs sent) ∨
     ∀ extra, ∃ g', client_step message sampling k extra g = Done g' ()).
Proof.
  assert (group_inv sampling hist g) as Hg by apply run_schedule_inv, launched_inv.
  split.
  - intros ks. generalize dependent g. clear. intros g Hg g' E. revert g Hg E.
    induction ks as [|[k extra] ks IH]; intros g Hg; simpl; [lia|].
    unfold mbind, go_bind. destruct (client_step _ _ _ _ g) as [g1 []| |] eqn:E; try done.
    intros Hr. apply IH in Hr; [|by eapply client_step_inv].
    pose proof (client_step_work _ _ _ _ _ _ _ Hg E). lia.
  - intros k c Hk. destruct (can_run message c) eqn:Hr.
    { do 3 right. intros extra. by eapply can_run_steps. }
    destruct (Forall_lookup_1 _ _ _ _ (gi_clients _ _ _ Hg) Hk) as [_ Hpc].
    unfold can_run, returned in *. destruct (cl_pc c) as [[[e|]|]| | |x|x h|h|e|r]; try done; auto.
    destruct (cl_ios c !! cl_j c) as [i|] eqn:Hi; [|apply lookup_ge_None in Hi; lia].
    destruct (message i) as [| |sent] eqn:Em; [done..|]. right; right; left. eauto.
Qed.

(** ** runBenchmark *)

(** The calls of the first clients and messages all return. *)
Definition network_answers (acquire : client_net → reply (option error))
    (message : io → message_result) (net : network) (numClients perClient : Z) : Prop :=
  ∀ i, (1 ≤ i ≤ numClients)%Z →
    acquire (nw_client net i) ≠ NeverReturns ∧
    ∀ j, (0 ≤ j < perClient)%Z → ∀ sent, message (cn_io (nw_client net i) j) ≠ MsgHangs sent.

Lemma clients_of_answered acquire message net numClients perClient hist :
  network_answers acquire message net numClients perClient →
  Forall (answered message)
    (g_clients (launched_clients (clients_of acquire (nw_client net) numClients perClient) hist)).
Proof.
  intros Hn. simpl. unfold clients_of. rewrite <- list_fmap_compose.
  apply Forall_fmap, Forall_forall. intros i Hi%elem_of_seqZ.
  destruct (Hn i) as [Ha Hm]; [lia|]. split; simpl; [congruence|].
  apply Forall_fmap, Forall_forall. intros j Hj%elem_of_seqZ sent. apply Hm. lia.
Qed.

Lemma messages_of_clients acquire net numClients perClient :
  Z.of_nat (messages_of (clients_of acquire net numClients perClient).*2)
  = (Z.max 0 numClients * Z.max 0 perClient)%Z.
Proof.
  unfold clients_of, messages_of. rewrite <- list_fmap_compose.
  replace (Z.max 0 numClients) with (Z.of_nat (length (seqZ 1 numClients)))
    by (rewrite length_seqZ; lia).
  induction (seqZ 1 numClients) as [|i ids IH]; csimpl; [lia|].
  rewrite length_fmap, length_seqZ. lia.
Qed.

Lemma samples_bound sampling (ls : list (list io)) :
  length (ls ≫= samples sampling) ≤ messages_of ls.
Proof.
  unfold messages_of. induction ls as [|ios ls IH]; csimpl; [lia|].
  rewrite length_app. pose proof (samples_length sampling ios). lia.
Qed.

(** What a benchmark does: it waits for ever, which takes a call that does so, or it
    returns, with an error or with the counts of all messages. *)
Lemma runBenchmark_spec acquire message sampling duration memory net numClients perClient r :
  (Z.max 0 numClients * Z.max 0 perClient < 2 ^ 53)%Z → LatencyHistogram r = [] →
  (runBenchmark acquire message sampling duration memory net numClients perClient r = Blocked ∧
   ¬ network_answers acquire message net numClients perClient) ∨
  ∃ r' e, runBenchmark acquire message sampling duration memory net numClients perClient r = Done r' e ∧
    (e = None → (0 ≤ numClients)%Z → (0 ≤ perClient)%Z →
     SuccessMessages r' = (numClients * perClient)%Z ∧ FailedMessages r' = 0%Z ∧
     TotalMessages r' = SuccessMessages r').
Proof.
  intros Hlt Hh. unfold runBenchmark. rewrite Hh.
  set (cs := clients_of acquire (nw_client net) numClients perClient).
  destruct (run_clients_spec message sampling [] (nw_sched net) (launched_clients cs []))
    as [[E Hn]|(es & E & Hr)]; [apply launched_inv| |]; rewrite E.
  { left. split; [done|]. intros Ha. apply Hn. by apply clients_of_answered. }
  right. set (g := run_schedule _ _ _ _) in *. destruct (g_err g) as [e|] eqn:He; [by eexists _, _|].
  destruct (clients_end message sampling [] cs _ g eq_refl Hr He) as (Hs & Hf & Hhist & _).
  pose proof (messages_of_clients acquire (nw_client net) numClients perClient) as Hm. fold cs in Hm.
  edestruct Finalize_returns as [r' Ef]; [|erewrite go_bind_done by exact Ef].
  { simpl. apply submseteq_length in Hhist. rewrite app_nil_l in Hhist.
    pose proof (samples_bound sampling cs.*2). lia. }
  eexists _, _. split; [done|]. intros _ Hc Hp.
  apply Finalize_counts in Ef as (-> & -> & ->). simpl. rewrite Hs, Hf, Hm, !i64_small by nia. nia.
Qed.

(** A benchmark returns when the calls of the network do. *)
Theorem runBenchmark_returns (acquire : client_net → reply (option error))
    (message : io → message_result) (sampling duration memory : Z) (net : network)
    (numClients perClient : Z) (r : Report) :
  (Z.max 0 numClients * Z.max 0 perClient < 2 ^ 53)%Z → LatencyHistogram r = [] →
  network_answers acquire message net numClients perClient →
  ∃ r' e, runBenchmark acquire message sampling duration memory net numClients perClient r = Done r' e.
Proof.
  intros Hlt Hh Ha. destruct (runBenchmark_spec acquire message sampling duration memory net
    numClients perClient r Hlt Hh) as [[_ Hn]|(r' & e & E & _)]; [done|eauto].
Qed.

(** ** Benchmarks that hang *)

(** A client that does not get beyond its first message. *)
Definition stays_first (message : io → message_result) (c : client) : Prop :=
  (∃ i ios sent, cl_ios c = i :: ios ∧ message i = MsgHangs sent) ∧ cl_j c = 0 ∧
  (cl_pc c = AtAcquire (Returns None) ∨ cl_pc c = AtSelect ∨ cl_pc c = AtMessage).

Lemma hanging_step message sampling k extra g g' :
  g_ctx g = None ∧ Forall (stays_first message) (g_clients g) →
  client_step message sampling k extra g = Done g' () →
  g_ctx g' = None ∧ Forall (stays_first message) (g_clients g').
Proof.
  intros [Hx Hc] E. unfold client_step in E. destruct (g_clients g !! k) as [c|] eqn:Hk; [|done].
  destruct (Forall_lookup_1 _ _ _ _ Hc Hk) as ((i & ios & sent & Hios & Hm) & Hj & Hpc).
  rewrite Hx in E. destruct c as [ios' j pc]. simpl in *. subst ios' j. simpl in E.
  destruct Hpc as [->|[->| ->]].
  - injection E as <-. split; [done|]. apply Forall_insert; [done|].
    split; [by exists i, ios, sent|]. auto.
  - injection E as <-. split; [done|]. apply Forall_insert; [done|].
    split; [by exists i, ios, sent|]. auto.
  - by rewrite Hm in E.
Qed.

Lemma hanging_schedule message sampling es g :
  TimeOut ∉ es → g_ctx g = None ∧ Forall (stays_first message) (g_clients g) →
  g_ctx (run_schedule message sampling es g) = None ∧
  Forall (stays_first message) (g_clients (run_schedule message sampling es g)).
Proof.
  revert g. induction es as [|e es IH]; intros g Hes Hg; simpl; [done|].
  apply not_elem_of_cons in Hes as [He Hes]. apply IH; [done|]. unfold attempt.
  destruct (bench_exec message sampling e g) as [g' []| |] eqn:E; [|done..].
  destruct e as [k extra|]; [|done]. by eapply hanging_step.
Qed.

(** A benchmark whose clients connect and then get no answer to their first message waits
    for ever: the time of the benchmark is only looked at between the messages, and the
    connections have no deadlines. A read benchmark over TCP, UDP or a Unix socket is one,
    as long as the server, which it sends no request, sends nothing of its own. *)
Theorem benchmark_hangs (acquire : client_net → reply (option error))
    (message : io → message_result) (sampling duration memory : Z) (net : network)
    (numClients perClient : Z) (r : Report) :
  (0 < numClients)%Z → (0 < perClient)%Z → TimeOut ∉ nw_sched net →
  (∀ i, acquire (nw_client net i) = Returns None ∧
        ∃ sent, message (cn_io (nw_client net i) 0%Z) = MsgHangs sent) →
  runBenchmark acquire message sampling duration memory net numClients perClient r = Blocked.
Proof.
  intros Hc Hp Hes Hnet. unfold runBenchmark.
  set (g0 := launched_clients _ _).
  assert (g_ctx g0 = None ∧ Forall (stays_first message) (g_clients g0)) as Hg0.
  { split; [done|]. simpl. unfold clients_of. rewrite <- list_fmap_compose.
    apply Forall_fmap, Forall_true. intros i. destruct (Hnet i) as [Ha [sent Hm]].
    split; [|split; [done|left; simpl; by rewrite Ha]]. simpl.
    rewrite (seqZ_cons 0) by lia. simpl. by eexists _, _, _. }
  assert (g_clients g0 ≠ []) as Hne.
  { simpl. unfold clients_of. rewrite (seqZ_cons 1) by lia. done. }
  unfold run_clients, group_wait.
  set (es := nw_sched net) in *. set (g1 := run_schedule _ _ _ _).
  assert (g_ctx g1 = None ∧ Forall (stays_first message) (g_clients g1)) as Hg1
    by by apply hanging_schedule.
  destruct (drain_runs_all message sampling (LatencyHistogram r) (work g1) g1) as [_ [ks Hks]];
    [by apply run_schedule_inv, launched_inv|done|].
  assert (TimeOut ∉ (λ k, RunClient k 0) <$> ks) as Hks'.
  { by intros (k & Hk & _)%list_elem_of_fmap. }
  destruct (hanging_schedule _ sampling _ _ Hks' Hg1) as [_ Hend]. rewrite <- Hks in Hend.
  rewrite decide_False; [done|]. unfold all_returned. intros Hr.
  assert (cl_ios <$> g_clients (drain message sampling (work g1) g1) = cl_ios <$> g_clients g0)
    as Hios by by rewrite Hks; unfold g1; rewrite !run_schedule_ios.
  destruct (g_clients (drain _ _ _ _)) as [|c cs]; [by destruct (g_clients g0)|].
  apply Forall_cons in Hr as [Hr _]. apply Forall_cons in Hend as [(_ & _ & Hpc) _].
  unfold returned in Hr. by destruct Hpc as [Hpc|[Hpc|Hpc]]; rewrite Hpc in Hr.
Qed.
