(* ===== verification/Suites.v ===== *)
(** The suites of [benchmark/] on the service: how they start, stop and drive a
    server, and the [benchmark] command of [cmd/benchmark.go] with its signal
    handler. *)
From S2P Require Import Prelude GoRuntime Slices Types Messages Config Mdbx Database BatchWriter WriterSpec WriterCorrect Fdb Files Float64 Benchmark BenchClients.

(** * The suites *)

(** What the suites meet: the results of their servers' [Start] and [Stop], the
    networks of their benchmarks with the schedules of their clients, the clock and the
    memory the reports show, the errors of creating a file, the bytes the encoder writes of
    a report, and its error. *)
Class BenchHost := {
  start_result : nat → option error;
  stop_result : nat → option error;
  bench_network : TransportType → bool → network;
  bench_duration : Z;
  bench_memory : Z;
  os_Create_fails : string → option error;
  json_Encode : Report → list byte * option error;    (* json.Encoder.Encode *)
  humanize_Comma : Z → string;
}.

(** What the command prints: the lines with their values. *)
Inductive output := Printed (lines : list (string * list printed)).

Section suites.
Context `{Mdbx} `{TlsEnv} `{Host}.

(** The state of the command: that of the service, the [server] field of each suite,
    the report, the servers whose [Stop] was called, the suite the signal handler
    stops, the output, the files. *)
Record bstate := MkB {
  b_service : fstate;
  b_servers : gmap TransportType nat;
  b_report : Report;
  b_stopped : list nat;
  b_signal : option string;
  b_output : list output;
  b_files : files;
}.

Definition on_service {A} : Go fstate A → Go bstate A :=
  go_zoom b_service (λ f s, MkB f (b_servers s) (b_report s) (b_stopped s) (b_signal s) (b_output s)
    (b_files s)).
Definition on_report {A} : Go Report A → Go bstate A :=
  go_zoom b_report (λ r s, MkB (b_service s) (b_servers s) r (b_stopped s) (b_signal s) (b_output s)
    (b_files s)).
Definition on_files {A} : Go files A → Go bstate A :=
  go_zoom b_files (λ fs s, MkB (b_service s) (b_servers s) (b_report s) (b_stopped s) (b_signal s)
    (b_output s) fs).
Definition set_server (t : TransportType) (srv : nat) : Go bstate () := λ s,
  Done (MkB (b_service s) (<[t := srv]> (b_servers s)) (b_report s) (b_stopped s) (b_signal s)
          (b_output s) (b_files s)) ().
Definition record_stop (srv : nat) : Go bstate () := λ s,
  Done (MkB (b_service s) (b_servers s) (b_report s) (b_stopped s ++ [srv]) (b_signal s)
          (b_output s) (b_files s)) ().
Definition set_signal (t : string) : Go bstate () := λ s,
  Done (MkB (b_service s) (b_servers s) (b_report s) (b_stopped s) (Some t) (b_output s)
          (b_files s)) ().
Definition emit (x : output) : Go bstate () := λ s,
  Done (MkB (b_service s) (b_servers s) (b_report s) (b_stopped s) (b_signal s)
          (b_output s ++ [x]) (b_files s)) ().

Context `{BenchHost} `{Umask}.

(** The name of the transport and its server's type in the messages of a suite. *)
Definition suite_name (t : TransportType) : string * string :=
  if decide (t = DummyTransportType) then ("dummy", "DummyServer") else entry_name t.

(** The dynamic type a suite casts the transport to. *)
Definition suite_kind (t : TransportType) (c : TransportConfig) : bool :=
  match c with
  | DummyConfig _ => bool_decide (t = DummyTransportType)
  | _ => entry_kind t c
  end.

(** The handlers of the dummy suite: no batch writer. *)
Definition prepare_dummy (srv : nat) (db : Db) : Go objects () :=
  set_handler srv WriteHandlerType (HDummyWrite db);;
  set_handler srv ReadHandlerType (HRead db).

(** [Start(ctx)] of the suite for [t]: a failure of the server's [Start] is returned
    by the QUIC suite and only logged by the others. *)
Definition suite_start (t : TransportType) (fdb : FDB) : Go bstate (option error) :=
  let '(name, srvName) := suite_name t in
  match GetTransport t (fdb_tm fdb) with
  | Err e => mret (Some (Wrap e ("failed to retrieve " +:+ name +:+ " transport: %w")))
  | Ok srv =>
      s ← go_get;
      match obj_servers (f_obj (b_service s)) !! srv with
      | None => go_panic PanicNil
      | Some server =>
          if suite_kind t (srv_config server) then
            match GetDb (fdb_dbManager fdb) "benchmark" with
            | Err e => mret (Some (Wrap e "failed to retrieve benchmark database: %w"))
            | Ok bDb =>
                on_service (in_objects
                  (if decide (t = DummyTransportType) then prepare_dummy srv bDb
                   else prepare_server srv bDb));;
                match start_result srv with
                | Some e =>
                    if decide (t = QUICTransportType)
                    then mret (Some (Wrap e "failed to start QUIC server: %w"))
                    else set_server t srv;; mret None
                | None => set_server t srv;; mret None
                end
            end
          else mret (Some (Errorf ("failed to cast transport to " +:+ srvName) []))
      end
  end.

(** [Stop(ctx)]: nothing to do before a successful [Start]. *)
Definition suite_stop (t : TransportType) : Go bstate (option error) :=
  s ← go_get;
  match b_servers s !! t with
  | None => mret None
  | Some srv => record_stop srv;; mret (stop_result srv)
  end.

(** A benchmark of a suite: each client first asks the suite's server for its address,
    on a nil server the goroutine panics. *)
Definition suite_run (t : TransportType) (isWrite : bool)
    (run : bool → Z → Z → network → Z → Z → Go Report (option error))
    (numClients perClient : Z) : Go bstate (option error) :=
  s ← go_get;
  if decide (b_servers s !! t = None ∧ 0 < numClients)%Z then go_panic PanicNil
  else on_report (run isWrite bench_duration bench_memory (bench_network t isWrite)
                    numClients perClient).

Definition make_suite (t : TransportType)
    (run : bool → Z → Z → network → Z → Z → Go Report (option error)) (fdb : FDB)
    : @TransportSuite bstate :=
  MkSuite (suite_start t fdb) (suite_stop t) (suite_run t true run) (suite_run t false run).

Definition QuicSuite := make_suite QUICTransportType quic_runBenchmark.
Definition DummySuite := make_suite DummyTransportType dummy_runBenchmark.
Definition UdsSuite := make_suite UDSTransportType uds_runBenchmark.
Definition TcpSuite := make_suite TCPTransportType tcp_runBenchmark.
Definition UdpSuite := make_suite UDPTransportType udp_runBenchmark.

(** [benchmark.NewSuiteManager(fdb)]: the suites are new, their [server] is nil. *)
Definition suite_manager (fdb : FDB) : gmap string TransportSuite :=
  NewSuiteManager (QuicSuite fdb) (DummySuite fdb) (UdsSuite fdb) (TcpSuite fdb) (UdpSuite fdb).

Definition new_suites : Go bstate () := λ s,
  Done (MkB (b_service s) ∅ (b_report s) (b_stopped s) (b_signal s) (b_output s) (b_files s)) ().

(** * The command *)

(** The flags of the command with their default values. *)
Definition benchmark_strings : gmap string string :=
  list_to_map [("config", "./benchmark.yaml"); ("suite", "dummy"); ("type", "write");
               ("output", EmptyString)].
Definition benchmark_ints : gmap string Z :=
  list_to_map [("clients", 10); ("messages", 100000); ("timeout", 60)]%Z.

(** The context [cli] hands to the action: the given values of flags the command has
    override the defaults. *)
Definition flag_values {V} (defaults given : gmap string V) : gmap string V :=
  map_imap (λ name v, Some (default v (given !! name))) defaults.

(** [c.String(name)] and [c.Int(name)]: zero values for a flag the command lacks. *)
Definition c_String (flags : gmap string string) (name : string) : string :=
  default EmptyString (flags !! name).
Definition c_Int (flags : gmap string Z) (name : string) : Z := default 0%Z (flags !! name).

(** [handleBenchmarkSignals(ctx, suiteManager, suiteType)] starts the goroutine that
    waits for a signal; [benchmark_signal] is what it does on one before [os.Exit(1)]. *)
Definition handleBenchmarkSignals (suiteType : string) : Go bstate () := set_signal suiteType.

Definition benchmark_signal (fdb : FDB) : Go bstate () :=
  s ← go_get;
  match b_signal s with
  | Some suiteType => SuiteManager_Stop (suite_manager fdb) suiteType;; mret ()
  | None => mret ()
  end.

(** [r.ExportToJSON(filename)] *)
Definition ExportToJSON (filename : string) : Go bstate (option error) :=
  r ← on_files (os_Create os_umask os_Create_fails filename);
  match r with
  | Some e => mret (Some (Wrap e "failed to create report file: %w"))
  | None =>
      s ← go_get;
      on_files (file_Write filename (json_Encode (b_report s)).1);;
      match (json_Encode (b_report s)).2 with
      | Some e => mret (Some (Wrap e "failed to write JSON report: %w"))
      | None =>
          emit (Printed [("Benchmark report exported to %s", [PString filename])]);;
          mret None
      end
  end.

(** [r.PrintReport()] *)
Definition PrintReport : Go bstate () := s ← go_get; emit (Printed (report_lines humanize_Comma (b_report s))).

(** The end of the action: the report on the console and in the [output] file. *)
Definition report_results (flags : gmap string string) : Go bstate (option error) :=
  PrintReport;;
  if decide (c_String flags "output" = EmptyString) then mret None
  else
    r ← ExportToJSON (c_String flags "output");
    match r with
    | Some e => mret (Some (Wrap e "failed to export report: %w"))
    | None => mret None
    end.

(** The part of the action between the start of the suite and its deferred stop. *)
Definition run_benchmark (fdb : FDB) (flags : gmap string string) (ints : gmap string Z)
    : Go bstate (option error) :=
  let sm := suite_manager fdb in
  let suiteType := c_String flags "suite" in
  let benchmarkType := c_String flags "type" in
  if decide (benchmarkType = "write") then
    r ← SuiteManager_RunWriteBenchmark sm suiteType (c_Int ints "clients") (c_Int ints "messages");
    match r with
    | Some e => mret (Some (Wrap e "failed to run write benchmark"))
    | None => report_results flags
    end
  else if decide (benchmarkType = "read") then
    r ← SuiteManager_RunReadBenchmark sm suiteType (c_Int ints "clients") (c_Int ints "messages");
    match r with
    | Some e => mret (Some (Wrap e "failed to run read benchmark"))
    | None => report_results flags
    end
  else mret (Some (Errorf "invalid benchmark type: %s" [AStr benchmarkType])).

Definition new_report : Go bstate () := on_report (go_put NewReport).

(** The action of [BenchmarkCommand]; [cfg] is the result of [LoadConfig] on the
    [config] flag. *)
Definition BenchmarkCommand (cfg : res Config) (flags : gmap string string)
    (ints : gmap string Z) : Go bstate (option error) :=
  match cfg with
  | Err e => mret (Some (Wrap e "failed to load configuration"))
  | Ok cfg =>
      r ← on_service (New cfg);
      match r with
      | Err e => mret (Some (Wrap e "failed to initialize FDB: %w"))
      | Ok fdb =>
          let sm := suite_manager fdb in
          let suiteType := c_String flags "suite" in
          new_suites;;
          handleBenchmarkSignals (c_String flags "suite-type");;
          r ← SuiteManager_Start sm suiteType;
          match r with
          | Some e => mret (Some (Wrap e "failed to start suite: %w"))
          | None =>
              new_report;;
              r ← run_benchmark fdb flags ints;
              SuiteManager_Stop sm suiteType;;
              mret r
          end
      end
  end.

(** * Specifications *)

(** The type a suite's name stands for, and its benchmark. *)
Definition suite_type (name : string) : option TransportType :=
  if decide (name = "quic") then Some QUICTransportType
  else if decide (name = "dummy") then Some DummyTransportType
  else if decide (name = "uds") then Some UDSTransportType
  else if decide (name = "tcp") then Some TCPTransportType
  else if decide (name = "udp") then Some UDPTransportType
  else None.

Definition suite_loop (t : TransportType) :=
  if decide (t = QUICTransportType) then quic_runBenchmark
  else if decide (t = DummyTransportType) then dummy_runBenchmark
  else if decide (t = UDSTransportType) then uds_runBenchmark
  else if decide (t = TCPTransportType) then tcp_runBenchmark
  else udp_runBenchmark.

(** How a suite's clients connect, and its messages. *)
Definition suite_acquire (t : TransportType) : client_net → reply (option error) :=
  if decide (t = QUICTransportType) then quic_AcquireClient else AcquireClient.
Definition suite_message (t : TransportType) : bool → io → message_result :=
  if decide (t = QUICTransportType) then quic_message
  else if decide (t = DummyTransportType) then dummy_message
  else if decide (t = UDSTransportType) then uds_message
  else if decide (t = TCPTransportType) then tcp_message
  else udp_message.

Lemma suite_loop_eq t isWrite :
  suite_loop t isWrite = runBenchmark (suite_acquire t) (suite_message t isWrite) 500.
Proof.
  unfold suite_loop, suite_acquire, suite_message. repeat case_decide; subst; done.
Qed.

(** No call of a benchmark's clients waits for ever, and that of the command's. *)
Definition suite_answers (t : TransportType) (isWrite : bool) (numClients perClient : Z) : Prop :=
  network_answers (suite_acquire t) (suite_message t isWrite) (bench_network t isWrite)
    numClients perClient.
Definition benchmark_answers (flags : gmap string string) (ints : gmap string Z) : Prop :=
  ∀ t, suite_type (c_String flags "suite") = Some t →
    suite_answers t (bool_decide (c_String flags "type" = "write"))
      (c_Int ints "clients") (c_Int ints "messages").

(** A server made ready for benchmarks: handlers on the database [bDb], for the dummy
    transport without a batch writer. *)
Definition bench_ready (t : TransportType) (o : objects) (bDb : Db) (srv : nat) : Prop :=
  if decide (t = DummyTransportType) then
    ∃ s, obj_servers o !! srv = Some s ∧
      srv_handlers s !! WriteHandlerType = Some (HDummyWrite bDb) ∧
      srv_handlers s !! ReadHandlerType = Some (HRead bDb)
  else ∃ writer, served_by o bDb srv writer.

(** What is in the state beside the report and the output. *)
Definition same_suites (s s' : bstate) : Prop :=
  b_service s' = b_service s ∧ b_servers s' = b_servers s ∧ b_stopped s' = b_stopped s ∧
  b_signal s' = b_signal s.

(** * Lemmas *)

Lemma suite_manager_lookup fdb name :
  suite_manager fdb !! name
  = (λ t, make_suite t (suite_loop t) fdb) <$> suite_type name.
Proof.
  unfold suite_manager, NewSuiteManager, RegisterSuite, suite_type.
  repeat (case_decide; [subst name; by rewrite ?lookup_insert_ne, lookup_insert_eq by done|]).
  by rewrite !lookup_insert_ne, lookup_empty by congruence.
Qed.

Lemma suite_kind_typed t c : config_type c = Some t → suite_kind t c = true.
Proof. destruct c; simpl; try done; intros [= <-]; done. Qed.

(** A server is prepared, whatever its handlers were. *)
Lemma prepare_ready t srv bDb o s :
  obj_servers o !! srv = Some s →
  ∃ o', (if decide (t = DummyTransportType) then prepare_dummy srv bDb
         else prepare_server srv bDb) o = Done o' () ∧ bench_ready t o' bDb srv.
Proof.
  intros Es. unfold bench_ready. case_decide.
  - unfold prepare_dummy, mbind, go_bind, set_handler. rewrite Es. simpl.
    pose proof (lookup_lt_Some _ _ _ Es) as Hlt.
    rewrite list_lookup_insert_eq by done. simpl. rewrite list_insert_insert_eq.
    eexists. split; [done|]. eexists. simpl. rewrite list_lookup_insert_eq by done.
    split; [done|]. simpl. by rewrite lookup_insert_ne, !lookup_insert_eq.
  - destruct (prepare_server_ok srv bDb o s Es) as (o' & E & Hs & _). eauto.
Qed.

(** The outcomes of a suite's [Start] on the manager [New] makes. *)
Lemma suite_start_spec t fdb s :
  tm_typed (fdb_tm fdb) (f_obj (b_service s)) →
  ∃ s' r, suite_start t fdb s = Done s' r ∧
    b_stopped s' = b_stopped s ∧ b_signal s' = b_signal s ∧ b_output s' = b_output s ∧
    match fdb_tm fdb !! t, GetDb (fdb_dbManager fdb) "benchmark" with
    | Some srv, Ok bDb =>
        r = (if decide (t = QUICTransportType)
             then (λ e, Wrap e "failed to start QUIC server: %w") <$> start_result srv
             else None) ∧
        bench_ready t (f_obj (b_service s')) bDb srv ∧
        b_servers s' = (if r is Some _ then b_servers s else <[t := srv]> (b_servers s))
    | _, _ => r ≠ None ∧ s' = s
    end.
Proof.
  intros Hty. unfold suite_start. destruct (suite_name t) as [name srvName].
  unfold GetTransport. destruct (fdb_tm fdb !! t) as [srv|] eqn:Et; [|by eexists _, _].
  destruct (Hty t srv Et) as (server & Es & Hc).
  unfold mbind at 1, go_bind at 1, go_get at 1. rewrite Es, (suite_kind_typed _ _ Hc).
  destruct (GetDb (fdb_dbManager fdb) "benchmark") as [bDb|e]; [|by eexists _, _].
  destruct (prepare_ready t srv bDb _ _ Es) as (o' & Eo & Hready).
  erewrite go_bind_done by (by do 2 apply go_zoom_done).
  destruct (start_result srv) as [e|] eqn:Er, (decide (t = QUICTransportType)); by eexists _, _.
Qed.

(** The outcomes of a benchmark of a suite whose server is set. *)
Lemma suite_run_spec t srv isWrite numClients perClient s :
  b_servers s !! t = Some srv →
  (Z.max 0 numClients * Z.max 0 perClient < 2 ^ 53)%Z →
  LatencyHistogram (b_report s) = [] →
  (suite_run t isWrite (suite_loop t) numClients perClient s = Blocked ∧
   ¬ suite_answers t isWrite numClients perClient) ∨
  ∃ s' r, suite_run t isWrite (suite_loop t) numClients perClient s = Done s' r ∧
    same_suites s s' ∧ b_output s' = b_output s ∧
    (r = None → (0 ≤ numClients)%Z → (0 ≤ perClient)%Z →
     SuccessMessages (b_report s') = (numClients * perClient)%Z ∧
     FailedMessages (b_report s') = 0%Z ∧
     TotalMessages (b_report s') = SuccessMessages (b_report s')).
Proof.
  intros Hs Hlt Hh. unfold suite_run, mbind, go_bind, go_get. cbv beta iota.
  rewrite decide_False by (rewrite Hs; by intros []). rewrite suite_loop_eq.
  unfold on_report, go_zoom.
  destruct (runBenchmark_spec (suite_acquire t) (suite_message t isWrite) 500 bench_duration
    bench_memory (bench_network t isWrite) numClients perClient (b_report s) Hlt Hh)
    as [[-> Hn]|(r' & e & -> & Hc)]; [by left|right].
  eexists _, e. split; [done|]. split_and!; [by split_and!|done|]. exact Hc.
Qed.

(** The file of an exported report. *)
Definition exported (filename : string) (s s' : bstate) : Prop :=
  ∃ data, json_Encode (b_report s) = (data, None) ∧
    b_files s' = <[filename := written os_umask mode_666 (b_files s) filename data]> (b_files s).

Lemma ExportToJSON_spec filename s :
  ∃ s' r, ExportToJSON filename s = Done s' r ∧ same_suites s s' ∧ b_report s' = b_report s ∧
    (∃ out, b_output s' = b_output s ++ out) ∧ (r = None → exported filename s s').
Proof.
  unfold ExportToJSON, exported.
  destruct (os_Create os_umask os_Create_fails filename (b_files s)) as [fs [e|]| |] eqn:E;
    try by (destruct (os_Create_returns os_umask os_Create_fails filename (b_files s)) as (? & ? & E' & _);
            rewrite E in E').
  - erewrite go_bind_done by (by apply go_zoom_done). eexists _, _. split; [done|]. simpl.
    split_and!; [by split_and!|done|by exists []; rewrite app_nil_r|done].
  - erewrite go_bind_done by (by apply go_zoom_done). unfold mbind, go_bind, go_get. cbv beta iota.
    cbn [b_report]. destruct (json_Encode (b_report s)) as [data r] eqn:Ej.
    unfold on_files, go_zoom. simpl b_files. cbn [fst snd].
    rewrite (create_write _ _ _ data _ _ E). destruct r as [e|]; eexists _, _; (split; [done|]); simpl;
      (split_and!; [by split_and!|done| |]).
    + by exists []; rewrite app_nil_r.
    + done.
    + by eexists.
    + intros _. by exists data.
Qed.

Lemma report_results_spec flags s :
  ∃ s' r, report_results flags s = Done s' r ∧ same_suites s s' ∧ b_report s' = b_report s ∧
    (∃ out, b_output s' = b_output s ++ Printed (report_lines humanize_Comma (b_report s)) :: out) ∧
    (r = None → c_String flags "output" ≠ EmptyString → exported (c_String flags "output") s s').
Proof.
  unfold report_results. erewrite go_bind_done by reflexivity. case_decide.
  { eexists _, _. split; [done|]. split_and!; [by split_and!|done|by exists []|done]. }
  set (s1 := MkB _ _ _ _ _ _ _). destruct (ExportToJSON_spec (c_String flags "output") s1)
    as (s' & r & E & Hs & Hr & (out & Ho) & Hx).
  erewrite go_bind_done by exact E. exists s'. destruct r; (eexists; split; [done|]);
    (split_and!; [done|done|exists out; rewrite Ho; simpl; by rewrite <- app_assoc|]);
    intros Hn _; [done|exact (Hx eq_refl)].
Qed.

(** What a benchmark that reports success has done: the report printed, with every message
    of every client a success, and written to the file of the flag [output], if given. *)
Definition benchmarked (flags : gmap string string) (ints : gmap string Z) (s s' : bstate) : Prop :=
  let clients := c_Int ints "clients" in let messages := c_Int ints "messages" in
  (∃ out, b_output s' = b_output s ++ Printed (report_lines humanize_Comma (b_report s')) :: out) ∧
  ((0 ≤ clients)%Z → (0 ≤ messages)%Z →
   SuccessMessages (b_report s') = (clients * messages)%Z ∧
   FailedMessages (b_report s') = 0%Z ∧
   TotalMessages (b_report s') = SuccessMessages (b_report s')) ∧
  (c_String flags "output" ≠ EmptyString →
   ∃ data f, json_Encode (b_report s') = (data, None) ∧
     b_files s' !! c_String flags "output" = Some f ∧ file_data f = data).

(** What the action does once its suite is started. *)
Lemma run_benchmark_spec fdb flags ints s t srv
    (clients := c_Int ints "clients") (messages := c_Int ints "messages") :
  suite_type (c_String flags "suite") = Some t → b_servers s !! t = Some srv →
  (Z.max 0 clients * Z.max 0 messages < 2 ^ 53)%Z →
  LatencyHistogram (b_report s) = [] →
  (run_benchmark fdb flags ints s = Blocked ∧ ¬ benchmark_answers flags ints) ∨
  ∃ s' r, run_benchmark fdb flags ints s = Done s' r ∧ same_suites s s' ∧
    (r = None → benchmarked flags ints s s').
Proof.
  intros Ht Hsrv Hlt Hh. unfold run_benchmark, SuiteManager_RunWriteBenchmark,
    SuiteManager_RunReadBenchmark. rewrite suite_manager_lookup, Ht. cbn [fmap option_fmap option_map].
  set (fail := Some (Errorf _ _)).
  assert (∀ isWrite msg, let body :=
    (r ← suite_run t isWrite (suite_loop t) clients messages;
     match r with
     | Some e => mret (Some (Wrap e msg))
     | None => report_results flags
     end : Go bstate (option error)) in
    (body s = Blocked ∧ ¬ suite_answers t isWrite clients messages) ∨
    ∃ s' r, body s = Done s' r ∧ same_suites s s' ∧ (r = None → benchmarked flags ints s s')) as Hbody.
  { intros isWrite msg body. unfold body.
    destruct (suite_run_spec t srv isWrite clients messages s Hsrv Hlt Hh)
      as [[E Hn]|(s1 & r1 & E1 & Hs1 & Ho1 & Hc1)]; [left; split; [by apply go_bind_block|done]|right].
    erewrite go_bind_done by exact E1. destruct r1 as [e|]; [by eexists _, _|].
    destruct (report_results_spec flags s1) as (s2 & r2 & E2 & Hs2 & Hr2 & (out & Ho2) & Hx2).
    exists s2, r2. split; [exact E2|]. split.
    - unfold same_suites in *. destruct_and!. split_and!; congruence.
    - intros ->. unfold benchmarked. rewrite Hr2, Ho2, Ho1. split_and!; [by eexists|by apply Hc1|].
      intros Hout. destruct (Hx2 eq_refl Hout) as (data & Ed & ->). eexists data, _.
      by rewrite lookup_insert_eq. }
  case_decide as Hw; [|case_decide].
  - destruct (Hbody true "failed to run write benchmark") as [[E Hn]|?]; [left|by right].
    split; [exact E|]. intros Ha. apply Hn. specialize (Ha t Ht).
    by rewrite bool_decide_eq_true_2 in Ha.
  - destruct (Hbody false "failed to run read benchmark") as [[E Hn]|?]; [left|by right].
    split; [exact E|]. intros Ha. apply Hn. specialize (Ha t Ht).
    by rewrite bool_decide_eq_false_2 in Ha.
  - right. by eexists _, _.
Qed.

(** * The command *)

(** What the command leaves: no suite was started, nothing is stopped and it fails; or the
    suite named by the flag was started on the server of its type, with handlers on the
    "benchmark" database, and this server was stopped. *)
Definition command_done (cfg : Config) (flags : gmap string string) (ints : gmap string Z)
    (st st' : bstate) (r : option error) : Prop :=
  (b_stopped st' = b_stopped st ∧ r ≠ None) ∨
  ∃ f fdb t srv bDb, New cfg (b_service st) = Done f (Ok fdb) ∧
    suite_type (c_String flags "suite") = Some t ∧ fdb_tm fdb !! t = Some srv ∧
    GetDb (fdb_dbManager fdb) "benchmark" = Ok bDb ∧
    bench_ready t (f_obj (b_service st')) bDb srv ∧
    b_stopped st' = b_stopped st ++ [srv] ∧
    (r = None → benchmarked flags ints st st').

Lemma benchmark_command_spec (cfg : Config) (flags : gmap string string)
    (ints : gmap string Z) (st : bstate)
    (clients := c_Int ints "clients") (messages := c_Int ints "messages") :
  Forall transport_typed (cfg_Transports cfg) →
  (Z.max 0 clients * Z.max 0 messages < 2 ^ 53)%Z →
  (BenchmarkCommand (Ok cfg) flags ints st = Blocked ∧ ¬ benchmark_answers flags ints) ∨
  ∃ st' r, BenchmarkCommand (Ok cfg) flags ints st = Done st' r ∧
    command_done cfg flags ints st st' r.
Proof.
  intros Hty Hlt. unfold BenchmarkCommand, command_done.
  destruct (New_returns cfg (b_service st) Hty) as (f & r & EN).
  erewrite go_bind_done by (by apply go_zoom_done).
  destruct r as [fdb|e]; [|right; eexists _, _; split; [done|]; by left].
  pose proof (New_ok _ _ _ _ EN) as (_ & Htm & _).
  erewrite go_bind_done by reflexivity. erewrite go_bind_done by reflexivity.
  simpl b_service. set (s1 := MkB _ _ _ _ _ _ _).
  unfold SuiteManager_Start, SuiteManager_Stop. rewrite suite_manager_lookup.
  destruct (suite_type (c_String flags "suite")) as [t|] eqn:Et;
    [|right; eexists _, _; split; [done|]; by left].
  cbn [fmap option_fmap option_map make_suite suite_Start suite_Stop].
  destruct (suite_start_spec t fdb s1 Htm) as (s2 & r & E2 & Hst & _ & Ho & Hr).
  erewrite go_bind_done by exact E2.
  destruct r as [e|]; [right; eexists _, _; split; [done|]; by left|].
  destruct (fdb_tm fdb !! t) as [srv|] eqn:Hsrv; [|by destruct Hr].
  destruct (GetDb _ _) as [bDb|] eqn:HbDb; [|by destruct Hr].
  destruct Hr as (_ & Hready & Hservers).
  erewrite go_bind_done by reflexivity. set (s3 := MkB _ _ _ _ _ _ _).
  destruct (run_benchmark_spec fdb flags ints s3 t srv) as [[E Hn]|(s4 & r & E4 & Hs4 & Hres)]; try done.
  { simpl. by rewrite Hservers, lookup_insert_eq. }
  { left. split; [by apply go_bind_block|done]. }
  right. erewrite go_bind_done by exact E4. destruct Hs4 as (Hf4 & Hsv4 & Hst4 & _).
  assert (b_servers s4 !! t = Some srv) as Ht4 by by rewrite Hsv4; simpl; rewrite Hservers, lookup_insert_eq.
  unfold suite_stop, record_stop, mbind, go_bind, go_get. rewrite Ht4.
  eexists _, r. split; [done|]. right. exists f, fdb, t, srv, bDb. simpl.
  rewrite Hf4, Hst4. simpl. rewrite Hst. split_and!; try done.
  unfold benchmarked in *. simpl in *. by rewrite Ho in Hres.
Qed.

(** The [benchmark] command returns on every decoded configuration and every behaviour of
    the servers, unless a call of its clients waits for ever.  Either no suite was started,
    nothing is stopped and it fails; or the suite named by the flag was started on the
    server of its type, with handlers on the "benchmark" database, and this server is
    stopped exactly once, whether the benchmark fails or not.  When it returns nil, the
    report was printed, shows every message of every client as a success, and is in the
    file asked for. *)
Theorem benchmark_command_returns (cfg : Config) (flags : gmap string string)
    (ints : gmap string Z) (st : bstate)
    (clients := c_Int ints "clients") (messages := c_Int ints "messages") :
  Forall transport_typed (cfg_Transports cfg) →
  (Z.max 0 clients * Z.max 0 messages < 2 ^ 53)%Z → benchmark_answers flags ints →
  ∃ st' r, BenchmarkCommand (Ok cfg) flags ints st = Done st' r ∧
    command_done cfg flags ints st st' r.
Proof.
  intros Hty Hlt Ha. by destruct (benchmark_command_spec cfg flags ints st Hty Hlt) as [[_ Hn]|?].
Qed.

(** A server that fails to start does not stop its benchmark: on a service [New] made,
    [Start] of the TCP, UDP, UDS and dummy suites only logs the failure, returns nil
    and hands the server to the clients; the QUIC suite returns the error and keeps no
    server. *)
Theorem suite_start_hides_failure (t : TransportType) (fdb : FDB) (s : bstate)
    (srv : nat) (bDb : Db) (e : error) :
  tm_typed (fdb_tm fdb) (f_obj (b_service s)) →
  fdb_tm fdb !! t = Some srv → GetDb (fdb_dbManager fdb) "benchmark" = Ok bDb →
  start_result srv = Some e →
  ∃ s', if decide (t = QUICTransportType)
        then suite_start t fdb s = Done s' (Some (Wrap e "failed to start QUIC server: %w")) ∧
             b_servers s' = b_servers s
        else suite_start t fdb s = Done s' None ∧ b_servers s' !! t = Some srv.
Proof.
  intros Hty Hsrv HbDb He.
  destruct (suite_start_spec t fdb s Hty) as (s' & r & E & _ & _ & _ & Hr).
  rewrite Hsrv, HbDb, He in Hr. destruct Hr as (-> & _ & Hs). exists s'.
  destruct (decide (t = QUICTransportType)); [done|].
  by rewrite Hs, lookup_insert_eq.
Qed.

(** An interrupt stops no server: the handler is given the value of a flag
    "suite-type" that the command does not have, whatever flags were given, and so it
    asks the manager to stop the suite with the empty name, at any time later. *)
Theorem interrupt_stops_nothing (given : gmap string string) (fdb : FDB) (s s1 s2 : bstate) :
  handleBenchmarkSignals (c_String (flag_values benchmark_strings given) "suite-type") s
    = Done s1 () →
  b_signal s2 = b_signal s1 → benchmark_signal fdb s2 = Done s2 ().
Proof.
  intros [= <-] Hs. unfold benchmark_signal, mbind, go_bind, go_get. cbv beta iota.
  rewrite Hs. simpl.
  assert (c_String (flag_values benchmark_strings given) "suite-type" = "") as ->.
  { unfold c_String, flag_values. by rewrite map_lookup_imap. }
  unfold SuiteManager_Stop. by rewrite suite_manager_lookup.
Qed.

(** A suite without server: [Stop] succeeds and stops nothing, and a benchmark with a
    client panics in the client's goroutine, before it sends anything. *)
Theorem suite_without_server (t : TransportType) (isWrite : bool)
    (numClients perClient : Z) (s : bstate) :
  b_servers s !! t = None →
  suite_stop t s = Done s None ∧
  ((0 < numClients)%Z →
   suite_run t isWrite (suite_loop t) numClients perClient s = Panicked PanicNil).
Proof.
  intros Hs. unfold suite_stop, suite_run, mbind, go_bind, go_get. cbv beta iota.
  rewrite Hs. split; [done|]. intros Hn. by rewrite decide_True.
Qed.
End suites.
