(* ===== verification/Ebpf.v ===== *)
(** The [ebpf] command of [cmd/ebpf.go] and its helpers of [helpers/ebpf.go]: loading a
    program onto an interface, listing interfaces, looking for a loaded program. *)
From S2P Require Import Prelude GoRuntime.

(** * The library *)

(** [cilium/ebpf] on a kernel: collections by file, attaching a program to an interface
    by its index, closing links and collections. [xdp] is the program that runs on an
    interface. *)
Class EbpfLib := {
  kernel : Type;
  CollectionSpec : Type;
  Collection : Type;
  Program : Type;
  Link : Type;
  LoadCollectionSpec : string → res CollectionSpec;
  NewCollection : CollectionSpec → kernel → kernel * res Collection;
  Programs : Collection → string → option Program;
  AttachXDP : Program → Z → kernel → kernel * res Link;
  link_Close : Link → kernel → kernel;
  coll_Close : Collection → kernel → kernel;
  xdp : kernel → Z → option Program;
}.

(** What its documentation says: an attached program runs until its link is closed,
    and a link that was not pinned detaches it when it is closed; nothing else changes
    what runs. *)
Class EbpfLaws `{EbpfLib} := {
  new_collection_xdp spec k k' r i : NewCollection spec k = (k', r) → xdp k' i = xdp k i;
  attach_xdp p i k k' l j :
    AttachXDP p i k = (k', Ok l) → xdp k' j = (if decide (j = i) then Some p else xdp k j);
  attach_err p i k k' e j : AttachXDP p i k = (k', Err e) → xdp k' j = xdp k j;
  link_close_xdp p i k0 k1 l k j :
    AttachXDP p i k0 = (k1, Ok l) → xdp k i = Some p →
    xdp (link_Close l k) j = (if decide (j = i) then None else xdp k j);
  coll_close_xdp c k i : xdp (coll_Close c k) i = xdp k i;
}.

(** * Strings *)

Definition is_digit (a : Ascii.ascii) : bool :=
  (48 <=? Ascii.nat_of_ascii a)%nat && (Ascii.nat_of_ascii a <=? 57)%nat.

(** The digits a string starts with. *)
Fixpoint leading_digits (s : string) : string :=
  match s with
  | String a s => if is_digit a then String a (leading_digits s) else EmptyString
  | EmptyString => EmptyString
  end.

Fixpoint string_drop (n : nat) (s : string) : string :=
  match n, s with
  | S n, String _ s => string_drop n s
  | _, _ => s
  end.

(** The submatch of [prog/xdp id (\d+)]: of the leftmost match, as many digits as there
    are. *)
Fixpoint find_prog_id (s : string) : option string :=
  let here :=
    if String.prefix "prog/xdp id " s then
      match leading_digits (string_drop 12 s) with
      | EmptyString => None
      | id => Some id
      end
    else None in
  match here, s with
  | Some id, _ => Some id
  | None, String _ s => find_prog_id s
  | None, EmptyString => None
  end.

(** * The helpers *)

(** [IsXDPAttached(iface)]: [output] is that of [ip link show iface]. *)
Definition IsXDPAttached (output : res string) : res (bool * string) :=
  match output with
  | Err e => Err e
  | Ok out =>
      if contains "xdp" out then
        match find_prog_id out with
        | Some progID => Ok (true, "XDP program ID: " +:+ progID)
        | None => Ok (true, "XDP program is attached, but no ID found.")
        end
      else Ok (false, "No XDP program attached.")
  end.

(** [IfaceIndex(iface)] panics for an unknown interface. *)
Definition IfaceIndex {St} (InterfaceByName : string → res Z) (iface : string) : Go St Z :=
  match InterfaceByName iface with Ok i => mret i | Err _ => go_panic PanicCall end.

(** * The command *)

(** A line on the console: the format and its arguments. *)
Definition line : Type := string * list arg.

Section command.
Context `{EbpfLib}.

(** The end of [ebpf load]: the program is attached; on return the deferred calls close
    the link and the collection. *)
Definition attach_program (coll : Collection) (prog : Program) (i : Z) (iface : string)
    : Go kernel (list line * option error) := λ k,
  match AttachXDP prog i k with
  | (k, Err e) => Done (coll_Close coll k)
      ([], Some (Wrap e ("failed to attach eBPF program to interface " +:+ iface)))
  | (k, Ok l) => Done (coll_Close coll (link_Close l k))
      ([("eBPF program successfully loaded onto interface %s", [AStr iface])], None)
  end.

(** The action of [ebpf load]. *)
Definition ebpf_load (InterfaceByName : string → res Z) (iface objPath section : string)
    : Go kernel (list line * option error) :=
  match LoadCollectionSpec objPath with
  | Err e => mret ([], Some (Wrap e "failed to load eBPF object: %w"))
  | Ok spec => λ k,
      match NewCollection spec k with
      | (k, Err e) => Done k ([], Some (Wrap e "failed to load eBPF collection: %w"))
      | (k, Ok coll) =>
          match Programs coll section with
          | None => Done (coll_Close coll k)
              ([], Some (Errorf "program section '%s' not found in eBPF object" [AStr section]))
          | Some prog =>
              (i ← IfaceIndex InterfaceByName iface; attach_program coll prog i iface) k
          end
      end
  end.

(** An interface of [net.Interfaces]; [FlagUp] is 1. *)
Record Interface := MkInterface {
  if_Name : string;
  if_Index : Z;
  if_MTU : Z;
  if_HardwareAddr : string;
  if_Flags : Z;
  if_Addrs : res (list string);
}.

Definition interface_lines (iface : Interface) : list line :=
  let status := if decide (Z.land (if_Flags iface) 1 ≠ 0)%Z then "up" else "down" in
  match if_Addrs iface with
  | Err e => [("  Error getting addresses for %s: %v", [AStr (if_Name iface)])]
  | Ok ipList =>
      [("Name: %s", [AStr (if_Name iface)]); ("   Index: %d", [AInt (if_Index iface)]);
       ("   MTU: %d", [AInt (if_MTU iface)]);
       ("   HardwareAddr: %s", [AStr (if_HardwareAddr iface)]);
       ("   Status: %s", [AStr status]); ("   IPs: %s", [AStr (String.concat ", " ipList)])]
  end.

(** The action of [ebpf interfaces]. *)
Definition ebpf_interfaces (ifaces : res (list Interface)) : list line * option error :=
  match ifaces with
  | Err e => ([], Some (Wrap e "failed to list network interfaces: %w"))
  | Ok ifaces => (("Available network interfaces:", []) :: ifaces ≫= interface_lines, None)
  end.

(** The action of [ebpf status]. *)
Definition ebpf_status (ip_link_show : string → res string) (iface : string)
    : list line * option error :=
  match IsXDPAttached (ip_link_show iface) with
  | Err e => ([], Some (Wrap e ("failed to check XDP status on interface " +:+ iface)))
  | Ok (true, info) => ([("An eBPF program is loaded on interface %s", [AStr iface]); (info, [])], None)
  | Ok (false, _) => ([("No eBPF program is loaded on interface %s", [AStr iface])], None)
  end.

Inductive ebpf_args :=
  | EbpfLoad (iface objPath section : string)
  | EbpfInterfaces
  | EbpfStatus (iface : string).

Definition EbpfCommands (InterfaceByName : string → res Z) (ifaces : res (list Interface))
    (ip_link_show : string → res string) (args : ebpf_args)
    : Go kernel (list line * option error) :=
  match args with
  | EbpfLoad iface objPath section => ebpf_load InterfaceByName iface objPath section
  | EbpfInterfaces => mret (ebpf_interfaces ifaces)
  | EbpfStatus iface => mret (ebpf_status ip_link_show iface)
  end.
End command.

(** * Properties *)

(** What [ebpf load] does to the programs that run. *)
Definition load_effect `{EbpfLib} (InterfaceByName : string → res Z) (iface : string)
    (k k' : kernel) (out : list line) (r : option error) : Prop :=
  match r with
  | None => ∃ i, InterfaceByName iface = Ok i ∧
      ∀ j, xdp k' j = if decide (j = i) then None else xdp k j
  | Some _ => out = [] ∧ ∀ j, xdp k' j = xdp k j
  end.

(** [ebpf load] leaves no program behind: when it reports that the program was loaded,
    its deferred [Close] has already detached it from the interface, and when it fails
    it has changed nothing; what runs on the other interfaces stays. *)
Theorem ebpf_load_leaves_nothing `{EbpfLaws} (InterfaceByName : string → res Z)
    (iface objPath section : string) (k k' : kernel) (out : list line) (r : option error) :
  ebpf_load InterfaceByName iface objPath section k = Done k' (out, r) →
  load_effect InterfaceByName iface k k' out r.
Proof.
  unfold ebpf_load, load_effect. destruct (LoadCollectionSpec objPath) as [spec|e]; [|by intros [= <- <- <-]].
  destruct (NewCollection spec k) as [k1 [coll|e]] eqn:E1.
  2: { intros [= <- <- <-]. split; [done|]. intros j. by eapply new_collection_xdp. }
  destruct (Programs coll section) as [prog|].
  2: { intros [= <- <- <-]. split; [done|]. intros j. rewrite coll_close_xdp.
       by eapply new_collection_xdp. }
  unfold IfaceIndex, mbind, go_bind. destruct (InterfaceByName iface) as [i|e]; [|done].
  simpl. unfold attach_program. destruct (AttachXDP prog i k1) as [k2 [l|e]] eqn:E2; intros [= <- <- <-].
  - exists i. split; [done|]. intros j. rewrite coll_close_xdp.
    assert (xdp k2 i = Some prog) as Hi by (by rewrite (attach_xdp _ _ _ _ _ i E2), decide_True).
    rewrite (link_close_xdp _ _ _ _ _ _ j E2 Hi), (attach_xdp _ _ _ _ _ j E2).
    rewrite (new_collection_xdp _ _ _ _ j E1). by case_decide.
  - split; [done|]. intros j. rewrite coll_close_xdp, (attach_err _ _ _ _ _ j E2).
    by eapply new_collection_xdp.
Qed.

Lemma prefix_app sub s q : String.prefix sub s = true → String.prefix sub (s +:+ q) = true.
Proof.
  revert s. induction sub as [|a sub IH]; intros [|b s]; simpl; try done; [by destruct q|].
  destruct (Ascii.ascii_dec a b); [apply IH|done].
Qed.

Lemma contains_app sub p s q : contains sub s = true → contains sub (p +:+ s +:+ q) = true.
Proof.
  intros Hs. induction p as [|a p IH]; simpl; [|by rewrite IH, orb_true_r].
  clear -Hs. induction s as [|a s IH]; simpl in *.
  - rewrite orb_false_r in Hs. destruct sub; [|done]. by destruct q.
  - apply orb_true_iff in Hs as [Hs|Hs]; apply orb_true_iff.
    + left. by apply (prefix_app sub (String a s) q).
    + right. by apply IH.
Qed.

(** [ebpf status] looks for "xdp" anywhere in what [ip link show] prints, which includes
    the name of the interface: for an interface with "xdp" in its name it reports a
    program whether there is one or not. *)
Theorem status_mistakes_names (ip_link_show : string → res string) (iface pre post : string) :
  contains "xdp" iface = true → ip_link_show iface = Ok (pre +:+ iface +:+ post) →
  ∃ info, ebpf_status ip_link_show iface
    = ([("An eBPF program is loaded on interface %s", [AStr iface]); (info, [])], None).
Proof.
  intros Hc Hout. unfold ebpf_status, IsXDPAttached. rewrite Hout, contains_app by done.
  destruct (find_prog_id _); eauto.
Qed.

(** The ID in the output is found. *)
Example find_prog_id_example :
  find_prog_id "2: eth0: <UP> mtu 1500 xdp qdisc mq prog/xdp id x prog/xdp id 42 tag ab" = Some "42".
Proof. reflexivity. Qed.
