(* ===== verification/Pem.v ===== *)
(** PEM blocks: the encoder of [encoding/pem] as the certificate commands use it, on
    the base64 encoder of [encoding/base64], and a reference decoder. *)
From S2P Require Import Prelude GoRuntime.

(** * Base64 *)

Definition base64_alphabet : list byte := String.list_byte_of_string
  "ABCDEFGHIJKLMNOPQRSTUVWXYZabcdefghijklmnopqrstuvwxyz0123456789+/".
Definition base64_char (i : Z) : byte := base64_alphabet !!! Z.to_nat i.
Definition pad : byte := x3d.       (* '=' *)
Definition newline : byte := x0a.

(** The 24 bits of three bytes. *)
Definition bits24 (a b c : byte) : Z := (Z_of_byte a * 65536 + Z_of_byte b * 256 + Z_of_byte c)%Z.

(** [base64.StdEncoding]: groups of three bytes, the last one padded. *)
Fixpoint base64_encode (bs : list byte) : list byte :=
  match bs with
  | a :: b :: c :: bs =>
      let v := bits24 a b c in
      base64_char (v / 2 ^ 18) :: base64_char (v / 2 ^ 12 mod 64) ::
      base64_char (v / 2 ^ 6 mod 64) :: base64_char (v mod 64) :: base64_encode bs
  | [a; b] =>
      let v := bits24 a b x00 in
      [base64_char (v / 2 ^ 18); base64_char (v / 2 ^ 12 mod 64); base64_char (v / 2 ^ 6 mod 64); pad]
  | [a] =>
      let v := bits24 a x00 x00 in
      [base64_char (v / 2 ^ 18); base64_char (v / 2 ^ 12 mod 64); pad; pad]
  | [] => []
  end.

(** The reference decoder: the value of a character, groups of four. *)
Definition base64_value (c : byte) : option Z :=
  (λ p, Z.of_nat p.1) <$> list_find (c =.) base64_alphabet.

Definition base64_group (a b c d : byte) : option (list byte) :=
  i ← base64_value a; j ← base64_value b;
  if decide (c = pad ∧ d = pad) then Some [byte_of_Z ((i * 64 + j) / 16)]
  else
    k ← base64_value c;
    if decide (d = pad) then
      let v := ((i * 64 + j) * 64 + k)%Z in Some [byte_of_Z (v / 1024); byte_of_Z (v / 4)]
    else
      l ← base64_value d;
      let v := (((i * 64 + j) * 64 + k) * 64 + l)%Z in
      Some [byte_of_Z (v / 65536); byte_of_Z (v / 256); byte_of_Z v].

Fixpoint base64_decode (cs : list byte) : option (list byte) :=
  match cs with
  | [] => Some []
  | a :: b :: c :: d :: cs =>
      bs ← base64_group a b c d; rest ← base64_decode cs; Some (bs ++ rest)
  | _ => None
  end.

(** * PEM *)

(** The [lineBreaker] of [encoding/pem]: a newline behind every 64 characters and behind
    the last line; [used] is the length of the current line. *)
Fixpoint line_break (used : nat) (cs : list byte) : list byte :=
  match cs with
  | [] => if decide (used = 0) then [] else [newline]
  | c :: cs =>
      c :: (if decide (S used = 64) then newline :: line_break 0 cs else line_break (S used) cs)
  end.

(** [pem.EncodeToMemory(&pem.Block{Type: typ, Bytes: bytes})] *)
Definition pem_begin (typ : string) : list byte :=
  String.list_byte_of_string ("-----BEGIN " +:+ typ +:+ "-----") ++ [newline].
Definition pem_end (typ : string) : list byte :=
  String.list_byte_of_string ("-----END " +:+ typ +:+ "-----") ++ [newline].
Definition pem_EncodeToMemory (typ : string) (bytes : list byte) : list byte :=
  pem_begin typ ++ line_break 0 (base64_encode bytes) ++ pem_end typ.

(** The reference decoder of a text that is one block of type [typ]. *)
Definition pem_parse (typ : string) (text : list byte) : option (list byte) :=
  let n := length text - length (pem_begin typ) - length (pem_end typ) in
  let body := take n (drop (length (pem_begin typ)) text) in
  if decide (text = pem_begin typ ++ body ++ pem_end typ)
  then base64_decode (filter (λ c, c ≠ newline) body) else None.

(** * Round trips *)

Lemma base64_char_spec i :
  (0 ≤ i < 64)%Z →
  base64_value (base64_char i) = Some i ∧ base64_char i ≠ pad ∧ base64_char i ≠ newline.
Proof.
  intros Hi.
  assert (Forall (λ i, base64_value (base64_char i) = Some i ∧ base64_char i ≠ pad ∧
    base64_char i ≠ newline) (seqZ 0 64)) as H.
  { apply (bool_decide_unpack _). by vm_compute. }
  eapply Forall_forall in H; [exact H|]. apply elem_of_seqZ. lia.
Qed.

Lemma bits24_range a b c : (0 ≤ bits24 a b c < 2 ^ 24)%Z.
Proof.
  unfold bits24. pose proof (Z_of_byte_range a). pose proof (Z_of_byte_range b).
  pose proof (Z_of_byte_range c). lia.
Qed.

(** The four sextets of 24 bits. *)
Lemma sextets v :
  (0 ≤ v < 2 ^ 24)%Z →
  (0 ≤ v / 2 ^ 18 < 64 ∧ 0 ≤ v / 2 ^ 12 mod 64 < 64 ∧ 0 ≤ v / 2 ^ 6 mod 64 < 64 ∧
   0 ≤ v mod 64 < 64 ∧
   (v / 2 ^ 18 * 64 + v / 2 ^ 12 mod 64) = v / 2 ^ 12 ∧
   (v / 2 ^ 12) * 64 + v / 2 ^ 6 mod 64 = v / 2 ^ 6 ∧
   (v / 2 ^ 6) * 64 + v mod 64 = v)%Z.
Proof. intros Hv. split_and!; try (Z.div_mod_to_equations; lia). Qed.

(** The characters of 24 bits: none is padding or a newline, and they decode to the
    bits, all of them or with one or two characters of padding. *)
Lemma sextet_chars v (c1 := base64_char (v / 2 ^ 18)) (c2 := base64_char (v / 2 ^ 12 mod 64))
    (c3 := base64_char (v / 2 ^ 6 mod 64)) (c4 := base64_char (v mod 64)) :
  (0 ≤ v < 2 ^ 24)%Z →
  Forall (λ c, c ≠ newline) [c1; c2; c3; c4] ∧
  base64_group c1 c2 c3 c4
    = Some [byte_of_Z (v / 65536); byte_of_Z (v / 256); byte_of_Z v] ∧
  base64_group c1 c2 c3 pad
    = Some [byte_of_Z (v / 2 ^ 6 / 1024); byte_of_Z (v / 2 ^ 6 / 4)] ∧
  base64_group c1 c2 pad pad = Some [byte_of_Z (v / 2 ^ 12 / 16)].
Proof.
  intros Hv. destruct (sextets v Hv) as (H1 & H2 & H3 & H4 & E1 & E2 & E3).
  destruct (base64_char_spec _ H1) as (V1 & P1 & N1), (base64_char_spec _ H2) as (V2 & P2 & N2),
    (base64_char_spec _ H3) as (V3 & P3 & N3), (base64_char_spec _ H4) as (V4 & P4 & N4).
  fold c1 in V1, P1, N1. fold c2 in V2, P2, N2. fold c3 in V3, P3, N3. fold c4 in V4, P4, N4.
  split; [by repeat constructor|].
  unfold base64_group. rewrite V1, V2. cbn [mbind option_bind].
  rewrite (decide_False (P := c3 = pad ∧ c4 = pad)), (decide_False (P := c3 = pad ∧ pad = pad)),
    (decide_True (P := pad = pad ∧ pad = pad)) by (done || by intros []).
  rewrite V3, V4. cbn [mbind option_bind].
  rewrite (decide_False (P := c4 = pad)), (decide_True (P := pad = pad)) by done.
  by rewrite E1, E2, E3.
Qed.

(** Bytes from their 24 bits. *)
Lemma bits24_bytes a b c (v := bits24 a b c) :
  byte_of_Z (v / 65536) = a ∧ byte_of_Z (v / 256) = b ∧ byte_of_Z v = c ∧
  byte_of_Z (v / 2 ^ 6 / 1024) = a ∧ byte_of_Z (v / 2 ^ 6 / 4) = b ∧
  byte_of_Z (v / 2 ^ 12 / 16) = a.
Proof.
  pose proof (Z_of_byte_range a). pose proof (Z_of_byte_range b). pose proof (Z_of_byte_range c).
  subst v. unfold bits24.
  rewrite !Z.div_div by lia. change (2 ^ 6 * 1024)%Z with 65536%Z.
  change (2 ^ 6 * 4)%Z with 256%Z. change (2 ^ 12 * 16)%Z with 65536%Z.
  assert (∀ z b, u8 z = Z_of_byte b → byte_of_Z z = b) as Hb.
  { intros z d E. apply (inj Z_of_byte). by rewrite Z_of_byte_of_Z. }
  split_and!; apply Hb; unfold u8; Z.div_mod_to_equations; lia.
Qed.

(** Decoding what was encoded, which has no newline. *)
Lemma base64_roundtrip bs :
  base64_decode (base64_encode bs) = Some bs ∧ Forall (λ c, c ≠ newline) (base64_encode bs).
Proof.
  remember (length bs) as n eqn:En. assert (length bs ≤ n) as Hn by lia. clear En.
  revert bs Hn. induction n as [|n IH]; intros [|a [|b [|c bs]]] Hn; simpl in Hn;
    try (by split); try lia; simpl base64_encode.
  - destruct (sextet_chars _ (bits24_range a x00 x00)) as (Hf & _ & _ & Hd).
    destruct (bits24_bytes a x00 x00) as (_ & _ & _ & _ & _ & Ea).
    split; [simpl base64_decode; rewrite Hd; simpl; by rewrite Ea|].
    by repeat (apply Forall_cons in Hf as [? Hf]); repeat constructor.
  - destruct (sextet_chars _ (bits24_range a b x00)) as (Hf & _ & Hd & _).
    destruct (bits24_bytes a b x00) as (_ & _ & _ & Ea & Eb & _).
    split; [simpl base64_decode; rewrite Hd; simpl; by rewrite Ea, Eb|].
    by repeat (apply Forall_cons in Hf as [? Hf]); repeat constructor.
  - destruct (sextet_chars _ (bits24_range a b c)) as (Hf & Hd & _ & _).
    destruct (bits24_bytes a b c) as (Ea & Eb & Ec & _).
    destruct (IH bs) as [IHd IHf]; [lia|].
    split; [simpl base64_decode; rewrite Hd, IHd; simpl; by rewrite Ea, Eb, Ec|].
    repeat (apply Forall_cons in Hf as [? Hf]). by repeat constructor.
Qed.

(** Removing the newlines undoes the line breaks. *)
Lemma filter_line_break used cs :
  Forall (λ c, c ≠ newline) cs → filter (λ c, c ≠ newline) (line_break used cs) = cs.
Proof.
  intros Hcs. revert used. induction Hcs as [|c cs Hc _ IH]; intros used; simpl.
  { by case_decide. }
  rewrite filter_cons_True by done. f_equal. case_decide; [|apply IH].
  rewrite filter_cons_False by (by intros []). apply IH.
Qed.

(** The reference decoder finds in an encoded block the bytes it was made of. *)
Lemma pem_roundtrip typ bytes : pem_parse typ (pem_EncodeToMemory typ bytes) = Some bytes.
Proof.
  unfold pem_parse, pem_EncodeToMemory. cbv zeta.
  set (body := line_break 0 (base64_encode bytes)).
  rewrite drop_app_length. rewrite !length_app.
  replace (_ - _ - _) with (length body) by lia. rewrite take_app_length.
  rewrite decide_True by done. destruct (base64_roundtrip bytes) as [Hd Hf].
  unfold body. by rewrite filter_line_break.
Qed.

(** Every line of the body has at most 64 characters: none of the runs between
    newlines is longer. *)
Fixpoint longest_line (used : nat) (cs : list byte) : nat :=
  match cs with
  | [] => used
  | c :: cs => if decide (c = newline) then max used (longest_line 0 cs)
               else longest_line (S used) cs
  end.

Lemma line_break_width used cs :
  Forall (λ c, c ≠ newline) cs → used < 64 → longest_line used (line_break used cs) ≤ 64.
Proof.
  intros Hcs. revert used. induction Hcs as [|c cs Hc _ IH]; intros used Hu; simpl.
  { case_decide; simpl; lia. }
  rewrite decide_False by done. case_decide; [|apply IH; lia].
  simpl. specialize (IH 0). lia.
Qed.
