(* ===== verification/Certs.v ===== *)
(** The certificates: [certs/generator.go], [certs/certbot.go] and the [certs] command
    of [cmd/certs.go] on a file system with permissions. *)
From S2P Require Import Prelude GoRuntime Files Pem.

(** * Certificates *)

(** The template of a self-signed certificate; times in nanoseconds. *)
Record x509_Certificate := MkCertificate {
  SerialNumber : Z;
  Organization : list string;
  NotBefore : Z;
  NotAfter : Z;
  KeyUsage : Z;
  ExtKeyUsage : list Z;
  BasicConstraintsValid : bool;
}.

(** The constants of [crypto/x509]. *)
Definition KeyUsageDigitalSignature : Z := 1.
Definition KeyUsageKeyEncipherment : Z := 4.
Definition ExtKeyUsageServerAuth : Z := 1.

(** The cryptography of [crypto/ecdsa] and [crypto/x509]: P-256 keys, signing a template
    with itself as parent, the DER form of a key. *)
Class Crypto := {
  ecdsa_PrivateKey : Type;
  ecdsa_GenerateKey : res ecdsa_PrivateKey;
  x509_CreateCertificate : x509_Certificate → ecdsa_PrivateKey → res (list byte);
  x509_MarshalECPrivateKey : ecdsa_PrivateKey → res (list byte);
}.

Section certs.
Context `{Crypto}.

(** 365 days. *)
Definition one_year : Z := 365 * 24 * 3600000000000.

Definition cert_template (now1 now2 : Z) : x509_Certificate :=
  MkCertificate 1 ["Example Organization"] now1 (now2 + one_year)
    (Z.lor KeyUsageKeyEncipherment KeyUsageDigitalSignature) [ExtKeyUsageServerAuth] true.

(** [GenerateSelfSignedCert()] and its private double: [now1] and [now2] are what the
    two calls of [time.Now] return. *)
Definition GenerateSelfSignedCert (now1 now2 : Z) : res (list byte * ecdsa_PrivateKey) :=
  privKey ← ecdsa_GenerateKey;
  certBytes ← x509_CreateCertificate (cert_template now1 now2) privKey;
  mret (certBytes, privKey).
Definition generateSelfSignedCert := GenerateSelfSignedCert.

(** [GenerateTLSConfig()]: the certificate chain, the key and the protocols; it panics
    when there is no certificate. *)
Definition GenerateTLSConfig {St} (now1 now2 : Z)
    : Go St (list (list byte) * ecdsa_PrivateKey * list string) :=
  match generateSelfSignedCert now1 now2 with
  | Err _ => go_panic PanicCall
  | Ok (cert, privKey) => mret ([cert], privKey, ["quic-example"])
  end.

(** [ExportPEM(cert, privKey)] *)
Definition ExportPEM (cert : list byte) (privKey : ecdsa_PrivateKey)
    : res (list byte * list byte) :=
  let certPEM := pem_EncodeToMemory "CERTIFICATE" cert in
  privBytes ← x509_MarshalECPrivateKey privKey;
  mret (certPEM, pem_EncodeToMemory "EC PRIVATE KEY" privBytes).

(** * Certbot *)

(** [exec] runs a program on its arguments: what it does to the files, the combined output,
    and the error. *)
Definition exec_fn : Type := string → list string → files → files * (list byte * option error).

Definition CertbotCreateCertificate (exec : exec_fn) (domain email : string)
    : Go files (option error) := λ fs,
  match exec "certbot" ["certonly"; "--non-interactive"; "--agree-tos"; "--email"; email;
                        "-d"; domain] fs with
  | (fs, (out, Some _)) => Done fs (Some (Errorf "failed to create certificate: %s" [ABytes out]))
  | (fs, (_, None)) => Done fs None
  end.

Definition CertbotRenewCertificate (exec : exec_fn) : Go files (option error) := λ fs,
  match exec "certbot" ["renew"] fs with
  | (fs, (out, Some _)) => Done fs (Some (Errorf "failed to renew certificate: %s" [ABytes out]))
  | (fs, (_, None)) => Done fs None
  end.

(** * The command *)

(** The action of [certs local]. *)
Definition certs_local (now1 now2 umask : Z) (fails : string → option (error * option nat))
    (certOutput keyOutput : string) : Go files (option error) :=
  match GenerateSelfSignedCert now1 now2 with
  | Err e => mret (Some (Wrap e "failed to generate certificate: %w"))
  | Ok (cert, privKey) =>
      match ExportPEM cert privKey with
      | Err e => mret (Some (Wrap e "failed to export certificate and key: %w"))
      | Ok (certPEM, keyPEM) =>
          r ← os_WriteFile umask fails certOutput certPEM mode_644;
          match r with
          | Some e => mret (Some (Wrap e "failed to write certificate file: %w"))
          | None =>
              r ← os_WriteFile umask fails keyOutput keyPEM mode_600;
              match r with
              | Some e => mret (Some (Wrap e "failed to write private key file: %w"))
              | None => mret None
              end
          end
      end
  end.

(** The subcommands of [certs]. *)
Inductive certs_args :=
  | CertsCreate (domain email : string)
  | CertsRenew
  | CertsLocal (cert key : string).

Definition CertsCommand (exec : exec_fn)
    (now1 now2 umask : Z) (fails : string → option (error * option nat)) (args : certs_args)
    : Go files (option error) :=
  match args with
  | CertsCreate domain email => CertbotCreateCertificate exec domain email
  | CertsRenew => CertbotRenewCertificate exec
  | CertsLocal cert key => certs_local now1 now2 umask fails cert key
  end.

(** * Properties *)

(** What [certs local] promises of the files. *)
Definition certs_written (now1 now2 : Z) (certOutput keyOutput : string) (fs fs' : files) : Prop :=
  ∃ privKey cert der, ecdsa_GenerateKey = Ok privKey ∧
    x509_CreateCertificate (cert_template now1 now2) privKey = Ok cert ∧
    x509_MarshalECPrivateKey privKey = Ok der ∧
    (∃ f, fs' !! keyOutput = Some f ∧ pem_parse "EC PRIVATE KEY" (file_data f) = Some der ∧
       (certOutput ≠ keyOutput → fs !! keyOutput = None → Z.land (file_mode f) 63 = 0%Z)) ∧
    (certOutput ≠ keyOutput →
     ∃ f, fs' !! certOutput = Some f ∧ pem_parse "CERTIFICATE" (file_data f) = Some cert) ∧
    (∀ name, name ≠ certOutput → name ≠ keyOutput → fs' !! name = fs !! name).

Lemma certs_local_spec now1 now2 umask fails certOutput keyOutput fs fs' :
  certs_local now1 now2 umask fails certOutput keyOutput fs = Done fs' None →
  certs_written now1 now2 certOutput keyOutput fs fs'.
Proof.
  unfold certs_local, certs_written, GenerateSelfSignedCert, ExportPEM.
  destruct ecdsa_GenerateKey as [privKey|]; [|done]. simpl.
  destruct (x509_CreateCertificate _ privKey) as [cert|] eqn:Ec; [|done]. simpl.
  destruct (x509_MarshalECPrivateKey privKey) as [der|] eqn:Ed; [|done]. simpl.
  unfold mbind, go_bind.
  destruct (os_WriteFile _ _ certOutput _ _ fs) as [fs1 [e|]| |] eqn:E1; try done.
  destruct (os_WriteFile _ _ keyOutput _ _ fs1) as [fs2 [e|]| |] eqn:E2; try done.
  intros [= <-]. apply os_WriteFile_ok in E1 as ->. apply os_WriteFile_ok in E2 as ->.
  exists privKey, cert, der. split_and!; [done..| | |].
  - eexists. rewrite lookup_insert_eq. split_and!; [done|apply pem_roundtrip|].
    intros Hne Hnew. unfold written, opened_mode. cbn [file_mode]. rewrite lookup_insert_ne, Hnew by done.
    apply Z.bits_inj'. intros i Hi. rewrite Z.land_spec, Z.ldiff_spec, Z.bits_0.
    rewrite andb_comm, andb_assoc. replace (Z.testbit 63 i && _) with false; [done|].
    rewrite <- Z.land_spec. symmetry. apply Z.bits_0.
  - intros Hne. eexists. rewrite lookup_insert_ne, lookup_insert_eq by done.
    split; [done|]. apply pem_roundtrip.
  - intros name Hn1 Hn2. by rewrite !lookup_insert_ne by done.
Qed.

(** C38: When [certs local] reports success, both files hold what it made: the PEM blocks
    read back as the certificate and as the DER form of the key the certificate was
    signed with, no other file was touched, and the key file, where it is new and not
    the certificate's, is closed to group and others, whatever the umask. *)
Theorem certs_local_writes (now1 now2 umask : Z) (fails : string → option (error * option nat))
    (certOutput keyOutput : string) (fs fs' : files) :
  certs_local now1 now2 umask fails certOutput keyOutput fs = Done fs' None →
  ∃ privKey cert der, ecdsa_GenerateKey = Ok privKey ∧
    x509_CreateCertificate (cert_template now1 now2) privKey = Ok cert ∧
    x509_MarshalECPrivateKey privKey = Ok der ∧
    (∃ f, fs' !! keyOutput = Some f ∧ pem_parse "EC PRIVATE KEY" (file_data f) = Some der ∧
       (certOutput ≠ keyOutput → fs !! keyOutput = None → Z.land (file_mode f) 63 = 0%Z)) ∧
    (certOutput ≠ keyOutput →
     ∃ f, fs' !! certOutput = Some f ∧ pem_parse "CERTIFICATE" (file_data f) = Some cert) ∧
    (∀ name, name ≠ certOutput → name ≠ keyOutput → fs' !! name = fs !! name).
Proof. apply certs_local_spec. Qed.

(** The key is not always protected: written over a file that exists, or to the path of
    the certificate, it keeps that file's permissions. *)
Theorem certs_local_keeps_mode (now1 now2 umask : Z) (fails : string → option (error * option nat))
    (certOutput keyOutput : string) (fs fs' : files) :
  certs_local now1 now2 umask fails certOutput keyOutput fs = Done fs' None →
  (∀ f, fs !! keyOutput = Some f → file_mode <$> fs' !! keyOutput = Some (file_mode f)) ∧
  (certOutput = keyOutput → fs !! keyOutput = None →
   file_mode <$> fs' !! keyOutput = Some (Z.ldiff mode_644 umask)).
Proof.
  unfold certs_local. destruct (GenerateSelfSignedCert _ _) as [[cert privKey]|]; [|done].
  destruct (ExportPEM _ _) as [[certPEM keyPEM]|]; [|done]. unfold mbind, go_bind.
  destruct (os_WriteFile _ _ certOutput _ _ fs) as [fs1 [e|]| |] eqn:E1; try done.
  destruct (os_WriteFile _ _ keyOutput _ _ fs1) as [fs2 [e|]| |] eqn:E2; try done.
  intros [= <-]. apply os_WriteFile_ok in E1 as ->. apply os_WriteFile_ok in E2 as ->.
  rewrite lookup_insert_eq. unfold written, opened_mode. simpl. rewrite lookup_insert. split.
  - intros f Hf. case_decide as Hd; [subst|]; by rewrite Hf.
  - intros -> Hnew. by rewrite decide_True, Hnew.
Qed.
End certs.
