(* ===== verification/Program.v ===== *)
(** The program of [entrypoint/main.go]: its four commands behind the command-line library,
    from the arguments to the exit status. *)
From S2P Require Import Prelude GoRuntime Slices Types Messages Config Mdbx Database BatchWriter WriterSpec WriterCorrect Lifecycle QuicLifecycle Fdb Serve ServeSound Files Float64 Benchmark BenchClients Suites Ebpf Pem Certs.

(** * The command line *)

(** A command with the flags given on the command line. *)
Inductive command :=
  | RunCerts (args : certs_args)
  | RunBenchmark (strings : gmap string string) (ints : gmap string Z)
  | RunEbpf (args : ebpf_args)
  | RunServe (config : option string) (transports : option (list string)).

(** [urfave/cli] on the four commands: the error of arguments it does not accept, nothing
    when it only prints a help text, or the command whose action it calls. *)
Class Cli := { cli_Parse : list string → res (option command) }.

(** The operating system and the libraries the actions meet, other than those of the
    service. *)
Class Os := {
  exec_CombinedOutput : exec_fn;
  time_Now1 : Z;
  time_Now2 : Z;
  os_WriteFile_fails : string → option (error * option nat);
  net_InterfaceByName : string → res Z;
  net_Interfaces : res (list Interface);
  ip_link_show : string → res string;
  yaml_Unmarshal : list byte → res Config;
}.

Section program.
Context `{Mdbx} `{TlsEnv} `{Host} `{BenchHost} `{Engines} `{Crypto} `{EbpfLib} `{Cli} `{Umask} `{Os}.

(** What outlives the process: the databases, the files, the kernel; and its console. *)
Record process := MkProcess {
  p_mdbx : mdbx_state;
  p_files : gmap string file;
  p_kernel : kernel;
  p_output : list output;
  p_lines : list line;
}.

(** A configuration file, as both commands that have one load it. *)
Definition load_config : string → res Config := LoadConfig os_ReadFile yaml_Unmarshal.

(** A process that starts has no servers and no writers. *)
Definition first_service (p : process) : fstate := MkF (p_mdbx p) (MkObj [] []).

(** The actions, each on its part of the process. *)
Definition action_certs (args : certs_args) : Go process (option error) :=
  go_zoom p_files (λ fs p, MkProcess (p_mdbx p) fs (p_kernel p) (p_output p) (p_lines p))
    (CertsCommand exec_CombinedOutput time_Now1 time_Now2 os_umask os_WriteFile_fails args).

Definition action_benchmark (strings : gmap string string) (ints : gmap string Z)
    : Go process (option error) :=
  let flags := flag_values benchmark_strings strings in
  go_zoom (λ p, MkB (first_service p) ∅ NewReport [] None (p_output p) (p_files p))
    (λ st p, MkProcess (f_mdbx (b_service st)) (b_files st) (p_kernel p) (b_output st) (p_lines p))
    (BenchmarkCommand (load_config (c_String flags "config")) flags
       (flag_values benchmark_ints ints)).

Definition print_lines (r : list line * option error) : Go process (option error) := λ p,
  Done (MkProcess (p_mdbx p) (p_files p) (p_kernel p) (p_output p) (p_lines p ++ r.1)) r.2.

Definition action_ebpf (args : ebpf_args) : Go process (option error) :=
  go_zoom p_kernel (λ k p, MkProcess (p_mdbx p) (p_files p) k (p_output p) (p_lines p))
    (EbpfCommands net_InterfaceByName net_Interfaces ip_link_show args) ≫= print_lines.

(** The context of the command line is never done. *)
Definition action_serve (config : option string) (transports : option (list string))
    (sched : schedule) : Go process (option error) :=
  go_zoom (λ p, MkServing (first_service p) (MkNet [] []))
    (λ s p, MkProcess (f_mdbx (se_service s)) (p_files p) (p_kernel p) (p_output p) (p_lines p))
    (serve_action load_config config transports sched None).

(** [app.Run(os.Args)]; [sched] is what happens while the service runs. *)
Definition app_Run (args : list string) (sched : schedule) : Go process (option error) :=
  match cli_Parse args with
  | Err e => mret (Some e)
  | Ok None => mret None
  | Ok (Some (RunCerts args)) => action_certs args
  | Ok (Some (RunBenchmark strings ints)) => action_benchmark strings ints
  | Ok (Some (RunEbpf args)) => action_ebpf args
  | Ok (Some (RunServe config transports)) => action_serve config transports sched
  end.

(** [main()]: the exit status; [log.Fatalf] exits with 1. *)
Definition main (args : list string) (sched : schedule) : Go process Z :=
  r ← app_Run args sched;
  match r with
  | Some _ => mret 1%Z
  | None => mret 0%Z
  end.

(** The status of a process that ended: 2 after a panic. *)
Definition exit_status {S} (o : outcome S Z) : option Z :=
  match o with
  | Done _ status => Some status
  | Panicked _ => Some 2%Z
  | Blocked => None
  end.
End program.

(** * Exit status 0 *)

Section exit_zero.
Context `{Mdbx} `{TlsEnv} `{Host} `{BenchHost} `{Engines} `{Crypto} `{EbpfLaws} `{Cli} `{Umask} `{Os}.

(** The clients and messages of a benchmark are few enough for the counters' floats. *)
Definition bench_bound (ints : gmap string Z) : Prop :=
  let ints := flag_values benchmark_ints ints in
  (Z.max 0 (c_Int ints "clients") * Z.max 0 (c_Int ints "messages") < 2 ^ 53)%Z.

(** No call of the benchmark's clients waits for ever. *)
Definition bench_answers (strings : gmap string string) (ints : gmap string Z) : Prop :=
  benchmark_answers (flag_values benchmark_strings strings) (flag_values benchmark_ints ints).

(** What a command has done when it reports success. *)
Definition benchmark_done (strings : gmap string string) (ints : gmap string Z)
    (p p' : process) : Prop :=
  let strings := flag_values benchmark_strings strings in
  let ints := flag_values benchmark_ints ints in
  ∃ report out,
    p_output p' = p_output p ++ Printed (report_lines humanize_Comma report) :: out ∧
    ((0 ≤ c_Int ints "clients")%Z → (0 ≤ c_Int ints "messages")%Z →
     SuccessMessages report = (c_Int ints "clients" * c_Int ints "messages")%Z ∧
     FailedMessages report = 0%Z) ∧
    (c_String strings "output" ≠ EmptyString →
     ∃ data f, json_Encode report = (data, None) ∧
       p_files p' !! c_String strings "output" = Some f ∧ file_data f = data).

Definition succeeded (cmd : command) (p p' : process) : Prop :=
  match cmd with
  | RunCerts (CertsCreate domain email) =>
      ∃ out, exec_CombinedOutput "certbot"
        ["certonly"; "--non-interactive"; "--agree-tos"; "--email"; email; "-d"; domain]
        (p_files p) = (p_files p', (out, None))
  | RunCerts CertsRenew =>
      ∃ out, exec_CombinedOutput "certbot" ["renew"] (p_files p) = (p_files p', (out, None))
  | RunCerts (CertsLocal cert key) =>
      certs_written time_Now1 time_Now2 cert key (p_files p) (p_files p')
  | RunBenchmark strings ints => bench_bound ints → benchmark_done strings ints p p'
  | RunEbpf (EbpfLoad iface _ _) =>
      ∃ i, net_InterfaceByName iface = Ok i ∧
        ∀ j, xdp (p_kernel p') j = if decide (j = i) then None else xdp (p_kernel p) j
  | RunEbpf _ => p_kernel p' = p_kernel p
  | RunServe _ _ => False
  end.

(** A decoded configuration has typed transports: [UnmarshalYAML] makes them so. *)
Hypothesis yaml_typed : ∀ data cfg,
  yaml_Unmarshal data = Ok cfg → Forall transport_typed (cfg_Transports cfg).

Lemma load_config_typed path cfg :
  load_config path = Ok cfg → Forall transport_typed (cfg_Transports cfg).
Proof. intros (data & _ & Hd)%LoadConfig_ok. by eapply yaml_typed. Qed.

Lemma go_zoom_inv {S T A} get (put : S → T → T) (c : Go S A) t t' a :
  go_zoom get put c t = Done t' a → ∃ s, c (get t) = Done s a ∧ t' = put s t.
Proof. unfold go_zoom. destruct (c (get t)) as [s b| |]; try done. intros [= <- <-]. by exists s. Qed.

Lemma certs_success args p p' : action_certs args p = Done p' None → succeeded (RunCerts args) p p'.
Proof.
  intros (fs & E & ->)%go_zoom_inv. destruct args as [domain email| |cert key]; simpl in E |- *.
  - unfold CertbotCreateCertificate in E.
    destruct (exec_CombinedOutput _ _ _) as [fs1 [out [e|]]]; [done|]. injection E as <-. by exists out.
  - unfold CertbotRenewCertificate in E.
    destruct (exec_CombinedOutput _ _ _) as [fs1 [out [e|]]]; [done|]. injection E as <-. by exists out.
  - by eapply certs_local_spec.
Qed.

Lemma ebpf_success args p p' : action_ebpf args p = Done p' None → succeeded (RunEbpf args) p p'.
Proof.
  unfold action_ebpf, mbind, go_bind. destruct (go_zoom _ _ _ p) as [p1 [out r]| |] eqn:E; [|done..].
  unfold print_lines. intros [= <- Hr]. simpl in Hr. subst r.
  apply go_zoom_inv in E as (k & E & ->). destruct args as [iface obj sec| |iface]; simpl in E |- *.
  - by apply ebpf_load_leaves_nothing in E.
  - by injection E as <- _.
  - by injection E as <- _.
Qed.

Lemma benchmark_no_config e flags ints st :
  BenchmarkCommand (Err e) flags ints st = Done st (Some (Wrap e "failed to load configuration")).
Proof. done. Qed.

Lemma benchmark_success strings ints p p' :
  action_benchmark strings ints p = Done p' None → succeeded (RunBenchmark strings ints) p p'.
Proof.
  intros (st & E & ->)%go_zoom_inv Hlt. unfold bench_bound in Hlt.
  unfold succeeded, benchmark_done.
  revert E Hlt. generalize (flag_values benchmark_ints ints) (flag_values benchmark_strings strings).
  intros flags2 flags1 E Hlt.
  destruct (load_config _) as [cfg|e] eqn:El; [|by rewrite benchmark_no_config in E].
  destruct (benchmark_command_spec cfg flags1 flags2
    (MkB (first_service p) ∅ NewReport [] None (p_output p) (p_files p)) (load_config_typed _ _ El) Hlt)
    as [[E' _]|(st' & r & E' & Hr)]; [by rewrite E' in E|].
  rewrite E in E'. injection E' as <- <-.
  destruct Hr as [[_ ?]|(f & fdb & t & srv & bDb & _ & _ & _ & _ & _ & _ & Hr)]; [done|].
  destruct (Hr eq_refl) as ((out & Hout) & Hcounts & Hfile). exists (b_report st), out.
  split; [exact Hout|]. split; [|exact Hfile].
  intros Hc Hm. by destruct (Hcounts Hc Hm) as (? & ? & _).
Qed.

Lemma serve_fails config transports sched p p' r :
  action_serve config transports sched p = Done p' r → is_Some r.
Proof.
  intros (s & E & _)%go_zoom_inv. revert E. apply serve_action_error.
Qed.

(** * Ends and crashes *)

Lemma certs_returns args p : ∃ p' r, action_certs args p = Done p' r.
Proof.
  assert (∀ args fs, ∃ fs' r, CertsCommand exec_CombinedOutput time_Now1 time_Now2 os_umask
    os_WriteFile_fails args fs = Done fs' r) as Hret.
  { intros [domain email| |cert key] fs; simpl.
    { unfold CertbotCreateCertificate.
      destruct (exec_CombinedOutput _ _ fs) as [fs1 [out [e|]]]; by eexists _, _. }
    { unfold CertbotRenewCertificate.
      destruct (exec_CombinedOutput _ _ fs) as [fs1 [out [e|]]]; by eexists _, _. }
    unfold certs_local. destruct (GenerateSelfSignedCert _ _) as [[c k]|]; [|by eexists _, _].
    destruct (ExportPEM _ _) as [[cp kp]|]; [|by eexists _, _].
    destruct (os_WriteFile_returns os_umask os_WriteFile_fails cert cp mode_644 fs) as (fs1 & r1 & E1).
    rewrite (go_bind_done _ _ _ _ _ E1). destruct r1; [by eexists _, _|].
    destruct (os_WriteFile_returns os_umask os_WriteFile_fails key kp mode_600 fs1) as (fs2 & r2 & E2).
    rewrite (go_bind_done _ _ _ _ _ E2). by destruct r2; eexists _, _. }
  destruct (Hret args (p_files p)) as (fs & r & E). eexists _, r. by apply go_zoom_done.
Qed.

Lemma ebpf_returns args p :
  match action_ebpf args p with
  | Done _ _ => True
  | Panicked pn => pn = PanicCall ∧ ∃ iface obj sec e, args = EbpfLoad iface obj sec ∧
      net_InterfaceByName iface = Err e
  | Blocked => False
  end.
Proof.
  unfold action_ebpf, mbind, go_bind, go_zoom. destruct args as [iface obj sec| |iface]; simpl; [|done..].
  unfold ebpf_load. destruct (LoadCollectionSpec obj); [|done].
  destruct (NewCollection _ _) as [k1 [coll|]]; [|done]. destruct (Programs coll sec) as [prog|]; [|done].
  unfold IfaceIndex, mbind, go_bind. destruct (net_InterfaceByName iface) as [i|e] eqn:Ei.
  - simpl. unfold attach_program. by destruct (AttachXDP prog i k1) as [k2 [l|]].
  - simpl. split; [done|]. by exists iface, obj, sec, e.
Qed.

Lemma benchmark_outcome strings ints p :
  bench_bound ints →
  (action_benchmark strings ints p = Blocked ∧ ¬ bench_answers strings ints) ∨
  ∃ p' r, action_benchmark strings ints p = Done p' r.
Proof.
  unfold bench_bound, bench_answers, action_benchmark.
  generalize (flag_values benchmark_ints ints) (flag_values benchmark_strings strings).
  intros flags2 flags1 Hlt.
  set (st := λ q, MkB (first_service q) ∅ NewReport [] None (p_output q) (p_files q)).
  assert (let run := BenchmarkCommand (load_config (c_String flags1 "config")) flags1 flags2 (st p) in
    (run = Blocked ∧ ¬ benchmark_answers flags1 flags2) ∨ ∃ st' r, run = Done st' r)
    as [[E Hn]|(st' & r & E)].
  { cbv zeta. destruct (load_config _) as [cfg|e] eqn:El; [|right; eexists _, _; apply benchmark_no_config].
    destruct (benchmark_command_spec cfg flags1 flags2 (st p) (load_config_typed _ _ El) Hlt)
      as [?|(st' & r & E & _)]; eauto. }
  - left. split; [|done]. unfold go_zoom. fold (st p). by rewrite E.
  - right. eexists _, r. by apply (go_zoom_done st).
Qed.


(** The program crashes in two ways: [ebpf load] of an interface that does not exist, whose
    helper panics, and [serve] in the [Stop] of its QUIC server, given that a benchmark
    has less than 2^53 messages and [serve] names no transport twice. *)
Theorem main_crashes (args : list string) (sched : schedule) (p : process) (pn : panic) :
  main args sched p = Panicked pn →
  match cli_Parse args with
  | Ok (Some (RunEbpf (EbpfLoad iface _ _))) =>
      pn = PanicCall ∧ ∃ e, net_InterfaceByName iface = Err e
  | Ok (Some (RunServe _ transports)) =>
      ∃ ts, parse_transports (default serve_transports transports) = Ok ts ∧
        (NoDup ts → pn = PanicNil ∧ QUICTransportType ∈ ts)
  | Ok (Some (RunBenchmark _ ints)) => ¬ bench_bound ints
  | _ => False
  end.
Proof.
  unfold main, mbind, go_bind. destruct (app_Run args sched p) as [p1 [e|]|pn'|] eqn:E; [done..| |done].
  intros [= <-]. unfold app_Run in E. destruct (cli_Parse args) as [[[a|strs ints|a|config ts]|]|e].
  - destruct (certs_returns a p) as (? & ? & E'). by rewrite E in E'.
  - intros Hb. destruct (benchmark_outcome strs ints p Hb) as [[E' _]|(? & ? & E')]; by rewrite E in E'.
  - pose proof (ebpf_returns a p) as Hr. rewrite E in Hr.
    destruct Hr as (-> & iface & obj & sec & e & -> & He). eauto.
  - unfold action_serve, go_zoom in E.
    destruct (serve_action _ _ _ _ _ _) as [s r|pn0|] eqn:Es; [done| |done]. injection E as ->.
    eapply serve_action_panics; [|exact Es]. apply load_config_typed.
  - done.
  - done.
Qed.

(** C33: Exit status 0 means that the work was done: certbot has run without error, and left
    the files it did; a local certificate and its key are in both files and no other file
    was touched; a benchmark of less than 2^53 messages has printed a report, which is also
    in the file asked for, and in which, if the numbers of clients and messages are not
    negative, every message of every client succeeded; [ebpf load] has left the interface
    without a program and the others as they were, and the other [ebpf] commands have
    changed no program. [serve] never exits with 0, and neither does a command line that is
    not understood; one that only asks for help changes no database, file or program. *)
Theorem exit_zero_means (args : list string) (sched : schedule) (p p' : process) :
  main args sched p = Done p' 0%Z →
  match cli_Parse args with
  | Ok (Some cmd) => succeeded cmd p p'
  | Ok None => p_mdbx p' = p_mdbx p ∧ p_files p' = p_files p ∧ p_kernel p' = p_kernel p
  | Err _ => False
  end.
Proof.
  unfold main, mbind, go_bind. destruct (app_Run args sched p) as [p1 [e|]| |] eqn:E; [done| |done..].
  intros [= <-]. unfold app_Run in E. destruct (cli_Parse args) as [[[a|strs ints|a|config ts]|]|e].
  - by apply certs_success.
  - by apply benchmark_success in E.
  - by apply ebpf_success.
  - by apply serve_fails in E as [? ?].
  - by injection E as ->.
  - done.
Qed.
End exit_zero.
