(* ===== verification/Observability.v ===== *)
(** The wrappers of [logger/helper.go] and [metrics/metrics.go]: log entries whose fields
    are slices of the caller, the meter provider of OpenTelemetry. *)
From S2P Require Import Prelude GoRuntime.

(** * Logging *)

Section logging.
(** A field of zap, and [zap.Error]. *)
Context {Field : Type} (zap_Error : error → Field).

Inductive level := DebugLevel | InfoLevel | WarnLevel | ErrorLevel | FatalLevel.

Record entry := MkEntry { e_level : level; e_message : string; e_fields : list Field }.

(** A slice of fields: an array, the part of it and the capacity behind that. *)
Record fields := MkFields { fl_array : nat; fl_off : nat; fl_len : nat; fl_cap : nat }.

(** The arrays, the entries the global logger wrote, and the status [os.Exit] was called
    with, after which nothing runs. *)
Record logging := MkLogging {
  lg_arrays : list (list Field);
  lg_entries : list entry;
  lg_exit : option Z;
}.

Definition fields_of (s : logging) (f : fields) : list Field :=
  take (fl_len f) (drop (fl_off f) (default [] (lg_arrays s !! fl_array f))).

Definition fields_ok (s : logging) (f : fields) : Prop :=
  fl_len f ≤ fl_cap f ∧ ∃ a, lg_arrays s !! fl_array f = Some a ∧ fl_off f + fl_cap f ≤ length a.

(** [append(fields, x)]: into the array when there is capacity, into a new one otherwise. *)
Definition append_field (f : fields) (x : Field) : Go logging fields := λ s,
  if decide (fl_len f < fl_cap f) then
    Done (MkLogging (alter (λ a, <[fl_off f + fl_len f := x]> a) (fl_array f) (lg_arrays s))
            (lg_entries s) (lg_exit s))
      (MkFields (fl_array f) (fl_off f) (S (fl_len f)) (fl_cap f))
  else
    Done (MkLogging (lg_arrays s ++ [fields_of s f ++ [x]]) (lg_entries s) (lg_exit s))
      (MkFields (length (lg_arrays s)) 0 (S (fl_len f)) (S (fl_len f))).

(** The methods of [zap.L()] write an entry; [Fatal] exits. *)
Definition zap_write (l : level) (message : string) (f : fields) : Go logging () := λ s,
  Done (MkLogging (lg_arrays s) (lg_entries s ++ [MkEntry l message (fields_of s f)]) (lg_exit s)) ().

Definition os_Exit (status : Z) : Go logging () := λ s,
  Done (MkLogging (lg_arrays s) (lg_entries s) (Some status)) ().

Definition logger_Fatal (message : string) (err : error) (f : fields) : Go logging () :=
  f ← append_field f (zap_Error err);
  zap_write FatalLevel message f;;
  os_Exit 1.
Definition logger_Error (message : string) (err : error) (f : fields) : Go logging () :=
  f ← append_field f (zap_Error err);
  zap_write ErrorLevel message f.
Definition logger_Warn : string → fields → Go logging () := zap_write WarnLevel.
Definition logger_Info : string → fields → Go logging () := zap_write InfoLevel.
Definition logger_Debug : string → fields → Go logging () := zap_write DebugLevel.

(** [append] gives the fields and the new one, and keeps every slice of the array that
    does not reach behind the old end. *)
Lemma append_field_ok f x s :
  fields_ok s f →
  ∃ s' f', append_field f x s = Done s' f' ∧ fields_of s' f' = fields_of s f ++ [x] ∧
    lg_entries s' = lg_entries s ∧ lg_exit s' = lg_exit s ∧
    (∀ g, fields_ok s g → (fl_array g ≠ fl_array f ∨ fl_off g + fl_len g ≤ fl_off f + fl_len f) →
      fields_of s' g = fields_of s g).
Proof.
  intros (Hle & a & Ha & Hcap). unfold append_field, fields_of.
  case_decide as Hl; (eexists _, _; split; [done|]); simpl; rewrite ?Ha.
  - rewrite list_lookup_alter_eq, Ha. simpl. split_and!; [|done..|].
    + rewrite drop_insert_ge by lia. replace (fl_off f + fl_len f - fl_off f) with (fl_len f) by lia.
      assert (fl_len f < length (drop (fl_off f) a)) as Hd by (rewrite length_drop; lia).
      rewrite (take_S_r _ _ x) by (by rewrite list_lookup_insert_eq).
      by rewrite take_insert_ge by lia.
    + intros g (Hg & b & Hb & Hgc) Hdis. destruct (decide (fl_array g = fl_array f)) as [Heq|Hne].
      * destruct Hdis as [?|Hdis]; [done|]. rewrite Heq, list_lookup_alter_eq, Ha. simpl.
        destruct (decide (fl_off g ≤ fl_off f + fl_len f)) as [Ho|Ho].
        -- rewrite drop_insert_ge, take_insert_ge by lia. done.
        -- by rewrite drop_insert_lt by lia.
      * by rewrite list_lookup_alter_ne.
  - rewrite lookup_app_last. simpl. split_and!; [|done..|].
    + rewrite drop_0. apply take_ge. rewrite length_app, length_take. simpl. lia.
    + intros g (Hg & b & Hb & Hgc) _. rewrite lookup_app_l by (by eapply lookup_lt_Some). done.
Qed.

(** [logger.Error] writes one entry, the fields with the error behind them; the fields the
    caller passed show what they did. But where they have capacity left, the error was
    put into the caller's array: another slice that reaches behind the end of the fields
    shows the error there. *)
Theorem logger_Error_entry (message : string) (err : error) (f : fields) (s : logging) :
  fields_ok s f →
  ∃ s', logger_Error message err f s = Done s' () ∧
    lg_entries s' = lg_entries s ++ [MkEntry ErrorLevel message (fields_of s f ++ [zap_Error err])] ∧
    fields_of s' f = fields_of s f ∧ lg_exit s' = lg_exit s.
Proof.
  intros Hf. destruct (append_field_ok f (zap_Error err) s Hf) as (s1 & f1 & E & Hf1 & Hen & Hex & Hkeep).
  unfold logger_Error. rewrite (go_bind_done _ _ _ _ _ E). unfold zap_write. eexists. split; [done|].
  simpl. rewrite Hen, Hf1. split_and!; [done| |done]. apply (Hkeep f Hf). right. done.
Qed.
End logging.

(** * Metrics *)

(** OpenTelemetry: exporters to an endpoint, meter providers that export at an interval,
    meters by name. *)
Class Otel := {
  Exporter : Type;
  MeterProvider : Type;
  Meter : Type;
  otlpmetric_New : string → res Exporter;
  NewMeterProvider : Exporter → Z → MeterProvider;
  provider_Meter : MeterProvider → string → Meter;
  provider_Shutdown : MeterProvider → option error;
}.

Section metrics.
Context `{Otel}.

(** The one field, nothing for a nil pointer to [Metrics]; the state is the global
    provider. *)
Record Metrics := MkMetrics { meterProvider : MeterProvider }.

(** 15 seconds, in nanoseconds. *)
Definition export_interval : Z := 15000000000.

Definition NewMetrics (endpoint : string) : Go (option MeterProvider) (res Metrics) :=
  match otlpmetric_New endpoint with
  | Err e => mret (Err e)
  | Ok exporter =>
      let provider := NewMeterProvider exporter export_interval in
      go_put (Some provider);;
      mret (Ok (MkMetrics provider))
  end.

Definition GetMeter (m : Metrics) (instrumentationName : string) : Meter :=
  provider_Meter (meterProvider m) instrumentationName.

Definition Shutdown (m : Metrics) : option error := provider_Shutdown (meterProvider m).

(** The manager's meters are those of the global provider, unless the exporter failed,
    which leaves the global provider as it was. *)
Theorem NewMetrics_sets_global (endpoint : string) (g : option MeterProvider) :
  match NewMetrics endpoint g with
  | Done g' (Ok m) => ∃ provider, g' = Some provider ∧
      (∀ name, GetMeter m name = provider_Meter provider name) ∧
      Shutdown m = provider_Shutdown provider
  | Done g' (Err e) => g' = g ∧ otlpmetric_New endpoint = Err e
  | _ => False
  end.
Proof. unfold NewMetrics. destruct (otlpmetric_New endpoint); simpl; eauto. Qed.
End metrics.
