(* ===== verification/Witnesses.v ===== *)
(** Instances of the properties on concrete states: an in-memory database, a
    writer of two workers, frames that encode real messages. *)
From S2P Require Import Prelude GoRuntime Slices Types Messages Config Mdbx Database BatchWriter WriterSpec WriterCorrect MultiWriter Handlers Servers EndToEnd Lifecycle QuicLifecycle Fdb System Service ServiceReads ServiceSettle Register Crash Client Float64 Benchmark.

(** * A concrete world *)

#[local] Instance mdbx : Mdbx := MemMdbx.ops None.
#[local] Instance mdbx_laws : MdbxLaws := MemMdbx.laws None.
#[local] Instance mdbx_reliable : MdbxReliable := MemMdbx.reliable.

Definition final {S A} (o : outcome S A) (d : S) : S :=
  match o with Done s _ => s | _ => d end.

(** Tests that evaluate to a boolean, and what they decide. *)
Definition ok {S} (o : outcome S ()) : bool := match o with Done _ _ => true | _ => false end.
Definition some {A} (o : option A) : bool := match o with Some _ => true | None => false end.

Lemma ok_done {S} (o : outcome S ()) (d : S) : ok o = true → o = Done (final o d) ().
Proof. by destruct o as [? []| |]. Qed.

Lemma some_default {A} (o : option A) (d : A) : some o = true → o = Some (default d o).
Proof. by destruct o. Qed.

Lemma some_eq {A} (o : option A) (x y : A) : o = Some x → o = Some y → x = y.
Proof. congruence. Qed.

Definition quiet (bw : BatchWriter) : bool :=
  forallb (λ ch, bool_decide (length ch = 0)) (bw_channels bw) &&
  forallb (λ b : gmap array32 slice, bool_decide (size b = 0)) (bw_buffers bw).

Lemma quiet_quiescent bw : quiet bw = true → quiescent bw.
Proof.
  unfold quiet. intros [Hc Hb]%andb_prop. split; apply Forall_forall; intros x Hx.
  - rewrite forallb_forall in Hc. apply list_elem_of_In, Hc, bool_decide_eq_true in Hx.
    by apply nil_length_inv.
  - rewrite forallb_forall in Hb. apply list_elem_of_In, Hb, bool_decide_eq_true in Hx.
    by apply map_size_empty_inv.
Qed.

(** Evaluates a test. *)
Ltac test := vm_compute; reflexivity.

Definition ex_node : MdbxNode := MkMdbxNode "fdb" "./data" 10 1 1 4096 420.
Definition ex_mdbx : MemMdbx.state := MemMdbx.MemState 1 {[0 := ∅]}.
Definition ex_db : Db := MkDb ex_node 0 tt.
Definition ex_bw : BatchWriter :=
  MkBW ex_db (replicate 2 []) (replicate 2 ∅) 512 500 false 2 [WLoop; WLoop].
Definition ex_key : array32 := array32_of [x01].
Definition ex_data : list byte := [x0a; x0b].
Definition ex_wire : list byte := wire (MsgVal WriteHandlerType ex_key ex_data).
Definition ex_read : list byte := wire (MsgVal ReadHandlerType ex_key []).

(** The heap: a write message, a read message, the data of a message. *)
Definition ex_heap : heap := [ex_wire; ex_read; ex_data].
Definition whole (b : nat) (bs : list byte) : slice := Slice b 0 (length bs) (length bs).
Definition ex_wframe : slice := whole 0 ex_wire.
Definition ex_rframe : slice := whole 1 ex_read.
Definition ex_slice : slice := whole 2 ex_data.
Definition ex_ws : wstate := MkWs ex_heap ex_mdbx ex_bw [].
Definition ex_world : world := MkWorld ex_ws [].
Definition ex_msg : Message := MkMessage WriteHandlerType ex_key ex_slice.
Definition ex_rng : gmap array32 slice → list (array32 * slice) := map_to_list.

Lemma ex_wf : wf_bw ex_bw.
Proof. apply (wf_fresh ex_db 512 500 false 2); [lia|done]. Qed.

Lemma ex_order : map_order ex_rng.
Proof. intros m. reflexivity. Qed.

Lemma ex_ready : ready ex_key ex_world.
Proof.
  split; [apply ex_wf|by eexists|by repeat constructor|].
  intros ch Hch. assert (Some [] = Some ch) as [= <-]; [|done].
  rewrite <- Hch. reflexivity.
Qed.

(** * Messages *)

Lemma Encode_correct_witness :
  Encode ex_msg ex_heap = Done (ex_heap ++ [ex_wire]) (Ok (Slice 3 0 39 39)).
Proof. apply (Encode_correct ex_heap ex_msg). split; vm_compute; lia. Defined.

Lemma Decode_refines_format_witness :
  ∃ r, Decode ex_wframe ex_heap = Done ex_heap r ∧
    match r with Ok m => value_of ex_heap m = MsgVal WriteHandlerType ex_key ex_data
               | Err _ => False end.
Proof.
  destruct (Decode_refines_format ex_heap ex_wframe) as (r & E & Hr).
  - split; vm_compute; lia.
  - left. vm_compute. done.
  - exists r. split; [exact E|].
    assert (parse_wire (bytes_of ex_heap ex_wframe) = Ok (MsgVal WriteHandlerType ex_key ex_data))
      as Hp by (vm_compute; reflexivity).
    destruct r as [m|e]; [destruct Hr as [Hr _]|]; congruence.
Defined.

Lemma Encode_Decode_roundtrip_witness :
  ∃ h' buf m', Encode ex_msg ex_heap = Done h' (Ok buf) ∧
    Decode buf h' = Done h' (Ok m') ∧ value_of h' m' = value_of ex_heap ex_msg.
Proof.
  apply (Encode_Decode_roundtrip ex_heap ex_msg); [split; vm_compute; lia|vm_compute; done].
Defined.

(** A frame of more than 4 GiB with length field [0xffffffff], as its header and the
    number of bytes behind it. *)
Definition huge_header : list byte := replicate 33 x00 ++ [xff; xff; xff; xff].
Definition huge_tail : nat := Z.to_nat (2 ^ 32).
Definition huge_frame : list byte := huge_header ++ replicate huge_tail x00.
Definition huge_slice : slice := Slice 0 0 (37 + huge_tail) (37 + huge_tail).

Lemma huge_bytes : bytes_of [huge_frame] huge_slice = huge_frame.
Proof.
  unfold bytes_of, buf_of, huge_slice. cbn [s_len s_off s_buf].
  rewrite drop_0. apply take_ge. unfold huge_frame.
  cbn [default from_option lookup list_lookup]. unfold id.
  rewrite length_app, length_replicate. change (length huge_header) with 37. lia.
Qed.

Lemma huge_length_field : length_field huge_frame = (2 ^ 32 - 1)%Z.
Proof.
  unfold length_field, huge_frame. unfold huge_header at 1.
  rewrite <- app_assoc, drop_app_length' by done. by rewrite take_app_length'.
Qed.

Lemma Decode_length_overflow_panics_witness :
  Decode huge_slice [huge_frame] = Panicked PanicSlice.
Proof.
  apply Decode_length_overflow_panics.
  - split; unfold huge_slice; cbn [s_len s_cap s_off s_buf]; [lia|].
    unfold buf_of, huge_frame. cbn [default from_option lookup list_lookup]. unfold id.
    rewrite length_app, length_replicate. change (length huge_header) with 37. lia.
  - rewrite huge_bytes. unfold length_field_fits. rewrite huge_length_field. lia.
  - rewrite huge_bytes, huge_length_field. unfold huge_slice, huge_tail. cbn [s_len]. lia.
Defined.

(** * The writer *)

(** A run of the writer: a write, a receive, a tick. *)
Definition run_bw : BatchWriter := final (BufferWrite ex_key ex_slice ex_bw) ex_bw.
Definition run_1 : wstate := with_bw (λ _, run_bw) ex_ws.
Definition run_2 : wstate := final (runWorker ex_rng 1 CaseRequest run_1) run_1.
Definition run_3 : wstate := final (runWorker ex_rng 1 CaseTick run_2) run_2.

Lemma run_steps : stable_run ex_ws [LWrite ex_key ex_data; LWorker; LWorker] run_3.
Proof.
  apply (stable_cons _ (LWrite ex_key (bytes_of ex_heap ex_slice)) run_1); [|intros Hl; discriminate Hl|].
  { apply (step_write ex_ws ex_key ex_slice run_bw), ok_done. test. }
  apply (stable_cons _ LWorker run_2); [|intros Hl; discriminate Hl|].
  { apply (step_worker _ ex_rng 1 CaseRequest); [apply ex_order|]. apply ok_done. test. }
  eapply (stable_cons _ LWorker run_3); [|intros Hl; discriminate Hl|exact (stable_nil run_3)].
  apply (step_worker _ ex_rng 1 CaseTick); [apply ex_order|]. apply ok_done. test.
Qed.

Lemma writer_refines_map_witness :
  db_of run_3 !! array_bytes ex_key = Some ex_data.
Proof.
  destruct (writer_refines_map ex_ws run_3 [LWrite ex_key ex_data; LWorker; LWorker])
    as [_ Hq].
  - apply ex_wf.
  - apply run_steps.
  - vm_compute. reflexivity.
  - rewrite Hq by (apply quiet_quiescent; test).
    cbn [foldl spec_step]. by rewrite decide_True.
Defined.

(** Two writers on the database. *)
Definition ex_ms : mstate := MkMs ex_heap ex_mdbx [ex_bw; ex_bw] [].
Definition ex_ms' : mstate := unfocus 1 run_3 ex_ms.

Lemma ex_ms_wf : ms_wf ex_db ex_ms.
Proof. repeat constructor; apply ex_wf. Qed.

Lemma ex_quiet : quiescent ex_bw.
Proof. apply quiet_quiescent. test. Qed.

Lemma ex_ms_run : mrun ex_ms (pair 1 <$> [LWrite ex_key ex_data; LWorker; LWorker]) ex_ms'.
Proof.
  apply (mrun_focus ex_ws _ run_3 ex_ms 1 ex_bw); [apply run_steps| |reflexivity..].
  repeat constructor; intros Hl; discriminate Hl.
Qed.

Lemma writers_refine_map_witness : ms_db ex_db ex_ms' !! array_bytes ex_key = Some ex_data.
Proof.
  destruct (writers_refine_map ex_db ex_ms ex_ms'
    (pair 1 <$> [LWrite ex_key ex_data; LWorker; LWorker]) 1 ex_bw ex_key)
    as (bw' & Hi & _ & Hdb).
  - apply ex_ms_wf.
  - apply ex_ms_run.
  - vm_compute. reflexivity.
  - reflexivity.
  - intros j bw _ Hj. apply quiescent_pending.
    assert (ms_quiescent ex_ms) as Hq by (repeat constructor; apply ex_quiet).
    by apply (Forall_lookup_1 _ _ _ _ Hq) in Hj.
  - by repeat constructor.
  - rewrite Hdb.
    + cbn. by rewrite decide_True.
    + assert (ms_writers ex_ms' !! 1 = Some (ws_bw run_3)) as E
        by (apply list_lookup_insert_eq; repeat constructor).
      rewrite <- (some_eq _ _ _ E Hi).
      apply quiescent_pending, quiet_quiescent. test.
Defined.

Lemma ex_drainable i : i < 2 → drainable ex_db ex_ms i ex_bw.
Proof.
  intros Hi. split; [by destruct i as [|[|]]; [..|lia]|apply ex_wf|done|by repeat constructor].
Qed.

Lemma cross_writer_order_lost_witness :
  ∃ ms' ls, mrun ex_ms ((0, LWrite ex_key ex_data) :: (1, LWrite ex_key ex_wire) :: ls) ms' ∧
    ms_db ex_db ms' !! array_bytes ex_key = Some ex_data.
Proof.
  destruct (cross_writer_order_lost ex_rng ex_db ex_ms 0 1 ex_bw ex_bw ex_key ex_slice ex_wframe)
    as (ms' & ls & ? & ? & Hr & _ & _ & _ & _ & _ & _ & Hdb).
  - apply ex_order.
  - by eexists.
  - done.
  - apply ex_drainable. lia.
  - apply ex_drainable. lia.
  - apply ex_quiet.
  - apply ex_quiet.
  - exists ms', ls. split; [exact Hr|exact Hdb].
Defined.

Lemma drain_reaches_database_witness :
  ∃ st', drain_upto ex_rng 2 run_1 = Done st' () ∧ quiescent (ws_bw st') ∧
    db_of st' !! array_bytes ex_key = Some ex_data.
Proof.
  destruct (drain_reaches_database ex_rng run_1) as (st' & ls & E & _ & _ & Hq & _ & Hv).
  - apply ex_order.
  - apply (BufferWrite_wf ex_key ex_slice ex_bw); [apply ex_wf|]. apply ok_done. test.
  - by eexists.
  - by repeat constructor.
  - exists st'. split_and!; [exact E|exact Hq|]. rewrite Hv. vm_compute. reflexivity.
Defined.

Lemma flush_correct_witness :
  ∃ st', flush ex_rng 1 run_2 = Done st' () ∧ ws_bw st' = set_buffer 1 ∅ (ws_bw run_2).
Proof.
  destruct (flush_correct ex_rng 1 run_2 (default ∅ (bw_buffers (ws_bw run_2) !! 1))) as (st' & E & _ & Hb & _).
  - apply ex_order.
  - apply some_default. test.
  - exists st'. split; [exact E|exact Hb].
Defined.

(** A flush on a database that is full: the instance of the library admits no key. *)
Lemma failed_flush_loses_writes_witness :
  ∃ st st', @flush (MemMdbx.ops (Some 0)) ex_rng 1 st = Done st' () ∧
    view (H0 := MemMdbx.laws (Some 0)) st ex_key = Some ex_data ∧
    view (H0 := MemMdbx.laws (Some 0)) st' ex_key = None.
Proof.
  set (st := @MkWs (MemMdbx.ops (Some 0)) ex_heap ex_mdbx
       (@MkBW (MemMdbx.ops (Some 0)) (@MkDb (MemMdbx.ops (Some 0)) ex_node 0 tt)
          [[]; []] [∅; {[ex_key := ex_slice]}] 512 500 false 2 [WLoop; WLoop]) []).
  exists st, (final (flush ex_rng 1 st) st).
  assert (flush ex_rng 1 st = Done (final (flush ex_rng 1 st) st) ()) as E
    by (apply ok_done; test).
  split; [exact E|].
  apply (failed_flush_loses_writes (H0 := MemMdbx.laws (Some 0)) ex_rng 1 st
    (final (flush ex_rng 1 st) st) {[ex_key := ex_slice]} ex_key ex_slice).
  - apply (wf_set_buffer 1 {[ex_key := ex_slice]}
      (@MkBW (MemMdbx.ops (Some 0)) (@MkDb (MemMdbx.ops (Some 0)) ex_node 0 tt)
          (replicate 2 []) (replicate 2 ∅) 512 500 false 2 [WLoop; WLoop])).
    + apply (wf_fresh _ 512 500 false 2); [lia|done].
    + intros key s [<- _]%lookup_singleton_Some. vm_compute. reflexivity.
  - apply ex_order.
  - reflexivity.
  - test.
  - reflexivity.
  - exact E.
  - vm_compute. discriminate.
Defined.

Lemma buffers_stay_bounded_witness : buffers_bounded (ws_bw run_1).
Proof.
  apply (buffers_stay_bounded ex_ws run_1 (LWrite ex_key (bytes_of ex_heap ex_slice))).
  - apply (step_write ex_ws ex_key ex_slice run_bw), ok_done. test.
  - split; [done|]. by repeat constructor.
Defined.

Lemma BufferWrite_outcome_witness :
  ∃ ch, bw_channels ex_bw !! 1 = Some ch ∧
    BufferWrite ex_key ex_slice ex_bw =
      if decide (500000 ≤ Z.of_nat (length ch))%Z then Blocked
      else Done (set_channel 1 (ch ++ [MkReq ex_key ex_slice]) ex_bw) ().
Proof. apply (BufferWrite_outcome ex_key ex_slice ex_bw). apply ex_wf. Defined.

(** The writer stopped with a request in its queue; worker 1 takes the stop case. *)
Definition stop_bw : BatchWriter := final (FlushAndStop run_bw) run_bw.
Definition stop_1 : wstate := with_bw (λ _, stop_bw) ex_ws.
Definition stop_2 : wstate := final (runWorker ex_rng 1 CaseStop stop_1) stop_1.
Definition stop_3 : wstate := final (runWorker ex_rng 0 CaseStop stop_2) stop_2.

Lemma done_worker_strands_queue_witness :
  runWorker ex_rng 1 CaseStop stop_1 = Done stop_2 () ∧
  runWorker ex_rng 0 CaseStop stop_2 = Done stop_3 () ∧
  (∃ more, bw_channels (ws_bw stop_3) !! 1 = Some ([MkReq ex_key ex_slice] ++ more)).
Proof.
  split; [apply ok_done; test|].
  assert (runWorker ex_rng 0 CaseStop stop_2 = Done stop_3 ()) as E by (apply ok_done; test).
  split; [exact E|].
  apply (done_worker_strands_queue 1 stop_2 stop_3 [LWorker] [MkReq ex_key ex_slice]).
  - apply (runWorker_wf ex_rng 1 CaseStop stop_1 stop_2 ()); [|apply ok_done; test].
    apply (wf_set_stopped run_bw).
    apply (BufferWrite_wf ex_key ex_slice ex_bw); [apply ex_wf|]. apply ok_done. test.
  - vm_compute. reflexivity.
  - vm_compute. reflexivity.
  - econstructor; [|constructor]. apply (step_worker _ ex_rng 0 CaseStop); [apply ex_order|exact E].
Defined.

(** * Handlers and servers *)

Lemma ex_wframe_shows : shows ex_world ex_wframe ex_wire.
Proof. split; [split; vm_compute; lia|reflexivity]. Qed.

Lemma ex_rframe_ok : frame_ok ex_world ex_rframe.
Proof. split; vm_compute; lia. Qed.

Lemma gnet_read_answers_witness :
  w_trace (final (UDPReadHandler_HandleMessage ex_db 7 ex_rframe ex_world) ex_world)
  = [SendTo 7 (ascii "Error reading from database")].
Proof.
  unfold UDPReadHandler_HandleMessage.
  rewrite (gnet_read_answers SendTo ex_db 7 ex_world ex_rframe ex_rframe_ok).
  reflexivity.
Defined.

Lemma gnet_write_queues_witness :
  w_trace (final (TCPWriteHandler_HandleMessage 7 ex_wframe ex_world) ex_world)
  = [AsyncWrite 7 [x00]].
Proof.
  unfold TCPWriteHandler_HandleMessage.
  rewrite (gnet_write_queues AsyncWrite 7 ex_world ex_wframe (proj1 ex_wframe_shows)).
  reflexivity.
Defined.

Lemma React_dispatches_witness :
  UDS_React ∅ ex_wframe 7 ex_world = Done ex_world (ascii "ERROR: Unknown action", ActNone).
Proof.
  unfold UDS_React.
  rewrite (React_dispatches ∅ 7 ex_world ex_wframe (proj1 ex_wframe_shows)). reflexivity.
Defined.

Lemma tcp_udp_same_service_witness :
  match TCP_OnTraffic (rw_registry AsyncWrite ex_db) 7 (Ok ex_wframe) ex_world,
        UDP_React (rw_registry SendTo ex_db) ex_wframe 7 ex_world with
  | Done w1 _, Done w2 (out, _) =>
      w_ws w1 = w_ws w2 ∧ answers ex_world w1 = answers ex_world w2 ++ out_answers out
  | Panicked p1, Panicked p2 => p1 = p2
  | Blocked, Blocked => True
  | _, _ => False
  end.
Proof.
  pose proof (tcp_udp_same_service ex_db 7 ex_world ex_wframe (proj1 ex_wframe_shows)) as Hs.
  destruct (TCP_OnTraffic _ _ _ _) as [w1 a1| |], (UDP_React _ _ _ _) as [w2 [out a2]| |];
    try exact Hs.
  destruct Hs as (? & _ & ? & _). by split.
Defined.

(** A QUIC server with both handlers; the stream never fails to write. *)
Definition ex_qreg : gmap byte quic_handler := quic_rw_registry (λ _, None) ex_db.
Definition idle_handler : quic_handler := λ _ _, mret ().

Lemma handleStream_never_panics_witness :
  handleStream (RegisterHandler WriteHandlerType idle_handler ∅) 7
    [MkRead ex_wire None; MkRead [x00] None] ex_world ≠ Panicked PanicSlice.
Proof.
  apply handleStream_never_panics.
  - intros b h c m w p. unfold RegisterHandler. rewrite lookup_insert.
    case_decide; [by intros [= <-]|done].
  - repeat apply Forall_cons_2; [vm_compute; lia..|apply Forall_nil_2].
Defined.

Lemma handleStream_runs_message_witness :
  ∃ m w1, handleStream (RegisterHandler WriteHandlerType idle_handler ∅) 7
            (MkRead (ex_wire ++ [x63]) None :: []) ex_world
          = (idle_handler 7 m;; handleStream (RegisterHandler WriteHandlerType idle_handler ∅) 7 []) w1 ∧
    value_of (ws_heap (w_ws w1)) m = MsgVal WriteHandlerType ex_key ex_data.
Proof.
  destruct (handleStream_runs_message (RegisterHandler WriteHandlerType idle_handler ∅) 7
    (MsgVal WriteHandlerType ex_key ex_data) [x63] [] ex_world idle_handler)
    as (m & w1 & E & Hv & _).
  - vm_compute. lia.
  - apply lookup_insert_eq.
  - exists m, w1. split; [exact E|exact Hv].
Defined.

Lemma handleStream_drops_large_witness :
  let mv := MsgVal WriteHandlerType ex_key (replicate 4060 x61) in
  ∃ w', handleStream ex_qreg 7 (MkRead (take 4096 (wire mv)) None :: []) ex_world = Done w' () ∧
    w_trace w' = [].
Proof.
  intros mv. destruct (handleStream_drops_large ex_qreg 7 mv [] ex_world) as (w' & E & Ht & _).
  - rewrite length_wire. unfold mv. cbn [mv_data]. rewrite length_replicate. lia.
  - unfold mv. cbn [mv_data]. rewrite length_replicate. lia.
  - exists w'. split; [exact E|exact Ht].
Defined.

(** * End to end *)

Lemma ex_db_is : ex_db = db ex_world.
Proof. done. Qed.

Lemma tcp_write_then_read_witness :
  ∃ w1 w2, TCP_OnTraffic (rw_registry AsyncWrite ex_db) 7 (Ok ex_wframe) ex_world = Done w1 ActNone ∧
    answers ex_world w1 = [[x00]] ∧ settle ex_rng w1 = Done w2 ().
Proof.
  destruct (tcp_write_then_read ex_rng ex_key ex_data 7 ex_world ex_wframe ex_order ex_ready
    ex_wframe_shows) as (w1 & w2 & E1 & Ha & E2 & _).
  exists w1, w2. split_and!; [exact E1|exact Ha|exact E2].
Defined.

Lemma quic_write_tcp_read_witness :
  ∃ w1 w2, QuicWriteHandler_HandleMessage (λ _, None) 7 ex_msg ex_world = Done w1 () ∧
    answers ex_world w1 = [[x00]] ∧ settle ex_rng w1 = Done w2 ().
Proof.
  destruct (quic_write_tcp_read ex_rng (λ _, None) ex_key ex_msg 7 ex_world ex_order ex_ready)
    as (w1 & w2 & E1 & Ha & E2 & _).
  - split; vm_compute; lia.
  - reflexivity.
  - discriminate.
  - exists w1, w2. split_and!; [exact E1|exact Ha|exact E2].
Defined.

(** Two messages in one segment. *)
Definition seg_heap : heap := [ex_wire ++ ex_read].
Definition seg_frame : slice := whole 0 (ex_wire ++ ex_read).
Definition seg_world : world := MkWorld (MkWs seg_heap ex_mdbx ex_bw []) [].

Lemma seg_ready : ready ex_key seg_world.
Proof. destruct ex_ready as [? ? ? Hr]. split; try done. Qed.

Lemma tcp_coalesced_messages_witness :
  ∃ w1, TCP_OnTraffic (rw_registry AsyncWrite ex_db) 7 (Ok seg_frame) seg_world = Done w1 ActNone ∧
    answers seg_world w1 = [[x00]] ∧
    view_w w1 ex_key = Some (be32 2 ++ ex_data ++ ex_read).
Proof.
  destruct (tcp_coalesced_messages ex_key ex_data (MsgVal ReadHandlerType ex_key []) 7
    seg_world seg_frame seg_ready) as (w1 & E & Ha & Hv).
  - split; [split; vm_compute; lia|reflexivity].
  - exists w1. split_and!; [exact E|exact Ha|]. rewrite Hv. by rewrite decide_True.
Defined.

Lemma frame_reuse_changes_value_witness :
  ∃ w1, TCP_OnTraffic (rw_registry AsyncWrite ex_db) 7 (Ok ex_wframe) ex_world = Done w1 ActNone ∧
    view_w w1 ex_key = Some (be32 2 ++ ex_data) ∧
    view_w (with_heap [replicate 39 xff] w1) ex_key = Some [xff; xff; xff; xff; xff; xff].
Proof.
  apply (frame_reuse_changes_value ex_key (be32 2 ++ ex_data) 7 ex_world ex_wframe
    [replicate 39 xff] ex_ready); [apply ex_wframe_shows|discriminate].
Defined.

(** * Life cycle *)

Definition ex_eng (p : engine_pc) : option error :=
  match p with ERun => None | _ => Some (External "gnet" "ErrEmptyEngine") end.

Lemma ex_eng_serving p : ex_eng p = None → p = ERun.
Proof. by destruct p. Qed.

(** A server that came up, one stopped twice over. *)
Definition up_labels : list label := [Call_Start; Boot; Sel_started].
Definition up (k : kind) : life := final (run k ex_eng None up_labels NewServer) NewServer.
Definition stopped (k : kind) : life :=
  final (run k ex_eng None (up_labels ++ [Call_Stop]) NewServer) NewServer.

Lemma up_reachable k : k ≠ KDummy → reachable k ex_eng None (up k).
Proof. intros Hk. exists up_labels. by destruct k. Qed.

Lemma start_nil_means_up_witness : engine_up (up KTcp).
Proof.
  apply (start_nil_means_up KTcp ex_eng None ex_eng_serving).
  - by apply up_reachable.
  - by left.
Defined.

Lemma lifecycle_panics_only_on_double_stop_witness :
  exec KUds ex_eng None Call_Stop (stopped KUds) = Panicked PanicCloseClosed ∧
  is_closed (stopped KUds) (stopChan (stopped KUds)) = true.
Proof.
  split; [reflexivity|].
  apply (lifecycle_panics_only_on_double_stop KUds ex_eng None ex_eng_serving (stopped KUds)
    Call_Stop PanicCloseClosed); [|reflexivity].
  by exists (up_labels ++ [Call_Stop]).
Defined.

Lemma WaitStarted_channels_witness :
  receive 1 (up KUdp) = Blocked ∧ ∃ s', receive (started (up KUdp)) (up KUdp) = Done s' ().
Proof.
  destruct (WaitStarted_channels KUdp ex_eng None ex_eng_serving (up KUdp)) as [Hb Hr].
  - by apply up_reachable.
  - split; [exact Hb|by apply Hr].
Defined.

Lemma stop_ends_at_next_tick_witness :
  ∃ s' r s'', Stop KUdp ex_eng None (up KUdp) = Done s' r ∧ engine_tick s' = Done s'' () ∧
    epc s'' = EDown.
Proof.
  destruct (stop_ends_at_next_tick KUdp ex_eng None ex_eng_serving (up KUdp))
    as (_ & s' & r & s'' & E & Et & He & _).
  - discriminate.
  - by apply up_reachable.
  - reflexivity.
  - exists s', r, s''. split_and!; [exact E|exact Et|exact He].
Defined.

(** * The service *)

#[local] Instance ex_tls : TlsEnv := {|
  Certificate := unit; CertPool := unit; os_missing _ := false;
  LoadX509KeyPair _ _ := Ok tt; os_ReadFile _ := Ok []; AppendCertsFromPEM _ := Some tt;
|}.
#[local] Instance ex_host : Host := {|
  ParseAtomicLevel _ := None; zap_Build _ := None; os_exists _ := false; os_Remove _ := None;
|}.

Definition ex_cnf : Config :=
  MkConfig (MkLogger true "development" "debug")
    [MkTransport TCPTransportType false
       (TcpConfig (MkTcp TCPTransportType false "127.0.0.1" 5011 None));
     MkTransport UDSTransportType true (UdsConfig (MkUds UDSTransportType true "/tmp/fdb.sock"))]
    (MkMdbxConfig true [ex_node]) [MkPprof false "fdb" "127.0.0.1:6060"].

Definition ex_init : fstate := MkF MemMdbx.init (MkObj [] []).
Definition ex_made : fstate := final (New ex_cnf ex_init) ex_init.
Definition ex_fdb : FDB :=
  match New ex_cnf ex_init with
  | Done _ (Ok fdb) => fdb
  | _ => MkFDB ex_cnf ∅ (MkManager (MkMdbxConfig true []) ∅)
  end.
Definition ex_obj : objects := f_obj ex_made.

Lemma New_registers_transports_witness :
  New ex_cnf ex_init = Done ex_made (Ok ex_fdb) ∧
  tm_covers (fdb_tm ex_fdb) (cfg_Transports ex_cnf).
Proof.
  assert (New ex_cnf ex_init = Done ex_made (Ok ex_fdb)) as E by reflexivity.
  split; [exact E|].
  destruct (New_registers_transports ex_cnf ex_init ex_made ex_fdb E) as (_ & _ & Hc & _).
  exact Hc.
Defined.

Definition ex_launched : outcome objects (list task * option error) :=
  launch ex_fdb ex_db [TCPTransportType; UDSTransportType] [] ex_obj.

Lemma launch_serves_witness :
  ∃ o', ex_launched = Done o' ([TaskTransport 0; TaskTransport 1], None) ∧
    length (obj_writers o') = 2.
Proof.
  eexists. assert (ex_launched = Done (final ex_launched ex_obj)
    ([TaskTransport 0; TaskTransport 1], None)) as E by reflexivity.
  split; [exact E|].
  destruct (launch_serves ex_fdb ex_db [TCPTransportType; UDSTransportType] []
    [TaskTransport 0; TaskTransport 1] ex_obj (final ex_launched ex_obj) E) as (srvs & _ & _ & _ & Hl).
  exact Hl.
Defined.

(** The first of the launched writers stores a value. *)
Definition sv_obj : objects := final ex_launched ex_obj.
Definition sv_bw : BatchWriter := default ex_bw (obj_writers sv_obj !! 0).
Definition sv_0 : wstate := MkWs ex_heap ex_mdbx sv_bw [].
Definition sv_1 : wstate := final (runWorker ex_rng 1 CaseTick sv_0) sv_0.
Definition sv_bw1 : BatchWriter := final (BufferWrite ex_key ex_slice (ws_bw sv_1)) sv_bw.
Definition sv_2 : wstate := with_bw (λ _, sv_bw1) sv_1.
Definition sv_3 : wstate := final (runWorker ex_rng 1 CaseRequest sv_2) sv_2.
Definition sv_4 : wstate := final (runWorker ex_rng 1 CaseTick sv_3) sv_3.
Definition sv_labels : list wlabel := [LWorker; LWrite ex_key ex_data; LWorker; LWorker].

Lemma sv_run : stable_run sv_0 sv_labels sv_4.
Proof.
  apply (stable_cons _ LWorker sv_1); [|intros Hl; discriminate Hl|].
  { apply (step_worker _ ex_rng 1 CaseTick); [apply ex_order|]. apply ok_done. test. }
  apply (stable_cons _ (LWrite ex_key (bytes_of (ws_heap sv_1) ex_slice)) sv_2);
    [|intros Hl; discriminate Hl|].
  { apply (step_write sv_1 ex_key ex_slice sv_bw1), ok_done. test. }
  apply (stable_cons _ LWorker sv_3); [|intros Hl; discriminate Hl|].
  { apply (step_worker _ ex_rng 1 CaseRequest); [apply ex_order|]. apply ok_done. test. }
  eapply (stable_cons _ LWorker sv_4); [|intros Hl; discriminate Hl|exact (stable_nil sv_4)].
  apply (step_worker _ ex_rng 1 CaseTick); [apply ex_order|]. apply ok_done. test.
Qed.

Definition sv_ms : mstate := running ex_heap ex_mdbx [] sv_obj.

Lemma served_writers_converge_witness :
  ms_db ex_db (unfocus 0 sv_4 sv_ms) !! array_bytes ex_key
  = last_write 0 (pair 0 <$> sv_labels) ex_key.
Proof.
  destruct (served_writers_converge ex_fdb ex_db [TCPTransportType; UDSTransportType] []
    [TaskTransport 0; TaskTransport 1] ex_obj sv_obj ex_heap ex_mdbx []
    (pair 0 <$> sv_labels) (unfocus 0 sv_4 sv_ms) ex_key) as [([|i] & Hi & Hdb)|[Hno _]].
  - reflexivity.
  - reflexivity.
  - apply (mrun_focus sv_0 _ sv_4 sv_ms 0 sv_bw); [apply sv_run| |reflexivity..].
    repeat constructor; intros Hl; discriminate Hl.
  - vm_compute. reflexivity.
  - repeat constructor; apply quiet_quiescent; test.
  - exact Hdb.
  - destruct Hi as [v Hv]. discriminate Hv.
  - specialize (Hno 0). discriminate Hno.
Defined.

(** The same over the network: a frame reaches the TCP server, the workers store it. *)
Definition returns {S A} (o : outcome S A) : bool :=
  match o with Done _ _ => true | _ => false end.
Definition result {S A} (o : outcome S A) (a : A) : A :=
  match o with Done _ b => b | _ => a end.

Lemma returns_done {S A} (o : outcome S A) (d : S) (a : A) :
  returns o = true → o = Done (final o d) (result o a).
Proof. by destruct o. Qed.

Definition no_write_err : list event → option error := λ _, None.
Definition sw_srv : server := default (MkServer NilConfig ∅) (obj_servers sv_obj !! 0).
Definition sw_1 : mstate := unfocus 0 sv_1 sv_ms.
Definition sw_received : outcome world (list byte) :=
  serve_input no_write_err sw_srv 7 (InFrame ex_wframe) (MkWorld (focus (ws_bw sv_1) sw_1) []).
Definition sw_st2 : wstate := w_ws (final sw_received ex_world).
Definition sw_2 : mstate := unfocus 0 sw_st2 sw_1.
Definition sw_st3 : wstate := final (runWorker ex_rng 1 CaseRequest (focus (ws_bw sw_st2) sw_2)) sw_st2.
Definition sw_3 : mstate := unfocus 0 sw_st3 sw_2.
Definition sw_st4 : wstate := final (runWorker ex_rng 1 CaseTick (focus (ws_bw sw_st3) sw_3)) sw_st3.
Definition sw_4 : mstate := unfocus 0 sw_st4 sw_3.
Definition sw_labels : list svc_label :=
  [SInner 0 LWorker; SInput 0 7 (bytes_of (ms_heap sw_1) ex_wframe);
   SInner 0 LWorker; SInner 0 LWorker].

Lemma inner_worker d servers ms i bw c st' :
  ms_writers ms !! i = Some bw →
  runWorker ex_rng 1 c (focus bw ms) = Done st' () →
  svc_step no_write_err d servers ms (SInner i LWorker) (unfocus i st' ms).
Proof.
  intros Hi E. apply svc_inner; [by left|]. apply (mstep_writer ms i bw LWorker st' Hi).
  by apply (step_worker _ ex_rng 1 c); [apply ex_order|].
Qed.

Lemma sw_frame : input_ok (ms_heap sw_1) (srv_config sw_srv) (InFrame ex_wframe).
Proof.
  change (slice_ok ex_heap ex_wframe). split; vm_compute; lia.
Qed.

Lemma sw_run_2 : svc_run no_write_err ex_db (obj_servers sv_obj) sv_ms
  (take 2 sw_labels) sw_2.
Proof.
  apply (svc_cons _ _ _ _ _ sw_1).
  { apply (inner_worker _ _ _ _ sv_bw CaseTick); [reflexivity|]. apply ok_done. test. }
  apply (svc_cons _ _ _ _ _ sw_2); [|apply svc_nil].
  apply (svc_input _ _ _ _ 0 sw_srv 0 (ws_bw sv_1) 7 (InFrame ex_wframe)
    (final sw_received ex_world) (result sw_received [])); [reflexivity..|exact sw_frame|].
  apply returns_done. test.
Qed.

Lemma sw_run_34 : svc_run no_write_err ex_db (obj_servers sv_obj) sw_2
  (drop 2 sw_labels) sw_4.
Proof.
  apply (svc_cons _ _ _ _ _ sw_3).
  { apply (inner_worker _ _ _ _ (ws_bw sw_st2) CaseRequest); [reflexivity|]. apply ok_done. test. }
  apply (svc_cons _ _ _ _ _ sw_4); [|apply svc_nil].
  apply (inner_worker _ _ _ _ (ws_bw sw_st3) CaseTick); [reflexivity|]. apply ok_done. test.
Qed.

Lemma sw_run : svc_run no_write_err ex_db (obj_servers sv_obj) sv_ms sw_labels sw_4.
Proof.
  exact (svc_run_app _ _ _ _ (take 2 sw_labels) sw_2 (drop 2 sw_labels) _ sw_run_2 sw_run_34).
Qed.

Lemma sw_writes : sw_labels ≫= svc_writes (obj_servers sv_obj) =
  [(0, LWorker); (0, LWrite ex_key (be32 2 ++ ex_data)); (0, LWorker); (0, LWorker)].
Proof. vm_compute. reflexivity. Qed.

Lemma sw_single : single_writer 0 ex_key (sw_labels ≫= svc_writes (obj_servers sv_obj)).
Proof. rewrite sw_writes. by repeat constructor. Qed.

Lemma key_refines_register_witness :
  ∃ r, reg_run (fresh_register ex_mdbx ex_db ex_key) [be32 2 ++ ex_data] r ∧
    ms_db ex_db sw_4 !! array_bytes ex_key = reg_value r.
Proof.
  assert (values_of (obj_servers sv_obj) ex_key sw_labels = [be32 2 ++ ex_data]) as E
    by (unfold values_of; rewrite sw_writes; vm_compute; reflexivity).
  destruct (key_refines_register no_write_err ex_fdb ex_db [TCPTransportType; UDSTransportType] []
    [TaskTransport 0; TaskTransport 1] ex_obj sv_obj ex_heap ex_mdbx [] sw_labels sw_4 0 ex_key)
    as (r & Hr & Hdb).
  - reflexivity.
  - reflexivity.
  - exact sw_run.
  - exact sw_single.
  - exists r. rewrite E in Hr. split; [exact Hr|exact Hdb].
Defined.

Lemma reads_never_go_back_witness :
  ∃ c1 c2 v1 v2, c1 ≤ c2 ∧ c1 ≤ 1 ∧
    reads_give no_write_err ex_db ex_key sw_2 v1 ∧ reads_give no_write_err ex_db ex_key sw_4 v2.
Proof.
  assert (length (values_of (obj_servers sv_obj) ex_key (take 2 sw_labels)) = 1) as E
    by (vm_compute; reflexivity).
  destruct (reads_never_go_back no_write_err ex_fdb ex_db [TCPTransportType; UDSTransportType] []
    [TaskTransport 0; TaskTransport 1] ex_obj sv_obj ex_heap ex_mdbx []
    (take 2 sw_labels) (drop 2 sw_labels) sw_2 sw_4 0 ex_key)
    as (c1 & c2 & v1 & v2 & Hc & Hl & _ & _ & _ & H1 & _ & H2).
  - reflexivity.
  - reflexivity.
  - exact sw_run_2.
  - exact sw_run_34.
  - exact sw_single.
  - rewrite E in Hl. exists c1, c2, v1, v2. split; [exact Hc|]. split; [exact Hl|].
    split; [exact H1|exact H2].
Defined.

Lemma service_converges_witness :
  ms_db ex_db sw_4 !! array_bytes ex_key
  = last_write 0 (sw_labels ≫= svc_writes (obj_servers sv_obj)) ex_key.
Proof.
  destruct (service_converges no_write_err ex_fdb ex_db [TCPTransportType; UDSTransportType] []
    [TaskTransport 0; TaskTransport 1] ex_obj sv_obj ex_heap ex_mdbx []
    sw_labels sw_4 ex_key) as [([|i] & Hi & Hdb)|[Hno _]].
  - reflexivity.
  - reflexivity.
  - exact sw_run.
  - vm_compute. reflexivity.
  - repeat constructor; apply quiet_quiescent; test.
  - exact Hdb.
  - destruct Hi as [v Hv]. discriminate Hv.
  - specialize (Hno 0). discriminate Hno.
Defined.


Lemma reads_tell_the_past_witness :
  ∃ w' out bs, serve_input no_write_err sw_srv 8 (InFrame ex_rframe)
      (MkWorld (focus (ws_bw sw_st4) sw_4) []) = Done w' out ∧
    answers (MkWorld (focus (ws_bw sw_st4) sw_4) []) w' ++ out_answers out = [bs] ∧
    (accounted ex_db (obj_servers sv_obj) ex_mdbx sw_labels ex_key bs ∨
     bs = ascii "Error reading from database" ∨ bs = ascii "No value found for key").
Proof.
  destruct (reads_tell_the_past no_write_err ex_fdb ex_db [TCPTransportType; UDSTransportType] []
    [TaskTransport 0; TaskTransport 1] ex_obj sv_obj ex_heap ex_mdbx [] sw_labels sw_4 ex_key)
    as [_ Hr].
  - reflexivity.
  - reflexivity.
  - exact sw_run.
  - apply (Hr sw_srv 0 (ws_bw sw_st4) 8 ex_rframe (be32 0)); [reflexivity|exact I|reflexivity|].
    split; [split; vm_compute; lia|]. vm_compute. reflexivity.
Defined.


(** The queued frame is stored, whatever the workers had done so far. *)
Lemma service_settles_witness :
  ∃ ws ms', svc_run no_write_err ex_db (obj_servers sv_obj) sw_2 ws ms' ∧
    Forall worker_label ws ∧ ms_quiescent ms' ∧
    ms_db ex_db ms' !! array_bytes ex_key = Some (be32 2 ++ ex_data).
Proof.
  destruct (service_settles no_write_err ex_fdb ex_db [TCPTransportType; UDSTransportType] []
    [TaskTransport 0; TaskTransport 1] ex_obj sv_obj ex_heap ex_mdbx [] (take 2 sw_labels) sw_2)
    as (ws & ms' & Hr & Hws & _ & Hq & Hdb).
  - reflexivity.
  - reflexivity.
  - exact sw_run_2.
  - repeat constructor; intros i Hi; discriminate Hi.
  - vm_compute. reflexivity.
  - by eexists.
  - exists ws, ms'. split; [exact Hr|]. split; [exact Hws|]. split; [exact Hq|].
    destruct (Hdb ex_key) as [([|i] & Hi & E)|[Hno _]].
    + rewrite E. vm_compute. reflexivity.
    + destruct Hi as [v Hv]. discriminate Hv.
    + specialize (Hno 0). discriminate Hno.
Defined.

(** * The QUIC server *)

(** A server with one connection, whose one stream is in a handler. *)
Definition quic_serving : list qlabel :=
  [QStart None; QConn; QGo (GAcceptor (Accepted 0)); QGo (GAcceptor (Accepted 0));
   QStream 0; QGo (GConn 0 (Accepted 0)); QData 0; QGo (GStream 0 ReadServed)].
(** The goroutines leave after [Stop]. *)
Definition closed_err : accepted := AcceptErr (External "quic" "ErrServerClosed").
Definition quic_leaving : list goroutine :=
  [GAcceptor closed_err; GConn 0 closed_err; GHandler 0; GStream 0 ReadErr].

Definition q_final (ls : list qlabel) : qserver :=
  final (q_run ls Quic_NewServer) Quic_NewServer.
Definition quic_stopping : qserver := q_final (quic_serving ++ [QStop None]).
Definition quic_left : qserver := final (go_run quic_leaving quic_stopping) Quic_NewServer.

Lemma quic_stopping_reachable : q_reachable quic_stopping.
Proof. exists (quic_serving ++ [QStop None]). vm_compute. reflexivity. Qed.

Lemma Stop_waits_for_goroutines_witness :
  q_wg quic_stopping = 3 ∧ live_goroutines quic_stopping = 3.
Proof.
  destruct (Stop_waits_for_goroutines quic_stopping) as [Hw _];
    [apply quic_stopping_reachable|].
  split; [vm_compute; reflexivity|]. rewrite <- Hw. vm_compute. reflexivity.
Defined.

Lemma quic_stop_terminates_witness :
  length quic_leaving ≤ work quic_stopping ∧
  ((∃ g q, go_step g quic_left = Done q ()) ∨
   (live_goroutines quic_left = 0 ∧
    Stop_wait quic_left = Done (set_stop (StopReturned None) quic_left) ())).
Proof.
  apply (quic_stop_terminates quic_stopping quic_left quic_leaving);
    [apply quic_stopping_reachable|vm_compute; reflexivity|vm_compute; reflexivity].
Defined.

(** A second [Start] that cannot listen makes the running accept loop panic. *)
Definition quic_restarted : qserver :=
  q_final [QStart None; QStart (Some (External "quic" "address already in use"))].

Lemma quic_panics_witness :
  q_panic quic_restarted (QGo (GAcceptor closed_err)) PanicNil.
Proof.
  apply (quic_panics quic_restarted); [|vm_compute; reflexivity].
  exists [QStart None; QStart (Some (External "quic" "address already in use"))].
  vm_compute. reflexivity.
Defined.

(** * Databases and configuration *)

Lemma Db_Get_Exists_agree_witness :
  (Db_Get ex_db ex_data ex_mdbx).2 = Err mdbx_ErrNotFound ∧
  (Db_Exists ex_db ex_data ex_mdbx).2 = Ok false.
Proof.
  destruct (Db_Get_Exists_agree ex_db ex_data ex_mdbx) as [Hg He]; [by eexists|].
  split; [exact Hg|exact He].
Defined.

Lemma NewManager_GetDb_witness :
  match GetDb (fdb_dbManager ex_fdb) "fdb" with
  | Ok d => last_node "fdb" [ex_node] = Some (db_opts d)
  | Err _ => False
  end.
Proof.
  pose proof (NewManager_GetDb (MkMdbxConfig true [ex_node]) MemMdbx.init (f_mdbx ex_made)
    (fdb_dbManager ex_fdb) "fdb" eq_refl) as Hg.
  destruct (GetDb _ _) as [d|e] eqn:E; [by destruct Hg|discriminate].
Defined.

Definition ex_ops : list db_op :=
  [OpExists ex_data; OpSet ex_data [x63]; OpGet ex_data; OpDelete ex_data; OpGet ex_data].

Lemma Db_refines_map_witness :
  map_history ex_ops
    [RBool (Ok false); RErr None; RVal (Ok [x63]); RErr None;
     RVal (Err mdbx_ErrNotFound)]
    (db_view ex_mdbx ex_db) (db_view (run_ops (St := @mdbx_state mdbx) ex_db ex_ops ex_mdbx).1 ex_db).
Proof. apply (Db_refines_map ex_db ex_ops ex_mdbx). reflexivity. Defined.

(** A YAML library whose nodes are numbers; the node decodes to a TCP transport. *)
#[local] Instance ex_yaml : Yaml := {|
  Node := nat;
  decode_common _ := Ok (TCPTransportType, true, 1);
  decode_ip_tls _ := Err (External "yaml" "TypeError");
  decode_ip_opt_tls _ := Ok (UDPTransportType, true, "127.0.0.1", 5011%Z, None);
  decode_ip_dtls _ := Err (External "yaml" "TypeError");
  decode_socket _ := Err (External "yaml" "TypeError");
  Node_Decode _ f n := f n;
|}.

Lemma Transport_UnmarshalYAML_typed_witness :
  transport_typed (MkTransport TCPTransportType true
    (TcpConfig (MkTcp TCPTransportType true "127.0.0.1" 5011 None))).
Proof. apply (@Transport_UnmarshalYAML_typed ex_yaml 0 _). reflexivity. Defined.

(** * Benchmark and client *)

Definition ex_report : Report :=
  MkReport 2 3 0 6 0 2000000000 0 [30; 10; 20]%Z 0 0 0 f64_zero 0 f64_zero f64_zero.

Lemma Finalize_percentiles_witness :
  ∃ r', Finalize 4096 ex_report = Done r' () ∧
    (P50Latency r' ≤ P90Latency r' ≤ P99Latency r')%Z ∧ TotalMessages r' = 6%Z ∧
    Throughput r' = f64_of_Z 3.
Proof.
  destruct (Finalize_percentiles 4096 ex_report)
    as (r' & E & _ & _ & _ & _ & _ & Hp & _ & Ht & _ & Hq); [discriminate|reflexivity|].
  exists r'. split_and!; [exact E|apply Hp|apply Hp|exact Ht|exact Hq].
Defined.

Lemma client_types_mismatch_answers_witness :
  dispatch_type (be32 2 ++ ex_data) = Some WriteSuccessMessageType.
Proof. by apply (client_types_mismatch_answers ex_data). Defined.
