(* ===== verification/RestartWitnesses.v ===== *)
(** The properties of a gnet server that is started again, at concrete states. *)
From S2P Require Import Prelude GoRuntime Lifecycle Restart RestartStop RestartSim.

Definition ex_engine_Stop (p : engine_pc) : option error :=
  match p with ERun => None | _ => Some (External "gnet" "ErrEmptyEngine") end.

Lemma ex_engine_Stop_serving p : ex_engine_Stop p = None → p = ERun.
Proof. by destruct p. Qed.

Definition server_after (k : kind) (ls : list rlabel) : rserver :=
  match rrun k ex_engine_Stop None ls new_rserver with Done s _ => s | _ => new_rserver end.

(** A run in which every [Start] is called when the others are over. *)
Fixpoint one_by_one (k : kind) (ls : list rlabel) : Go rserver () :=
  match ls with
  | [] => mret ()
  | l :: ls => λ s,
      if decide (l = RStart → Forall (λ x, call_over x = true) (r_calls s))
      then (rexec k ex_engine_Stop None l;; one_by_one k ls) s else Blocked
  end.

Lemma one_by_one_sequential k ls s s' :
  sequential k ex_engine_Stop None s → one_by_one k ls s = Done s' () →
  sequential k ex_engine_Stop None s'.
Proof.
  revert s. induction ls as [|l ls IH]; intros s Hs; simpl; [by intros [= <-]|].
  case_decide as Hl; [|done]. unfold mbind, go_bind.
  destruct (rexec _ _ _ l s) as [s1 []| |] eqn:E; try done.
  apply IH. by eapply sequential_step.
Qed.

(** One call of [Start], up to its [select] and to the send of its engine. *)
Definition starting (c : nat) : list rlabel := [RStart; RLaunch c; RSelect c; RBoot c].
Definition coming_up (c : nat) : list rlabel := starting c ++ [RToken c (Some c); RClose c].

(** A UDP server whose second call of [Start] is about to return, after a first one that
    is up: the handshake completes. *)
Definition udp_again : list rlabel := coming_up 0 ++ starting 1.

Lemma sequential_starts_are_safe_witness :
  ∃ ls s' x', rrun KUdp ex_engine_Stop None ls (server_after KUdp udp_again) = Done s' () ∧
    r_calls s' !! 1 = Some x' ∧ c_pc x' = CUp ∧ c_engine x' = Serving.
Proof.
  destruct (sequential_starts_are_safe KUdp ex_engine_Stop None ex_engine_Stop_serving
    (server_after KUdp udp_again)) as (_ & _ & Hup).
  - apply (one_by_one_sequential KUdp udp_again new_rserver); [apply sequential_new|].
    vm_compute. reflexivity.
  - apply (Hup 1 (MkCall ErrEmpty (CSelect 5) (Sending 5)) 5 5); vm_compute; reflexivity.
Defined.

(** A UDP server with two engines, stopped; its tickers are called. *)
Definition udp_twice : list rlabel := coming_up 0 ++ coming_up 1.

Lemma stop_ends_every_engine_witness :
  let s := server_after KUdp (udp_twice ++ [RStop; RTick 0; RTick 1]) in
  engine_is s 0 Ended ∧ engine_is s 1 Ended.
Proof.
  pose proof (stop_ends_every_engine KUdp ex_engine_Stop None ex_engine_Stop_serving
    (server_after KUdp udp_twice) (server_after KUdp (udp_twice ++ [RStop]))
    (server_after KUdp (udp_twice ++ [RStop; RTick 0; RTick 1])) None [RTick 0; RTick 1]) as H.
  split; apply H; try discriminate; try (vm_compute; reflexivity);
    apply (bool_decide_unpack _); vm_compute; exact I.
Defined.

(** A TCP server with two engines: [Stop] ends the second one, the first one goes on
    although [Stop] is called again and its ticker runs. *)
Lemma tcp_superseded_engine_never_ends_witness :
  engine_is (server_after KTcp (udp_twice ++ [RStop; RTick 0; RStop; RTick 0])) 0 Serving.
Proof.
  apply (tcp_superseded_engine_never_ends KTcp ex_engine_Stop None ex_engine_Stop_serving
    udp_twice [RStop; RTick 0; RStop; RTick 0] (server_after KTcp udp_twice) _ 0).
  - reflexivity.
  - vm_compute. reflexivity.
  - vm_compute. reflexivity.
  - vm_compute. discriminate.
  - vm_compute. reflexivity.
  - intros err Hin. repeat (apply elem_of_cons in Hin as [Hin|Hin]; [discriminate Hin|]).
    by apply not_elem_of_nil in Hin.
Defined.

(** Two overlapping calls of [Start] of a TCP server that was started and stopped before:
    when the first one has returned, [Stop] does not keep the other engine from its panic. *)
Lemma early_restart_crashes_witness :
  ∃ s1 s2, let s := server_after KTcp (coming_up 0 ++ [RStop] ++ overlapping 1) in
    rrun KTcp ex_engine_Stop None (token KTcp 1 1 ++ [RClose 1]) s = Done s1 () ∧
    rrun KTcp ex_engine_Stop None [RStop] s1 = Done s2 () ∧
    rexec KTcp ex_engine_Stop None (RSend 2) s2 = Panicked PanicSendClosed.
Proof.
  destruct (early_restart_crashes KTcp ex_engine_Stop None ex_engine_Stop_serving
    (server_after KTcp (coming_up 0 ++ [RStop] ++ overlapping 1))) as (_ & _ & H).
  destruct (H 1 1 2) as (s1 & E1 & _ & Hd & _); [by split; vm_compute|].
  assert (∃ s2, rrun KTcp ex_engine_Stop None [RStop] s1 = Done s2 ()) as [s2 E2].
  { vm_compute in E1. injection E1 as <-. eexists. vm_compute. reflexivity. }
  exists s1, s2. split; [exact E1|]. split; [exact E2|]. by apply (Hd [RStop]).
Defined.

(** A UDP server that is started, stopped and ticked: its life in the coarser steps. *)
Lemma one_call_refines_Lifecycle_witness :
  ∃ s, run KUdp ex_engine_Stop None [Call_Start; Boot; Sel_started; Call_Stop; Tick_engine] NewServer
       = Done s () ∧ epc s = EDown ∧ spc s = SUp.
Proof.
  destruct (one_call_refines_Lifecycle KUdp ex_engine_Stop None ex_engine_Stop_serving
    (coming_up 0 ++ [RStop; RTick 0]) (server_after KUdp (coming_up 0 ++ [RStop; RTick 0])))
    as [Hr _].
  - vm_compute. reflexivity.
  - vm_compute. lia.
  - exists (life_of KUdp (server_after KUdp (coming_up 0 ++ [RStop; RTick 0]))).
    split; [exact Hr|]. split; vm_compute; reflexivity.
Defined.
