(* ===== verification/ServeWitnesses.v ===== *)
(** Instances of the properties of the running service: the default transports, with and
    without the profiling server. *)
From S2P Require Import Prelude GoRuntime Slices Types Messages Config Mdbx Database BatchWriter WriterSpec WriterCorrect Lifecycle QuicLifecycle Fdb Serve ServeSound Witnesses.

#[local] Existing Instance Witnesses.mdbx.
#[local] Existing Instance Witnesses.ex_host.
#[local] Existing Instance Witnesses.ex_tls.
Definition se_engine_Stop (p : engine_pc) : option error :=
  match p with ERun => None | _ => Some (External "gnet" "ErrEmptyEngine") end.
#[local] Instance se_engines : Engines.
Proof. refine (Build_Engines se_engine_Stop None (λ _, None) _). by intros []. Defined.

Definition se_tls_files : TLS := MkTLS true "key.pem" "cert.pem" EmptyString.

(** The transports of the default list, the profiling server as told. *)
Definition se_cnf (profiling : bool) : Config :=
  MkConfig (MkLogger true "development" "debug")
    [MkTransport QUICTransportType true
       (QuicConfig (MkQuic QUICTransportType true "127.0.0.1" 4433 se_tls_files));
     MkTransport UDSTransportType true (UdsConfig (MkUds UDSTransportType true "/tmp/fdb.sock"));
     MkTransport TCPTransportType true
       (TcpConfig (MkTcp TCPTransportType true "127.0.0.1" 5011 None));
     MkTransport UDPTransportType true
       (UdpConfig (MkUdp UDPTransportType true "127.0.0.1" 5022 None))]
    (MkMdbxConfig true [ex_node]) [MkPprof profiling "fdb" "127.0.0.1:4060"].

Definition se_load (profiling : bool) (path : string) : res Config := Ok (se_cnf profiling).
Definition se_list : list TransportType :=
  [QUICTransportType; UDSTransportType; TCPTransportType; UDPTransportType].

Definition se_made (profiling : bool) : fstate := final (New (se_cnf profiling) ex_init) ex_init.
Definition se_fdb (profiling : bool) : FDB :=
  match New (se_cnf profiling) ex_init with
  | Done _ (Ok fdb) => fdb
  | _ => MkFDB (se_cnf profiling) ∅ (MkManager (MkMdbxConfig true []) ∅)
  end.
Definition se_first (profiling : bool) : serving :=
  MkServing (se_made profiling) (fresh_net (f_obj (se_made profiling))).
Definition se_objects : objects := f_obj (se_made false).

(** A gnet server, goroutine [i], comes up, or does not within its two seconds. *)
Definition comes_up (i srv : nat) : list net_event :=
  [CallStart i None; GnetStep srv Boot; GnetStep srv Sel_started; StartReturns i].
Definition times_out (i srv : nat) : list net_event :=
  [CallStart i None; GnetStep srv Sel_timeout; StartReturns i].

(** Everybody comes up but UDP; QUIC does or does not. *)
Definition se_events (first : nat) (listen_err : option error) : list net_event :=
  CallStart first listen_err :: comes_up (1 + first) 1 ++ comes_up (2 + first) 2 ++
  times_out (3 + first) 3.
Definition se_sched (evs : list net_event) : schedule :=
  MkSchedule evs (λ _, []) (λ srv, if decide (srv = 0) then [QuicStep 0 (QGo (GAcceptor closed_err))] else []).
Definition in_use : error := External "quic" "address already in use".

Example se_quic_ok :
  match serve_action (se_load false) None None (se_sched (se_events 0 None)) None
          (MkServing ex_init (MkNet [] [])) with
  | Done _ (Some (Wrap (Errorf m _) _)) => m
  | Done _ _ => EmptyString | _ => EmptyString end = "UDP server did not start in time".
Proof. vm_compute. reflexivity. Qed.

Lemma se_made_ok profiling :
  New (se_cnf profiling) ex_init = Done (se_made profiling) (Ok (se_fdb profiling)).
Proof. destruct profiling; reflexivity. Qed.

Lemma se_typed profiling :
  tm_typed (fdb_tm (se_fdb profiling)) (f_obj (se_service (se_first profiling))).
Proof. by destruct (New_ok _ _ _ _ (se_made_ok profiling)) as (_ & ? & _). Qed.

Lemma se_NoDup : NoDup se_list.
Proof. apply (bool_decide_unpack _). vm_compute. exact I. Qed.

(** The panic of an outcome, as a test. *)
Definition panics_nil {S A} (o : outcome S A) : bool :=
  match o with Panicked PanicNil => true | _ => false end.
Lemma panics_nil_eq {S A} (o : outcome S A) : panics_nil o = true → o = Panicked PanicNil.
Proof. by destruct o as [|[]|]. Qed.

Lemma not_blocked {S A} (o : outcome S A) :
  match o with Done _ _ => False | Panicked p => p = PanicNil | Blocked => True end →
  match o with Blocked => false | _ => true end = true → o = Panicked PanicNil.
Proof. by destruct o as [| |]; [|intros ->|]. Qed.

(** QUIC cannot listen: the command panics. *)
Lemma serve_panics_only_without_listener_witness :
  ∃ srv s' r, fdb_tm (se_fdb false) !! QUICTransportType = Some srv ∧
    FDB_Start (se_fdb false) se_list (se_sched (se_events 0 (Some in_use))) None (se_first false)
    = Done s' r ∧ ¬ quic_up srv (se_net s').
Proof.
  destruct (serve_panics_only_without_listener (se_load false) None None
    (se_sched (se_events 0 (Some in_use))) None (MkServing ex_init (MkNet [] [])) (se_cnf false)
    se_list PanicNil) as (_ & fdb & f & srv & s' & r & HN & _ & Hm & E & Hup).
  - reflexivity.
  - repeat constructor.
  - reflexivity.
  - exact se_NoDup.
  - apply panics_nil_eq. test.
  - assert (Done f (Ok fdb) = Done (se_made false) (Ok (se_fdb false))) as Heq
      by (rewrite <- HN; apply se_made_ok).
    injection Heq as -> ->. exists srv, s', r. split; [exact Hm|]. split; [exact E|exact Hup].
Defined.

(** With the profiling server: UDP does not come up, the command returns after the
    profiling server has failed. *)
Definition se_profiled : schedule :=
  se_sched (se_events 1 None ++ [PprofEnds 0 (External "net/http" "ErrServerClosed")]).
Definition se_launched (profiling : bool) : outcome objects (list task * option error) :=
  launch (se_fdb profiling) ex_db se_list
    (if profiling then [TaskPprof (MkPprof profiling "fdb" "127.0.0.1:4060")] else [])
    (f_obj (se_made profiling)).
Definition se_tasks (profiling : bool) : list task :=
  tasks (MkPprof profiling "fdb" "127.0.0.1:4060") [0; 1; 2; 3].

Lemma se_launched_ok profiling :
  se_launched profiling = Done (final (se_launched profiling) ex_obj) (se_tasks profiling, None).
Proof. destruct profiling; reflexivity. Qed.

Lemma serve_returns_on_failure_witness :
  ∃ n e, net_run (se_tasks true) (sc_start se_profiled) (se_net (se_first true)) = Done n () ∧
    all_ended 5 (n_ended n) ∧ (0, Some e) ∈ n_ended n.
Proof.
  destruct (serve_returns_on_failure (se_fdb true) ex_db (MkPprof true "fdb" "127.0.0.1:4060")
    se_list se_profiled (se_tasks true) (final (se_launched true) ex_obj) (se_first true)
    (final (start_and_stop (se_fdb true) se_list se_profiled None (se_first true)) (se_first true))
    (result (start_and_stop (se_fdb true) se_list se_profiled None (se_first true)) None))
    as (n & Hr & Hall & _ & Hp).
  - exact se_NoDup.
  - apply se_typed.
  - reflexivity.
  - reflexivity.
  - reflexivity.
  - exact (se_launched_ok true).
  - apply returns_done. test.
  - destruct (Hp eq_refl) as [e He]. exists n, e. split; [exact Hr|]. split; [exact Hall|exact He].
Defined.

Lemma quic_failure_is_not_reported_witness :
  start_and_stop (se_fdb false)
    [QUICTransportType; UDSTransportType; TCPTransportType; UDPTransportType]
    (se_sched (se_events 0 (Some in_use))) None (se_first false) = Panicked PanicNil.
Proof.
  apply not_blocked; [|test].
  pose proof (quic_failure_is_not_reported (se_fdb false) ex_db
    (MkPprof false "fdb" "127.0.0.1:4060") [UDSTransportType; TCPTransportType; UDPTransportType]
    (se_sched (se_events 0 (Some in_use))) None (se_tasks false)
    (final (se_launched false) ex_obj) (se_first false) 0 0 in_use se_NoDup (se_typed false)
    eq_refl eq_refl eq_refl (se_launched_ok false) eq_refl eq_refl ltac:(left; reflexivity)) as Hp.
  exact Hp.
Defined.

Lemma start_rejects_dummy_witness :
  ∃ s', FDB_Start (se_fdb false) [TCPTransportType; DummyTransportType]
          (se_sched (comes_up 0 2)) None (se_first false)
        = Done s' ([TaskTransport 2], Some (Errorf
            "unknown transport type provided: %v - rejecting serving transports" [AStr "dummy"])).
Proof.
  eexists. apply (start_rejects_dummy (se_fdb false) ex_db [TCPTransportType] []
    (MkPprof false "fdb" "127.0.0.1:4060") [TaskTransport 2] _ _ _
    (final (launch (se_fdb false) ex_db [TCPTransportType] [] (f_obj (se_made false))) ex_obj)
    (final (net_run [TaskTransport 2] (comes_up 0 2) (se_net (se_first false)))
       (se_net (se_first false)))); reflexivity.
Defined.

Lemma stop_stops_in_order_witness :
  FDB_Stop (λ _, mret None) (se_fdb false) [TCPTransportType; DummyTransportType] tt
  = Done tt (Some (Errorf "transport not found" [])).
Proof.
  destruct (stop_stops_in_order (λ _, mret None) (se_fdb false) [TCPTransportType] [] [2]
    DummyTransportType tt) as [_ E]; [repeat constructor|reflexivity|exact E].
Defined.
