(* ===== verification/BenchWitnesses.v ===== *)
(** Instances of the properties of the benchmark on a concrete service. *)
From S2P Require Import Prelude GoRuntime Slices Types Messages Config Mdbx Database BatchWriter WriterSpec WriterCorrect Fdb Files Float64 Benchmark BenchClients Suites Witnesses.

#[local] Existing Instances mdbx mdbx_laws ex_tls ex_host.

(** A network that answers every request, a server that fails to start. *)
#[local] Instance ex_bench : BenchHost := {|
  start_result _ := Some (External "syscall" "EADDRINUSE");
  stop_result _ := None;
  bench_network _ _ := MkNetwork
    (λ _, MkClientNet (Returns None) (Returns None)
            (λ j, MkIo (Returns None) (Returns (Ok [x00])) (j + 1)%Z)) [RunClient 1 0; RunClient 0 3];
  bench_duration := 1000000000;
  bench_memory := 4096;
  os_Create_fails _ := None;
  json_Encode _ := ([x7b; x7d; x0a], None);
  humanize_Comma _ := EmptyString;
|}.

#[local] Instance ex_umask : Umask := {| os_umask := 18 |}.

Definition bench_node : MdbxNode := MkMdbxNode "benchmark" "./data" 10 1 1 4096 420.
Definition bench_cnf : Config :=
  MkConfig (MkLogger false EmptyString EmptyString)
    [MkTransport TCPTransportType true
       (TcpConfig (MkTcp TCPTransportType true "127.0.0.1" 5011 None));
     MkTransport QUICTransportType true
       (QuicConfig (MkQuic QUICTransportType true "127.0.0.1" 4242
          (MkTLS true "cert.pem" "key.pem" EmptyString)))]
    (MkMdbxConfig true [bench_node]) [].

Definition bench_init : bstate := MkB ex_init ∅ NewReport [] None [] ∅.
Definition bench_flags : gmap string string :=
  flag_values benchmark_strings {["suite" := "tcp"; "output" := "report.json"]}.
Definition bench_ints : gmap string Z :=
  flag_values benchmark_ints {["clients" := 2%Z; "messages" := 3%Z]}.

Lemma bench_requests_decode_witness :
  ∃ h1 m h2 frame m', createWriteMessage ex_key [replicate 64 x00] = Done h1 m ∧
    EncodeWithBuffer m (Slice 0 0 64 64) h1 = Done h2 (Ok frame) ∧ s_len frame = 56 ∧
    Decode frame h2 = Done h2 (Ok m') ∧
    value_of h2 m' = MsgVal WriteHandlerType ex_key bench_text.
Proof.
  destruct (bench_requests_decode [replicate 64 x00] ex_key (Slice 0 0 64 64)) as [Hw _];
    [split; vm_compute; lia|done|vm_compute; lia|exact Hw].
Defined.

Definition returned_nil {S} (o : outcome S (option error)) : bool :=
  match o with Done _ None => true | _ => false end.

Lemma returned_nil_done {S} (o : outcome S (option error)) s r :
  o = Done s r → returned_nil o = true → r = None.
Proof. intros ->. by destruct r. Qed.

Lemma bench_answering : benchmark_answers bench_flags bench_ints.
Proof.
  intros t Ht. vm_compute in Ht. injection Ht as <-. intros i _. split; [done|].
  intros j _ sent. vm_compute. discriminate.
Qed.

Lemma benchmark_command_returns_witness :
  ∃ st', BenchmarkCommand (Ok bench_cnf) bench_flags bench_ints bench_init = Done st' None ∧
    ∃ srv, b_stopped st' = [srv] ∧ SuccessMessages (b_report st') = 6%Z ∧
    ∃ f, b_files st' !! "report.json" = Some f ∧ file_data f = [x7b; x7d; x0a].
Proof.
  destruct (benchmark_command_returns bench_cnf bench_flags bench_ints bench_init)
    as (st' & r & E & Hr); [by repeat constructor|by vm_compute|exact bench_answering|].
  assert (r = None) as -> by (apply (returned_nil_done _ _ _ E); vm_compute; reflexivity).
  destruct Hr as [[_ Hr]|(f & fdb & t & srv & bDb & EN & Et & Hsrv & _ & _ & Hst & Hr)];
    [by destruct Hr|].
  exists st'. split; [exact E|]. destruct (Hr eq_refl) as (_ & Hc & Hf).
  exists srv. split; [exact Hst|]. split; [apply Hc; vm_compute; discriminate|].
  assert (c_String bench_flags "output" = "report.json") as Eo by (vm_compute; reflexivity).
  rewrite Eo in Hf. destruct Hf as (data & f1 & Ed & Hf1 & Hd); [discriminate|].
  exists f1. split; [exact Hf1|]. rewrite Hd. symmetry. injection Ed as Ed. exact Ed.
Defined.

Definition bench_service : fstate := final (New bench_cnf ex_init) ex_init.
Definition bench_fdb : FDB :=
  match New bench_cnf ex_init with
  | Done _ (Ok fdb) => fdb
  | _ => MkFDB bench_cnf ∅ (MkManager (MkMdbxConfig true []) ∅)
  end.
Definition bench_state : bstate := MkB bench_service ∅ NewReport [] None [] ∅.
Definition bench_db : Db := MkDb bench_node 0 tt.

Lemma bench_typed : tm_typed (fdb_tm bench_fdb) (f_obj (b_service bench_state)).
Proof.
  assert (New bench_cnf ex_init = Done bench_service (Ok bench_fdb)) as E by reflexivity.
  by destruct (New_ok _ _ _ _ E) as (_ & ? & _).
Qed.

Lemma suite_start_hides_failure_witness :
  ∃ s', suite_start TCPTransportType bench_fdb bench_state = Done s' None ∧
    b_servers s' !! TCPTransportType = Some 0.
Proof.
  destruct (suite_start_hides_failure TCPTransportType bench_fdb bench_state 0 bench_db
    (External "syscall" "EADDRINUSE")) as [s' Hs']; [apply bench_typed|reflexivity..|].
  exists s'. exact Hs'.
Defined.

Lemma interrupt_stops_nothing_witness :
  benchmark_signal bench_fdb (MkB bench_service {[TCPTransportType := 0]} NewReport [] (Some EmptyString) [] ∅)
  = Done (MkB bench_service {[TCPTransportType := 0]} NewReport [] (Some EmptyString) [] ∅) ().
Proof.
  apply (interrupt_stops_nothing {["suite" := "tcp"]} bench_fdb bench_state
    (MkB bench_service ∅ NewReport [] (Some EmptyString) [] ∅)); reflexivity.
Defined.

(** Two clients of two messages, in turns: the first one has stored its sample when the
    second one loads the header. *)
Definition bench_io (l : Z) : io := MkIo (Returns None) (Returns (Ok [x00])) l.
Definition bench_nets : list (reply (option error) * list io) :=
  [(Returns None, [bench_io 1; bench_io 2]); (Returns None, [bench_io 3; bench_io 4])].
Definition bench_turn (k : nat) : list bench_event := replicate 5 (RunClient k 0).
Definition bench_sched : list bench_event :=
  [RunClient 0 0; RunClient 1 0] ++ bench_turn 1 ++ bench_turn 0 ++ bench_turn 1 ++ bench_turn 0 ++
  [RunClient 0 0; RunClient 1 0].

Lemma clients_interleave_witness :
  let g := run_schedule (tcp_message true) 1 bench_sched (launched_clients bench_nets []) in
  g_success g = 4%Z ∧ histogram g = [3; 1; 4; 2]%Z ∧ histogram g ⊆+ [1; 2; 3; 4]%Z.
Proof.
  intros g. destruct (clients_interleave (tcp_message true) 1 bench_nets [] bench_sched g)
    as (Hs & _ & Hh & _); [reflexivity| |reflexivity|].
  - apply (bool_decide_unpack _). vm_compute. exact I.
  - split; [exact Hs|]. split; [reflexivity|]. exact Hh.
Defined.

(** A read benchmark over TCP of a server that says nothing. *)
Definition silent : network :=
  MkNetwork (λ _, MkClientNet (Returns None) (Returns None) (λ _, MkIo (Returns None) NeverReturns 0%Z))
    [RunClient 0 0; RunClient 1 0; RunClient 0 0].

Lemma benchmark_hangs_witness :
  tcp_runBenchmark false 1000000000 4096 silent 2 3 NewReport = Blocked.
Proof.
  apply benchmark_hangs; [reflexivity|reflexivity| |].
  - intros Hin. repeat (apply elem_of_cons in Hin as [Hin|Hin]; [discriminate Hin|]).
    by apply not_elem_of_nil in Hin.
  - intros i. split; [reflexivity|]. exists false. reflexivity.
Defined.
