(* ===== verification/ToolWitnesses.v ===== *)
(** Instances of the properties of the client library and of the certificate and eBPF
    commands: a history of a connection, toy cryptography, a toy kernel. *)
From S2P Require Import Prelude GoRuntime Slices Types Messages Config Mdbx Database BatchWriter WriterSpec WriterCorrect Handlers Servers EndToEnd Client ClientTcp Session Files Ebpf Pem Certs Witnesses.

(** * Client *)

(** The transport connects, loses its connection, connects again; the new connection
    comes up in the middle of [Send]. *)
Definition reconnecting : list tcp_op :=
  [DoConnect None None [Opened 0]; DoEvent (Closed 0); DoConnect None None []].


Lemma client_connects_and_sends_witness :
  ∃ t, Client_Start (λ c, snd <$> map_to_list c)
         (Client.RegisterTransport "tcp" (tcp_client_transport None None None [Opened 0] [] []
            (λ _ _, None)) (NewClient NewConfig)).1 NewTCPTransport = Done t None ∧
    SendMessage "tcp" [x01]
      (Client.RegisterTransport "tcp" (tcp_client_transport None None None [Opened 0] [] []
         (λ _ _, None)) (NewClient NewConfig)).1 t = Done t None.
Proof.
  destruct (client_connects_and_sends (λ c, snd <$> map_to_list c) "tcp" "udp" None None
    [Opened 0] (λ _ _, None) [x01]) as (t & Es & Em & _).
  - done.
  - right. left.
  - discriminate.
  - exists t. exact (conj Es Em).
Defined.

#[local] Existing Instances mdbx mdbx_laws mdbx_reliable.

Definition ex_session : session :=
  MkSession (MkTcpTransport (Some 0) (Some 0) 1 [ConnOpen] [false]) [] ex_world.

Lemma client_session_witness :
  ∃ s1 s2 s3,
    exchange (MsgVal WriteHandlerType ex_key ex_data) ex_session = Done s1 None ∧
    settle_session ex_rng s1 = Done s2 () ∧
    exchange (MsgVal ReadHandlerType ex_key []) s2 = Done s3 None ∧
    ses_seen s3 = [(WriteSuccessMessageType, []); (WriteSuccessMessageType, [x00; x00; x02; x0a; x0b])].
Proof.
  destruct (client_session ex_rng ex_key ex_data [] 0 ex_session ex_order ex_ready eq_refl)
    as (s1 & s2 & s3 & E1 & Hs1 & E2 & E3 & Hs3); [by vm_compute|].
  exists s1, s2, s3. split_and!; [exact E1|exact E2|exact E3|].
  rewrite Hs3, Hs1. reflexivity.
Defined.

(** * Certificates *)

#[local] Instance toy_crypto : Crypto := {|
  ecdsa_PrivateKey := list byte;
  ecdsa_GenerateKey := Ok [x01; x02; x03; x04];
  x509_CreateCertificate t key := Ok (byte_of_Z (SerialNumber t) :: key);
  x509_MarshalECPrivateKey key := Ok key;
|}.

Lemma certs_local_writes_witness :
  ∃ fs f, certs_local 0 0 18 (λ _, None) "cert.pem" "key.pem" ∅ = Done fs None ∧
    fs !! "key.pem" = Some f ∧
    pem_parse "EC PRIVATE KEY" (file_data f) = Some [x01; x02; x03; x04] ∧
    Z.land (file_mode f) 63 = 0%Z.
Proof.
  assert (∃ fs, certs_local 0 0 18 (λ _, None) "cert.pem" "key.pem" ∅ = Done fs None) as [fs E].
  { eexists. reflexivity. }
  destruct (certs_local_writes 0 0 18 (λ _, None) "cert.pem" "key.pem" ∅ fs E)
    as (key & cert & der & Ek & _ & Ed & (f & Hf & Hp & Hm) & _).
  injection Ek as <-. injection Ed as <-.
  exists fs, f. split_and!; [exact E|exact Hf|exact Hp|]. apply Hm; [discriminate|reflexivity].
Defined.

Lemma certs_local_keeps_mode_witness :
  ∃ fs, certs_local 0 0 18 (λ _, None) "a.pem" "a.pem" ∅ = Done fs None ∧
    file_mode <$> fs !! "a.pem" = Some 420%Z.
Proof.
  assert (∃ fs, certs_local 0 0 18 (λ _, None) "a.pem" "a.pem" ∅ = Done fs None) as [fs E].
  { eexists. reflexivity. }
  exists fs. split; [exact E|].
  exact (proj2 (certs_local_keeps_mode 0 0 18 (λ _, None) "a.pem" "a.pem" ∅ fs E) eq_refl eq_refl).
Defined.

(** * eBPF *)

(** A kernel: the program of each interface; a link is its interface. *)
#[local] Instance toy_ebpf : EbpfLib := {|
  kernel := Z → option nat;
  CollectionSpec := unit; Collection := unit; Program := nat; Link := Z;
  LoadCollectionSpec _ := Ok ();
  NewCollection _ k := (k, Ok ());
  Programs _ section := if decide (section = "xdp") then Some 7 else None;
  AttachXDP p i k := (λ j, if decide (j = i) then Some p else k j, Ok i);
  link_Close l k := λ j, if decide (j = l) then None else k j;
  coll_Close _ k := k;
  xdp k i := k i;
|}.

#[local] Instance toy_ebpf_laws : EbpfLaws.
Proof.
  split; simpl; [| |discriminate| |done].
  - intros _ k k' r i E. apply (f_equal fst) in E. simpl in E. by rewrite <- E.
  - intros p i k k' l j E. apply (f_equal fst) in E. simpl in E. by rewrite <- E.
  - intros p i k0 k1 l k j E _. apply (f_equal snd) in E. simpl in E.
    injection E as E. by rewrite E.
Qed.

Definition idle : kernel := (λ _ : Z, None : option nat).

Lemma ebpf_load_leaves_nothing_witness :
  ∃ k out, ebpf_load (λ _, Ok 2%Z) "eth0" "p.o" "xdp" idle = Done k (out, None) ∧
    out ≠ [] ∧ xdp k 2 = None.
Proof.
  assert (∃ k out, ebpf_load (λ _, Ok 2%Z) "eth0" "p.o" "xdp" idle = Done k (out, None) ∧
    out ≠ []) as (k & out & E & Ho).
  { eexists _, _. split; [reflexivity|discriminate]. }
  destruct (ebpf_load_leaves_nothing (λ _, Ok 2%Z) "eth0" "p.o" "xdp" idle k out None E)
    as (i & [= <-] & Hk).
  exists k, out. split; [exact E|]. split; [exact Ho|]. exact (Hk 2%Z).
Defined.

Lemma status_mistakes_names_witness :
  ∃ info, ebpf_status (λ _, Ok "5: xdp0: <BROADCAST> mtu 1500") "xdp0"
    = ([("An eBPF program is loaded on interface %s", [AStr "xdp0"]); (info, [])], None).
Proof.
  exact (status_mistakes_names (λ _, Ok "5: xdp0: <BROADCAST> mtu 1500") "xdp0" "5: "
    ": <BROADCAST> mtu 1500" eq_refl eq_refl).
Defined.
