(* ===== verification/ProgramWitnesses.v ===== *)
(** Instances of the properties of the program: command lines of every command on a toy
    operating system. *)
From S2P Require Import Prelude GoRuntime Slices Types Messages Config Mdbx Database BatchWriter WriterSpec WriterCorrect Lifecycle QuicLifecycle Fdb Serve ServeSound Files Float64 Benchmark BenchClients Suites Ebpf Pem Certs Program Witnesses BenchWitnesses ToolWitnesses ServeWitnesses.

#[local] Existing Instances mdbx ex_tls ex_host ex_bench ex_umask se_engines toy_crypto toy_ebpf toy_ebpf_laws.

#[local] Instance toy_cli : Cli := {|
  cli_Parse args :=
    match args with
    | "certs" :: cert :: key :: _ => Ok (Some (RunCerts (CertsLocal cert key)))
    | "ebpf" :: iface :: _ => Ok (Some (RunEbpf (EbpfLoad iface "p.o" "xdp")))
    | "serve" :: _ => Ok (Some (RunServe None None))
    | [] => Ok None
    | _ => Err (External "flag" "provided but not defined")
    end;
|}.
#[local] Instance toy_os : Os := {|
  exec_CombinedOutput _ _ fs := (fs, ([], None));
  time_Now1 := 0; time_Now2 := 0;
  os_WriteFile_fails _ := None;
  net_InterfaceByName iface :=
    if decide (iface = "eth0") then Ok 2%Z else Err (External "net" "no such network interface");
  net_Interfaces := Ok [];
  ip_link_show _ := Ok "2: eth0: <UP> mtu 1500";
  yaml_Unmarshal _ := Ok (se_cnf false);
|}.

Lemma toy_typed data cfg :
  yaml_Unmarshal data = Ok cfg → Forall transport_typed (cfg_Transports cfg).
Proof. intros [= <-]. by repeat constructor. Qed.

Definition toy_process : process := MkProcess MemMdbx.init ∅ idle [] [].
Definition no_events : schedule := MkSchedule [] (λ _, []) (λ _, []).

(** The exit status of an outcome, as a test. *)
Definition exits {S} (status : Z) (o : outcome S Z) : bool :=
  match o with Done _ z => (z =? status)%Z | _ => false end.
Lemma exits_done {S} status (o : outcome S Z) d : exits status o = true → o = Done (final o d) status.
Proof. destruct o; simpl; [|done..]. by intros ->%Z.eqb_eq. Qed.

(** [certs local] *)
Lemma exit_zero_means_witness :
  ∃ p', main ["certs"; "cert.pem"; "key.pem"] no_events toy_process = Done p' 0%Z ∧
    certs_written 0 0 "cert.pem" "key.pem" ∅ (p_files p').
Proof.
  pose (p' := final (main ["certs"; "cert.pem"; "key.pem"] no_events toy_process) toy_process).
  assert (main ["certs"; "cert.pem"; "key.pem"] no_events toy_process = Done p' 0%Z) as E
    by (apply exits_done; test).
  exists p'. split; [exact E|].
  exact (exit_zero_means toy_typed ["certs"; "cert.pem"; "key.pem"] no_events toy_process p' E).
Defined.


(** A [serve] whose QUIC server cannot listen *)
Definition quic_blocked : schedule := se_sched (se_events 0 (Some in_use)).

Lemma main_crashes_witness :
  main ["serve"] quic_blocked toy_process = Panicked PanicNil ∧ QUICTransportType ∈ se_list.
Proof.
  assert (main ["serve"] quic_blocked toy_process = Panicked PanicNil) as E
    by (apply panics_nil_eq; test).
  destruct (main_crashes toy_typed ["serve"] quic_blocked toy_process PanicNil E) as (ts & Hts & Hp).
  assert (ts = se_list) as -> by (injection Hts as <-; reflexivity).
  split; [exact E|]. exact (proj2 (Hp se_NoDup)).
Defined.
